(** * DNSViz offline analysis: status population and trust-chain assessment

    A shallow embedding of [dnsviz/analysis/offline.py]
    ([OfflineDomainNameAnalysis]) and the properties of its status
    population checked against it.

    Conventions of the embedding.
    - Python objects that are compared and hashed by identity (responses,
      RRset infos, negative response infos, NSEC sets, query aggregates)
      carry an explicit identity field ([*_id]); dictionaries keyed by such
      objects are keyed by that identity.
    - A Python [dict] is an association list with unique keys ([dict_set]
      replaces in place, otherwise appends); a Python [set] is a duplicate
      free list.  The order of a list is the iteration order of the
      container, so statements quantified over all input lists hold for
      every iteration order of the input containers.
    - The name analysis objects live in a store keyed by a handle; the
      references between them ([parent], [cname_targets], ...) are handles.
    - Code of other modules ([status.py], [response.py], [crypto.py],
      [online.py]) enters either as input fields holding what an accessor
      returns, or through the class [Oracles].
    - Exceptions are results: [Raise e].  A bounded recursion depth that is
      used up is the separate result [OutOfFuel]. *)

From stdpp Require Import base decidable option list strings gmap.
From Stdlib Require Import ZArith Lia.

Open Scope Z_scope.

(** ** Results of fallible code *)

Inductive Exn :=
  | Exception_UnknownEDNSError          (* raise Exception('Unknown EDNS-related error') *)
  | Exception_UnknownEDNSFlagError      (* raise Exception('Unknown EDNS-flag-related error') *)
  | ValueError_TypeNotDSorDLV           (* raise ValueError('Type can only be DS or DLV.') *)
  | ValueError_NoDLVSpecified           (* raise ValueError('No DLV specified ...') *)
  | KeyError_NoDSQuery                  (* the bare [raise] re-raising the KeyError of queries[(name, rdtype)] *)
  | ImplicitError (what : string).      (* failed lookup, attribute of None, unbound name *)

Global Instance Exn_eq_dec : EqDecision Exn.
Proof. solve_decision. Defined.

(** An exception raised by a [raise] statement of the source, as opposed to
    one raised by the interpreter (KeyError of a subscript, AttributeError
    on None, NameError, IndexError). *)
Definition explicit_raise (e : Exn) : bool :=
  match e with ImplicitError _ => false | _ => true end.

Inductive Result (A : Type) :=
  | Ok (a : A)
  | Raise (e : Exn)
  | OutOfFuel.
Arguments Ok {A} a.
Arguments Raise {A} e.
Arguments OutOfFuel {A}.

Global Instance Result_ret : MRet Result := fun A a => Ok a.
Global Instance Result_bind : MBind Result := fun A B f m =>
  match m with
  | Ok a => f a
  | Raise e => Raise e
  | OutOfFuel => OutOfFuel
  end.

Global Instance Result_fmap : FMap Result := fun A B f m =>
  match m with
  | Ok a => Ok (f a)
  | Raise e => Raise e
  | OutOfFuel => OutOfFuel
  end.

(** [d[k]] of a lookup that may fail. *)
Definition subscript {A} (what : string) (o : option A) : Result A :=
  match o with
  | Some a => Ok a
  | None => Raise (ImplicitError what)
  end.

(** [for x in l: s = body(x, s)] where the body may raise. *)
Fixpoint forM {A S} (l : list A) (body : A → S → Result S) (s : S) : Result S :=
  match l with
  | [] => Ok s
  | x :: l' => s' ← body x s; forM l' body s'
  end.

(** ** Python containers *)

Section containers.
Context {K : Type} `{EqDecision K} {V : Type}.

Fixpoint dict_get (k : K) (d : list (K * V)) : option V :=
  match d with
  | [] => None
  | (k', v) :: d' => if decide (k' = k) then Some v else dict_get k d'
  end.

Fixpoint dict_set (k : K) (v : V) (d : list (K * V)) : list (K * V) :=
  match d with
  | [] => [(k, v)]
  | (k', v') :: d' =>
      if decide (k' = k) then (k, v) :: d' else (k', v') :: dict_set k v d'
  end.

Definition dict_del (k : K) (d : list (K * V)) : list (K * V) :=
  filter (λ kv, kv.1 ≠ k) d.

Definition dict_has (k : K) (d : list (K * V)) : bool :=
  bool_decide (is_Some (dict_get k d)).

Definition dict_keys (d : list (K * V)) : list K := d.*1.

(** [d.update(d2)] *)
Definition dict_update (d d2 : list (K * V)) : list (K * V) :=
  foldl (λ acc kv, dict_set kv.1 kv.2 acc) d d2.

(** [s.add(k)] *)
Definition set_add (k : K) (s : list K) : list K :=
  if decide (k ∈ s) then s else s ++ [k].

(** [s.remove(k)] without its KeyError, and [s.discard(k)] *)
Definition set_discard (k : K) (s : list K) : list K :=
  filter (λ x, x ≠ k) s.

Definition set_in (k : K) (s : list K) : bool := bool_decide (k ∈ s).

(** [s.update(l)] *)
Definition set_update (s l : list K) : list K :=
  foldl (λ acc k, set_add k acc) s l.
End containers.

(** ** Constants of the libraries the module imports *)

Abbreviation Name := string (only parsing).
Abbreviation Server := string (only parsing).
Abbreviation Client := string (only parsing).
Abbreviation RdType := Z (only parsing).
Abbreviation Alg := Z (only parsing).
(** Handle of a name analysis object in the store. *)
Abbreviation NAref := string (only parsing).

(** [dns.rdatatype] *)
Module rdatatype.
Definition A : Z := 1.
Definition NS : Z := 2.
Definition CNAME : Z := 5.
Definition SOA : Z := 6.
Definition AAAA : Z := 28.
Definition DS : Z := 43.
Definition DNSKEY : Z := 48.
Definition DLV : Z := 32769.
End rdatatype.

(** [dns.flags] *)
Module flags.
Definition DO : Z := 32768.
End flags.

(** [dnsviz.format]: DNSKEY_FLAGS['revoke'] *)
Definition DNSKEY_FLAGS_revoke : Z := 128.

(** [dnsviz.query]: the causes and actions recorded in a response's retry
    history and the codes of an erroneous response.  The module is not among
    the sources; the enumerations list the values the analysis names and one
    constructor for every other value. *)
Module Q.
Inductive RetryCause :=
  | RETRY_CAUSE_NETWORK_ERROR
  | RETRY_CAUSE_FORMERR
  | RETRY_CAUSE_TIMEOUT
  | RETRY_CAUSE_OTHER
  | RETRY_CAUSE_RCODE
  | RETRY_CAUSE_UNLISTED (code : Z).

Inductive RetryAction :=
  | RETRY_ACTION_USE_TCP
  | RETRY_ACTION_USE_UDP
  | RETRY_ACTION_UNLISTED (code : Z).

Inductive ResponseErrorCode :=
  | RESPONSE_ERROR_NETWORK_ERROR
  | RESPONSE_ERROR_FORMERR
  | RESPONSE_ERROR_TIMEOUT
  | RESPONSE_ERROR_OTHER
  | RESPONSE_ERROR_INVALID_RCODE
  | RESPONSE_ERROR_UNLISTED (code : Z).
End Q.

Global Instance RetryCause_eq_dec : EqDecision Q.RetryCause.
Proof. solve_decision. Defined.
Global Instance RetryAction_eq_dec : EqDecision Q.RetryAction.
Proof. solve_decision. Defined.
Global Instance ResponseErrorCode_eq_dec : EqDecision Q.ResponseErrorCode.
Proof. solve_decision. Defined.

(** [online.py]: ANALYSIS_TYPE_* *)
Inductive AnalysisType :=
  | ANALYSIS_TYPE_AUTHORITATIVE
  | ANALYSIS_TYPE_RECURSIVE
  | ANALYSIS_TYPE_CACHE.

Global Instance AnalysisType_eq_dec : EqDecision AnalysisType.
Proof. solve_decision. Defined.

(** [status.py]: the status enumerations. *)
Module Status.
Inductive NameStatus :=
  | NAME_STATUS_NOERROR
  | NAME_STATUS_NXDOMAIN
  | NAME_STATUS_INDETERMINATE.

Inductive DelegationStatus :=
  | DELEGATION_STATUS_SECURE
  | DELEGATION_STATUS_INSECURE
  | DELEGATION_STATUS_BOGUS
  | DELEGATION_STATUS_INCOMPLETE
  | DELEGATION_STATUS_LAME.

Inductive RRsetStatus :=
  | RRSET_STATUS_SECURE
  | RRSET_STATUS_INSECURE
  | RRSET_STATUS_BOGUS
  | RRSET_STATUS_NON_EXISTENT.

(** Validation status of an RRSIG, of a DS and of an NSEC proof: the
    value VALID the analysis tests for, and every other value. *)
Inductive RRSIGValidation :=
  | RRSIG_STATUS_VALID
  | RRSIG_STATUS_OTHER (code : Z).

Inductive DSValidation :=
  | DS_STATUS_VALID
  | DS_STATUS_OTHER (code : Z).

Inductive NSECValidation :=
  | NSEC_STATUS_VALID
  | NSEC_STATUS_OTHER (code : Z).
End Status.

Global Instance NameStatus_eq_dec : EqDecision Status.NameStatus.
Proof. solve_decision. Defined.
Global Instance DelegationStatus_eq_dec : EqDecision Status.DelegationStatus.
Proof. solve_decision. Defined.
Global Instance RRsetStatus_eq_dec : EqDecision Status.RRsetStatus.
Proof. solve_decision. Defined.
Global Instance RRSIGValidation_eq_dec : EqDecision Status.RRSIGValidation.
Proof. solve_decision. Defined.
Global Instance DSValidation_eq_dec : EqDecision Status.DSValidation.
Proof. solve_decision. Defined.
Global Instance NSECValidation_eq_dec : EqDecision Status.NSECValidation.
Proof. solve_decision. Defined.

(** ** The observation record (input) *)

(** One entry of [response.history]. *)
Record HistoryEntry := {
  cause : Q.RetryCause;
  cause_arg : option Z;
  action : Q.RetryAction;
}.

Global Instance HistoryEntry_eq_dec : EqDecision HistoryEntry.
Proof. solve_decision. Defined.

(** A [DNSResponse].  The fields [query_*] are the attributes of
    [response.query], [message_*] those of [response.message]; the boolean
    fields named after a method hold what the method returns. *)
Record Response := {
  resp_id : nat;
  query_edns : Z;
  query_edns_flags : Z;
  query_edns_max_udp_payload : Z;
  query_tcp : bool;
  message_edns : Z;
  message_rcode : Z;
  effective_edns : Z;
  effective_edns_flags : Z;
  effective_edns_max_udp_payload : Z;
  effective_tcp : bool;
  tcp_responsive : bool;
  udp_responsive : bool;
  responsive_cause_index : option nat;
  history : list HistoryEntry;
  msg_size : Z;
  is_authoritative : bool;
  recursion_desired : bool;
  recursion_available : bool;
  recursion_desired_and_available : bool;
  is_valid_response : bool;
  is_complete_response : bool;
  dnssec_requested : bool;
}.

Global Instance Response_eq_dec : EqDecision Response.
Proof. solve_decision. Defined.

(** [servers_clients]: (server, client) -> list of responses. *)
Abbreviation ServersClients := (list ((string * string) * list Response)) (only parsing).

(** The (server, client, response) triples of a [servers_clients] mapping,
    in the order of
    [for server, client in sc: for response in sc[(server, client)]]. *)
Definition witnesses (sc : ServersClients) : list (string * string * Response) :=
  sc ≫= λ '((server, client), responses), (λ response, (server, client, response)) <$> responses.

Record DNSKEYRdata := {
  dnskey_flags : Z;
  dnskey_protocol : Z;
  dnskey_algorithm : Z;
  dnskey_key : string;
}.

Global Instance DNSKEYRdata_eq_dec : EqDecision DNSKEYRdata.
Proof. solve_decision. Defined.

Record DSRdata := {
  ds_key_tag : Z;
  ds_algorithm : Z;
  ds_digest_type : Z;
  ds_digest : string;
}.

Global Instance DSRdata_eq_dec : EqDecision DSRdata.
Proof. solve_decision. Defined.

Inductive Rdata :=
  | RdataDNSKEY (rd : DNSKEYRdata)
  | RdataDS (rd : DSRdata)
  | RdataOther (text : string).

Global Instance Rdata_eq_dec : EqDecision Rdata.
Proof. solve_decision. Defined.

Record RRSIG := {
  rrsig_signer : string;
  rrsig_algorithm : Z;
  rrsig_key_tag : Z;
  rrsig_type_covered : Z;
  rrsig_labels : Z;
  rrsig_original_ttl : Z;
  rrsig_inception : Z;
  rrsig_expiration : Z;
  rrsig_signature : string;
}.

Global Instance RRSIG_eq_dec : EqDecision RRSIG.
Proof. solve_decision. Defined.

Record RRset := {
  rrset_name : string;
  rrset_rdtype : Z;
  rrset_ttl : Z;
  rrset_rdata : list Rdata;
}.

Global Instance RRset_eq_dec : EqDecision RRset.
Proof. solve_decision. Defined.

(** [for dnskey_rdata in rrset] and [for ds_rdata in rrset] on an RRset of
    the matching type. *)
Definition rrset_dnskeys (rrset : RRset) : list DNSKEYRdata :=
  omap (λ rd, match rd with RdataDNSKEY k => Some k | _ => None end) (rrset_rdata rrset).

Definition rrset_dss (rrset : RRset) : list DSRdata :=
  omap (λ rd, match rd with RdataDS d => Some d | _ => None end) (rrset_rdata rrset).

(** An [RRsetInfo] without DNAME and wildcard links: an RRset, its
    witnesses and the RRSIGs covering it with theirs. *)
Record RRsetCore := {
  rrset_id : nat;
  rrset : RRset;
  rrset_servers_clients : ServersClients;
  rrsig_info : list (RRSIG * ServersClients);
}.

Global Instance RRsetCore_eq_dec : EqDecision RRsetCore.
Proof. solve_decision. Defined.

(** An [NSECSet]. *)
Record NSECSetInfo := {
  nsec_set_id : nat;
  use_nsec3 : bool;
  nsec_rrsets : list (string * RRsetCore);
  nsec_servers_clients : ServersClients;
}.

Global Instance NSECSetInfo_eq_dec : EqDecision NSECSetInfo.
Proof. solve_decision. Defined.

(** A value of [rrset_info.wildcard_info]. *)
Record WildcardInfo := {
  wildcard_id : nat;
  wildcard_servers_clients : ServersClients;
  wildcard_nsec_set_info : list NSECSetInfo;
}.

Global Instance WildcardInfo_eq_dec : EqDecision WildcardInfo.
Proof. solve_decision. Defined.

(** An element of [rrset_info.cname_info_from_dname]: a CNAME RRset
    synthesized from a DNAME, with the DNAME it comes from. *)
Record CNAMEFromDNAME := {
  cfd_core : RRsetCore;
  cfd_dname_info : RRsetCore;
  cfd_wildcard_info : list (string * WildcardInfo);
}.

Global Instance CNAMEFromDNAME_eq_dec : EqDecision CNAMEFromDNAME.
Proof. solve_decision. Defined.

(** An [RRsetInfo].  The object graph under it has bounded depth: its
    [dname_info] and the RRsets of its NSEC sets are RRset infos without
    links of their own, and the elements of [cname_info_from_dname] have a
    [dname_info] and no further chain. *)
Record RRsetInfo := {
  core : RRsetCore;
  dname_info : option RRsetCore;
  cname_info_from_dname : list CNAMEFromDNAME;
  wildcard_info : list (string * WildcardInfo);
}.

Global Instance RRsetInfo_eq_dec : EqDecision RRsetInfo.
Proof. solve_decision. Defined.

Definition plain_rrset_info (c : RRsetCore) : RRsetInfo :=
  {| core := c; dname_info := None; cname_info_from_dname := []; wildcard_info := [] |}.

Definition cname_rrset_info (c : CNAMEFromDNAME) : RRsetInfo :=
  {| core := cfd_core c; dname_info := Some (cfd_dname_info c);
     cname_info_from_dname := []; wildcard_info := cfd_wildcard_info c |}.

(** A [NegativeResponseInfo]. *)
Record NegativeResponseInfo := {
  neg_id : nat;
  neg_qname : string;
  neg_rdtype : Z;
  soa_rrset_info : list RRsetCore;
  nsec_set_info : list NSECSetInfo;
  neg_servers_clients : ServersClients;
}.

Global Instance NegativeResponseInfo_eq_dec : EqDecision NegativeResponseInfo.
Proof. solve_decision. Defined.

(** An element of [query.error_info]. *)
Record ErrorInfo := {
  error_info_code : Q.ResponseErrorCode;
  error_info_arg : option Z;
  error_info_servers_clients : ServersClients;
}.

(** One query of an aggregate: [query1] of
    [for query1 in query.queries.values()]. *)
Record DNSQuery := {
  edns : Z;
  edns_flags : Z;
  responses : list (string * list (string * Response));
  (** [servers_with_valid_complete_response(bailiwick_map, default_bailiwick)] *)
  servers_with_valid_complete_response : list (string * string);
}.

(** A [MultiQueryAggregateDNSResponse]: all that was observed for one
    (qname, rdtype). *)
Record Query := {
  query_id : nat;
  qname_of : string;
  rdtype_of : Z;
  answer_info : list RRsetInfo;
  nodata_info : list NegativeResponseInfo;
  nxdomain_info : list NegativeResponseInfo;
  error_info : list ErrorInfo;
  queries_of : list DNSQuery;
  is_valid_complete_authoritative_response_any : bool;
}.

(** [self._query_cls(self.name, dns.rdatatype.DNSKEY, dns.rdataclass.IN)]:
    a fresh aggregate without observations. *)
Definition empty_query (name : string) (rdtype : Z) : Query :=
  {| query_id := 0; qname_of := name; rdtype_of := rdtype; answer_info := [];
     nodata_info := []; nxdomain_info := []; error_info := []; queries_of := [];
     is_valid_complete_authoritative_response_any := false |}.

(** ** Errors and warnings *)

(** [errors.py] is not among the sources.  An error object is a class with
    its keyword arguments ([ErrKind]) and the witnesses it is attributed to.
    Names, record types, algorithms, flags and rcodes are kept as values
    where the source passes their text ([fmt.humanize_name],
    [dns.rdatatype.to_text], ...). *)
Module Errors.
Inductive ErrKind :=
  | NetworkError (tcp : bool) (errno : string) (intermittent : bool)
  | FormError (tcp : bool) (msg_size : Z) (intermittent : bool)
  | Timeout (tcp : bool) (attempts : nat) (intermittent : bool)
  | UnknownResponseError (tcp : bool) (intermittent : bool)
  | InvalidRcode (tcp : bool) (rcode : option Z) (intermittent : bool)
  | ResponseErrorWithEDNS (response_error : ErrKind)
  | ResponseErrorWithEDNSFlag (response_error : ErrKind) (flag : Z)
  | EDNSIgnored
  | UnsupportedEDNSVersion (version : Z)
  | PMTUExceeded
  | NotAuthoritative
  | RecursionNotAvailable
  | UpwardReferral
  | MissingRRSIG
  | MissingRRSIGForAlgDNSKEY (algorithm : Z)
  | MissingRRSIGForAlgDS (algorithm : Z)
  | MissingRRSIGForAlgDLV (algorithm : Z)
  | UnableToRetrieveDNSSECRecords
  | MissingNSECForNXDOMAIN
  | MissingNSECForNODATA
  | MissingNSECForWildcard
  | SOAOwnerNotZoneForNXDOMAIN (soa_owner_name zone_name : string)
  | SOAOwnerNotZoneForNODATA (soa_owner_name zone_name : string)
  | MissingSOAForNXDOMAIN
  | MissingSOAForNODATA
  | InconsistentNXDOMAIN (qname : string) (rdtype_nxdomain rdtype_noerror : Z)
  | NoSEP (source : Z)
  | MissingSEPForAlg (algorithm : Z) (source : Z)
  | NSNameNotInChild (names : list string) (parent : option string)
  | NSNameNotInParent (names : list string) (parent : option string)
  | ErrorResolvingNSName (names : list string)
  | GlueMismatchError (name : string) (glue_addresses auth_addresses : list string)
  | MissingGlueForNSName (names : list string)
  | NoAddressForNSName (names : list string)
  | NoNSAddressesForIPv4 (reference : string)
  | NoNSAddressesForIPv6 (reference : string)
  | NoNSInParent (parent : option string)
  | ServerUnresponsiveUDP
  | ServerUnresponsiveTCP
  | ServerInvalidResponse
  | ServerNotAuthoritative
  | RevokedNotSigning
  | DNSKEYNotAtZoneApex (zone name : option string)
  | DNSKEYMissingFromServers
  | TrustAnchorNotSigning.

(** Modelled from the spec: [isinstance(err, Errors.InvalidResponseError)].
    The class hierarchy of errors.py is missing; the transport errors
    (NetworkError, FormError, Timeout, UnknownResponseError, InvalidRcode,
    each with an [intermittent] flag) are the invalid-response errors, the
    EDNS errors and the wrappers ResponseErrorWithEDNS and
    ResponseErrorWithEDNSFlag are not. *)
Definition InvalidResponseError (err : ErrKind) : bool :=
  match err with
  | NetworkError _ _ _ | FormError _ _ _ | Timeout _ _ _
  | UnknownResponseError _ _ | InvalidRcode _ _ _ => true
  | _ => false
  end.
End Errors.

Global Instance ErrKind_eq_dec : EqDecision Errors.ErrKind.
Proof. solve_decision. Defined.

(** An error object: its class and arguments, and [servers_clients]. *)
Record DomainNameAnalysisError := {
  err_kind : Errors.ErrKind;
  err_servers_clients : list ((string * string) * list (option Response));
}.

Global Instance DomainNameAnalysisError_eq_dec : EqDecision DomainNameAnalysisError.
Proof. solve_decision. Defined.

Definition new_error (kind : Errors.ErrKind) : DomainNameAnalysisError :=
  {| err_kind := kind; err_servers_clients := [] |}.

(** Modelled from the spec: [err.add_server_client(server, client, response)].
    errors.py is missing; an error carries the set of its (server, client,
    response) witnesses, so a witness is recorded once. *)
Definition add_server_client (server client : string) (response : option Response)
    (err : DomainNameAnalysisError) : DomainNameAnalysisError :=
  let rs := default [] (dict_get (server, client) (err_servers_clients err)) in
  {| err_kind := err_kind err;
     err_servers_clients :=
       dict_set (server, client) (set_add response rs) (err_servers_clients err) |}.

(** The [servers_clients] of an artifact as that of an error. *)
Definition to_error_servers_clients (sc : ServersClients)
    : list ((string * string) * list (option Response)) :=
  map (λ '(k, rs), (k, map Some rs)) sc.

(** [err.servers_clients.update(sc)] for the witnesses [sc] of an artifact. *)
Definition servers_clients_update (sc : ServersClients)
    (err : DomainNameAnalysisError) : DomainNameAnalysisError :=
  {| err_kind := err_kind err;
     err_servers_clients :=
       dict_update (err_servers_clients err) (to_error_servers_clients sc) |}.

(** [err.servers_clients = sc] *)
Definition servers_clients_assign (sc : ServersClients)
    (err : DomainNameAnalysisError) : DomainNameAnalysisError :=
  {| err_kind := err_kind err;
     err_servers_clients := to_error_servers_clients sc |}.

(** [error_list.index(error)]: errors are equal when their class and
    arguments are. *)
Fixpoint error_index (kind : Errors.ErrKind) (error_list : list DomainNameAnalysisError) : option nat :=
  match error_list with
  | [] => None
  | e :: l => if decide (err_kind e = kind) then Some 0%nat else S <$> error_index kind l
  end.

(** Modelled from the spec:
    [Errors.DomainNameAnalysisError.insert_into_list(error, error_list,
    server, client, response)].  errors.py is missing; a list holds one error
    object per class and arguments, to which the witness is added when a
    server and a client are given.  The result is the list and the position
    of the error object the call returns. *)
Definition insert_into_list (error : Errors.ErrKind) (error_list : list DomainNameAnalysisError)
    (server client : option string) (response : option Response)
    : list DomainNameAnalysisError * nat :=
  let '(l, i) :=
    match error_index error error_list with
    | Some i => (error_list, i)
    | None => (error_list ++ [new_error error], length error_list)
    end in
  match server, client with
  | Some s, Some c => (alter (add_server_client s c response) i l, i)
  | _, _ => (l, i)
  end.

(** [insert_into_list] with a witness, the returned object unused. *)
Definition insert_witness (error : Errors.ErrKind) (server client : string) (response : Response)
    (error_list : list DomainNameAnalysisError) : list DomainNameAnalysisError :=
  (insert_into_list error error_list (Some server) (Some client) (Some response)).1.

(** ** Status objects (computed) *)

(** A [DNSKEYMeta] object is identified by the analysis object whose DNSKEY
    index holds it and by its rdata: [_index_dnskeys] creates one object per
    rdata. *)
Record DNSKEYRef := {
  dnskey_owner : string;
  dnskey_rdata : DNSKEYRdata;
}.

Global Instance DNSKEYRef_eq_dec : EqDecision DNSKEYRef.
Proof. solve_decision. Defined.

(** The mutable part of a [DNSKEYMeta]. *)
Record DNSKEYMeta := {
  dnskey_meta_name : string;
  dnskey_meta_ttl : Z;
  dnskey_meta_rrset_info : list RRsetInfo;
  dnskey_meta_servers_clients : ServersClients;
  dnskey_meta_errors : list DomainNameAnalysisError;
}.

Record RRSIGStatus := {
  rrsig_status_rrset : RRsetInfo;
  rrsig_status_rrsig : RRSIG;
  rrsig_status_dnskey : option DNSKEYRef;
  signature_valid : option bool;
  rrsig_validation_status : Status.RRSIGValidation;
}.

Global Instance RRSIGStatus_eq_dec : EqDecision RRSIGStatus.
Proof. solve_decision. Defined.

Record DSStatus := {
  ds_status_ds : DSRdata;
  ds_status_ds_meta : RRsetInfo;
  ds_status_dnskey : option DNSKEYRef;
  digest_valid : option bool;
  ds_validation_status : Status.DSValidation;
}.

Inductive NSECStatusClass :=
  | NSECStatusNXDOMAIN
  | NSEC3StatusNXDOMAIN
  | NSECStatusNoAnswer
  | NSEC3StatusNoAnswer
  | NSECStatusWildcard
  | NSEC3StatusWildcard.

Global Instance NSECStatusClass_eq_dec : EqDecision NSECStatusClass.
Proof. solve_decision. Defined.

(** An NSEC or NSEC3 status object: its class, the arguments it was built
    from and the validation status [status.py] computes from them. *)
Record NSECStatus := {
  nsec_status_class : NSECStatusClass;
  nsec_status_qname : string;
  nsec_status_wildcard_name : option string;
  nsec_status_rdtype : Z;
  nsec_status_origin : option string;
  nsec_status_nsec_set_info : NSECSetInfo;
  nsec_validation_status : Status.NSECValidation;
}.

Global Instance NSECStatus_eq_dec : EqDecision NSECStatus.
Proof. solve_decision. Defined.

(** [Status.CNAMEFromDNAMEStatus(synthesized_cname, included_cname)] *)
Record CNAMEFromDNAMEStatus := {
  synthesized_cname : RRsetInfo;
  included_cname : option RRsetInfo;
}.

(** ** What the other modules compute *)

(** The functions of the modules that are not among the sources (crypto,
    status.py, response.py, dns.name, errno), left abstract: a theorem of a
    section with this context holds for every choice of them. *)
Class Oracles := {
  (** [crypto._supported_algs], [crypto._supported_digest_algs] *)
  crypto_supported_algs : list Z;
  crypto_supported_digest_algs : list Z;
  (** [DNSKEYMeta.key_tag], [DNSKEYMeta.key_tag_no_revoke] *)
  key_tag : DNSKEYRdata → Z;
  key_tag_no_revoke : DNSKEYRdata → Z;
  (** [response.is_upward_referral(qname)] *)
  is_upward_referral : Response → string → bool;
  (** [response.is_referral(qname, rdtype, bailiwick, proper)] *)
  is_referral : Response → string → Z → option string → bool → bool;
  (** [Status.RRSIGStatus(rrset, rrsig, dnskey, zone_name, reference_ts,
      supported_algs)]: its [signature_valid] and [validation_status] *)
  RRSIGStatus_signature_valid :
    RRsetInfo → RRSIG → option DNSKEYRef → option string → Z → list Z → option bool;
  RRSIGStatus_validation_status :
    RRsetInfo → RRSIG → option DNSKEYRef → option string → Z → list Z → Status.RRSIGValidation;
  (** [Status.DSStatus(ds, ds_meta, dnskey, supported_digest_algs)]: its
      [digest_valid] and [validation_status] *)
  DSStatus_digest_valid :
    DSRdata → RRsetInfo → option DNSKEYRef → list Z → option bool;
  DSStatus_validation_status :
    DSRdata → RRsetInfo → option DNSKEYRef → list Z → Status.DSValidation;
  (** The [validation_status] of an NSEC status object of the given class
      built from (qname, wildcard name, rdtype, origin, nsec_set_info) *)
  NSECStatus_validation_status :
    NSECStatusClass → string → option string → Z → option string → NSECSetInfo →
    Status.NSECValidation;
  (** [errno.errorcode.get(arg, 'UNKNOWN')] *)
  errno_errorcode : option Z → string;
  (** [name.is_subdomain(other)] of dns.name *)
  is_subdomain : string → string → bool;
  (** [l.sort()] of a list of names and of a list of addresses *)
  sorted_names : list string → list string;
  sorted_addresses : list string → list string;
}.

(** ** The name analysis object *)

(** What the collector recorded and what the accessors of [online.py]
    return; not changed by the status population. *)
Record NAInput := {
  na_name : string;
  stub : bool;
  analysis_type : AnalysisType;
  is_zone : bool;
  zone : option string;
  parent : option string;
  dlv_parent : option string;
  dlv_name : option string;
  parent_name : option string;
  referral_rdtype : option Z;
  queries : list ((string * Z) * Query);
  cname_targets : list (string * list (string * string));
  mx_targets : list (string * option string);
  external_signers : list (string * option string);
  ns_dependencies : list (string * option string);
  (** [self.get_name(name)]: the analysis object for a name, if any *)
  get_name : string → option string;
  dnssec_algorithms_in_dnskey : list Z;
  dnssec_algorithms_in_ds : list Z;
  dnssec_algorithms_in_dlv : list Z;
  (** [fmt.datetime_to_timestamp(self.analysis_end)] *)
  analysis_end : Z;
  (** [get_bailiwick_mapping()] *)
  bailiwick_map : list (string * string);
  default_bailiwick : option string;
  get_auth_or_designated_servers : list string;
  get_responsive_auth_or_designated_servers : list string;
  get_valid_auth_or_designated_servers : list string;
  get_designated_servers : list string;
  _auth_servers_clients : list (string * string);
  _valid_servers_clients : list (string * string);
  _responsive_servers_clients_udp : list (string * string);
  _responsive_servers_clients_tcp : list (string * string);
  _all_servers_clients_queried : list (string * string);
  _all_servers_clients_queried_tcp : list (string * string);
  get_ns_names : list string;
  get_ns_names_in_child : list string;
  get_ns_names_in_parent : list string;
  get_glue_ip_mapping : list (string * list string);
  get_auth_ns_ip_mapping : list (string * list string);
  (** [get_servers_in_parent()], [get_servers_in_child()] as
      (address, IP version) *)
  get_servers_in_parent : list (string * Z);
  get_servers_in_child : list (string * Z);
}.

(** [status], [yxdomain], [yxrrset], [nxrrset]: None until
    [_populate_name_status] sets the four of them. *)
Record NameState := {
  status : Status.NameStatus;
  yxdomain : list string;
  yxrrset : list (string * Z);
  nxrrset : list (string * Z);
}.

(** The maps [_populate_rrsig_status_all] creates, keyed by the identity of
    an RRset info ([rrset_id]), of a wildcard info and of a query. *)
Record RRsetState := {
  rrset_warnings : list (nat * list DomainNameAnalysisError);
  rrset_errors : list (nat * list DomainNameAnalysisError);
  rrsig_status : list (nat * list (RRSIG * list (option DNSKEYRef * RRSIGStatus)));
  dname_status : list (nat * list CNAMEFromDNAMEStatus);
  wildcard_status : list (nat * list NSECStatus);
  response_errors : list (nat * list DomainNameAnalysisError);
}.

(** [nxdomain_status], [nxdomain_warnings], [nxdomain_errors] and their
    NODATA counterparts. *)
Record NegState := {
  neg_status : list (NegativeResponseInfo * list NSECStatus);
  neg_warnings : list (NegativeResponseInfo * list DomainNameAnalysisError);
  neg_errors : list (NegativeResponseInfo * list DomainNameAnalysisError);
}.

(** The maps [_populate_delegation_status] creates, keyed by DS or DLV. *)
Record DelegState := {
  ds_status_by_ds : list (Z * list (DSRdata * list (option DNSKEYRef * DSStatus)));
  ds_status_by_dnskey : list (Z * list (option DNSKEYRef * list (DSRdata * DSStatus)));
  delegation_warnings : list (Z * list DomainNameAnalysisError);
  delegation_errors : list (Z * list DomainNameAnalysisError);
  delegation_status : list (Z * option Status.DelegationStatus);
}.

(** [_dnskey_sets] and [_dnskeys], built by [_index_dnskeys]. *)
Record DNSKEYIndex := {
  _dnskey_sets : list (list DNSKEYRef * RRsetInfo);
  _dnskeys : list (DNSKEYRdata * DNSKEYMeta);
}.

(** The objects a trust graph maps to nodes, and the keys of
    [response_component_status]: a DNSKEYMeta with its [rrset_info], an
    RRset info (by identity), an NSEC set, a negative response info, and
    any other object. *)
Inductive Component :=
  | ComponentDNSKEY (dnskey : DNSKEYRef) (rrset_info : list RRsetInfo)
  | ComponentRRset (rrset_info : nat)
  | ComponentNSECSet (nsec_set : NSECSetInfo)
  | ComponentNegativeResponse (neg_response_info : NegativeResponseInfo)
  | ComponentOther (id : nat).

Global Instance Component_eq_dec : EqDecision Component.
Proof. solve_decision. Defined.

(** The attributes the status population assigns. *)
Record NAState := {
  name_state : option NameState;
  rrset_state : option RRsetState;
  zsks : option (list DNSKEYRef);
  ksks : option (list DNSKEYRef);
  published_keys : option (list DNSKEYRef);
  revoked_keys : option (list DNSKEYRef);
  nodata_state : option NegState;
  nxdomain_state : option NegState;
  deleg_state : option DelegState;
  dnskey_index : option DNSKEYIndex;
  response_component_status : option (list (Component * option Status.RRsetStatus));
}.

Record NA := {
  na_in : NAInput;
  na_st : NAState;
}.

(** The state of an analysis object as [__init__] leaves it. *)
Definition init_state : NAState :=
  {| name_state := None; rrset_state := None; zsks := None; ksks := None;
     published_keys := None; revoked_keys := None; nodata_state := None;
     nxdomain_state := None; deleg_state := None; dnskey_index := None;
     response_component_status := None |}.

Abbreviation Store := (gmap string NA) (only parsing).

(** ** Access to the store *)

Definition set_name_state (v : option NameState) (s : NAState) : NAState :=
  {| name_state := v; rrset_state := rrset_state s; zsks := zsks s; ksks := ksks s;
     published_keys := published_keys s; revoked_keys := revoked_keys s;
     nodata_state := nodata_state s; nxdomain_state := nxdomain_state s;
     deleg_state := deleg_state s; dnskey_index := dnskey_index s;
     response_component_status := response_component_status s |}.

Definition set_rrset_state (v : option RRsetState) (s : NAState) : NAState :=
  {| name_state := name_state s; rrset_state := v; zsks := zsks s; ksks := ksks s;
     published_keys := published_keys s; revoked_keys := revoked_keys s;
     nodata_state := nodata_state s; nxdomain_state := nxdomain_state s;
     deleg_state := deleg_state s; dnskey_index := dnskey_index s;
     response_component_status := response_component_status s |}.

Definition set_zsks (v : option (list DNSKEYRef)) (s : NAState) : NAState :=
  {| name_state := name_state s; rrset_state := rrset_state s; zsks := v; ksks := ksks s;
     published_keys := published_keys s; revoked_keys := revoked_keys s;
     nodata_state := nodata_state s; nxdomain_state := nxdomain_state s;
     deleg_state := deleg_state s; dnskey_index := dnskey_index s;
     response_component_status := response_component_status s |}.

Definition set_ksks (v : option (list DNSKEYRef)) (s : NAState) : NAState :=
  {| name_state := name_state s; rrset_state := rrset_state s; zsks := zsks s; ksks := v;
     published_keys := published_keys s; revoked_keys := revoked_keys s;
     nodata_state := nodata_state s; nxdomain_state := nxdomain_state s;
     deleg_state := deleg_state s; dnskey_index := dnskey_index s;
     response_component_status := response_component_status s |}.

Definition set_published_keys (v : option (list DNSKEYRef)) (s : NAState) : NAState :=
  {| name_state := name_state s; rrset_state := rrset_state s; zsks := zsks s; ksks := ksks s;
     published_keys := v; revoked_keys := revoked_keys s;
     nodata_state := nodata_state s; nxdomain_state := nxdomain_state s;
     deleg_state := deleg_state s; dnskey_index := dnskey_index s;
     response_component_status := response_component_status s |}.

Definition set_revoked_keys (v : option (list DNSKEYRef)) (s : NAState) : NAState :=
  {| name_state := name_state s; rrset_state := rrset_state s; zsks := zsks s; ksks := ksks s;
     published_keys := published_keys s; revoked_keys := v;
     nodata_state := nodata_state s; nxdomain_state := nxdomain_state s;
     deleg_state := deleg_state s; dnskey_index := dnskey_index s;
     response_component_status := response_component_status s |}.

Definition set_nodata_state (v : option NegState) (s : NAState) : NAState :=
  {| name_state := name_state s; rrset_state := rrset_state s; zsks := zsks s; ksks := ksks s;
     published_keys := published_keys s; revoked_keys := revoked_keys s;
     nodata_state := v; nxdomain_state := nxdomain_state s;
     deleg_state := deleg_state s; dnskey_index := dnskey_index s;
     response_component_status := response_component_status s |}.

Definition set_nxdomain_state (v : option NegState) (s : NAState) : NAState :=
  {| name_state := name_state s; rrset_state := rrset_state s; zsks := zsks s; ksks := ksks s;
     published_keys := published_keys s; revoked_keys := revoked_keys s;
     nodata_state := nodata_state s; nxdomain_state := v;
     deleg_state := deleg_state s; dnskey_index := dnskey_index s;
     response_component_status := response_component_status s |}.

Definition set_deleg_state (v : option DelegState) (s : NAState) : NAState :=
  {| name_state := name_state s; rrset_state := rrset_state s; zsks := zsks s; ksks := ksks s;
     published_keys := published_keys s; revoked_keys := revoked_keys s;
     nodata_state := nodata_state s; nxdomain_state := nxdomain_state s;
     deleg_state := v; dnskey_index := dnskey_index s;
     response_component_status := response_component_status s |}.

Definition set_dnskey_index (v : option DNSKEYIndex) (s : NAState) : NAState :=
  {| name_state := name_state s; rrset_state := rrset_state s; zsks := zsks s; ksks := ksks s;
     published_keys := published_keys s; revoked_keys := revoked_keys s;
     nodata_state := nodata_state s; nxdomain_state := nxdomain_state s;
     deleg_state := deleg_state s; dnskey_index := v;
     response_component_status := response_component_status s |}.

Definition set_response_component_status
    (v : option (list (Component * option Status.RRsetStatus))) (s : NAState) : NAState :=
  {| name_state := name_state s; rrset_state := rrset_state s; zsks := zsks s; ksks := ksks s;
     published_keys := published_keys s; revoked_keys := revoked_keys s;
     nodata_state := nodata_state s; nxdomain_state := nxdomain_state s;
     deleg_state := deleg_state s; dnskey_index := dnskey_index s;
     response_component_status := v |}.

(** The object behind a reference. *)
Definition deref (st : gmap string NA) (obj : string) : Result NA :=
  subscript "object" (st !! obj).

(** [obj.attr = ...]: the state of one object changed. *)
Definition update (obj : string) (f : NAState → NAState) (st : gmap string NA) : gmap string NA :=
  alter (λ na, {| na_in := na_in na; na_st := f (na_st na) |}) obj st.

(** [qname_obj.zone] *)
Definition zone_of (st : gmap string NA) (qname_obj : string) : Result NA :=
  na ← deref st qname_obj;
  z ← subscript "zone" (zone (na_in na));
  deref st z.

(** ** [_signed] *)

(** Truth value of a Python set. *)
Definition truthy {A} (s : list A) : bool :=
  match s with [] => false | _ => true end.

Definition _signed (self : NAInput) : bool :=
  truthy (dnssec_algorithms_in_dnskey self)
  || truthy (dnssec_algorithms_in_ds self)
  || truthy (dnssec_algorithms_in_dlv self).

(** ** Analysis levels *)

Definition RDTYPES_ALL : Z := 0.
Definition RDTYPES_ALL_SAME_NAME : Z := 1.
Definition RDTYPES_NS_TARGET : Z := 2.
Definition RDTYPES_SECURE_DELEGATION : Z := 3.
Definition RDTYPES_DELEGATION : Z := 4.

(** The result None stands for all record types.  The referral type of an
    analysis object can be None, so the set holds optional types. *)
Definition _rdtypes_for_analysis_level (self : NAInput) (level : Z) : option (list (option Z)) :=
  let rdtypes := set_update [] [referral_rdtype self; Some rdatatype.NS] in
  if decide (level = RDTYPES_DELEGATION) then Some rdtypes else
  let rdtypes := set_update rdtypes [Some rdatatype.DNSKEY; Some rdatatype.DS; Some rdatatype.DLV] in
  if decide (level = RDTYPES_SECURE_DELEGATION) then Some rdtypes else
  let rdtypes := set_update rdtypes [Some rdatatype.A; Some rdatatype.AAAA] in
  if decide (level = RDTYPES_NS_TARGET) then Some rdtypes else
  None.

(** [required_rdtypes is not None and rdtype not in required_rdtypes] *)
Definition rdtype_excluded (required_rdtypes : option (list (option Z))) (rdtype : Z) : bool :=
  match required_rdtypes with
  | Some rdtypes => negb (set_in (Some rdtype) rdtypes)
  | None => false
  end.

(** [level > self.RDTYPES_ALL and qname not in (self.name, self.dlv_name)] *)
Definition qname_excluded (self : NAInput) (level : Z) (qname : string) : bool :=
  bool_decide (level > RDTYPES_ALL)
  && negb (set_in (Some qname) [Some (na_name self); dlv_name self]).

Section analysis.
Context `{!Oracles}.

(** ** Responsiveness of a server *)

(** [x & f] as a truth value *)
Definition has_flag (x f : Z) : bool := negb (Z.land x f =? 0).

(** [query1.responses[server][client]], None for its KeyError.  No client
    is the key None, which no response mapping has. *)
Definition response_of (query1 : DNSQuery) (server : string) (client : option string)
    : option Response :=
  rs ← dict_get server (responses query1);
  c ← client;
  dict_get c rs.

Definition _server_responsive_with_condition (self : NAInput) (server : string)
    (client : option string) (request_test : DNSQuery → bool) (response_test : Response → bool)
    : bool :=
  existsb (λ '(_, query),
    existsb (λ query1,
      request_test query1 &&
      (* try: clients = ...; except KeyError: continue *)
      match
        match client with
        | None => dict_keys <$> dict_get server (responses query1)
        | Some c => Some [c]
        end
      with
      | None => false
      | Some clients =>
          existsb (λ c : string,
            (* the subscript is [client], not [c] *)
            match response_of query1 server client with
            | None => false
            | Some response => response_test response
            end) clients
      end) (queries_of query)) (queries self).

(** [(x.effective_tcp and x.tcp_responsive) or
     (not x.effective_tcp and x.udp_responsive)] *)
Definition transport_responsive (x : Response) : bool :=
  (effective_tcp x && tcp_responsive x) || (negb (effective_tcp x) && udp_responsive x).

Definition server_responsive_with_edns_flag (self : NAInput) (server : string)
    (client : option string) (f : Z) : bool :=
  _server_responsive_with_condition self server client
    (λ x, (0 <=? edns x) && has_flag (edns_flags x) f)
    (λ x, transport_responsive x && (0 <=? effective_edns x) && has_flag (effective_edns_flags x) f).

Definition server_responsive_valid_with_edns_flag (self : NAInput) (server : string)
    (client : option string) (f : Z) : bool :=
  _server_responsive_with_condition self server client
    (λ x, (0 <=? edns x) && has_flag (edns_flags x) f)
    (λ x, is_valid_response x && (0 <=? effective_edns x) && has_flag (effective_edns_flags x) f).

Definition server_responsive_with_do (self : NAInput) (server : string) (client : option string)
    : bool :=
  server_responsive_with_edns_flag self server client flags.DO.

Definition server_responsive_valid_with_do (self : NAInput) (server : string)
    (client : option string) : bool :=
  server_responsive_valid_with_edns_flag self server client flags.DO.

Definition server_responsive_with_edns (self : NAInput) (server : string) (client : option string)
    : bool :=
  _server_responsive_with_condition self server client
    (λ x, 0 <=? edns x)
    (λ x, transport_responsive x && (0 <=? effective_edns x)).

Definition server_responsive_valid_with_edns (self : NAInput) (server : string)
    (client : option string) : bool :=
  _server_responsive_with_condition self server client
    (λ x, 0 <=? edns x)
    (λ x, is_valid_response x && (0 <=? effective_edns x)).

(** ** [_populate_response_errors] *)

(** [qname_obj is not None and test(qname_obj.zone)] *)
Definition zone_test (st : gmap string NA) (qname_obj : option string) (test : NAInput → bool)
    : Result bool :=
  match qname_obj with
  | None => Ok false
  | Some q => z ← zone_of st q; Ok (test (na_in z))
  end.

(** The chain of [if]/[elif] on
    [response.history[response.responsive_cause_index].cause], which the
    source has once for EDNS and once for each EDNS flag: an intermittent
    error when the server answered another query of the kind, the error
    wrapped by [wrap] otherwise, None for a cause the chain does not list.
    [responsive] stands for [server_responsive_with_edns(server, client)] or
    its flag variant, [responsive_valid] for the [_valid_] one. *)
Definition error_for_cause (st : gmap string NA) (qname_obj : option string)
    (response : Response) (index : nat)
    (responsive responsive_valid : NAInput → bool)
    (wrap : Errors.ErrKind → Errors.ErrKind) : Result (option Errors.ErrKind) :=
  h ← subscript "history" (history response !! index);
  match cause h with
  | Q.RETRY_CAUSE_NETWORK_ERROR =>
      b ← zone_test st qname_obj responsive;
      let e := Errors.NetworkError (query_tcp response) (errno_errorcode (cause_arg h)) in
      Ok (Some (if b : bool then e true else wrap (e false)))
  | Q.RETRY_CAUSE_FORMERR =>
      b ← zone_test st qname_obj responsive_valid;
      let e := Errors.FormError (query_tcp response) (msg_size response) in
      Ok (Some (if b : bool then e true else wrap (e false)))
  | Q.RETRY_CAUSE_TIMEOUT =>
      b ← zone_test st qname_obj responsive;
      let e := Errors.Timeout (query_tcp response) (index + 1)%nat in
      Ok (Some (if b : bool then e true else wrap (e false)))
  | Q.RETRY_CAUSE_OTHER =>
      b ← zone_test st qname_obj responsive_valid;
      let e := Errors.UnknownResponseError (query_tcp response) in
      Ok (Some (if b : bool then e true else wrap (e false)))
  | Q.RETRY_CAUSE_RCODE =>
      b ← zone_test st qname_obj responsive_valid;
      let e := Errors.InvalidRcode (query_tcp response) (cause_arg h) in
      Ok (Some (if b : bool then e true else wrap (e false)))
  | Q.RETRY_CAUSE_UNLISTED _ => Ok None
  end.

(** [range(15, -1, -1)] *)
Definition edns_flag_bits : list Z := Z.of_nat <$> rev (seq 0 16).

(** The loop over the EDNS flag bits, from the value of [err] before a
    bit: a bit requested but not effective (or the converse) is looked at
    when there is a responsive cause; the loop ends at the first error. *)
Fixpoint edns_flag_loop (st : gmap string NA) (qname_obj : option string) (response : Response)
    (server client : string) (bits : list Z) (err : option Errors.ErrKind)
    : Result (option Errors.ErrKind) :=
  match bits with
  | [] => Ok err
  | i :: bits' =>
      let f := Z.shiftl 1 i in
      err ←
        (if decide (Z.land (query_edns_flags response) f ≠ Z.land (effective_edns_flags response) f)
         then
           match responsive_cause_index response with
           | Some index =>
               error_for_cause st qname_obj response index
                 (λ z, server_responsive_with_edns_flag z server (Some client) f)
                 (λ z, server_responsive_valid_with_edns_flag z server (Some client) f)
                 (λ e, Errors.ResponseErrorWithEDNSFlag e f)
           | None => Ok err
           end
         else Ok err);
      match err with
      | Some _ => Ok err
      | None => edns_flag_loop st qname_obj response server client bits' err
      end
  end.

(** The value of [err] when the initial request used EDNS, with the
    warnings the EDNS comparison adds on its way. *)
Definition edns_error (st : gmap string NA) (qname_obj : option string) (response : Response)
    (server client : string) (warnings : list DomainNameAnalysisError)
    : Result (list DomainNameAnalysisError * option Errors.ErrKind) :=
  if message_edns response <? 0 then
    (* the response didn't use EDNS *)
    err ←
      (if effective_edns response <? 0 then
         match responsive_cause_index response with
         | Some index =>
             error_for_cause st qname_obj response index
               (λ z, server_responsive_with_edns z server (Some client))
               (λ z, server_responsive_valid_with_edns z server (Some client))
               Errors.ResponseErrorWithEDNS
         | None => Ok None
         end
       else Ok (Some Errors.EDNSIgnored));
    match err, responsive_cause_index response with
    | None, Some _ => Raise Exception_UnknownEDNSError
    | _, _ => Ok (warnings, err)
    end
  else
    (* the response did use EDNS *)
    let warnings :=
      if decide (message_edns response ≠ query_edns response)
      then insert_witness (Errors.UnsupportedEDNSVersion (query_edns response))
             server client response warnings
      else warnings in
    let warnings :=
      if decide (effective_edns_max_udp_payload response ≠ query_edns_max_udp_payload response)
      then insert_witness Errors.PMTUExceeded server client response warnings
      else warnings in
    if decide (query_edns_flags response ≠ effective_edns_flags response) then
      err ← edns_flag_loop st qname_obj response server client edns_flag_bits None;
      match err, responsive_cause_index response with
      | None, Some _ => Raise Exception_UnknownEDNSFlagError
      | _, _ => Ok (warnings, err)
      end
    else Ok (warnings, None).

(** The list an EDNS error goes to: True for [errors], False for
    [warnings]. *)
Definition error_group (st : gmap string NA) (qname_obj : option string) (err : Errors.ErrKind)
    : Result bool :=
  if Errors.InvalidResponseError err then Ok false
  else zone_test st qname_obj _signed.

(** The checks on the authority of the response that end the function. *)
Definition authority_errors (st : gmap string NA) (qname_obj : option string)
    (response : Response) (server client : string) (errors : list DomainNameAnalysisError)
    : Result (list DomainNameAnalysisError) :=
  match qname_obj with
  | None => Ok errors
  | Some q =>
      na ← deref st q;
      match analysis_type (na_in na) with
      | ANALYSIS_TYPE_AUTHORITATIVE =>
          if negb (is_authoritative response)
          then Ok (insert_witness Errors.NotAuthoritative server client response errors)
          else Ok errors
      | ANALYSIS_TYPE_RECURSIVE =>
          if recursion_desired response && negb (recursion_available response)
          then Ok (insert_witness Errors.RecursionNotAvailable server client response errors)
          else Ok errors
      | ANALYSIS_TYPE_CACHE => Ok errors
      end
  end.

(** The result is the pair of the lists [warnings] and [errors] the call
    leaves. *)
Definition _populate_response_errors (st : gmap string NA) (qname_obj : option string)
    (response : Response) (server client : string)
    (warnings errors : list DomainNameAnalysisError)
    : Result (list DomainNameAnalysisError * list DomainNameAnalysisError) :=
  '(warnings, errors) ←
    (if 0 <=? query_edns response then
       '(warnings, err) ← edns_error st qname_obj response server client warnings;
       match err with
       | Some err =>
           to_errors ← error_group st qname_obj err;
           if to_errors : bool
           then Ok (warnings, insert_witness err server client response errors)
           else Ok (insert_witness err server client response warnings, errors)
       | None => Ok (warnings, errors)
       end
     else Ok (warnings, errors));
  errors ← authority_errors st qname_obj response server client errors;
  Ok (warnings, errors).

(** ** The DNSKEY index *)

(** One step of [for dnskey_rdata in dnskey_info.rrset]. *)
Definition index_dnskey (self : string) (dnskey_info : RRsetInfo) (dnskey_rdata : DNSKEYRdata)
    (acc : list (DNSKEYRdata * DNSKEYMeta) * list DNSKEYRef)
    : list (DNSKEYRdata * DNSKEYMeta) * list DNSKEYRef :=
  let '(dnskeys, dnskey_set) := acc in
  let meta :=
    default {| dnskey_meta_name := rrset_name (rrset (core dnskey_info));
               dnskey_meta_ttl := rrset_ttl (rrset (core dnskey_info));
               dnskey_meta_rrset_info := []; dnskey_meta_servers_clients := [];
               dnskey_meta_errors := [] |}
            (dict_get dnskey_rdata dnskeys) in
  let meta :=
    {| dnskey_meta_name := dnskey_meta_name meta;
       dnskey_meta_ttl := dnskey_meta_ttl meta;
       dnskey_meta_rrset_info := dnskey_meta_rrset_info meta ++ [dnskey_info];
       dnskey_meta_servers_clients :=
         dict_update (dnskey_meta_servers_clients meta)
                     (rrset_servers_clients (core dnskey_info));
       dnskey_meta_errors := dnskey_meta_errors meta |} in
  (dict_set dnskey_rdata meta dnskeys,
   set_add {| dnskey_owner := self; dnskey_rdata := dnskey_rdata |} dnskey_set).

(** The index [_index_dnskeys] assigns to [self._dnskey_sets] and
    [self._dnskeys]. *)
Definition _index_dnskeys (self : string) (na : NAInput) : DNSKEYIndex :=
  match dict_get (na_name na, rdatatype.DNSKEY) (queries na) with
  | None => {| _dnskey_sets := []; _dnskeys := [] |}
  | Some query =>
      foldl (λ idx dnskey_info,
        (* there are CNAMEs that show up here... *)
        if negb (bool_decide (rrset_name (rrset (core dnskey_info)) = na_name na)
                 && bool_decide (rrset_rdtype (rrset (core dnskey_info)) = rdatatype.DNSKEY))
        then idx
        else
          let '(dnskeys, dnskey_set) :=
            foldl (λ acc dnskey_rdata, index_dnskey self dnskey_info dnskey_rdata acc)
                  (_dnskeys idx, []) (rrset_dnskeys (rrset (core dnskey_info))) in
          {| _dnskey_sets := _dnskey_sets idx ++ [(dnskey_set, dnskey_info)];
             _dnskeys := dnskeys |})
        {| _dnskey_sets := []; _dnskeys := [] |} (answer_info query)
  end.

(** [obj.get_dnskey_sets()]: builds the index of [obj] when it has none. *)
Definition get_dnskey_index (st : gmap string NA) (obj : string)
    : Result (gmap string NA * DNSKEYIndex) :=
  na ← deref st obj;
  match dnskey_index (na_st na) with
  | Some idx => Ok (st, idx)
  | None =>
      let idx := _index_dnskeys obj (na_in na) in
      Ok (update obj (set_dnskey_index (Some idx)) st, idx)
  end.

Definition get_dnskey_sets (st : gmap string NA) (obj : string)
    : Result (gmap string NA * list (list DNSKEYRef * RRsetInfo)) :=
  '(st, idx) ← get_dnskey_index st obj; Ok (st, _dnskey_sets idx).

(** [obj.get_dnskeys()]: the DNSKEY objects, as references. *)
Definition get_dnskeys (st : gmap string NA) (obj : string)
    : Result (gmap string NA * list DNSKEYRef) :=
  '(st, idx) ← get_dnskey_index st obj;
  Ok (st, (λ rd, {| dnskey_owner := obj; dnskey_rdata := rd |}) <$> dict_keys (_dnskeys idx)).

(** [a.difference(b)] *)
Definition difference {A} `{EqDecision A} (a b : list A) : list A := list_difference a b.

Definition potential_trusted_keys (s : NAState) : Result (list DNSKEYRef) :=
  ksks ← subscript "ksks" (ksks s);
  zsks ← subscript "zsks" (zsks s);
  revoked_keys ← subscript "revoked_keys" (revoked_keys s);
  let active_ksks := difference (difference ksks zsks) revoked_keys in
  if truthy active_ksks then Ok active_ksks
  else Ok (difference ksks revoked_keys).

(** ** [_populate_name_status] *)

(** [self.get_name(name)], replaced by its [parent] for a DS query and by
    its [dlv_parent] for a DLV query. *)
Definition qname_obj_for (st : gmap string NA) (self : NAInput) (name : string) (rdtype : Z)
    : Result (option string) :=
  let qname_obj := get_name self name in
  if decide (rdtype = rdatatype.DS) then
    q ← subscript "qname_obj.parent" qname_obj; na ← deref st q; Ok (parent (na_in na))
  else if decide (rdtype = rdatatype.DLV) then
    q ← subscript "qname_obj.dlv_parent" qname_obj; na ← deref st q; Ok (dlv_parent (na_in na))
  else Ok qname_obj.

(** [qname_obj.zone.name] *)
Definition zone_name_of (st : gmap string NA) (qname_obj : option string) : Result string :=
  q ← subscript "qname_obj.zone" qname_obj;
  z ← zone_of st q;
  Ok (na_name (na_in z)).

Definition set_yxdomain (v : list string) (s : NameState) : NameState :=
  {| status := status s; yxdomain := v; yxrrset := yxrrset s; nxrrset := nxrrset s |}.
Definition set_yxrrset (v : list (string * Z)) (s : NameState) : NameState :=
  {| status := status s; yxdomain := yxdomain s; yxrrset := v; nxrrset := nxrrset s |}.
Definition set_nxrrset (v : list (string * Z)) (s : NameState) : NameState :=
  {| status := status s; yxdomain := yxdomain s; yxrrset := yxrrset s; nxrrset := v |}.
Definition set_status (v : Status.NameStatus) (s : NameState) : NameState :=
  {| status := v; yxdomain := yxdomain s; yxrrset := yxrrset s; nxrrset := nxrrset s |}.

(** [for rrset_info in query.answer_info] *)
Definition name_status_answer (rrset_info : RRsetInfo) (s : NameState) : NameState :=
  let s := set_yxdomain (set_add (rrset_name (rrset (core rrset_info))) (yxdomain s)) s in
  let add c := set_add (rrset_name (rrset c), rrset_rdtype (rrset c)) in
  let s := set_yxrrset (add (core rrset_info) (yxrrset s)) s in
  let s := match dname_info rrset_info with
           | Some d => set_yxrrset (add d (yxrrset s)) s
           | None => s
           end in
  foldl (λ s cname_rrset_info,
           set_yxrrset (add (cfd_core cname_rrset_info)
                          (add (cfd_dname_info cname_rrset_info) (yxrrset s))) s)
        s (cname_info_from_dname rrset_info).

(** [for neg_response_info in query.nodata_info] *)
Definition name_status_nodata (st : gmap string NA) (qname : string) (qname_obj : option string)
    (neg_response_info : NegativeResponseInfo) (s : NameState) : Result NameState :=
  forM (witnesses (neg_servers_clients neg_response_info)) (λ '(server, client, response) s,
    if bool_decide (neg_qname neg_response_info = qname) || recursion_desired_and_available response
    then
      zone_name ← zone_name_of st qname_obj;
      let s := if negb (is_upward_referral response zone_name)
               then set_yxdomain (set_add (neg_qname neg_response_info) (yxdomain s)) s
               else s in
      Ok (set_nxrrset (set_add (neg_qname neg_response_info, neg_rdtype neg_response_info)
                         (nxrrset s)) s)
    else Ok s) s.

(** [for neg_response_info in query.nxdomain_info] *)
Definition name_status_nxdomain (qname : string) (neg_response_info : NegativeResponseInfo)
    (s : NameState) : NameState :=
  foldl (λ s '(server, client, response),
    if bool_decide (neg_qname neg_response_info = qname) || recursion_desired_and_available response
    then set_nxrrset (set_add (neg_qname neg_response_info, neg_rdtype neg_response_info)
                        (nxrrset s)) s
    else s) s (witnesses (neg_servers_clients neg_response_info)).

(** The search for a proper referral that ends with [raise FoundYXDOMAIN]. *)
Definition found_referral (self : NAInput) (rdtype : Z) (query : Query) : bool :=
  existsb (λ query1,
    existsb (λ '(server, clients),
      let bailiwick :=
        match dict_get server (bailiwick_map self) with
        | Some b => Some b
        | None => default_bailiwick self
        end in
      existsb (λ '(client, response),
        is_referral response (na_name self) rdtype bailiwick true) clients)
      (responses query1)) (queries_of query).

(** The body of the loop over [self.queries.items()]. *)
Definition name_status_query (st : gmap string NA) (self : NAInput) (level : Z)
    (item : (string * Z) * Query) (s : NameState) : Result NameState :=
  let '((qname, rdtype), query) := item in
  if qname_excluded self level qname then Ok s else
  if rdtype_excluded (_rdtypes_for_analysis_level self level) rdtype then Ok s else
  qname_obj ← qname_obj_for st self qname rdtype;
  let s := foldl (λ s rrset_info, name_status_answer rrset_info s) s (answer_info query) in
  s ← forM (nodata_info query) (name_status_nodata st qname qname_obj) s;
  let s := foldl (λ s n, name_status_nxdomain qname n s) s (nxdomain_info query) in
  if bool_decide (level ≤ RDTYPES_DELEGATION)
     && bool_decide (na_name self = qname) && negb (set_in (na_name self) (yxdomain s))
     && set_in (Some rdtype) [referral_rdtype self; Some rdatatype.NS]
     && found_referral self rdtype query
  then Ok (set_yxdomain (set_add (na_name self) (yxdomain s)) s)
  else Ok s.

(** The final part: NOERROR when the name exists, NXDOMAIN when a query
    other than DS has an NXDOMAIN response for its own name. *)
Definition name_status_final (self : NAInput) (s : NameState) : NameState :=
  let s := if set_in (na_name self) (yxdomain s) then set_status Status.NAME_STATUS_NOERROR s else s in
  if decide (status s = Status.NAME_STATUS_INDETERMINATE) then
    if existsb (λ '((qname, rdtype), query),
         negb (bool_decide (rdtype = rdatatype.DS))
         && truthy (filter (λ x, neg_qname x = qname) (nxdomain_info query))) (queries self)
    then set_status Status.NAME_STATUS_NXDOMAIN s
    else s
  else s.

(** [trace] is the list of the objects on the path of calls; [fuel] bounds
    the depth of the recursion through CNAME targets. *)
Fixpoint _populate_name_status (fuel : nat) (st : gmap string NA) (self : string) (level : Z)
    (trace : list string) : Result (gmap string NA) :=
  match fuel with
  | O => OutOfFuel
  | S fuel =>
      (* avoid loops *)
      if set_in self trace then Ok st else
      na ← deref st self;
      let s := {| status := Status.NAME_STATUS_INDETERMINATE; yxdomain := [];
                  yxrrset := []; nxrrset := [] |} in
      let st := update self (set_name_state (Some s)) st in
      s ← forM (queries (na_in na)) (name_status_query st (na_in na) level) s;
      let st := update self (set_name_state (Some s)) st in
      '(st, s) ←
        (if bool_decide (level ≤ RDTYPES_NS_TARGET) then
           (* now add the values of CNAMEs *)
           forM (cname_targets (na_in na)) (λ '(cname, targets) '(st, s),
             if qname_excluded (na_in na) level cname then Ok (st, s) else
             forM targets (λ '(target, cname_obj) '(st, s),
               if decide (cname_obj = self) then Ok (st, s) else
               c ← deref st cname_obj;
               st ← (if name_state (na_st c) is None
                     then _populate_name_status fuel st cname_obj RDTYPES_ALL (trace ++ [self])
                     else Ok st);
               c ← deref st cname_obj;
               cs ← subscript "cname_obj.yxrrset" (name_state (na_st c));
               let s := foldl (λ s '(name, rdtype),
                                 if decide (name = target)
                                 then set_yxrrset (set_add (cname, rdtype) (yxrrset s)) s
                                 else s) s (yxrrset cs) in
               Ok (update self (set_name_state (Some s)) st, s)) (st, s)) (st, s)
         else Ok (st, s));
      Ok (update self (set_name_state (Some (name_status_final (na_in na) s))) st)
  end.

(** ** [_populate_rrsig_status] *)

Definition set_rrset_warnings (v : list (nat * list DomainNameAnalysisError)) (s : RRsetState) :=
  {| rrset_warnings := v; rrset_errors := rrset_errors s; rrsig_status := rrsig_status s;
     dname_status := dname_status s; wildcard_status := wildcard_status s;
     response_errors := response_errors s |}.
Definition set_rrset_errors (v : list (nat * list DomainNameAnalysisError)) (s : RRsetState) :=
  {| rrset_warnings := rrset_warnings s; rrset_errors := v; rrsig_status := rrsig_status s;
     dname_status := dname_status s; wildcard_status := wildcard_status s;
     response_errors := response_errors s |}.
Definition set_rrsig_status
    (v : list (nat * list (RRSIG * list (option DNSKEYRef * RRSIGStatus)))) (s : RRsetState) :=
  {| rrset_warnings := rrset_warnings s; rrset_errors := rrset_errors s; rrsig_status := v;
     dname_status := dname_status s; wildcard_status := wildcard_status s;
     response_errors := response_errors s |}.
Definition set_dname_status (v : list (nat * list CNAMEFromDNAMEStatus)) (s : RRsetState) :=
  {| rrset_warnings := rrset_warnings s; rrset_errors := rrset_errors s;
     rrsig_status := rrsig_status s; dname_status := v; wildcard_status := wildcard_status s;
     response_errors := response_errors s |}.
Definition set_wildcard_status (v : list (nat * list NSECStatus)) (s : RRsetState) :=
  {| rrset_warnings := rrset_warnings s; rrset_errors := rrset_errors s;
     rrsig_status := rrsig_status s; dname_status := dname_status s; wildcard_status := v;
     response_errors := response_errors s |}.
Definition set_response_errors (v : list (nat * list DomainNameAnalysisError)) (s : RRsetState) :=
  {| rrset_warnings := rrset_warnings s; rrset_errors := rrset_errors s;
     rrsig_status := rrsig_status s; dname_status := dname_status s;
     wildcard_status := wildcard_status s; response_errors := v |}.

(** The maps of [self] that hold the RRset status; a TypeError when they
    are None. *)
Definition rrset_state_of (st : gmap string NA) (self : string) : Result RRsetState :=
  na ← deref st self; subscript "rrsig_status" (rrset_state (na_st na)).

Definition put_rrset_state (self : string) (rs : RRsetState) (st : gmap string NA) :=
  update self (set_rrset_state (Some rs)) st.

(** The identity of an RRset info. *)
Definition rid (rrset_info : RRsetInfo) : nat := rrset_id (core rrset_info).

Definition _initialize_rrset_status (rrset_info : RRsetInfo) (rs : RRsetState) : RRsetState :=
  let rs := set_rrset_warnings (dict_set (rid rrset_info) [] (rrset_warnings rs)) rs in
  let rs := set_rrset_errors (dict_set (rid rrset_info) [] (rrset_errors rs)) rs in
  set_rrsig_status (dict_set (rid rrset_info) [] (rrsig_status rs)) rs.

(** [Status.RRSIGStatus(rrset_info, rrsig, dnskey, zone_name, reference_ts,
    supported_algs)] *)
Definition new_RRSIGStatus (rrset_info : RRsetInfo) (rrsig : RRSIG) (dnskey : option DNSKEYRef)
    (zone_name : option string) (reference_ts : Z) (supported_algs : list Z) : RRSIGStatus :=
  {| rrsig_status_rrset := rrset_info; rrsig_status_rrsig := rrsig;
     rrsig_status_dnskey := dnskey;
     signature_valid :=
       RRSIGStatus_signature_valid rrset_info rrsig dnskey zone_name reference_ts supported_algs;
     rrsig_validation_status :=
       RRSIGStatus_validation_status rrset_info rrsig dnskey zone_name reference_ts supported_algs |}.

(** [self_sig]: the RRSIG covers a DNSKEY RRset and is made by its owner. *)
Definition self_sig (rrset_info : RRsetInfo) (rrsig : RRSIG) : bool :=
  bool_decide (rrset_rdtype (rrset (core rrset_info)) = rdatatype.DNSKEY)
  && bool_decide (rrsig_signer rrsig = rrset_name (rrset (core rrset_info))).

(** [dnskey.rdata.protocol == 3 and
     rrsig.key_tag in (dnskey.key_tag, dnskey.key_tag_no_revoke) and
     rrsig.algorithm == dnskey.rdata.algorithm] *)
Definition rrsig_applicable (rrsig : RRSIG) (dnskey : DNSKEYRef) : bool :=
  bool_decide (dnskey_protocol (dnskey_rdata dnskey) = 3)
  && set_in (rrsig_key_tag rrsig)
       [key_tag (dnskey_rdata dnskey); key_tag_no_revoke (dnskey_rdata dnskey)]
  && bool_decide (rrsig_algorithm rrsig = dnskey_algorithm (dnskey_rdata dnskey)).

(** [dnskey.rdata not in rrset_info.rrset] *)
Definition dnskey_in_rrset (dnskey : DNSKEYRef) (rrset_info : RRsetInfo) : bool :=
  set_in (RdataDNSKEY (dnskey_rdata dnskey)) (rrset_rdata (rrset (core rrset_info))).

(** One step of [for dnskey in dnskey_set]: the state is [checked_keys]
    and the RRSIG status objects created so far for this set (the union of
    the three sets of [validation_status_mapping]). *)
Definition check_dnskey (rrset_info : RRsetInfo) (rrsig : RRSIG) (zone_name : option string)
    (reference_ts : Z) (supported_algs : list Z) (dnskey : DNSKEYRef)
    (acc : list DNSKEYRef * list RRSIGStatus) : list DNSKEYRef * list RRSIGStatus :=
  let '(checked_keys, created) := acc in
  (* if we've already checked this key then continue *)
  if set_in dnskey checked_keys then acc else
  (* if this is a RRSIG over DNSKEY RRset, then make sure we're validating
     with a DNSKEY that is actually in the set *)
  if self_sig rrset_info rrsig && negb (dnskey_in_rrset dnskey rrset_info) then acc else
  let checked_keys := set_add dnskey checked_keys in
  if negb (rrsig_applicable rrsig dnskey) then (checked_keys, created) else
  (checked_keys,
   created ++ [new_RRSIGStatus rrset_info rrsig (Some dnskey) zone_name reference_ts supported_algs]).

(** [for status in True, False, None: if validation_status_mapping[status]:
    ...; break]: the statuses of the first non-empty class. *)
Definition select_statuses {A} (valid : A → option bool) (created : list A) : list A :=
  let having v := filter (λ x, valid x = v) created in
  if truthy (having (Some true)) then having (Some true)
  else if truthy (having (Some false)) then having (Some false)
  else having None.

(** [self.rrsig_status[rrset][rrsig][dnskey] = rrsig_status] *)
Definition record_rrsig_status (s : RRSIGStatus) (rs : RRsetState) : Result RRsetState :=
  by_rrsig ← subscript "rrsig_status[rrset]" (dict_get (rid (rrsig_status_rrset s)) (rrsig_status rs));
  by_dnskey ← subscript "rrsig_status[rrset][rrsig]" (dict_get (rrsig_status_rrsig s) by_rrsig);
  Ok (set_rrsig_status
        (dict_set (rid (rrsig_status_rrset s))
           (dict_set (rrsig_status_rrsig s)
              (dict_set (rrsig_status_dnskey s) s by_dnskey) by_rrsig)
           (rrsig_status rs)) rs).

(** The key roles: adds the DNSKEY to [ksks] or to [zsks]. *)
Definition record_key_role (self : NAInput) (rrset_info : RRsetInfo) (s : RRSIGStatus)
    (roles : option (list DNSKEYRef) * option (list DNSKEYRef))
    : Result (option (list DNSKEYRef) * option (list DNSKEYRef)) :=
  let '(ksks, zsks) := roles in
  match rrsig_status_dnskey s with
  | Some dnskey =>
      if is_zone self
         && bool_decide (rrset_name (rrset (core rrset_info)) = na_name self)
         && negb (bool_decide (rrset_rdtype (rrset (core rrset_info)) = rdatatype.DS))
      then
        if decide (rrset_rdtype (rrset (core rrset_info)) = rdatatype.DNSKEY)
        then k ← subscript "ksks" ksks; Ok (Some (set_add dnskey k), zsks)
        else z ← subscript "zsks" zsks; Ok (ksks, Some (set_add dnskey z))
      else Ok roles
  | None => Ok roles
  end.

(** The state the loops over the RRSIGs of an RRset carry: the store, the
    RRset maps of [self], [ksks] and [zsks], and [algs_signing_rrset]. *)
Record SigState := {
  sig_store : gmap string NA;
  sig_rs : RRsetState;
  sig_roles : option (list DNSKEYRef) * option (list DNSKEYRef);
  algs_signing_rrset : list ((string * string * Response) * list Z);
}.

(** The body of [for dnskey_set, dnskey_meta in signer.get_dnskey_sets()]. *)
Definition rrsig_status_for_dnskey_set (self : NAInput) (rrset_info : RRsetInfo) (rrsig : RRSIG)
    (zone_name : option string) (supported_algs : list Z) (dnskey_set : list DNSKEYRef)
    (acc : list DNSKEYRef * (RRsetState * (option (list DNSKEYRef) * option (list DNSKEYRef))))
    : Result (list DNSKEYRef * (RRsetState * (option (list DNSKEYRef) * option (list DNSKEYRef)))) :=
  let '(checked_keys, state) := acc in
  let '(checked_keys, created) :=
    foldl (λ acc dnskey,
             check_dnskey rrset_info rrsig zone_name (analysis_end self) supported_algs dnskey acc)
          (checked_keys, []) dnskey_set in
  (* if we got results for multiple keys, then just select the one that validates *)
  state ← forM (select_statuses signature_valid created) (λ rrsig_status '(rs, roles),
    rs ← record_rrsig_status rrsig_status rs;
    roles ← record_key_role self rrset_info rrsig_status roles;
    Ok (rs, roles)) state;
  Ok (checked_keys, state).

(** The algorithms of an RRSIG accounted for each witness of the RRSIG. *)
Definition account_algorithm (algs_in_dnskey algs_in_ds algs_in_dlv : list Z) (rrsig : RRSIG)
    (algs : list ((string * string * Response) * list Z)) (w : string * string * Response)
    : list ((string * string * Response) * list Z) :=
  match dict_get w algs with
  | None => algs
  | Some signing =>
      let signing := set_add (rrsig_algorithm rrsig) signing in
      if negb (truthy (difference algs_in_dnskey signing))
         && negb (truthy (difference algs_in_ds signing))
         && negb (truthy (difference algs_in_dlv signing))
      then dict_del w algs
      else dict_set w signing algs
  end.

(** The body of [for rrsig in rrset_info.rrsig_info]. *)
Definition rrsig_status_for_rrsig (self : string) (rrset_info : RRsetInfo)
    (zone_name : option string) (algs_in_dnskey algs_in_ds algs_in_dlv : list Z)
    (supported_algs : list Z) (item : RRSIG * ServersClients) (s : SigState) : Result SigState :=
  let '(rrsig, rrsig_servers_clients) := item in
  na ← deref (sig_store s) self;
  by_rrsig ← subscript "rrsig_status[rrset_info]" (dict_get (rid rrset_info) (rrsig_status (sig_rs s)));
  let rs := set_rrsig_status
              (dict_set (rid rrset_info) (dict_set rrsig [] by_rrsig) (rrsig_status (sig_rs s)))
              (sig_rs s) in
  let no_dnskey (st : gmap string NA) rs roles algs :=
    (* no corresponding DNSKEY *)
    by_rrsig ← subscript "rrsig_status[rrset_info]" (dict_get (rid rrset_info) (rrsig_status rs));
    by_dnskey ← subscript "rrsig_status[rrset_info][rrsig]" (dict_get rrsig by_rrsig);
    rs ← (if truthy by_dnskey then Ok rs else
            z ← subscript "self.zone" (zone (na_in na));
            zna ← deref st z;
            record_rrsig_status
              (new_RRSIGStatus rrset_info rrsig None (Some (na_name (na_in zna)))
                 (analysis_end (na_in na)) supported_algs) rs);
    Ok {| sig_store := st; sig_rs := rs; sig_roles := roles; algs_signing_rrset := algs |} in
  match get_name (na_in na) (rrsig_signer rrsig) with
  | None => no_dnskey (sig_store s) rs (sig_roles s) (algs_signing_rrset s)
  | Some signer =>
      signer_na ← deref (sig_store s) signer;
      if stub (na_in signer_na)
      then Ok {| sig_store := sig_store s; sig_rs := rs; sig_roles := sig_roles s;
                 algs_signing_rrset := algs_signing_rrset s |}
      else
        let algs := foldl (account_algorithm algs_in_dnskey algs_in_ds algs_in_dlv rrsig)
                          (algs_signing_rrset s) (witnesses rrsig_servers_clients) in
        '(st, dnskey_sets) ← get_dnskey_sets (sig_store s) signer;
        '(_, (rs, roles)) ←
          forM dnskey_sets (λ '(dnskey_set, dnskey_meta),
              rrsig_status_for_dnskey_set (na_in na) rrset_info rrsig zone_name supported_algs
                dnskey_set)
            ([], (rs, sig_roles s));
        no_dnskey st rs roles algs
  end.

(** The DNAME part: the witnesses of the DNAMEs a CNAME was synthesized
    from, and the entry of [dname_status]. *)
Definition dname_part (rrset_info : RRsetInfo) (rs : RRsetState)
    : list (string * string * Response) * RRsetState :=
  if decide (rrset_rdtype (rrset (core rrset_info)) = rdatatype.CNAME) then
    let '(dname_info_list, dname_status_value) :=
      match dname_info rrset_info, cname_info_from_dname rrset_info with
      | Some d, _ =>
          ([d], Some {| synthesized_cname := rrset_info; included_cname := None |})
      | None, c :: cs =>
          (cfd_dname_info <$> (c :: cs),
           Some {| synthesized_cname := cname_rrset_info c; included_cname := Some rrset_info |})
      | None, [] => ([], None)
      end in
    match dname_status_value with
    | Some dname_status_value =>
        let has_dname :=
          foldl (λ acc d, set_update acc (witnesses (rrset_servers_clients d))) [] dname_info_list in
        (* the test [rrset_info.rrset.name not in self.dname_status] looks an
           owner name up among keys that are RRset infos: it never finds it *)
        (has_dname,
         set_dname_status (dict_set (rid rrset_info) [dname_status_value] (dname_status rs)) rs)
    | None => ([], rs)
    end
  else ([], rs).

(** [insert_into_list(err, self.rrset_errors[rrset_info], server, client,
    response)] *)
Definition insert_rrset_error (rrset_info : RRsetInfo) (err : Errors.ErrKind)
    (w : string * string * Response) (rs : RRsetState) : Result RRsetState :=
  errors ← subscript "rrset_errors[rrset_info]" (dict_get (rid rrset_info) (rrset_errors rs));
  Ok (set_rrset_errors
        (dict_set (rid rrset_info) (insert_witness err w.1.1 w.1.2 w.2 errors) (rrset_errors rs)) rs).

(** The errors for the witnesses left in [algs_signing_rrset]: no RRSIG at
    all, or no RRSIG for some algorithm. *)
Definition missing_rrsig_errors (st : gmap string NA) (rrset_info : RRsetInfo)
    (qname_obj : option string) (algs_in_dnskey algs_in_ds algs_in_dlv : list Z)
    (algs_signing_rrset : list ((string * string * Response) * list Z)) (rs : RRsetState)
    : Result RRsetState :=
  forM algs_signing_rrset (λ '(w, signing) rs,
    _ ← subscript "rrset_errors[rrset_info]" (dict_get (rid rrset_info) (rrset_errors rs));
    if negb (truthy signing) then
      if dnssec_requested w.2 then insert_rrset_error rrset_info Errors.MissingRRSIG w rs
      else
        b ← zone_test st qname_obj (λ z, server_responsive_with_do z w.1.1 (Some w.1.2));
        if b : bool then insert_rrset_error rrset_info Errors.UnableToRetrieveDNSSECRecords w rs
        else Ok rs
    else
      rs ← forM (difference algs_in_dnskey signing)
             (λ alg, insert_rrset_error rrset_info (Errors.MissingRRSIGForAlgDNSKEY alg) w) rs;
      rs ← forM (difference algs_in_ds signing)
             (λ alg, insert_rrset_error rrset_info (Errors.MissingRRSIGForAlgDS alg) w) rs;
      forM (difference algs_in_dlv signing)
             (λ alg, insert_rrset_error rrset_info (Errors.MissingRRSIGForAlgDLV alg) w) rs) rs.

(** [_populate_rrsig_status] up to the call of [_populate_wildcard_status]:
    the state of the RRset, the RRSIG status of every RRSIG and the errors
    for missing RRSIGs. *)
Definition rrsig_status_body (st : gmap string NA) (self : string) (query_rdtype : Z)
    (rrset_info : RRsetInfo) (qname_obj : option string) (supported_algs : list Z)
    : Result (gmap string NA) :=
  na ← deref st self;
  rs ← rrset_state_of st self;
  let rs := _initialize_rrset_status rrset_info rs in
  zone_name ← match qname_obj with
               | None => Ok None
               | Some _ => Some <$> zone_name_of st qname_obj
               end;
  '(algs_in_dnskey, algs_in_ds, algs_in_dlv) ←
    match qname_obj with
    | None => Ok ([], [], [])
    | Some q =>
        z ← zone_of st q;
        if decide (query_rdtype = rdatatype.DLV)
        then Ok (dnssec_algorithms_in_dnskey (na_in z), [], [])
        else Ok (dnssec_algorithms_in_dnskey (na_in z), dnssec_algorithms_in_ds (na_in z),
                 dnssec_algorithms_in_dlv (na_in z))
    end;
  (* handle DNAMEs *)
  let '(has_dname, rs) := dname_part rrset_info rs in
  let algs :=
    if truthy algs_in_dnskey || truthy algs_in_ds || truthy algs_in_dlv
    then foldl (λ algs w, if set_in w has_dname then algs else dict_set w [] algs) []
               (witnesses (rrset_servers_clients (core rrset_info)))
    else [] in
  s ← forM (rrsig_info (core rrset_info))
        (rrsig_status_for_rrsig self rrset_info zone_name algs_in_dnskey algs_in_ds algs_in_dlv
           supported_algs)
        {| sig_store := st; sig_rs := rs;
           sig_roles := (ksks (na_st na), zsks (na_st na)); algs_signing_rrset := algs |};
  (* list errors for rrsets with which no RRSIGs were returned or not all
     algorithms were accounted for *)
  rs ← missing_rrsig_errors (sig_store s) rrset_info qname_obj algs_in_dnskey algs_in_ds
         algs_in_dlv (algs_signing_rrset s) (sig_rs s);
  Ok (update self (λ x, set_zsks (sig_roles s).2 (set_ksks (sig_roles s).1
                          (set_rrset_state (Some rs) x))) (sig_store s)).

(** The last part of [_populate_rrsig_status]: the response errors of every
    witness of the RRset. *)
Definition rrset_response_errors (st : gmap string NA) (self : string) (rrset_info : RRsetInfo)
    (qname_obj : option string) : Result (gmap string NA) :=
  rs ← rrset_state_of st self;
  rs ← forM (witnesses (rrset_servers_clients (core rrset_info))) (λ '(server, client, response) rs,
    warnings ← subscript "rrset_warnings[rrset_info]" (dict_get (rid rrset_info) (rrset_warnings rs));
    errors ← subscript "rrset_errors[rrset_info]" (dict_get (rid rrset_info) (rrset_errors rs));
    '(warnings, errors) ←
      _populate_response_errors st qname_obj response server client warnings errors;
    Ok (set_rrset_errors (dict_set (rid rrset_info) errors (rrset_errors rs))
          (set_rrset_warnings (dict_set (rid rrset_info) warnings (rrset_warnings rs)) rs))) rs;
  Ok (put_rrset_state self rs st).

(** [_populate_rrsig_status] of the RRset of an NSEC set, which has no
    wildcard information of its own. *)
Definition _populate_rrsig_status_plain (st : gmap string NA) (self : string) (query_rdtype : Z)
    (rrset_info : RRsetCore) (qname_obj : option string) (supported_algs : list Z)
    (populate_response_errors : bool) : Result (gmap string NA) :=
  st ← rrsig_status_body st self query_rdtype (plain_rrset_info rrset_info) qname_obj supported_algs;
  if populate_response_errors
  then rrset_response_errors st self (plain_rrset_info rrset_info) qname_obj
  else Ok st.

(** [Status.NSECStatus...(...)] of the class [cls]. *)
Definition new_NSECStatus (cls : NSECStatusClass) (qname : string) (wildcard_name : option string)
    (rdtype : Z) (origin : option string) (nsec_set_info : NSECSetInfo) : NSECStatus :=
  {| nsec_status_class := cls; nsec_status_qname := qname;
     nsec_status_wildcard_name := wildcard_name; nsec_status_rdtype := rdtype;
     nsec_status_origin := origin; nsec_status_nsec_set_info := nsec_set_info;
     nsec_validation_status :=
       NSECStatus_validation_status cls qname wildcard_name rdtype origin nsec_set_info |}.

(** [if status not in statuses: statuses.append(status)] *)
Definition append_new {A} `{EqDecision A} (x : A) (l : list A) : list A :=
  if decide (x ∈ l) then l else l ++ [x].

(** The bookkeeping of one NSEC set for its witnesses, shared by the
    wildcard and the negative response proofs: a witness with an NSEC set
    is no longer missing one; a valid status clears the witness, another
    status is kept for it when [keep] holds of its response. *)
Definition nsec_witnesses (status : NSECStatus) (keep : Response → bool)
    (acc : list (string * string * Response) * list ((string * string * Response) * NSECStatus))
    (w : string * string * Response)
    : list (string * string * Response) * list ((string * string * Response) * NSECStatus) :=
  let '(servers_missing_nsec, status_by_response) := acc in
  let servers_missing_nsec := set_discard w servers_missing_nsec in
  if decide (nsec_validation_status status = Status.NSEC_STATUS_VALID)
  then (servers_missing_nsec, dict_del w status_by_response)
  else if keep w.2 then (servers_missing_nsec, dict_set w status status_by_response)
  else (servers_missing_nsec, status_by_response).

Definition _populate_wildcard_status (st : gmap string NA) (self : string) (query_rdtype : Z)
    (rrset_info : RRsetInfo) (qname_obj : option string) (supported_algs : list Z)
    : Result (gmap string NA) :=
  forM (wildcard_info rrset_info) (λ '(wildcard_name, wildcard) st,
    zone_name ←
      match qname_obj with
      | None => Raise (ImplicitError "NameError: wildcard_info")
      | Some _ => zone_name_of st qname_obj
      end;
    let servers_missing_nsec := set_update [] (witnesses (wildcard_servers_clients wildcard)) in
    '(st, statuses, servers_missing_nsec, status_by_response) ←
      forM (wildcard_nsec_set_info wildcard)
        (λ nsec_set_info '(st, statuses, servers_missing_nsec, status_by_response),
          let status :=
            new_NSECStatus (if use_nsec3 nsec_set_info then NSEC3StatusWildcard else NSECStatusWildcard)
              (rrset_name (rrset (core rrset_info))) (Some wildcard_name)
              (rrset_rdtype (rrset (core rrset_info))) (Some zone_name) nsec_set_info in
          st ← forM (nsec_rrsets nsec_set_info) (λ '(_, nsec_rrset_info) st,
                 _populate_rrsig_status_plain st self query_rdtype nsec_rrset_info qname_obj
                   supported_algs true) st;
          let statuses :=
            if decide (nsec_validation_status status = Status.NSEC_STATUS_VALID)
            then append_new status statuses else statuses in
          let '(servers_missing_nsec, status_by_response) :=
            foldl (nsec_witnesses status (λ _, true)) (servers_missing_nsec, status_by_response)
                  (witnesses (nsec_servers_clients nsec_set_info)) in
          Ok (st, statuses, servers_missing_nsec, status_by_response))
        (st, [], servers_missing_nsec, []);
    let statuses := foldl (λ statuses '(_, status), append_new status statuses)
                          statuses status_by_response in
    rs ← rrset_state_of st self;
    let rs := set_wildcard_status (dict_set (wildcard_id wildcard) statuses (wildcard_status rs)) rs in
    (* by definition, DNSSEC was requested, so no need to check for DO bit *)
    rs ← forM servers_missing_nsec (insert_rrset_error rrset_info Errors.MissingNSECForWildcard) rs;
    Ok (put_rrset_state self rs st)) st.

Definition _populate_rrsig_status (st : gmap string NA) (self : string) (query_rdtype : Z)
    (rrset_info : RRsetInfo) (qname_obj : option string) (supported_algs : list Z)
    (populate_response_errors : bool) : Result (gmap string NA) :=
  st ← rrsig_status_body st self query_rdtype rrset_info qname_obj supported_algs;
  st ← _populate_wildcard_status st self query_rdtype rrset_info qname_obj supported_algs;
  if populate_response_errors
  then rrset_response_errors st self rrset_info qname_obj
  else Ok st.

(** ** [_populate_invalid_response_status] and [_populate_rrsig_status_all] *)

(** The number of attempts of a timeout: one more than the entries at the
    end of the history that follow the last change of transport. *)
Fixpoint timeout_attempts (reversed_history : list HistoryEntry) : nat :=
  match reversed_history with
  | [] => 1
  | h :: l =>
      if set_in (action h) [Q.RETRY_ACTION_USE_TCP; Q.RETRY_ACTION_USE_UDP] then 1
      else S (timeout_attempts l)
  end.

(** The errors of one witness of an [error_info]: the tests on the code are
    independent [if]s. *)
Definition invalid_response_errors (error_info : ErrorInfo)
    (errors : list DomainNameAnalysisError) (w : string * string * Response)
    : list DomainNameAnalysisError :=
  let '(server, client, response) := w in
  let tcp := effective_tcp response in
  let add (code : Q.ResponseErrorCode) (err : Errors.ErrKind) errors :=
    if decide (error_info_code error_info = code)
    then insert_witness err server client response errors else errors in
  let errors := add Q.RESPONSE_ERROR_NETWORK_ERROR
                  (Errors.NetworkError tcp (errno_errorcode (error_info_arg error_info)) false) errors in
  let errors := add Q.RESPONSE_ERROR_FORMERR
                  (Errors.FormError tcp (msg_size response) false) errors in
  let errors := add Q.RESPONSE_ERROR_TIMEOUT
                  (Errors.Timeout tcp (timeout_attempts (rev (history response))) false) errors in
  let errors := add Q.RESPONSE_ERROR_OTHER (Errors.UnknownResponseError tcp false) errors in
  add Q.RESPONSE_ERROR_INVALID_RCODE
    (Errors.InvalidRcode tcp (Some (message_rcode response)) false) errors.

Definition _populate_invalid_response_status (query : Query) (rs : RRsetState) : RRsetState :=
  set_response_errors
    (dict_set (query_id query)
       (foldl (λ errors error_info,
                 foldl (invalid_response_errors error_info) errors
                       (witnesses (error_info_servers_clients error_info)))
              [] (error_info query))
       (response_errors rs)) rs.

(** [items_to_validate] for the answers of a query. *)
Definition items_to_validate (query : Query) : list RRsetInfo :=
  answer_info query ≫= λ rrset_info,
    [rrset_info]
    ++ match dname_info rrset_info with Some d => [plain_rrset_info d] | None => [] end
    ++ (cname_info_from_dname rrset_info ≫= λ cname_rrset_info_,
          [plain_rrset_info (cfd_dname_info cname_rrset_info_); cname_rrset_info cname_rrset_info_]).

Definition _populate_rrsig_status_all (st : gmap string NA) (self : string)
    (supported_algs : list Z) (level : Z) : Result (gmap string NA) :=
  na ← deref st self;
  let st :=
    update self (set_rrset_state
      (Some {| rrset_warnings := []; rrset_errors := []; rrsig_status := [];
               dname_status := []; wildcard_status := []; response_errors := [] |})) st in
  let st :=
    if is_zone (na_in na)
    then update self (λ s, set_ksks (Some []) (set_zsks (Some []) s)) st
    else st in
  forM (queries (na_in na)) (λ '((qname, rdtype), query) st,
    if qname_excluded (na_in na) level qname then Ok st else
    if rdtype_excluded (_rdtypes_for_analysis_level (na_in na) level) rdtype then Ok st else
    st ← forM (items_to_validate query) (λ rrset_info st,
           qname_obj ← qname_obj_for st (na_in na) (rrset_name (rrset (core rrset_info))) rdtype;
           _populate_rrsig_status st self (rdtype_of query) rrset_info qname_obj
             supported_algs true) st;
    rs ← rrset_state_of st self;
    Ok (put_rrset_state self (_populate_invalid_response_status query rs) st)) st.

(** ** [_finalize_key_roles] *)

(** [a.union(b)] *)
Definition union {A} `{EqDecision A} (a b : list A) : list A := set_update a b.

Definition _finalize_key_roles (st : gmap string NA) (self : string) : Result (gmap string NA) :=
  na ← deref st self;
  if is_zone (na_in na) then
    '(st, dnskeys) ← get_dnskeys st self;
    na ← deref st self;
    zsks ← subscript "zsks" (zsks (na_st na));
    ksks ← subscript "ksks" (ksks (na_st na));
    let published := difference dnskeys (union zsks ksks) in
    let revoked := filter (λ x, has_flag (dnskey_flags (dnskey_rdata x)) DNSKEY_FLAGS_revoke = true)
                          dnskeys in
    Ok (update self (λ s, set_revoked_keys (Some revoked) (set_published_keys (Some published) s)) st)
  else Ok st.

(** ** [_populate_negative_response_status] *)

(** Modelled from the spec: [err.remove_server_client(server, client,
    response)].  errors.py is missing; the witness leaves the witness set of
    the error, and a (server, client) without responses leaves it too. *)
Definition remove_server_client (server client : string) (response : option Response)
    (err : DomainNameAnalysisError) : DomainNameAnalysisError :=
  match dict_get (server, client) (err_servers_clients err) with
  | None => err
  | Some rs =>
      let rs := set_discard response rs in
      {| err_kind := err_kind err;
         err_servers_clients :=
           if truthy rs then dict_set (server, client) rs (err_servers_clients err)
           else dict_del (server, client) (err_servers_clients err) |}
  end.

(** The NotAuthoritative notices of a list lose the witnesses of the
    upward referral error; a notice left without witnesses is removed.  (A
    list built by [insert_into_list] holds at most one such notice.) *)
Definition remove_upward_referral_witnesses (upward_referral_error : DomainNameAnalysisError)
    (notices : list DomainNameAnalysisError) : list DomainNameAnalysisError :=
  omap (λ notice,
    if decide (err_kind notice = Errors.NotAuthoritative) then
      let notice :=
        foldl (λ notice '((server, client), responses),
                 foldl (λ notice response, remove_server_client server client response notice)
                       notice responses)
              notice (err_servers_clients upward_referral_error) in
      if truthy (err_servers_clients notice) then Some notice else None
    else Some notice) notices.

(** The loop variables [server], [client] and [response], which the source
    reads after the loops that bind them: None while unbound. *)
Record LoopVars := {
  var_server_client : option (string * string);
  var_response : option (option Response);
}.

(** The variables after
    [for server, client in sc: for response in sc[(server, client)]]. *)
Definition bind_loop_vars {R} (some : R → option Response) (sc : list ((string * string) * list R))
    (v : LoopVars) : LoopVars :=
  foldl (λ v '(k, responses),
           {| var_server_client := Some k;
              var_response := match last responses with
                              | Some r => Some (some r)
                              | None => var_response v
                              end |}) v sc.

(** The variables after [for server, client, response in s]. *)
Definition bind_loop_vars_triples (s : list (string * string * Response)) (v : LoopVars) : LoopVars :=
  match last s with
  | Some (server, client, response) =>
      {| var_server_client := Some (server, client); var_response := Some (Some response) |}
  | None => v
  end.

(** The classes the callers pass for NXDOMAIN and for NODATA. *)
Record NegativeClasses := {
  bad_soa_error_cls : string → string → Errors.ErrKind;
  missing_soa_error_cls : Errors.ErrKind;
  upward_referral_error_cls : option Errors.ErrKind;
  missing_nsec_error_cls : Errors.ErrKind;
  nsec_status_cls : NSECStatusClass;
  nsec3_status_cls : NSECStatusClass;
}.

(** [neg_response_info.qname == query.qname or
     response.recursion_desired_and_available()] *)
Definition concerns_query (query : Query) (neg_response_info : NegativeResponseInfo)
    (response : Response) : bool :=
  bool_decide (neg_qname neg_response_info = qname_of query)
  || recursion_desired_and_available response.

(** The body of [for soa_rrset_info in neg_response_info.soa_rrset_info]. *)
Definition negative_response_soa (self : string) (query : Query)
    (neg_response_info : NegativeResponseInfo) (cls : NegativeClasses)
    (qname_obj : option string) (supported_algs : list Z) (soa_rrset_info : RRsetCore)
    (acc : gmap string NA * list DomainNameAnalysisError
           * list (string * string * Response) * list ((string * string * Response) * string))
    : Result (gmap string NA * list DomainNameAnalysisError
              * list (string * string * Response) * list ((string * string * Response) * string)) :=
  let '(st, errors, servers_without_soa, soa_owner_name_for_servers) := acc in
  let soa_owner_name := rrset_name (rrset soa_rrset_info) in
  '(servers_without_soa, soa_owner_name_for_servers) ←
    forM (witnesses (rrset_servers_clients soa_rrset_info)) (λ w '(without, owners),
      if set_in w without
      then Ok (set_discard w without, dict_set w soa_owner_name owners)
      else Raise (ImplicitError "KeyError: servers_without_soa.remove"))
      (servers_without_soa, soa_owner_name_for_servers);
  zone_name ← zone_name_of st qname_obj;
  let errors :=
    if decide (soa_owner_name ≠ zone_name) then
      let '(errors, i) :=
        insert_into_list (bad_soa_error_cls cls soa_owner_name zone_name) errors None None None in
      if decide (neg_qname neg_response_info = qname_of query)
      then alter (servers_clients_update (rrset_servers_clients soa_rrset_info)) i errors
      else
        foldl (λ errors '(server, client, response),
                 if recursion_desired_and_available response
                 then alter (add_server_client server client (Some response)) i errors
                 else errors)
              errors (witnesses (rrset_servers_clients soa_rrset_info))
    else errors in
  (* Evaluating the RRSIGs covering SOA records only makes sense if the
     query type is not DNSKEY *)
  st ←
    (if decide (neg_rdtype neg_response_info ≠ rdatatype.DNSKEY) then
       na ← deref st self;
       _populate_rrsig_status_plain st self (rdtype_of query) soa_rrset_info
         (get_name (na_in na) soa_owner_name) supported_algs false
     else
       rs ← rrset_state_of st self;
       Ok (put_rrset_state self (_initialize_rrset_status (plain_rrset_info soa_rrset_info) rs) st));
  Ok (st, errors, servers_without_soa, soa_owner_name_for_servers).

(** The function returns [statuses]; the result here holds the store and the
    lists [warnings] and [errors] of the caller as well. *)
Definition _populate_negative_response_status (st : gmap string NA) (self : string)
    (query : Query) (neg_response_info : NegativeResponseInfo) (cls : NegativeClasses)
    (warnings errors : list DomainNameAnalysisError) (supported_algs : list Z)
    : Result (gmap string NA * list DomainNameAnalysisError * list DomainNameAnalysisError
              * list NSECStatus) :=
  na ← deref st self;
  let qname_obj := get_name (na_in na) (neg_qname neg_response_info) in
  qname_obj ←
    (if decide (rdtype_of query = rdatatype.DS)
     then q ← subscript "qname_obj.parent" qname_obj; p ← deref st q; Ok (parent (na_in p))
     else Ok qname_obj);
  let all_witnesses := witnesses (neg_servers_clients neg_response_info) in
  let servers_without_soa := set_update [] all_witnesses in
  let servers_missing_nsec := set_update [] all_witnesses in
  '(warnings, errors) ←
    forM all_witnesses (λ '(server, client, response) '(warnings, errors),
      _populate_response_errors st qname_obj response server client warnings errors)
      (warnings, errors);
  let vars := bind_loop_vars Some (neg_servers_clients neg_response_info)
                {| var_server_client := None; var_response := None |} in
  '(st, errors, servers_without_soa, soa_owner_name_for_servers) ←
    forM (soa_rrset_info neg_response_info)
      (negative_response_soa self query neg_response_info cls qname_obj supported_algs)
      (st, errors, servers_without_soa, []);
  let vars := foldl (λ v soa, bind_loop_vars Some (rrset_servers_clients soa) v) vars
                    (soa_rrset_info neg_response_info) in
  errors ←
    forM servers_without_soa (λ '(server, client, response) errors,
      if concerns_query query neg_response_info response then
        (* check for an upward referral *)
        upward ←
          match upward_referral_error_cls cls with
          | None => Ok None
          | Some e =>
              zone_name ← zone_name_of st qname_obj;
              Ok (if is_upward_referral response zone_name then Some e else None)
          end;
        match upward with
        | Some e => Ok (insert_witness e server client response errors)
        | None => Ok (insert_witness (missing_soa_error_cls cls) server client response errors)
        end
      else Ok errors) errors;
  let vars := bind_loop_vars_triples servers_without_soa vars in
  let '(warnings, errors, vars) :=
    match upward_referral_error_cls cls with
    | None => (warnings, errors, vars)
    | Some e =>
        match error_index e errors ≫= λ index, errors !! index with
        | None => (warnings, errors, vars)
        | Some upward_referral_error =>
            let has_notice (notices : list DomainNameAnalysisError) :=
              bool_decide (Exists (λ n, err_kind n = Errors.NotAuthoritative) notices) in
            (remove_upward_referral_witnesses upward_referral_error warnings,
             remove_upward_referral_witnesses upward_referral_error errors,
             if has_notice errors || has_notice warnings
             then bind_loop_vars id (err_servers_clients upward_referral_error) vars
             else vars)
        end
    end in
  (* Evaluating NSEC records only makes sense if the query type is not DNSKEY *)
  if decide (neg_rdtype neg_response_info ≠ rdatatype.DNSKEY) then
    '(st, statuses, servers_missing_nsec, status_by_response, _) ←
      forM (nsec_set_info neg_response_info)
        (λ nsec_set_info '(st, statuses, servers_missing_nsec, status_by_response, vars),
          (* the key [(server, client, response)] is read from the
             variables the loops before left *)
          sc ← subscript "NameError: server" (var_server_client vars);
          r ← subscript "NameError: response" (var_response vars);
          zone_name ← zone_name_of st qname_obj;
          let origin :=
            default zone_name (r ≫= λ r, dict_get (sc.1, sc.2, r) soa_owner_name_for_servers) in
          let status :=
            new_NSECStatus
              (if use_nsec3 nsec_set_info then nsec3_status_cls cls else nsec_status_cls cls)
              (neg_qname neg_response_info) None (rdtype_of query) (Some origin) nsec_set_info in
          st ← forM (nsec_rrsets nsec_set_info) (λ '(_, nsec_rrset_info) st,
                 _populate_rrsig_status_plain st self (rdtype_of query) nsec_rrset_info qname_obj
                   supported_algs false) st;
          let statuses :=
            if decide (nsec_validation_status status = Status.NSEC_STATUS_VALID)
            then append_new status statuses else statuses in
          let '(servers_missing_nsec, status_by_response) :=
            foldl (nsec_witnesses status (concerns_query query neg_response_info))
                  (servers_missing_nsec, status_by_response)
                  (witnesses (nsec_servers_clients nsec_set_info)) in
          Ok (st, statuses, servers_missing_nsec, status_by_response,
              bind_loop_vars Some (nsec_servers_clients nsec_set_info) vars))
        (st, [], servers_missing_nsec, [], vars);
    let statuses := foldl (λ statuses '(_, status), append_new status statuses)
                          statuses status_by_response in
    errors ←
      forM servers_missing_nsec (λ '(server, client, response) errors,
        (* report that no NSEC(3) records were returned *)
        q ← subscript "qname_obj.zone" qname_obj;
        z ← zone_of st q;
        if _signed (na_in z) && concerns_query query neg_response_info response then
          if dnssec_requested response
          then Ok (insert_witness (missing_nsec_error_cls cls) server client response errors)
          else if server_responsive_with_do (na_in z) server (Some client)
          then Ok (insert_witness Errors.UnableToRetrieveDNSSECRecords server client response errors)
          else Ok errors
        else Ok errors) errors;
    Ok (st, warnings, errors, statuses)
  else Ok (st, warnings, errors, []).

(** ** [_populate_nodata_status] and [_populate_nxdomain_status] *)

Definition set_neg_status (v : list (NegativeResponseInfo * list NSECStatus)) (s : NegState) :=
  {| neg_status := v; neg_warnings := neg_warnings s; neg_errors := neg_errors s |}.
Definition set_neg_warnings (v : list (NegativeResponseInfo * list DomainNameAnalysisError))
    (s : NegState) :=
  {| neg_status := neg_status s; neg_warnings := v; neg_errors := neg_errors s |}.
Definition set_neg_errors (v : list (NegativeResponseInfo * list DomainNameAnalysisError))
    (s : NegState) :=
  {| neg_status := neg_status s; neg_warnings := neg_warnings s; neg_errors := v |}.

Definition nxdomain_classes : NegativeClasses :=
  {| bad_soa_error_cls := Errors.SOAOwnerNotZoneForNXDOMAIN;
     missing_soa_error_cls := Errors.MissingSOAForNXDOMAIN;
     upward_referral_error_cls := None;
     missing_nsec_error_cls := Errors.MissingNSECForNXDOMAIN;
     nsec_status_cls := NSECStatusNXDOMAIN;
     nsec3_status_cls := NSEC3StatusNXDOMAIN |}.

Definition nodata_classes : NegativeClasses :=
  {| bad_soa_error_cls := Errors.SOAOwnerNotZoneForNODATA;
     missing_soa_error_cls := Errors.MissingSOAForNODATA;
     upward_referral_error_cls := Some Errors.UpwardReferral;
     missing_nsec_error_cls := Errors.MissingNSECForNODATA;
     nsec_status_cls := NSECStatusNoAnswer;
     nsec3_status_cls := NSEC3StatusNoAnswer |}.

(** The three statements that classify one negative response: the warnings
    and errors of the response start empty, the classification fills them
    and returns the statuses.  [get] and [set] select [nodata_*] or
    [nxdomain_*]. *)
Definition classify_negative_response (get : NAState → option NegState)
    (set : option NegState → NAState → NAState) (cls : NegativeClasses)
    (st : gmap string NA) (self : string) (query : Query)
    (neg_response_info : NegativeResponseInfo) (supported_algs : list Z)
    : Result (gmap string NA) :=
  na ← deref st self;
  ns ← subscript "warnings" (get (na_st na));
  let ns := set_neg_errors (dict_set neg_response_info [] (neg_errors ns))
              (set_neg_warnings (dict_set neg_response_info [] (neg_warnings ns)) ns) in
  let st := update self (set (Some ns)) st in
  '(st, warnings, errors, statuses) ←
    _populate_negative_response_status st self query neg_response_info cls [] [] supported_algs;
  let ns := set_neg_status (dict_set neg_response_info statuses (neg_status ns))
              (set_neg_errors (dict_set neg_response_info errors (neg_errors ns))
                 (set_neg_warnings (dict_set neg_response_info warnings (neg_warnings ns)) ns)) in
  Ok (update self (set (Some ns)) st).

Definition empty_neg_state : NegState :=
  {| neg_status := []; neg_warnings := []; neg_errors := [] |}.

Definition _populate_nodata_status (st : gmap string NA) (self : string)
    (supported_algs : list Z) (level : Z) : Result (gmap string NA) :=
  na ← deref st self;
  let st := update self (set_nodata_state (Some empty_neg_state)) st in
  forM (queries (na_in na)) (λ '((qname, rdtype), query) st,
    if qname_excluded (na_in na) level qname then Ok st else
    if rdtype_excluded (_rdtypes_for_analysis_level (na_in na) level) rdtype then Ok st else
    forM (nodata_info query) (λ neg_response_info st,
      classify_negative_response nodata_state set_nodata_state nodata_classes st self query
        neg_response_info supported_algs) st) st.

(** [set(a).intersection(b)] of the keys of two witness mappings. *)
Definition shared_servers_clients (a b : ServersClients) : list (string * string) :=
  filter (λ k, k ∈ dict_keys b) (set_update [] (dict_keys a)).

(** The (server, client, response) triples of
    [for server, client in shared_servers_clients:
       for response in neg_response_info.servers_clients[(server, client)]]. *)
Definition shared_witnesses (neg_response_info : NegativeResponseInfo)
    (shared : list (string * string)) : list (string * string * Response) :=
  shared ≫= λ '(server, client),
    (λ response, (server, client, response)) <$>
      default [] (dict_get (server, client) (neg_servers_clients neg_response_info)).

(** What the check does to one list of warnings: the error enters the list
    (if it is not in it) and receives the witnesses.  The source interleaves
    the steps on the two lists it changes ([err1] and [err2] are inserted,
    then each witness is added to both); the lists are distinct objects, so
    each is changed as here. *)
Definition attach_error (err : Errors.ErrKind) (ws : list (string * string * Response))
    (warnings : list DomainNameAnalysisError) : list DomainNameAnalysisError :=
  let '(warnings, i) := insert_into_list err warnings None None None in
  foldl (λ warnings '(server, client, response),
           alter (add_server_client server client (Some response)) i warnings) warnings ws.

Definition alter_nxdomain_warnings (self : string) (neg_response_info : NegativeResponseInfo)
    (f : list DomainNameAnalysisError → list DomainNameAnalysisError) (st : gmap string NA)
    : Result (gmap string NA) :=
  na ← deref st self;
  ns ← subscript "nxdomain_warnings" (nxdomain_state (na_st na));
  l ← subscript "nxdomain_warnings[neg_response_info]" (dict_get neg_response_info (neg_warnings ns));
  Ok (update self (set_nxdomain_state
        (Some (set_neg_warnings (dict_set neg_response_info (f l) (neg_warnings ns)) ns))) st).

Definition alter_nodata_warnings (self : string) (neg_response_info : NegativeResponseInfo)
    (f : list DomainNameAnalysisError → list DomainNameAnalysisError) (st : gmap string NA)
    : Result (gmap string NA) :=
  na ← deref st self;
  ns ← subscript "nodata_warnings" (nodata_state (na_st na));
  l ← subscript "nodata_warnings[neg_response_info2]" (dict_get neg_response_info (neg_warnings ns));
  Ok (update self (set_nodata_state
        (Some (set_neg_warnings (dict_set neg_response_info (f l) (neg_warnings ns)) ns))) st).

Definition alter_rrset_warnings (self : string) (rrset_info : RRsetInfo)
    (f : list DomainNameAnalysisError → list DomainNameAnalysisError) (st : gmap string NA)
    : Result (gmap string NA) :=
  rs ← rrset_state_of st self;
  l ← subscript "rrset_warnings[rrset_info]" (dict_get (rid rrset_info) (rrset_warnings rs));
  Ok (put_rrset_state self
        (set_rrset_warnings (dict_set (rid rrset_info) (f l) (rrset_warnings rs)) rs) st).

(** The body of the loop over [(qname2, rdtype2), query2] of the check for
    NOERROR/NXDOMAIN inconsistencies. *)
Definition inconsistent_nxdomain_query (self : string) (rdtype : Z)
    (neg_response_info : NegativeResponseInfo) (required_rdtypes : option (list (option Z)))
    (item : (string * Z) * Query) (st : gmap string NA) : Result (gmap string NA) :=
  let '((qname2, rdtype2), query2) := item in
  if set_in rdtype2 [rdatatype.DS; rdatatype.DLV] then Ok st else
  if rdtype_excluded required_rdtypes rdtype2 then Ok st else
  let err := Errors.InconsistentNXDOMAIN (neg_qname neg_response_info) rdtype (rdtype_of query2) in
  st ← forM (filter (λ x, rrset_name (rrset (core x)) = neg_qname neg_response_info)
                    (answer_info query2))
         (λ rrset_info st,
           let shared := shared_servers_clients (rrset_servers_clients (core rrset_info))
                           (neg_servers_clients neg_response_info) in
           if truthy shared then
             let ws := shared_witnesses neg_response_info shared in
             st ← alter_nxdomain_warnings self neg_response_info (attach_error err ws) st;
             alter_rrset_warnings self rrset_info (attach_error err ws) st
           else Ok st) st;
  forM (filter (λ x, neg_qname x = neg_qname neg_response_info) (nodata_info query2))
    (λ neg_response_info2 st,
      let shared := shared_servers_clients (neg_servers_clients neg_response_info2)
                      (neg_servers_clients neg_response_info) in
      if truthy shared then
        let ws := shared_witnesses neg_response_info shared in
        st ← alter_nxdomain_warnings self neg_response_info (attach_error err ws) st;
        alter_nodata_warnings self neg_response_info2 (attach_error err ws) st
      else Ok st) st.

(** The check for NOERROR/NXDOMAIN inconsistencies that follows the
    classification of an NXDOMAIN response of the query (qname, rdtype). *)
Definition inconsistent_nxdomain (self : string) (rdtype : Z)
    (neg_response_info : NegativeResponseInfo) (required_rdtypes : option (list (option Z)))
    (st : gmap string NA) : Result (gmap string NA) :=
  na ← deref st self;
  ns ← subscript "yxdomain" (name_state (na_st na));
  if set_in (neg_qname neg_response_info) (yxdomain ns)
     && negb (set_in rdtype [rdatatype.DS; rdatatype.DLV])
  then forM (queries (na_in na))
         (inconsistent_nxdomain_query self rdtype neg_response_info required_rdtypes) st
  else Ok st.

Definition _populate_nxdomain_status (st : gmap string NA) (self : string)
    (supported_algs : list Z) (level : Z) : Result (gmap string NA) :=
  na ← deref st self;
  let st := update self (set_nxdomain_state (Some empty_neg_state)) st in
  let required_rdtypes := _rdtypes_for_analysis_level (na_in na) level in
  forM (queries (na_in na)) (λ '((qname, rdtype), query) st,
    if qname_excluded (na_in na) level qname then Ok st else
    if rdtype_excluded required_rdtypes rdtype then Ok st else
    forM (nxdomain_info query) (λ neg_response_info st,
      st ← classify_negative_response nxdomain_state set_nxdomain_state nxdomain_classes st self
             query neg_response_info supported_algs;
      (* check for NOERROR/NXDOMAIN inconsistencies *)
      inconsistent_nxdomain self rdtype neg_response_info required_rdtypes st) st) st.

(** ** [_populate_ds_status] *)

(** The state of the loop over the DS RRsets: the maps of [self] for the
    record type (DS or DLV), and [secure_path]. *)
Record DSState := {
  by_ds : list (DSRdata * list (option DNSKEYRef * DSStatus));
  by_dnskey : list (option DNSKEYRef * list (DSRdata * DSStatus));
  errors_of : list DomainNameAnalysisError;
  status_of : option Status.DelegationStatus;
  secure_path : bool;
}.

Definition set_by_ds v (s : DSState) : DSState :=
  {| by_ds := v; by_dnskey := by_dnskey s; errors_of := errors_of s;
     status_of := status_of s; secure_path := secure_path s |}.
Definition set_by_dnskey v (s : DSState) : DSState :=
  {| by_ds := by_ds s; by_dnskey := v; errors_of := errors_of s;
     status_of := status_of s; secure_path := secure_path s |}.
Definition set_errors_of v (s : DSState) : DSState :=
  {| by_ds := by_ds s; by_dnskey := by_dnskey s; errors_of := v;
     status_of := status_of s; secure_path := secure_path s |}.
Definition set_status_of v (s : DSState) : DSState :=
  {| by_ds := by_ds s; by_dnskey := by_dnskey s; errors_of := errors_of s;
     status_of := v; secure_path := secure_path s |}.
Definition set_secure_path v (s : DSState) : DSState :=
  {| by_ds := by_ds s; by_dnskey := by_dnskey s; errors_of := errors_of s;
     status_of := status_of s; secure_path := v |}.

(** [Status.DSStatus(ds, ds_meta, dnskey, supported_digest_algs)] *)
Definition new_DSStatus (ds : DSRdata) (ds_meta : RRsetInfo) (dnskey : option DNSKEYRef)
    (supported_digest_algs : list Z) : DSStatus :=
  {| ds_status_ds := ds; ds_status_ds_meta := ds_meta; ds_status_dnskey := dnskey;
     digest_valid := DSStatus_digest_valid ds ds_meta dnskey supported_digest_algs;
     ds_validation_status := DSStatus_validation_status ds ds_meta dnskey supported_digest_algs |}.

(** The responses to the DNSKEY queries that are valid, complete and not
    referrals. *)
Definition dnskey_server_client_responses (self : NAInput) (dnskey_multiquery : Query)
    : list (string * string * Response) :=
  foldl (λ acc dnskey_query,
    foldl (λ acc '(server, clients),
      let bailiwick :=
        match dict_get server (bailiwick_map self) with
        | Some b => Some b
        | None => default_bailiwick self
        end in
      foldl (λ acc '(client, response),
        if is_valid_response response && is_complete_response response
           && negb (is_referral response (na_name self) rdatatype.DNSKEY bailiwick false)
        then set_add (server, client, response) acc else acc) acc clients)
      acc (responses dnskey_query)) [] (queries_of dnskey_multiquery).

(** [ds_algs] and [supported_ds_algs] of a DS RRset. *)
Definition ds_algs_of (ds_rrset_info : RRsetInfo) : list Z :=
  foldl (λ acc ds, set_add (ds_algorithm ds) acc) [] (rrset_dss (rrset (core ds_rrset_info))).

Definition supported_ds_algs_of (ds_rrset_info : RRsetInfo)
    (supported_algs supported_digest_algs : list Z) : list Z :=
  foldl (λ acc ds,
           if set_in (ds_algorithm ds) supported_algs
              && set_in (ds_digest_type ds) supported_digest_algs
           then set_add (ds_algorithm ds) acc else acc)
        [] (rrset_dss (rrset (core ds_rrset_info))).

(** [algs[w].add(alg); if not ds_algs.difference(algs[w]): del algs[w]]
    for a witness in [algs]. *)
Definition account_sep (ds_algs : list Z) (alg : Z) (w : string * string * Response)
    (algs : list ((string * string * Response) * list Z))
    : list ((string * string * Response) * list Z) :=
  match dict_get w algs with
  | None => algs
  | Some a =>
      let a := set_add alg a in
      if truthy (difference ds_algs a) then dict_set w a algs else dict_del w algs
  end.

(** The pair [algs_signing_sep], [algs_validating_sep]. *)
Abbreviation SEPAlgs :=
  (list ((string * string * Response) * list Z) * list ((string * string * Response) * list Z))%type
  (only parsing).

(** The body of [for rrsig in dnskey_info.rrsig_info] for a DNSKEY that
    matches the DS. *)
Definition sep_for_rrsig (na : NA) (dnskey_info : RRsetInfo) (dnskey : DNSKEYRef)
    (ds_status : DSStatus) (ds_algs : list Z) (item : RRSIG * ServersClients) (algs : SEPAlgs)
    : Result SEPAlgs :=
  let '(rrsig, rrsig_servers_clients) := item in
  rs ← subscript "rrsig_status" (rrset_state (na_st na));
  by_rrsig ← subscript "rrsig_status[dnskey_info]" (dict_get (rid dnskey_info) (rrsig_status rs));
  by_key ← subscript "rrsig_status[dnskey_info][rrsig]" (dict_get rrsig by_rrsig);
  (* move along if DNSKEY is not self-signing *)
  match dict_get (Some dnskey) by_key with
  | None => Ok algs
  | Some rrsig_status =>
      (* move along if key tag is not the same (i.e., revoke) *)
      if decide (key_tag (dnskey_rdata dnskey) ≠ rrsig_key_tag rrsig) then Ok algs else
      Ok (foldl (λ '(signing, validating) w,
            (* note that this algorithm is part of a self-signing DNSKEY *)
            let signing := account_sep ds_algs (rrsig_algorithm rrsig) w signing in
            (* if the DS digest and the RRSIG are both valid, mark it as a SEP *)
            let validating :=
              if bool_decide (ds_validation_status ds_status = Status.DS_STATUS_VALID)
                 && bool_decide (rrsig_validation_status rrsig_status = Status.RRSIG_STATUS_VALID)
              then account_sep ds_algs (rrsig_algorithm rrsig) w validating
              else validating in
            (signing, validating)) algs (witnesses rrsig_servers_clients))
  end.

(** The body of [for dnskey_info in dnskey_multiquery.answer_info] for one
    DS. *)
Definition ds_status_for_dnskey_info (self : string) (na : NA)
    (ds_rrset_info : RRsetInfo) (ds_rdata : DSRdata) (ds_algs : list Z)
    (supported_digest_algs : list Z) (dnskey_info : RRsetInfo) (acc : DSState * SEPAlgs)
    : Result (DSState * SEPAlgs) :=
  (* there are CNAMEs that show up here... *)
  if negb (bool_decide (rrset_name (rrset (core dnskey_info)) = na_name (na_in na))
           && bool_decide (rrset_rdtype (rrset (core dnskey_info)) = rdatatype.DNSKEY))
  then Ok acc else
  '(s, algs, created) ←
    forM (rrset_dnskeys (rrset (core dnskey_info))) (λ dnskey_rdata '(s, algs, created),
      idx ← subscript "_dnskeys" (dnskey_index (na_st na));
      _ ← subscript "_dnskeys[dnskey_rdata]" (dict_get dnskey_rdata (_dnskeys idx));
      let dnskey := {| dnskey_owner := self; dnskey_rdata := dnskey_rdata |} in
      let s := if dict_has (Some dnskey) (by_dnskey s) then s
               else set_by_dnskey (dict_set (Some dnskey) [] (by_dnskey s)) s in
      (* if the key tag doesn't match, then go any farther *)
      if negb (set_in (ds_key_tag ds_rdata) [key_tag dnskey_rdata; key_tag_no_revoke dnskey_rdata]
               && bool_decide (ds_algorithm ds_rdata = dnskey_algorithm dnskey_rdata))
      then Ok (s, algs, created) else
      (* check if the digest is a match *)
      let ds_status := new_DSStatus ds_rdata ds_rrset_info (Some dnskey) supported_digest_algs in
      algs ← forM (rrsig_info (core dnskey_info))
                (sep_for_rrsig na dnskey_info dnskey ds_status ds_algs) algs;
      Ok (s, algs, created ++ [ds_status]))
      (acc.1, acc.2, []);
  (* if we got results for multiple keys, then just select the one that validates *)
  s ← forM (select_statuses digest_valid created) (λ ds_status s,
         for_ds ← subscript "ds_status_by_ds[rdtype][ds]" (dict_get (ds_status_ds ds_status) (by_ds s));
         for_dnskey ← subscript "ds_status_by_dnskey[rdtype][dnskey]"
                        (dict_get (ds_status_dnskey ds_status) (by_dnskey s));
         Ok (set_by_dnskey
               (dict_set (ds_status_dnskey ds_status)
                  (dict_set (ds_status_ds ds_status) ds_status for_dnskey) (by_dnskey s))
               (set_by_ds
                  (dict_set (ds_status_ds ds_status)
                     (dict_set (ds_status_dnskey ds_status) ds_status for_ds) (by_ds s)) s))) s;
  Ok (s, algs).

(** The body of [for ds_rdata in ds_rrset_info.rrset]. *)
Definition ds_status_for_ds (self : string) (na : NA)
    (dnskey_multiquery : Query) (ds_rrset_info : RRsetInfo) (ds_algs : list Z)
    (supported_digest_algs : list Z) (ds_rdata : DSRdata) (acc : DSState * SEPAlgs)
    : Result (DSState * SEPAlgs) :=
  let '(s, algs) := acc in
  let s := set_by_ds (dict_set ds_rdata [] (by_ds s)) s in
  '(s, algs) ←
    forM (answer_info dnskey_multiquery)
      (ds_status_for_dnskey_info self na ds_rrset_info ds_rdata ds_algs supported_digest_algs)
      (s, algs);
  (* no corresponding DNSKEY *)
  for_ds ← subscript "ds_status_by_ds[rdtype][ds_rdata]" (dict_get ds_rdata (by_ds s));
  if truthy for_ds then Ok (s, algs) else
  let ds_status := new_DSStatus ds_rdata ds_rrset_info None supported_digest_algs in
  let s := set_by_ds (dict_set ds_rdata [(None, ds_status)] (by_ds s)) s in
  let for_none := default [] (dict_get None (by_dnskey s)) in
  Ok (set_by_dnskey (dict_set None (dict_set ds_rdata ds_status for_none) (by_dnskey s)) s, algs).

(** The body of [for ds_rrset_info in ds_rrset_answer_info]. *)
Definition ds_status_for_rrset (self : string) (na : NA) (rdtype : Z) (name : string)
    (dnskey_multiquery : Query) (dnskey_responses : list (string * string * Response))
    (supported_algs supported_digest_algs : list Z) (ds_rrset_info : RRsetInfo) (s : DSState)
    : Result DSState :=
  (* there are CNAMEs that show up here... *)
  if negb (bool_decide (rrset_name (rrset (core ds_rrset_info)) = name)
           && bool_decide (rrset_rdtype (rrset (core ds_rrset_info)) = rdtype))
  then Ok s else
  let ds_algs := ds_algs_of ds_rrset_info in
  let supported_ds_algs := supported_ds_algs_of ds_rrset_info supported_algs supported_digest_algs in
  let s := if truthy supported_ds_algs then set_secure_path true s else s in
  let empty_algs := foldl (λ algs w, dict_set w [] algs) [] dnskey_responses in
  '(s, (algs_signing_sep, algs_validating_sep)) ←
    forM (rrset_dss (rrset (core ds_rrset_info)))
      (ds_status_for_ds self na dnskey_multiquery ds_rrset_info ds_algs supported_digest_algs)
      (s, (empty_algs, empty_algs));
  if truthy dnskey_responses then
    let s :=
      if negb (truthy algs_validating_sep)
      then set_status_of (Some Status.DELEGATION_STATUS_SECURE) s
      else
        foldl (λ s '(server, client, response),
          match dict_get (server, client, response) algs_validating_sep with
          | None => set_status_of (Some Status.DELEGATION_STATUS_SECURE) s
          | Some validating =>
              if truthy (list_intersection supported_ds_algs validating)
              then set_status_of (Some Status.DELEGATION_STATUS_SECURE) s
              else if truthy supported_ds_algs
              then set_errors_of
                     (insert_witness (Errors.NoSEP rdtype) server client response (errors_of s)) s
              else s
          end) s dnskey_responses in
    (* report an error if one or more algorithms are incorrectly validated *)
    Ok (foldl (λ s '((server, client, response), signing),
          foldl (λ s alg,
                   set_errors_of
                     (insert_witness (Errors.MissingSEPForAlg alg rdtype) server client response
                        (errors_of s)) s)
                s (difference ds_algs signing)) s algs_signing_sep)
  else
    Ok (set_errors_of (insert_into_list (Errors.NoSEP rdtype) (errors_of s) None None None).1 s).

(** [self.queries[(self.name, dns.rdatatype.DNSKEY)]], or an aggregate
    without observations. *)
Definition dnskey_multiquery_of (self : NAInput) : Query :=
  default (empty_query (na_name self) rdatatype.DNSKEY)
          (dict_get (na_name self, rdatatype.DNSKEY) (queries self)).

Definition empty_ds_state : DSState :=
  {| by_ds := []; by_dnskey := []; errors_of := []; status_of := None; secure_path := false |}.

(** The state of the delegation when the loop over the DS RRsets has
    ended: [delegation_status[rdtype]] is None unless some response to the
    DNSKEY queries passed the rule for SECURE. *)
Definition ds_status_after_loop (self : string) (na : NA) (rdtype : Z) (name : string)
    (ds_rrset_answer_info : list RRsetInfo) (supported_algs supported_digest_algs : list Z)
    : Result DSState :=
  let dnskey_multiquery := dnskey_multiquery_of (na_in na) in
  forM ds_rrset_answer_info
    (ds_status_for_rrset self na rdtype name dnskey_multiquery
       (dnskey_server_client_responses (na_in na) dnskey_multiquery)
       supported_algs supported_digest_algs)
    empty_ds_state.

(** The lists of NSEC statuses of the negative responses to the DS query
    for [name]: those of [nxdomain_status], then those of [nodata_status]. *)
Definition ds_nsec_status_lists (s : NAState) (name : string) : Result (list (list NSECStatus)) :=
  nx ← subscript "nxdomain_status" (nxdomain_state s);
  nd ← subscript "nodata_status" (nodata_state s);
  let for_ds (m : list (NegativeResponseInfo * list NSECStatus)) :=
    snd <$> filter (λ nl, neg_qname nl.1 = name ∧ neg_rdtype nl.1 = rdatatype.DS) m in
  Ok (for_ds (neg_status nx) ++ for_ds (neg_status nd)).

Definition has_valid_nsec_status (lists : list (list NSECStatus)) : bool :=
  existsb (existsb (λ nsec_status,
    bool_decide (nsec_validation_status nsec_status = Status.NSEC_STATUS_VALID))) lists.

(** The statement [if self.delegation_status[rdtype] is None: ...] that
    follows the loop: the status when it has run. *)
Definition ds_status_resolved (st : gmap string NA) (na : NA) (name : string)
    (ds_rrset_answer_info : list RRsetInfo) (s : DSState) : Result Status.DelegationStatus :=
  match status_of s with
  | Some status => Ok status
  | None =>
      if truthy ds_rrset_answer_info then
        if secure_path s then Ok Status.DELEGATION_STATUS_BOGUS
        else Ok Status.DELEGATION_STATUS_INSECURE
      else
        p ← subscript "self.parent" (parent (na_in na));
        parent_na ← deref st p;
        if _signed (na_in parent_na) then
          lists ← ds_nsec_status_lists (na_st na) name;
          if has_valid_nsec_status lists then Ok Status.DELEGATION_STATUS_INSECURE
          else Ok Status.DELEGATION_STATUS_BOGUS
        else Ok Status.DELEGATION_STATUS_INSECURE
  end.

(** The conditions under which the delegation counts as lame: no servers
    (designated or stealth authoritative), none that responds, none that
    gives a valid response, or for an authoritative analysis none that
    answers authoritatively. *)
Definition lame_condition (self : NAInput) : bool :=
  if negb (truthy (get_auth_or_designated_servers self)) then true
  else if negb (truthy (get_responsive_auth_or_designated_servers self)) then true
  else if negb (truthy (get_valid_auth_or_designated_servers self)) then true
  else bool_decide (analysis_type self = ANALYSIS_TYPE_AUTHORITATIVE)
       && negb (truthy (_auth_servers_clients self)).

(** Each branch of the chain on the lame conditions changes the status
    only [if self.delegation_status[rdtype] == DELEGATION_STATUS_INSECURE]. *)
Definition ds_status_lame (self : NAInput) (status : Status.DelegationStatus)
    : Status.DelegationStatus :=
  if lame_condition self then
    if decide (status = Status.DELEGATION_STATUS_INSECURE)
    then Status.DELEGATION_STATUS_LAME else status
  else status.

(** [filter(lambda x: x.qname == name and x.rdtype == dns.rdatatype.DS,
    self.queries[(name, rdtype)].nxdomain_info)[0]], None for its
    IndexError. *)
Definition ds_nxdomain_info (name : string) (query : Query) : option NegativeResponseInfo :=
  head (filter (λ x, neg_qname x = name ∧ neg_rdtype x = rdatatype.DS) (nxdomain_info query)).

(** The last statement, for DS only: an NXDOMAIN response to the DS query
    adds the error NoNSInParent, and turns an INSECURE status into
    INCOMPLETE. *)
Definition ds_status_nxdomain (self : NAInput) (rdtype : Z) (name : string) (query : Query)
    (acc : list DomainNameAnalysisError * Status.DelegationStatus)
    : list DomainNameAnalysisError * Status.DelegationStatus :=
  let '(errors, status) := acc in
  if decide (rdtype = rdatatype.DS) then
    match ds_nxdomain_info name query with
    | None => acc
    | Some info =>
        let err := servers_clients_update (neg_servers_clients info)
                     (new_error (Errors.NoNSInParent (parent_name self))) in
        (errors ++ [err],
         if decide (status = Status.DELEGATION_STATUS_INSECURE)
         then Status.DELEGATION_STATUS_INCOMPLETE else status)
    end
  else acc.

Definition set_delegation (rdtype : Z) (s : DSState) (warnings : list DomainNameAnalysisError)
    (d : DelegState) : DelegState :=
  {| ds_status_by_ds := dict_set rdtype (by_ds s) (ds_status_by_ds d);
     ds_status_by_dnskey := dict_set rdtype (by_dnskey s) (ds_status_by_dnskey d);
     delegation_warnings := dict_set rdtype warnings (delegation_warnings d);
     delegation_errors := dict_set rdtype (errors_of s) (delegation_errors d);
     delegation_status := dict_set rdtype (status_of s) (delegation_status d) |}.

Definition _populate_ds_status (st : gmap string NA) (self : string) (rdtype : Z)
    (supported_algs supported_digest_algs : list Z) : Result (gmap string NA) :=
  if negb (set_in rdtype [rdatatype.DS; rdatatype.DLV]) then Raise ValueError_TypeNotDSorDLV else
  na ← deref st self;
  match parent (na_in na) with
  | None => Ok st
  | Some _ =>
      name ← (if decide (rdtype = rdatatype.DLV)
              then match dlv_name (na_in na) with
                   | None => Raise ValueError_NoDLVSpecified
                   | Some name => Ok name
                   end
              else Ok (na_name (na_in na)));
      d ← subscript "ds_status_by_ds" (deleg_state (na_st na));
      (* the maps of the record type start empty, the status None *)
      let d := set_delegation rdtype empty_ds_state [] d in
      match dict_get (name, rdtype) (queries (na_in na)) with
      | None =>
          (* zones should have DS queries *)
          if is_zone (na_in na) then Raise KeyError_NoDSQuery
          else Ok (update self (set_deleg_state (Some d)) st)
      | Some query =>
          s ← ds_status_after_loop self na rdtype name (answer_info query)
                supported_algs supported_digest_algs;
          status ← ds_status_resolved st na name (answer_info query) s;
          (* if no servers (designated or stealth authoritative) respond or
             none respond authoritatively, then make the delegation as lame *)
          let status := ds_status_lame (na_in na) status in
          let '(errors, status) :=
            ds_status_nxdomain (na_in na) rdtype name query (errors_of s, status) in
          let s := set_status_of (Some status) (set_errors_of errors s) in
          Ok (update self (set_deleg_state (Some (set_delegation rdtype s [] d))) st)
      end
  end.

(** ** [_populate_ns_status] and [_populate_server_status] *)

(** [self.delegation_warnings[rdtype].append(err)] and its counterpart for
    errors. *)
Definition append_delegation_warning (rdtype : Z) (err : DomainNameAnalysisError) (d : DelegState)
    : Result DelegState :=
  l ← subscript "delegation_warnings[rdtype]" (dict_get rdtype (delegation_warnings d));
  Ok {| ds_status_by_ds := ds_status_by_ds d; ds_status_by_dnskey := ds_status_by_dnskey d;
        delegation_warnings := dict_set rdtype (l ++ [err]) (delegation_warnings d);
        delegation_errors := delegation_errors d; delegation_status := delegation_status d |}.

Definition append_delegation_error (rdtype : Z) (err : DomainNameAnalysisError) (d : DelegState)
    : Result DelegState :=
  l ← subscript "delegation_errors[rdtype]" (dict_get rdtype (delegation_errors d));
  Ok {| ds_status_by_ds := ds_status_by_ds d; ds_status_by_dnskey := ds_status_by_dnskey d;
        delegation_warnings := delegation_warnings d;
        delegation_errors := dict_set rdtype (l ++ [err]) (delegation_errors d);
        delegation_status := delegation_status d |}.

(** Equality of two sets of addresses. *)
Definition same_set (a b : list string) : bool :=
  forallb (λ x, set_in x b) a && forallb (λ x, set_in x a) b.

(** The lists the loop over the names of the name servers fills. *)
Record NSNames := {
  ns_names_not_in_child : list string;
  ns_names_not_in_parent : list string;
  names_error_resolving : list string;
  names_with_glue_mismatch : list (string * (list string * list string));
  names_missing_glue : list string;
  names_missing_auth : list string;
}.

(** The body of [for name in all_names]. *)
Definition ns_status_for_name (self : NAInput) (auth_ns_response : bool) (name : string)
    (l : NSNames) : Result NSNames :=
  let glue_mapping := get_glue_ip_mapping self in
  let auth_mapping := get_auth_ns_ip_mapping self in
  let names_from_parent := get_ns_names_in_parent self in
  (* if name resolution resulted in an error (other than NXDOMAIN) *)
  let '(auth_addrs, error_resolving, missing_auth) :=
    match dict_get name auth_mapping with
    | None => ([], names_error_resolving l ++ [name], names_missing_auth l)
    | Some addrs =>
        (addrs, names_error_resolving l,
         if truthy addrs then names_missing_auth l else names_missing_auth l ++ [name])
    end in
  (* [self.delegation_status == Status.DELEGATION_STATUS_INCOMPLETE]
     compares the mapping with a status: it does not hold *)
  let name_in_parent :=
    if truthy names_from_parent then Some (set_in name names_from_parent) else None in
  '(missing_glue, glue_mismatch, not_in_parent) ←
    match name_in_parent with
    | Some true =>
        glue ← subscript "glue_mapping[name]" (dict_get name glue_mapping);
        Ok ((* if glue is required and not supplied *)
            (if is_subdomain name (na_name self) && negb (truthy glue)
             then names_missing_glue l ++ [name] else names_missing_glue l),
            (* if glue is supplied, check that it matches the authoritative response *)
            (if truthy glue && truthy auth_addrs && negb (same_set glue auth_addrs)
             then names_with_glue_mismatch l ++ [(name, (glue, auth_addrs))]
             else names_with_glue_mismatch l),
            ns_names_not_in_parent l)
    | Some false =>
        Ok (names_missing_glue l, names_with_glue_mismatch l, ns_names_not_in_parent l ++ [name])
    | None => Ok (names_missing_glue l, names_with_glue_mismatch l, ns_names_not_in_parent l)
    end;
  Ok {| ns_names_not_in_child :=
          if negb (set_in name (get_ns_names_in_child self)) && auth_ns_response
          then ns_names_not_in_child l ++ [name] else ns_names_not_in_child l;
        ns_names_not_in_parent := not_in_parent;
        names_error_resolving := error_resolving;
        names_with_glue_mismatch := glue_mismatch;
        names_missing_glue := missing_glue;
        names_missing_auth := missing_auth |}.

(** [if not (ipv4_parent or ipv4_child) and warn: ...]: inside, neither
    list holds an address, so the reference is 'parent or child'. *)
Definition no_ns_addresses (self : NAInput) (version : Z) (warn : bool) : bool :=
  let of_version (ips : list (string * Z)) := filter (λ x, x.2 = version) ips in
  negb (truthy (of_version (get_servers_in_parent self))
        || truthy (of_version (get_servers_in_child self))) && warn.

Definition _populate_ns_status (st : gmap string NA) (self : string)
    (warn_no_ipv4 warn_no_ipv6 : bool) : Result (gmap string NA) :=
  na ← deref st self;
  let i := na_in na in
  if negb (is_zone i) then Ok st else
  if parent i is None then Ok st else
  if decide (analysis_type i ≠ ANALYSIS_TYPE_AUTHORITATIVE) then Ok st else
  ns_query ← subscript "queries[(self.name, NS)]" (dict_get (na_name i, rdatatype.NS) (queries i));
  let auth_ns_response := is_valid_complete_authoritative_response_any ns_query in
  l ← forM (get_ns_names i) (ns_status_for_name i auth_ns_response)
        {| ns_names_not_in_child := []; ns_names_not_in_parent := [];
           names_error_resolving := []; names_with_glue_mismatch := [];
           names_missing_glue := []; names_missing_auth := [] |};
  let d := deleg_state (na_st na) in
  let warn (cond : bool) (err : Errors.ErrKind) (d : option DelegState) : Result (option DelegState) :=
    if cond then d ← subscript "delegation_warnings" d;
                 Some <$> append_delegation_warning rdatatype.DS (new_error err) d
    else Ok d in
  let error (cond : bool) (err : Errors.ErrKind) (d : option DelegState) : Result (option DelegState) :=
    if cond then d ← subscript "delegation_errors" d;
                 Some <$> append_delegation_error rdatatype.DS (new_error err) d
    else Ok d in
  d ← warn (truthy (ns_names_not_in_child l))
        (Errors.NSNameNotInChild (sorted_names (ns_names_not_in_child l)) (parent_name i)) d;
  (* here the source sorts [ns_names_not_in_child] once more, and leaves
     [ns_names_not_in_parent] as it is *)
  d ← warn (truthy (ns_names_not_in_parent l))
        (Errors.NSNameNotInParent (ns_names_not_in_parent l) (parent_name i)) d;
  d ← error (truthy (names_error_resolving l))
        (Errors.ErrorResolvingNSName (sorted_names (names_error_resolving l))) d;
  d ← forM (sorted_names (names_with_glue_mismatch l).*1) (λ name d,
        match dict_get name (names_with_glue_mismatch l) with
        | Some (glue_addrs, auth_addrs) =>
            warn true (Errors.GlueMismatchError name (sorted_addresses glue_addrs)
                         (sorted_addresses auth_addrs)) d
        | None => Ok d
        end) d;
  d ← warn (truthy (names_missing_glue l))
        (Errors.MissingGlueForNSName (sorted_names (names_missing_glue l))) d;
  d ← error (truthy (names_missing_auth l))
        (Errors.NoAddressForNSName (sorted_names (names_missing_auth l))) d;
  d ← warn (no_ns_addresses i 4 warn_no_ipv4) (Errors.NoNSAddressesForIPv4 "parent or child") d;
  d ← warn (no_ns_addresses i 6 warn_no_ipv6) (Errors.NoNSAddressesForIPv6 "parent or child") d;
  Ok (update self (set_deleg_state d) st).

(** An error of the servers of a zone, for the (server, client) pairs it
    holds of, without a response. *)
Definition server_error (kind : Errors.ErrKind) (servers_clients : list (string * string))
    : DomainNameAnalysisError :=
  foldl (λ err '(server, client), add_server_client server client None err)
        (new_error kind) servers_clients.

Definition _populate_server_status (st : gmap string NA) (self : string) : Result (gmap string NA) :=
  na ← deref st self;
  let i := na_in na in
  if negb (is_zone i) then Ok st else
  if parent i is None then Ok st else
  let designated (l : list (string * string)) :=
    set_update [] (filter (λ x, x.1 ∈ get_designated_servers i) l) in
  let servers_queried_udp := designated (_all_servers_clients_queried i) in
  let servers_queried_tcp := designated (_all_servers_clients_queried_tcp i) in
  let servers_queried := union servers_queried_udp servers_queried_tcp in
  let unresponsive_udp := difference servers_queried_udp (_responsive_servers_clients_udp i) in
  let unresponsive_tcp := difference servers_queried_tcp (_responsive_servers_clients_tcp i) in
  let invalid_response :=
    difference (list_intersection servers_queried (_responsive_servers_clients_udp i))
               (_valid_servers_clients i) in
  let not_authoritative :=
    difference (list_intersection servers_queried (_valid_servers_clients i))
               (_auth_servers_clients i) in
  let error (kind : Errors.ErrKind) (servers_clients : list (string * string))
      (d : option DelegState) : Result (option DelegState) :=
    if truthy servers_clients
    then d ← subscript "delegation_errors" d;
         Some <$> append_delegation_error rdatatype.DS (server_error kind servers_clients) d
    else Ok d in
  d ← error Errors.ServerUnresponsiveUDP unresponsive_udp (deleg_state (na_st na));
  d ← error Errors.ServerUnresponsiveTCP unresponsive_tcp d;
  d ← error Errors.ServerInvalidResponse invalid_response d;
  d ← (if decide (analysis_type i = ANALYSIS_TYPE_AUTHORITATIVE)
       then error Errors.ServerNotAuthoritative not_authoritative d
       else Ok d);
  Ok (update self (set_deleg_state d) st).

(** ** [_populate_delegation_status] *)

Definition _populate_delegation_status (st : gmap string NA) (self : string)
    (supported_algs supported_digest_algs : list Z) : Result (gmap string NA) :=
  na ← deref st self;
  let st := update self (set_deleg_state
              (Some {| ds_status_by_ds := []; ds_status_by_dnskey := [];
                       delegation_warnings := []; delegation_errors := [];
                       delegation_status := [] |})) st in
  st ← _populate_ds_status st self rdatatype.DS supported_algs supported_digest_algs;
  st ← (if dlv_parent (na_in na) is Some _
        then _populate_ds_status st self rdatatype.DLV supported_algs supported_digest_algs
        else Ok st);
  st ← _populate_ns_status st self true false;
  _populate_server_status st self.

(** ** [_populate_dnskey_status] *)

(** [dnskey.errors.append(err)] with [err.servers_clients =
    dnskey.servers_clients]. *)
Definition append_dnskey_error (kind : Errors.ErrKind) (with_servers_clients : bool)
    (meta : DNSKEYMeta) : DNSKEYMeta :=
  let err := if with_servers_clients
             then servers_clients_assign (dnskey_meta_servers_clients meta) (new_error kind)
             else new_error kind in
  {| dnskey_meta_name := dnskey_meta_name meta; dnskey_meta_ttl := dnskey_meta_ttl meta;
     dnskey_meta_rrset_info := dnskey_meta_rrset_info meta;
     dnskey_meta_servers_clients := dnskey_meta_servers_clients meta;
     dnskey_meta_errors := dnskey_meta_errors meta ++ [err] |}.

Definition alter_dnskey (rd : DNSKEYRdata) (f : DNSKEYMeta → DNSKEYMeta) (idx : DNSKEYIndex)
    : DNSKEYIndex :=
  {| _dnskey_sets := _dnskey_sets idx;
     _dnskeys := match dict_get rd (_dnskeys idx) with
                 | Some meta => dict_set rd (f meta) (_dnskeys idx)
                 | None => _dnskeys idx
                 end |}.

(** The body of [for dnskey in self.get_dnskeys()]. *)
Definition dnskey_status_for_dnskey (st : gmap string NA) (na : NA)
    (trusted_keys_rdata : list DNSKEYRdata) (servers_responsive : list (string * string * Response))
    (dnskey : DNSKEYRef)
    (acc : DNSKEYIndex * list DNSKEYRef * list DNSKEYRef)
    : Result (DNSKEYIndex * list DNSKEYRef * list DNSKEYRef) :=
  let '(idx, trusted_keys_existing, trusted_keys_not_self_signing) := acc in
  let rd := dnskey_rdata dnskey in
  '(trusted_keys_existing, trusted_keys_not_self_signing) ←
    (if set_in rd trusted_keys_rdata then
       ksks ← subscript "ksks" (ksks (na_st na));
       Ok (set_add dnskey trusted_keys_existing,
           if set_in dnskey ksks then trusted_keys_not_self_signing
           else set_add dnskey trusted_keys_not_self_signing)
     else Ok (trusted_keys_existing, trusted_keys_not_self_signing));
  revoked ← subscript "revoked_keys" (revoked_keys (na_st na));
  idx ← (if set_in dnskey revoked then
           ksks ← subscript "ksks" (ksks (na_st na));
           if set_in dnskey ksks then Ok idx
           else Ok (alter_dnskey rd (append_dnskey_error Errors.RevokedNotSigning true) idx)
         else Ok idx);
  idx ← (if negb (is_zone (na_in na)) then
           z ← subscript "self.zone" (zone (na_in na));
           zna ← deref st z;
           Ok (alter_dnskey rd
                 (append_dnskey_error
                    (Errors.DNSKEYNotAtZoneApex (Some (na_name (na_in zna)))
                       (Some (na_name (na_in na)))) true) idx)
         else Ok idx);
  (* if there were servers responsive for the query but that didn't return the dnskey *)
  meta ← subscript "dnskey" (dict_get rd (_dnskeys idx));
  let servers_with_dnskey := set_update [] (witnesses (dnskey_meta_servers_clients meta)) in
  let servers_clients_without := difference servers_responsive servers_with_dnskey in
  let idx :=
    if truthy servers_clients_without then
      alter_dnskey rd (λ meta,
        let err := foldl (λ err '(server, client, response),
                            add_server_client server client (Some response) err)
                         (new_error Errors.DNSKEYMissingFromServers) servers_clients_without in
        {| dnskey_meta_name := dnskey_meta_name meta; dnskey_meta_ttl := dnskey_meta_ttl meta;
           dnskey_meta_rrset_info := dnskey_meta_rrset_info meta;
           dnskey_meta_servers_clients := dnskey_meta_servers_clients meta;
           dnskey_meta_errors := dnskey_meta_errors meta ++ [err] |}) idx
    else idx in
  Ok (idx, trusted_keys_existing, trusted_keys_not_self_signing).

Definition _populate_dnskey_status (st : gmap string NA) (self : string)
    (trusted_keys : list (string * DNSKEYRdata)) : Result (gmap string NA) :=
  na ← deref st self;
  match dict_get (na_name (na_in na), rdatatype.DNSKEY) (queries (na_in na)) with
  | None => Ok st
  | Some dnskey_query =>
      let trusted_keys_rdata :=
        set_update [] (omap (λ '(z, k), if decide (z = na_name (na_in na)) then Some k else None)
                            trusted_keys) in
      (* build a list of responsive servers *)
      servers_responsive ←
        forM (queries_of dnskey_query) (λ query acc,
          forM (servers_with_valid_complete_response query) (λ '(server, client) acc,
            response ← subscript "query.responses[server][client]"
                         (response_of query server (Some client));
            Ok (set_add (server, client, response) acc)) acc) [];
      '(st, dnskeys) ← get_dnskeys st self;
      na ← deref st self;
      idx ← subscript "_dnskeys" (dnskey_index (na_st na));
      '(idx, trusted_keys_existing, trusted_keys_not_self_signing) ←
        forM dnskeys (dnskey_status_for_dnskey st na trusted_keys_rdata servers_responsive)
             (idx, [], []);
      let idx :=
        if negb (truthy (difference trusted_keys_existing trusted_keys_not_self_signing))
        then foldl (λ idx dnskey,
                      alter_dnskey (dnskey_rdata dnskey)
                        (append_dnskey_error Errors.TrustAnchorNotSigning true) idx)
                   idx trusted_keys_not_self_signing
        else idx in
      Ok (update self (set_dnskey_index (Some idx)) st)
  end.

(** ** [populate_status] *)

(** [supported_algs.intersection_update(crypto._supported_algs)], or the
    algorithms of [crypto] when the caller gives none. *)
Definition narrow_algs (supported : option (list Z)) (software : list Z) : list Z :=
  match supported with
  | Some algs => list_intersection algs software
  | None => software
  end.

(** [trace] is the list of the objects on the path of calls; [fuel] bounds
    the depth of the recursion through the dependencies and the ancestry
    (it is also the fuel of the calls of [_populate_name_status]). *)
Fixpoint populate_status (fuel : nat) (st : gmap string NA) (self : string)
    (trusted_keys : list (string * DNSKEYRdata))
    (supported_algs supported_digest_algs : option (list Z))
    (is_dlv : bool) (level : Z) (trace : list string) (follow_mx : bool)
    : Result (gmap string NA) :=
  match fuel with
  | O => OutOfFuel
  | S fuel' =>
      (* avoid loops *)
      if set_in self trace then _populate_name_status fuel st self level [] else
      na ← deref st self;
      (* if status has already been populated, then don't reevaluate *)
      if rrset_state (na_st na) is Some _ then Ok st else
      (* if we're a stub, there's nothing to evaluate *)
      if stub (na_in na) then Ok st else
      (* identify supported algorithms as intersection of explicitly
         supported and software supported *)
      let supported_algs := narrow_algs supported_algs crypto_supported_algs in
      let supported_digest_algs := narrow_algs supported_digest_algs crypto_supported_digest_algs in
      let i := na_in na in
      (* populate status of dependencies *)
      st ←
        (if bool_decide (level ≤ RDTYPES_NS_TARGET) then
           st ← forM (cname_targets i) (λ '(cname, targets) st,
                  forM targets (λ '(target, cname_obj) st,
                    populate_status fuel' st cname_obj trusted_keys None None false
                      (Z.max RDTYPES_ALL_SAME_NAME level) (trace ++ [self]) true) st) st;
           if follow_mx then
             forM (mx_targets i) (λ '(target, mx_obj) st,
               match mx_obj with
               | Some mx_obj =>
                   populate_status fuel' st mx_obj trusted_keys None None false
                     (Z.max RDTYPES_ALL_SAME_NAME level) (trace ++ [self]) false
               | None => Ok st
               end) st
           else Ok st
         else Ok st);
      st ←
        (if bool_decide (level ≤ RDTYPES_SECURE_DELEGATION) then
           st ← forM (external_signers i) (λ '(signer, signer_obj) st,
                  match signer_obj with
                  | Some signer_obj =>
                      populate_status fuel' st signer_obj trusted_keys None None false
                        RDTYPES_SECURE_DELEGATION (trace ++ [self]) true
                  | None => Ok st
                  end) st;
           forM (ns_dependencies i) (λ '(target, ns_obj) st,
             match ns_obj with
             | Some ns_obj =>
                 populate_status fuel' st ns_obj trusted_keys None None false
                   RDTYPES_NS_TARGET (trace ++ [self]) true
             | None => Ok st
             end) st
         else Ok st);
      (* populate status of ancestry *)
      st ← match parent i with
           | Some p =>
               populate_status fuel' st p trusted_keys (Some supported_algs)
                 (Some supported_digest_algs) false RDTYPES_SECURE_DELEGATION (trace ++ [self]) true
           | None => Ok st
           end;
      st ← match dlv_parent i with
           | Some p =>
               populate_status fuel' st p trusted_keys (Some supported_algs)
                 (Some supported_digest_algs) true RDTYPES_SECURE_DELEGATION (trace ++ [self]) true
           | None => Ok st
           end;
      st ← _populate_name_status fuel st self level [];
      let st := if bool_decide (level ≤ RDTYPES_SECURE_DELEGATION)
                then update self (set_dnskey_index (Some (_index_dnskeys self i))) st
                else st in
      st ← _populate_rrsig_status_all st self supported_algs level;
      st ← _populate_nodata_status st self supported_algs level;
      st ← _populate_nxdomain_status st self supported_algs level;
      st ← _finalize_key_roles st self;
      if bool_decide (level ≤ RDTYPES_SECURE_DELEGATION) then
        st ← (if negb is_dlv
              then _populate_delegation_status st self supported_algs supported_digest_algs
              else Ok st);
        st ← (if dlv_parent i is Some _
              then _populate_ds_status st self rdatatype.DLV supported_algs supported_digest_algs
              else Ok st);
        _populate_dnskey_status st self trusted_keys
      else Ok st
  end.

(** ** [populate_response_component_status] *)

(** The trust graph [G] of the visualization, as far as the analysis reads
    it.  [status_for_node] takes the node and, for an NSEC set, the name of
    one of its records. *)
Record Graph := {
  node_reverse_mapping : list (Component * string);
  status_for_node : string → option string → option Status.RRsetStatus;
  secure_dnskey_rrsets : list nat;
}.

(** [G.status_for_node(G.node_reverse_mapping[obj])] *)
Definition status_of_component (G : Graph) (obj : Component) : Result (option Status.RRsetStatus) :=
  node_str ← subscript "G.node_reverse_mapping[obj]" (dict_get obj (node_reverse_mapping G));
  Ok (status_for_node G node_str None).

(** [opt_out_secure]: the node of the negative response is INSECURE and
    the node of the NSEC set of one of its NSEC statuses is SECURE. *)
Definition opt_out_secure (G : Graph) (self : NAState) (obj : NegativeResponseInfo)
    (status : option Status.RRsetStatus) : Result bool :=
  if decide (status = Some Status.RRSET_STATUS_INSECURE) then
    nx ← subscript "nxdomain_status" (nxdomain_state self);
    nsec_statuses ←
      match dict_get obj (neg_status nx) with
      | Some l => Ok l
      | None =>
          nd ← subscript "nodata_status" (nodata_state self);
          subscript "nodata_status[obj]" (dict_get obj (neg_status nd))
      end;
    forM nsec_statuses (λ nsec_status opt_out,
      s ← status_of_component G (ComponentNSECSet (nsec_status_nsec_set_info nsec_status));
      if decide (s = Some Status.RRSET_STATUS_SECURE) then Ok true else Ok opt_out) false
  else Ok false.

(** [soa_secure]: the node of some accompanying SOA RRset is SECURE. *)
Definition soa_secure (G : Graph) (obj : NegativeResponseInfo) : Result bool :=
  forM (soa_rrset_info obj) (λ soa_rrset secure,
    s ← status_of_component G (ComponentRRset (rrset_id soa_rrset));
    if decide (s = Some Status.RRSET_STATUS_SECURE) then Ok true else Ok secure) false.

(** The branch of the loop for a negative response info. *)
Definition negative_response_component_status (G : Graph) (self : NAState)
    (obj : NegativeResponseInfo) (status : option Status.RRsetStatus)
    (rcs : list (Component * option Status.RRsetStatus))
    : Result (list (Component * option Status.RRsetStatus)) :=
  let key := ComponentNegativeResponse obj in
  rcs ←
    (if decide (neg_rdtype obj = rdatatype.DS) then
       (* an insecure "top node" means the negative response has been
          authenticated *)
       if decide (status = Some Status.RRSET_STATUS_INSECURE)
       then Ok (dict_set key (Some Status.RRSET_STATUS_SECURE) rcs) else Ok rcs
     else if decide (neg_rdtype obj = rdatatype.DNSKEY) then
       (* a secure node means there is a secure entry point into the zone:
          that makes this negative response bogus *)
       let rcs := if decide (status = Some Status.RRSET_STATUS_SECURE)
                  then dict_set key (Some Status.RRSET_STATUS_BOGUS) rcs else rcs in
       (* apply the same status to the SOA as is associated with the
          negative response *)
       chosen ← subscript "response_component_status[obj]" (dict_get key rcs);
       Ok (foldl (λ rcs soa_rrset, dict_set (ComponentRRset (rrset_id soa_rrset)) chosen rcs)
                 rcs (soa_rrset_info obj))
     else Ok rcs);
  (* check for secure opt out *)
  opt_out ← opt_out_secure G self obj status;
  (* verify that the negative response is secure by checking that the SOA
     is also secure *)
  if bool_decide (status = Some Status.RRSET_STATUS_SECURE) || opt_out then
    secure ← soa_secure G obj;
    if secure : bool then Ok rcs
    else Ok (dict_set key (Some Status.RRSET_STATUS_BOGUS) rcs)
  else Ok rcs.

(** The body of [for obj in G.node_reverse_mapping]. *)
Definition component_status_for (G : Graph) (self : NAState) (item : Component * string)
    (rcs : list (Component * option Status.RRsetStatus))
    : Result (list (Component * option Status.RRsetStatus)) :=
  let '(obj, node_str) := item in
  match obj with
  | ComponentOther _ => Ok rcs
  | _ =>
      let status := status_for_node G node_str None in
      let rcs := dict_set obj status rcs in
      match obj with
      | ComponentDNSKEY _ rrset_infos =>
          Ok (foldl (λ rcs rrset_info,
                dict_set (ComponentRRset (rid rrset_info))
                  (if set_in (rid rrset_info) (secure_dnskey_rrsets G)
                   then Some Status.RRSET_STATUS_SECURE else status) rcs) rcs rrset_infos)
      | ComponentNSECSet nsec_set =>
          (* mark each individual NSEC in the set *)
          Ok (foldl (λ rcs '(nsec_name, nsec_rrset),
                dict_set (ComponentRRset (rrset_id nsec_rrset))
                  (status_for_node G node_str (Some nsec_name)) rcs) rcs (nsec_rrsets nsec_set))
      | ComponentNegativeResponse neg_response_info =>
          negative_response_component_status G self neg_response_info status rcs
      | _ => Ok rcs
      end
  end.

(** The mapping [populate_response_component_status] computes before it
    hands it to [_set_response_component_status]. *)
Definition response_component_status_of (G : Graph) (self : NAState)
    : Result (list (Component * option Status.RRsetStatus)) :=
  forM (node_reverse_mapping G) (component_status_for G self) [].

Fixpoint _set_response_component_status (fuel : nat) (st : gmap string NA) (self : string)
    (rcs : list (Component * option Status.RRsetStatus)) (is_dlv : bool) (level : Z)
    (trace : list string) (follow_mx : bool) : Result (gmap string NA) :=
  match fuel with
  | O => OutOfFuel
  | S fuel =>
      (* avoid loops *)
      if set_in self trace then Ok st else
      na ← deref st self;
      let i := na_in na in
      let visit (obj : option string) (is_dlv : bool) (level : Z) (follow_mx : bool)
          (st : gmap string NA) : Result (gmap string NA) :=
        match obj with
        | Some obj =>
            _set_response_component_status fuel st obj rcs is_dlv level (trace ++ [self]) follow_mx
        | None => Ok st
        end in
      (* populate status of dependencies *)
      st ←
        (if bool_decide (level ≤ RDTYPES_NS_TARGET) then
           st ← forM (cname_targets i) (λ '(cname, targets) st,
                  forM targets (λ '(target, cname_obj),
                    visit (Some cname_obj) false (Z.max RDTYPES_ALL_SAME_NAME level) true) st) st;
           if follow_mx then
             forM (mx_targets i) (λ '(target, mx_obj),
               visit mx_obj false (Z.max RDTYPES_ALL_SAME_NAME level) false) st
           else Ok st
         else Ok st);
      st ←
        (if bool_decide (level ≤ RDTYPES_SECURE_DELEGATION) then
           st ← forM (external_signers i) (λ '(signer, signer_obj),
                  visit signer_obj false RDTYPES_SECURE_DELEGATION true) st;
           forM (ns_dependencies i) (λ '(target, ns_obj),
             visit ns_obj false RDTYPES_NS_TARGET true) st
         else Ok st);
      (* populate status of ancestry *)
      st ← visit (parent i) false RDTYPES_SECURE_DELEGATION true st;
      st ← visit (dlv_parent i) true RDTYPES_SECURE_DELEGATION true st;
      Ok (update self (set_response_component_status (Some rcs)) st)
  end.

Definition populate_response_component_status (fuel : nat) (st : gmap string NA) (self : string)
    (G : Graph) : Result (gmap string NA) :=
  na ← deref st self;
  rcs ← response_component_status_of G (na_st na);
  _set_response_component_status fuel st self rcs false RDTYPES_ALL [] true.

End analysis.

(** ** The handlers of the answers of a response *)

(** The rdata of an SOA record, as far as [_handle_soa_response] reads it. *)
Record SOARdata := {
  soa_serial : Z;
  soa_rname : string;
  soa_mname : string;
}.

(** A record of an answer RRset, by the attributes the handlers read. *)
Inductive AnswerRdata :=
  | AnswerSOA (soa : SOARdata)
  | AnswerDNSKEY (dnskey : DNSKEYRdata)
  | AnswerDS (ds : DSRdata)
  | AnswerOther (text : string).

Record AnswerRRset := {
  answer_rdtype : Z;
  answer_rdata : list AnswerRdata;
}.

(** [rdata.algorithm]: DNSKEY, DS and DLV records have one. *)
Definition algorithm_of (rd : AnswerRdata) : Result Z :=
  match rd with
  | AnswerDNSKEY dnskey => Ok (dnskey_algorithm dnskey)
  | AnswerDS ds => Ok (ds_algorithm ds)
  | _ => Raise (ImplicitError "AttributeError: algorithm")
  end.

(** [rdata.digest_type] *)
Definition digest_type_of (rd : AnswerRdata) : Result Z :=
  match rd with
  | AnswerDS ds => Ok (ds_digest_type ds)
  | _ => Raise (ImplicitError "AttributeError: digest_type")
  end.

(** [rrset[0]] with the attributes of an SOA record. *)
Definition first_soa (rrset : AnswerRRset) : Result SOARdata :=
  rd ← subscript "IndexError: rrset[0]" (head (answer_rdata rrset));
  match rd with
  | AnswerSOA soa => Ok soa
  | _ => Raise (ImplicitError "AttributeError: serial")
  end.

(** The attributes the handlers assign, besides the three sets of
    algorithms that the analysis reads ([NAInput]). *)
Record AnswerAttributes := {
  has_soa : bool;
  serial : option Z;
  rname : option string;
  mname : option string;
  dnssec_algorithms_digest_in_ds : list (Z * Z);
  dnssec_algorithms_digest_in_dlv : list (Z * Z);
}.

Definition set_dnssec_algorithms_in_dnskey (v : list Z) (i : NAInput) : NAInput :=
  {| na_name := na_name i; stub := stub i; analysis_type := analysis_type i;
     is_zone := is_zone i; zone := zone i; parent := parent i; dlv_parent := dlv_parent i;
     dlv_name := dlv_name i; parent_name := parent_name i;
     referral_rdtype := referral_rdtype i; queries := queries i;
     cname_targets := cname_targets i; mx_targets := mx_targets i;
     external_signers := external_signers i; ns_dependencies := ns_dependencies i;
     get_name := get_name i; dnssec_algorithms_in_dnskey := v;
     dnssec_algorithms_in_ds := dnssec_algorithms_in_ds i;
     dnssec_algorithms_in_dlv := dnssec_algorithms_in_dlv i; analysis_end := analysis_end i;
     bailiwick_map := bailiwick_map i; default_bailiwick := default_bailiwick i;
     get_auth_or_designated_servers := get_auth_or_designated_servers i;
     get_responsive_auth_or_designated_servers := get_responsive_auth_or_designated_servers i;
     get_valid_auth_or_designated_servers := get_valid_auth_or_designated_servers i;
     get_designated_servers := get_designated_servers i;
     _auth_servers_clients := _auth_servers_clients i;
     _valid_servers_clients := _valid_servers_clients i;
     _responsive_servers_clients_udp := _responsive_servers_clients_udp i;
     _responsive_servers_clients_tcp := _responsive_servers_clients_tcp i;
     _all_servers_clients_queried := _all_servers_clients_queried i;
     _all_servers_clients_queried_tcp := _all_servers_clients_queried_tcp i;
     get_ns_names := get_ns_names i; get_ns_names_in_child := get_ns_names_in_child i;
     get_ns_names_in_parent := get_ns_names_in_parent i;
     get_glue_ip_mapping := get_glue_ip_mapping i;
     get_auth_ns_ip_mapping := get_auth_ns_ip_mapping i;
     get_servers_in_parent := get_servers_in_parent i;
     get_servers_in_child := get_servers_in_child i |}.

Definition set_dnssec_algorithms_in_ds (v : list Z) (i : NAInput) : NAInput :=
  {| na_name := na_name i; stub := stub i; analysis_type := analysis_type i;
     is_zone := is_zone i; zone := zone i; parent := parent i; dlv_parent := dlv_parent i;
     dlv_name := dlv_name i; parent_name := parent_name i;
     referral_rdtype := referral_rdtype i; queries := queries i;
     cname_targets := cname_targets i; mx_targets := mx_targets i;
     external_signers := external_signers i; ns_dependencies := ns_dependencies i;
     get_name := get_name i; dnssec_algorithms_in_dnskey := dnssec_algorithms_in_dnskey i;
     dnssec_algorithms_in_ds := v; dnssec_algorithms_in_dlv := dnssec_algorithms_in_dlv i;
     analysis_end := analysis_end i; bailiwick_map := bailiwick_map i;
     default_bailiwick := default_bailiwick i;
     get_auth_or_designated_servers := get_auth_or_designated_servers i;
     get_responsive_auth_or_designated_servers := get_responsive_auth_or_designated_servers i;
     get_valid_auth_or_designated_servers := get_valid_auth_or_designated_servers i;
     get_designated_servers := get_designated_servers i;
     _auth_servers_clients := _auth_servers_clients i;
     _valid_servers_clients := _valid_servers_clients i;
     _responsive_servers_clients_udp := _responsive_servers_clients_udp i;
     _responsive_servers_clients_tcp := _responsive_servers_clients_tcp i;
     _all_servers_clients_queried := _all_servers_clients_queried i;
     _all_servers_clients_queried_tcp := _all_servers_clients_queried_tcp i;
     get_ns_names := get_ns_names i; get_ns_names_in_child := get_ns_names_in_child i;
     get_ns_names_in_parent := get_ns_names_in_parent i;
     get_glue_ip_mapping := get_glue_ip_mapping i;
     get_auth_ns_ip_mapping := get_auth_ns_ip_mapping i;
     get_servers_in_parent := get_servers_in_parent i;
     get_servers_in_child := get_servers_in_child i |}.

Definition set_dnssec_algorithms_in_dlv (v : list Z) (i : NAInput) : NAInput :=
  {| na_name := na_name i; stub := stub i; analysis_type := analysis_type i;
     is_zone := is_zone i; zone := zone i; parent := parent i; dlv_parent := dlv_parent i;
     dlv_name := dlv_name i; parent_name := parent_name i;
     referral_rdtype := referral_rdtype i; queries := queries i;
     cname_targets := cname_targets i; mx_targets := mx_targets i;
     external_signers := external_signers i; ns_dependencies := ns_dependencies i;
     get_name := get_name i; dnssec_algorithms_in_dnskey := dnssec_algorithms_in_dnskey i;
     dnssec_algorithms_in_ds := dnssec_algorithms_in_ds i; dnssec_algorithms_in_dlv := v;
     analysis_end := analysis_end i; bailiwick_map := bailiwick_map i;
     default_bailiwick := default_bailiwick i;
     get_auth_or_designated_servers := get_auth_or_designated_servers i;
     get_responsive_auth_or_designated_servers := get_responsive_auth_or_designated_servers i;
     get_valid_auth_or_designated_servers := get_valid_auth_or_designated_servers i;
     get_designated_servers := get_designated_servers i;
     _auth_servers_clients := _auth_servers_clients i;
     _valid_servers_clients := _valid_servers_clients i;
     _responsive_servers_clients_udp := _responsive_servers_clients_udp i;
     _responsive_servers_clients_tcp := _responsive_servers_clients_tcp i;
     _all_servers_clients_queried := _all_servers_clients_queried i;
     _all_servers_clients_queried_tcp := _all_servers_clients_queried_tcp i;
     get_ns_names := get_ns_names i; get_ns_names_in_child := get_ns_names_in_child i;
     get_ns_names_in_parent := get_ns_names_in_parent i;
     get_glue_ip_mapping := get_glue_ip_mapping i;
     get_auth_ns_ip_mapping := get_auth_ns_ip_mapping i;
     get_servers_in_parent := get_servers_in_parent i;
     get_servers_in_child := get_servers_in_child i |}.

(** The SOA record with the highest serial seen is kept. *)
Definition _handle_soa_response (rrset : AnswerRRset) (a : AnswerAttributes)
    : Result AnswerAttributes :=
  soa ← first_soa rrset;
  if match serial a with
     | None => true
     | Some serial => bool_decide (soa_serial soa > serial)
     end
  then Ok {| has_soa := true; serial := Some (soa_serial soa);
             rname := Some (soa_rname soa); mname := Some (soa_mname soa);
             dnssec_algorithms_digest_in_ds := dnssec_algorithms_digest_in_ds a;
             dnssec_algorithms_digest_in_dlv := dnssec_algorithms_digest_in_dlv a |}
  else Ok {| has_soa := true; serial := serial a; rname := rname a; mname := mname a;
             dnssec_algorithms_digest_in_ds := dnssec_algorithms_digest_in_ds a;
             dnssec_algorithms_digest_in_dlv := dnssec_algorithms_digest_in_dlv a |}.

Definition _handle_dnskey_response (rrset : AnswerRRset) (i : NAInput) : Result NAInput :=
  algs ← forM (answer_rdata rrset) (λ dnskey algs,
            algorithm ← algorithm_of dnskey; Ok (set_add algorithm algs))
          (dnssec_algorithms_in_dnskey i);
  Ok (set_dnssec_algorithms_in_dnskey algs i).

(** The loop of [_handle_ds_response] on the two sets it has chosen. *)
Definition handle_ds_records (rrset : AnswerRRset) (sets : list Z * list (Z * Z))
    : Result (list Z * list (Z * Z)) :=
  forM (answer_rdata rrset) (λ ds '(dnssec_algs, digest_algs),
    algorithm ← algorithm_of ds;
    let dnssec_algs := set_add algorithm dnssec_algs in
    algorithm ← algorithm_of ds;
    digest_type ← digest_type_of ds;
    Ok (dnssec_algs, set_add (algorithm, digest_type) digest_algs)) sets.

Definition _handle_ds_response (rrset : AnswerRRset) (s : NAInput * AnswerAttributes)
    : Result (NAInput * AnswerAttributes) :=
  let '(i, a) := s in
  if decide (answer_rdtype rrset = rdatatype.DS) then
    '(dnssec_algs, digest_algs) ←
      handle_ds_records rrset (dnssec_algorithms_in_ds i, dnssec_algorithms_digest_in_ds a);
    Ok (set_dnssec_algorithms_in_ds dnssec_algs i,
        {| has_soa := has_soa a; serial := serial a; rname := rname a; mname := mname a;
           dnssec_algorithms_digest_in_ds := digest_algs;
           dnssec_algorithms_digest_in_dlv := dnssec_algorithms_digest_in_dlv a |})
  else
    '(dnssec_algs, digest_algs) ←
      handle_ds_records rrset (dnssec_algorithms_in_dlv i, dnssec_algorithms_digest_in_dlv a);
    Ok (set_dnssec_algorithms_in_dlv dnssec_algs i,
        {| has_soa := has_soa a; serial := serial a; rname := rname a; mname := mname a;
           dnssec_algorithms_digest_in_ds := dnssec_algorithms_digest_in_ds a;
           dnssec_algorithms_digest_in_dlv := digest_algs |}).

(** The statements of [_process_response_answer_rrset] that follow the
    call of the method of the superclass, on the attributes as that call
    left them; [qname] is [query.qname]. *)
Definition _process_response_answer_rrset (rrset : AnswerRRset) (qname : string)
    (s : NAInput * AnswerAttributes) : Result (NAInput * AnswerAttributes) :=
  let '(i, a) := s in
  if set_in (Some qname) [Some (na_name i); dlv_name i] then
    if decide (answer_rdtype rrset = rdatatype.SOA) then
      a ← _handle_soa_response rrset a; Ok (i, a)
    else if decide (answer_rdtype rrset = rdatatype.DNSKEY) then
      i ← _handle_dnskey_response rrset i; Ok (i, a)
    else if set_in (answer_rdtype rrset) [rdatatype.DS; rdatatype.DLV] then
      _handle_ds_response rrset (i, a)
    else Ok (i, a)
  else Ok (i, a).

(** Every pair of an algorithm and a digest type has its algorithm in the
    set of algorithms of the same record type. *)
Definition digests_consistent (i : NAInput) (a : AnswerAttributes) : Prop :=
  (∀ algorithm digest_type,
     (algorithm, digest_type) ∈ dnssec_algorithms_digest_in_ds a →
     algorithm ∈ dnssec_algorithms_in_ds i)
  ∧ (∀ algorithm digest_type,
       (algorithm, digest_type) ∈ dnssec_algorithms_digest_in_dlv a →
       algorithm ∈ dnssec_algorithms_in_dlv i).

(** * Statements *)

(** ** Definitions the statements use *)
(** An error of the kind is in the list and carries the witness. *)
Definition attributed (kind : Errors.ErrKind) (server client : string)
    (response : option Response) (l : list DomainNameAnalysisError) : Prop :=
  ∃ e rs, e ∈ l ∧ err_kind e = kind
          ∧ dict_get (server, client) (err_servers_clients e) = Some rs ∧ response ∈ rs.

(** The errors the variable [err] can hold: the two EDNS errors that the
    function inserts into [warnings] itself are not among them. *)
Definition assigned_to_err (err : Errors.ErrKind) : Prop :=
  match err with
  | Errors.UnsupportedEDNSVersion _ | Errors.PMTUExceeded
  | Errors.NotAuthoritative | Errors.RecursionNotAvailable => False
  | _ => True
  end.

(** [self.delegation_status[rdtype]] and [self.delegation_errors[rdtype]]
    in a store. *)
Definition delegation_status_of (st : gmap string NA) (self : string) (rdtype : Z)
    : option Status.DelegationStatus :=
  na ← st !! self; d ← deleg_state (na_st na); mjoin (dict_get rdtype (delegation_status d)).

Definition delegation_errors_of (st : gmap string NA) (self : string) (rdtype : Z)
    : option (list DomainNameAnalysisError) :=
  na ← st !! self; d ← deleg_state (na_st na); dict_get rdtype (delegation_errors d).

(** [ds_rrset_info.rrset.name == name and ds_rrset_info.rrset.rdtype == rdtype] *)
Definition ds_rrset_matches (name : string) (rdtype : Z) (ds_rrset_info : RRsetInfo) : Prop :=
  rrset_name (rrset (core ds_rrset_info)) = name
  ∧ rrset_rdtype (rrset (core ds_rrset_info)) = rdtype.

(** The delegation status a run leaves, None when the run fails. *)
Definition delegation_status_after (r : Result (gmap string NA)) (self : string) (rdtype : Z)
    : option Status.DelegationStatus :=
  match r with Ok st => delegation_status_of st self rdtype | _ => None end.

Definition delegation_errors_after (r : Result (gmap string NA)) (self : string) (rdtype : Z)
    : option (list DomainNameAnalysisError) :=
  match r with Ok st => delegation_errors_of st self rdtype | _ => None end.

(** The NSEC statuses of a negative response: those of [nxdomain_status]
    when it has the response, else those of [nodata_status]. *)
Definition nsec_statuses_of (self : NAState) (obj : NegativeResponseInfo)
    : option (list NSECStatus) :=
  nx ← nxdomain_state self;
  match dict_get obj (neg_status nx) with
  | Some l => Some l
  | None => nd ← nodata_state self; dict_get obj (neg_status nd)
  end.

(** The KeyError of [G.node_reverse_mapping[soa_rrset]]. *)
Definition KeyError_node_reverse_mapping : Exn :=
  ImplicitError "G.node_reverse_mapping[obj]".













(** A change of the state of an object that keeps the maps of the RRset
    status once they exist. *)
Definition keeps_rrset_state (f : NAState → NAState) : Prop :=
  ∀ s, is_Some (rrset_state s) → is_Some (rrset_state (f s)).

(** [I] is a property of the store that every assignment to an attribute
    of an object keeps; [P] holds of the exceptions a run may raise, among
    them the implicit ones and those of the [raise] statements that
    [populate_status] reaches. *)
Class WalkSpec (I : gmap string NA → Prop) (P : Exn → Prop) : Prop := {
  I_update : ∀ obj f st, keeps_rrset_state f → I st → I (update obj f st);
  P_implicit : ∀ what, P (ImplicitError what);
  P_edns : P Exception_UnknownEDNSError;
  P_edns_flag : P Exception_UnknownEDNSFlagError;
  P_no_dlv : P ValueError_NoDLVSpecified;
  P_no_ds_query : P KeyError_NoDSQuery;
}.

(** The property of a value a run returns, by its type: [I] of every store
    in it. *)
Class Inv (A : Type) := inv : A → Prop.

Definition inv_store (I : gmap string NA → Prop) : Inv (gmap string NA) := I.
Definition inv_prod {A B} (IA : Inv A) (IB : Inv B) : Inv (A * B) :=
  λ p, inv p.1 ∧ inv p.2.
Definition inv_sig_state (I : gmap string NA → Prop) : Inv SigState :=
  λ s, I (sig_store s).
Definition inv_other {A} : Inv A := λ _, True.

(** The run returns a value with the property, raises an exception of [P],
    or needs more fuel. *)
Definition run_ok (P : Exn → Prop) {A} `{!Inv A} (m : Result A) : Prop :=
  match m with
  | Ok a => inv a
  | Raise e => P e
  | OutOfFuel => True
  end.

(** The status of the object has been populated: [rrsig_status] is not
    None. *)
Definition populated (self : string) (st : gmap string NA) : Prop :=
  ∃ na, st !! self = Some na ∧ is_Some (rrset_state (na_st na)).

(** The exceptions of the [raise] statements that [populate_status]
    reaches, and the implicit ones (a missing attribute or key). *)
Definition raised_by_design (e : Exn) : Prop :=
  e = Exception_UnknownEDNSError ∨ e = Exception_UnknownEDNSFlagError
  ∨ e = KeyError_NoDSQuery ∨ e = ValueError_NoDLVSpecified
  ∨ ∃ what, e = ImplicitError what.


(** The status of the object is populated, or the object is a stub: the
    two cases in which [populate_status] returns at once. *)
Definition evaluated (obj : string) (st : gmap string NA) : Prop :=
  ∃ na, st !! obj = Some na
        ∧ (is_Some (rrset_state (na_st na)) ∨ stub (na_in na) = true).

(** The objects [populate_status] calls itself for: the dependencies of
    the object at the level of the call, and its ancestry. *)
Definition called_for (i : NAInput) (level : Z) (follow_mx : bool) (dep : string) : Prop :=
  (level ≤ RDTYPES_NS_TARGET
   ∧ ∃ cname targets target, (cname, targets) ∈ cname_targets i ∧ (target, dep) ∈ targets)
  ∨ (level ≤ RDTYPES_NS_TARGET ∧ follow_mx = true
     ∧ ∃ target, (target, Some dep) ∈ mx_targets i)
  ∨ (level ≤ RDTYPES_SECURE_DELEGATION ∧ ∃ signer, (signer, Some dep) ∈ external_signers i)
  ∨ (level ≤ RDTYPES_SECURE_DELEGATION ∧ ∃ target, (target, Some dep) ∈ ns_dependencies i)
  ∨ parent i = Some dep
  ∨ dlv_parent i = Some dep.

(** The sets of a name status grow and the status is as it was. *)
Definition name_state_grows (s s' : NameState) : Prop :=
  status s' = status s ∧ yxdomain s ⊆ yxdomain s' ∧ yxrrset s ⊆ yxrrset s'.

(** The reference to the DNSKEY object of [self] for an rdata. *)
Definition dnskey_ref (self : string) (rd : DNSKEYRdata) : DNSKEYRef :=
  {| dnskey_owner := self; dnskey_rdata := rd |}.

(** The RRset infos [_index_dnskeys] keeps: the answers with the name of
    the object and the type DNSKEY. *)
Definition is_dnskey_rrset (i : NAInput) (dnskey_info : RRsetInfo) : Prop :=
  rrset_name (rrset (core dnskey_info)) = na_name i
  ∧ rrset_rdtype (rrset (core dnskey_info)) = rdatatype.DNSKEY.

#[local] Instance is_dnskey_rrset_dec i dnskey_info : Decision (is_dnskey_rrset i dnskey_info).
Proof. unfold is_dnskey_rrset. apply _. Defined.

(** The two parts of an index agree: the rdata with an entry in
    [_dnskeys] are those of the keys in the sets, and the [rrset_info] of
    an entry lists the RRset infos whose set has the key. *)
Definition index_consistent (self : string) (idx : DNSKEYIndex) : Prop :=
  (∀ dnskey_set dnskey_info k,
     (dnskey_set, dnskey_info) ∈ _dnskey_sets idx →
     k ∈ dnskey_set
     ↔ dnskey_owner k = self ∧ dnskey_rdata k ∈ rrset_dnskeys (rrset (core dnskey_info)))
  ∧ (∀ rd, is_Some (dict_get rd (_dnskeys idx))
           ↔ ∃ dnskey_set dnskey_info,
               (dnskey_set, dnskey_info) ∈ _dnskey_sets idx ∧ dnskey_ref self rd ∈ dnskey_set)
  ∧ (∀ rd meta dnskey_info,
       dict_get rd (_dnskeys idx) = Some meta →
       dnskey_info ∈ dnskey_meta_rrset_info meta
       ↔ ∃ dnskey_set,
           (dnskey_set, dnskey_info) ∈ _dnskey_sets idx ∧ dnskey_ref self rd ∈ dnskey_set).

(** The object with the mapping assigned to [response_component_status]. *)
Definition with_component_status (rcs : list (Component * option Status.RRsetStatus))
    (na : NA) : NA :=
  {| na_in := na_in na; na_st := set_response_component_status (Some rcs) (na_st na) |}.

(** Between two stores, nothing was done but the assignment of the
    mapping to objects. *)
Definition component_status_written (rcs : list (Component * option Status.RRsetStatus))
    (st st' : gmap string NA) : Prop :=
  ∀ obj, st' !! obj = st !! obj ∨ st' !! obj = with_component_status rcs <$> st !! obj.

(** The three maps of a kind of negative response have an entry exactly
    for the responses of [S]. *)
Definition neg_state_keys (S : NegativeResponseInfo → Prop) (ns : NegState) : Prop :=
  ∀ n, (is_Some (dict_get n (neg_status ns)) ↔ S n)
       ∧ (is_Some (dict_get n (neg_warnings ns)) ↔ S n)
       ∧ (is_Some (dict_get n (neg_errors ns)) ↔ S n).

(** The object has the maps [get] selects, with an entry exactly for the
    responses of [S]. *)
Definition neg_keys_at (get : NAState → option NegState) (self : string)
    (S : NegativeResponseInfo → Prop) (st : gmap string NA) : Prop :=
  ∃ na ns, st !! self = Some na ∧ get (na_st na) = Some ns ∧ neg_state_keys S ns.

(** The query is one that the loops over the queries evaluate at the
    level. *)
Definition evaluated_at (i : NAInput) (level : Z) (qname : string) (rdtype : Z) : Prop :=
  qname_excluded i level qname = false
  ∧ rdtype_excluded (_rdtypes_for_analysis_level i level) rdtype = false.

(** The maps of the delegation of an object. *)
Definition deleg_state_of (st : gmap string NA) (self : string) : option DelegState :=
  na ← st !! self; deleg_state (na_st na).

(** The maps have the entries of a record type, with a status that is not
    None. *)
Definition delegation_definite (d : DelegState) (rdtype : Z) : Prop :=
  (∃ status, dict_get rdtype (delegation_status d) = Some (Some status))
  ∧ is_Some (dict_get rdtype (delegation_warnings d))
  ∧ is_Some (dict_get rdtype (delegation_errors d)).

(** Every list of the map [m] is in [m'] with errors appended (or as it
    is), and [m'] has no other list. *)
Definition lists_appended (m m' : list (Z * list DomainNameAnalysisError)) : Prop :=
  ∀ r, match dict_get r m with
       | Some l => ∃ l', dict_get r m' = Some (l ++ l')
       | None => dict_get r m' = None
       end.

(** The statuses of the delegation and of the DS records are the same, and
    the lists of warnings and errors have received errors at their end
    only. *)
Definition delegation_extends (d d' : option DelegState) : Prop :=
  match d, d' with
  | Some d, Some d' =>
      delegation_status d' = delegation_status d
      ∧ ds_status_by_ds d' = ds_status_by_ds d
      ∧ ds_status_by_dnskey d' = ds_status_by_dnskey d
      ∧ lists_appended (delegation_warnings d) (delegation_warnings d')
      ∧ lists_appended (delegation_errors d) (delegation_errors d')
  | None, None => True
  | _, _ => False
  end.

(** What [_populate_dnskey_status] may do to an index: the sets and the
    entries stay, and an entry gets errors at the end of its list, each of
    a kind that [justified] allows for its key. *)
Definition dnskey_errors_added (justified : DNSKEYRdata → Errors.ErrKind → Prop)
    (idx idx' : DNSKEYIndex) : Prop :=
  _dnskey_sets idx' = _dnskey_sets idx
  ∧ ∀ rd,
      match dict_get rd (_dnskeys idx), dict_get rd (_dnskeys idx') with
      | Some meta, Some meta' =>
          dnskey_meta_name meta' = dnskey_meta_name meta
          ∧ dnskey_meta_ttl meta' = dnskey_meta_ttl meta
          ∧ dnskey_meta_rrset_info meta' = dnskey_meta_rrset_info meta
          ∧ dnskey_meta_servers_clients meta' = dnskey_meta_servers_clients meta
          ∧ ∃ new, dnskey_meta_errors meta' = dnskey_meta_errors meta ++ new
                   ∧ ∀ e, e ∈ new → justified rd (err_kind e)
      | None, None => True
      | _, _ => False
      end.

(** The conditions under which [_populate_dnskey_status] gives a key of
    the object an error of a kind: a revoked key that signs no DNSKEY
    RRset; any key of a name that is not a zone; a key that some
    responsive server did not return; and a trust anchor that signs no
    DNSKEY RRset, when no trust anchor among the keys does. *)
Definition dnskey_error_justified (na : NA) (self : string)
    (trusted_keys : list (string * DNSKEYRdata)) (idx : DNSKEYIndex)
    (rd : DNSKEYRdata) (kind : Errors.ErrKind) : Prop :=
  let ksks := default [] (ksks (na_st na)) in
  let revoked := default [] (revoked_keys (na_st na)) in
  match kind with
  | Errors.RevokedNotSigning => dnskey_ref self rd ∈ revoked ∧ dnskey_ref self rd ∉ ksks
  | Errors.DNSKEYNotAtZoneApex _ _ => is_zone (na_in na) = false
  | Errors.DNSKEYMissingFromServers => True
  | Errors.TrustAnchorNotSigning =>
      (na_name (na_in na), rd) ∈ trusted_keys ∧ (dnskey_ref self rd ∉ ksks)
      ∧ ∀ rd', is_Some (dict_get rd' (_dnskeys idx)) →
               (na_name (na_in na), rd') ∈ trusted_keys → dnskey_ref self rd' ∉ ksks
  | _ => False
  end.

Section statement_definitions.
Context `{!Oracles}.
(** The DNSKEY of an RRSIG status, if it has one, is a key the RRSIG
    applies to, and a member of the covered RRset when the RRSIG is a
    self-signature. *)
Definition rrsig_status_key_valid (s : RRSIGStatus) : Prop :=
  ∀ dnskey, rrsig_status_dnskey s = Some dnskey →
    (dnskey_protocol (dnskey_rdata dnskey) = 3
     ∧ rrsig_algorithm (rrsig_status_rrsig s) = dnskey_algorithm (dnskey_rdata dnskey)
     ∧ (rrsig_key_tag (rrsig_status_rrsig s) = key_tag (dnskey_rdata dnskey)
        ∨ rrsig_key_tag (rrsig_status_rrsig s) = key_tag_no_revoke (dnskey_rdata dnskey)))
    ∧ (rrset_rdtype (rrset (core (rrsig_status_rrset s))) = rdatatype.DNSKEY →
       rrsig_signer (rrsig_status_rrsig s) = rrset_name (rrset (core (rrsig_status_rrset s))) →
       RdataDNSKEY (dnskey_rdata dnskey) ∈ rrset_rdata (rrset (core (rrsig_status_rrset s)))).

(** Every RRSIG status recorded in [rrsig_status]. *)
Definition rrsig_statuses_valid (rs : RRsetState) : Prop :=
  ∀ id by_rrsig rrsig by_dnskey dnskey s,
    (id, by_rrsig) ∈ rrsig_status rs → (rrsig, by_dnskey) ∈ by_rrsig →
    (dnskey, s) ∈ by_dnskey → rrsig_status_key_valid s.

Definition store_rrsig_statuses_valid (st : gmap string NA) (self : string) : Prop :=
  ∀ na rs, st !! self = Some na → rrset_state (na_st na) = Some rs → rrsig_statuses_valid rs.
End statement_definitions.

(** ** Example inputs *)

(** Oracles for the examples: every signature and digest made with a key
    verifies, an NSEC proof is valid when its NSEC set uses NSEC3, a
    response without the AA bit counts as an upward referral. *)
Definition example_oracles : Oracles :=
  {| crypto_supported_algs := [8; 13];
     crypto_supported_digest_algs := [1; 2];
     key_tag := λ rd, 1000 + dnskey_flags rd;
     key_tag_no_revoke := λ rd, 1000 + Z.land (dnskey_flags rd) 65407;
     is_upward_referral := λ response _, negb (is_authoritative response);
     is_referral := λ _ _ _ _ _, false;
     RRSIGStatus_signature_valid := λ _ _ dnskey _ _ _, if dnskey is Some _ then Some true else None;
     RRSIGStatus_validation_status := λ _ _ dnskey _ _ _,
       if dnskey is Some _ then Status.RRSIG_STATUS_VALID else Status.RRSIG_STATUS_OTHER 1;
     DSStatus_digest_valid := λ _ _ dnskey _, if dnskey is Some _ then Some true else None;
     DSStatus_validation_status := λ _ _ dnskey _,
       if dnskey is Some _ then Status.DS_STATUS_VALID else Status.DS_STATUS_OTHER 1;
     NSECStatus_validation_status := λ _ _ _ _ _ nsec_set_info,
       if use_nsec3 nsec_set_info then Status.NSEC_STATUS_VALID else Status.NSEC_STATUS_OTHER 1;
     errno_errorcode := λ _, "UNKNOWN"%string;
     is_subdomain := λ _ _, false;
     sorted_names := id;
     sorted_addresses := id |}.

(** An authoritative analysis object that is a zone: its name, its parent,
    the DNSSEC algorithms of its DNSKEY answers, its queries and the servers
    that answered for it. *)
Definition example_zone (name : string) (parent : option string) (algs : list Z)
    (queries : list ((string * Z) * Query)) (servers : list string)
    (servers_clients : list (string * string)) : NAInput :=
  {| na_name := name; stub := false; analysis_type := ANALYSIS_TYPE_AUTHORITATIVE;
     is_zone := true; zone := Some name; parent := parent; dlv_parent := None;
     dlv_name := None; parent_name := parent; referral_rdtype := None; queries := queries;
     cname_targets := []; mx_targets := []; external_signers := []; ns_dependencies := [];
     get_name := λ n, if decide (n = name) then Some name else None;
     dnssec_algorithms_in_dnskey := algs; dnssec_algorithms_in_ds := [];
     dnssec_algorithms_in_dlv := []; analysis_end := 0; bailiwick_map := [];
     default_bailiwick := None; get_auth_or_designated_servers := servers;
     get_responsive_auth_or_designated_servers := servers;
     get_valid_auth_or_designated_servers := servers; get_designated_servers := servers;
     _auth_servers_clients := servers_clients; _valid_servers_clients := servers_clients;
     _responsive_servers_clients_udp := servers_clients;
     _responsive_servers_clients_tcp := servers_clients;
     _all_servers_clients_queried := servers_clients;
     _all_servers_clients_queried_tcp := servers_clients;
     get_ns_names := []; get_ns_names_in_child := []; get_ns_names_in_parent := [];
     get_glue_ip_mapping := []; get_auth_ns_ip_mapping := [];
     get_servers_in_parent := []; get_servers_in_child := [] |}.

(** A response to a query that [edns] and [effective_edns] describe, with
    the EDNS version [message_edns] in the response. *)
Definition example_response (id : nat) (query_edns message_edns effective_edns : Z)
    (cause_index : option nat) (history : list HistoryEntry) (authoritative : bool) : Response :=
  {| resp_id := id; query_edns := query_edns; query_edns_flags := 0;
     query_edns_max_udp_payload := 4096; query_tcp := false;
     message_edns := message_edns; message_rcode := 0;
     effective_edns := effective_edns; effective_edns_flags := 0;
     effective_edns_max_udp_payload := 4096; effective_tcp := false;
     tcp_responsive := true; udp_responsive := true;
     responsive_cause_index := cause_index; history := history; msg_size := 100;
     is_authoritative := authoritative; recursion_desired := false;
     recursion_available := false; recursion_desired_and_available := false;
     is_valid_response := true; is_complete_response := true; dnssec_requested := true |}.

(** A response without EDNS to a query without EDNS. *)
Definition plain_response (id : nat) (authoritative : bool) : Response :=
  example_response id (-1) (-1) (-1) None [] authoritative.

Definition example_query (id : nat) (qname : string) (rdtype : Z)
    (answers : list RRsetInfo) (nodata nxdomain : list NegativeResponseInfo) : Query :=
  {| query_id := id; qname_of := qname; rdtype_of := rdtype; answer_info := answers;
     nodata_info := nodata; nxdomain_info := nxdomain; error_info := []; queries_of := [];
     is_valid_complete_authoritative_response_any := false |}.

Definition example_negative_response (id : nat) (qname : string) (rdtype : Z)
    (server client : string) (response : Response) : NegativeResponseInfo :=
  {| neg_id := id; neg_qname := qname; neg_rdtype := rdtype; soa_rrset_info := [];
     nsec_set_info := []; neg_servers_clients := [((server, client), [response])] |}.

Definition example_rrset_info (id : nat) (name : string) (rdtype : Z) (rdata : list Rdata)
    (server client : string) (response : Response) : RRsetInfo :=
  plain_rrset_info
    {| rrset_id := id;
       rrset := {| rrset_name := name; rrset_rdtype := rdtype; rrset_ttl := 3600;
                   rrset_rdata := rdata |};
       rrset_servers_clients := [((server, client), [response])];
       rrsig_info := [] |}.

Definition example_store (l : list NAInput) : gmap string NA :=
  list_to_map ((λ i, (na_name i, {| na_in := i; na_st := init_state |})) <$> l).

(** The zone example.com under the signed zone com: a DS query without an
    answer, and no server that answers for the zone. *)
Definition com_zone (algs : list Z) : NAInput := example_zone "com." None algs [] [] [].

Definition example_com_queries (ds_nxdomain : list NegativeResponseInfo)
    : list ((string * Z) * Query) :=
  [(("example.com."%string, rdatatype.DS),
    example_query 1 "example.com." rdatatype.DS [] [] ds_nxdomain);
   (("example.com."%string, rdatatype.NS),
    example_query 2 "example.com." rdatatype.NS [] [] [])].

Definition lame_store : gmap string NA :=
  example_store [com_zone [8];
                 example_zone "example.com." (Some "com."%string) [] (example_com_queries []) [] []].

(** The same with an NXDOMAIN response to the DS query. *)
Definition ds_nxdomain_response : NegativeResponseInfo :=
  example_negative_response 10 "example.com." rdatatype.DS "192.0.2.1" "198.51.100.1"
    (plain_response 1 true).

Definition nxdomain_store (parent_algs : list Z) (servers : list string)
    (servers_clients : list (string * string)) : gmap string NA :=
  example_store [com_zone parent_algs;
                 example_zone "example.com." (Some "com."%string) []
                   (example_com_queries [ds_nxdomain_response]) servers servers_clients].

(** [populate_status] of an object at the default level, with the
    algorithms of the software. *)
Definition example_run (st : gmap string NA) (self : string) (level : Z)
    : Result (gmap string NA) :=
  populate_status (H := example_oracles) 10 st self [] None None false level [] true.

(** A signed zone: the DNSKEY RRset of example.com with a key signing key
    and a zone signing key, signed by the key signing key. *)
Definition example_ksk : DNSKEYRdata :=
  {| dnskey_flags := 257; dnskey_protocol := 3; dnskey_algorithm := 8; dnskey_key := "ksk" |}.

Definition example_zsk : DNSKEYRdata :=
  {| dnskey_flags := 256; dnskey_protocol := 3; dnskey_algorithm := 8; dnskey_key := "zsk" |}.

Definition example_rrsig (signer : string) (rd : DNSKEYRdata) (covered : Z) : RRSIG :=
  {| rrsig_signer := signer; rrsig_algorithm := dnskey_algorithm rd;
     rrsig_key_tag := 1000 + dnskey_flags rd; rrsig_type_covered := covered;
     rrsig_labels := 2; rrsig_original_ttl := 3600; rrsig_inception := -10;
     rrsig_expiration := 10; rrsig_signature := "signature" |}.

Definition example_server_client : string * string := ("192.0.2.1", "198.51.100.1")%string.

Definition signed_rrset_info (id : nat) (name : string) (rdtype : Z) (rdata : list Rdata)
    (rrsigs : list RRSIG) (response : Response) : RRsetInfo :=
  plain_rrset_info
    {| rrset_id := id;
       rrset := {| rrset_name := name; rrset_rdtype := rdtype; rrset_ttl := 3600;
                   rrset_rdata := rdata |};
       rrset_servers_clients := [(example_server_client, [response])];
       rrsig_info := (λ rrsig, (rrsig, [(example_server_client, [response])])) <$> rrsigs |}.

Definition example_dnskey_rrset_info : RRsetInfo :=
  signed_rrset_info 20 "example.com." rdatatype.DNSKEY
    [RdataDNSKEY example_ksk; RdataDNSKEY example_zsk]
    [example_rrsig "example.com." example_ksk rdatatype.DNSKEY]
    (example_response 2 0 0 0 None [] true).

Definition signed_zone : NAInput :=
  example_zone "example.com." None [8]
    [(("example.com."%string, rdatatype.DNSKEY),
      example_query 3 "example.com." rdatatype.DNSKEY [example_dnskey_rrset_info] [] [])]
    ["192.0.2.1"%string] [example_server_client].

(** A state in which the maps of the status exist and are empty. *)
Definition ready_state : NAState :=
  {| name_state := None;
     rrset_state := Some {| rrset_warnings := []; rrset_errors := []; rrsig_status := [];
                            dname_status := []; wildcard_status := [];
                            response_errors := [] |};
     zsks := Some []; ksks := Some []; published_keys := Some []; revoked_keys := Some [];
     nodata_state := Some empty_neg_state; nxdomain_state := Some empty_neg_state;
     deleg_state := Some {| ds_status_by_ds := []; ds_status_by_dnskey := [];
                            delegation_warnings := []; delegation_errors := [];
                            delegation_status := [] |};
     dnskey_index := None;
     response_component_status := None |}.

Definition ready_store (l : list NAInput) : gmap string NA :=
  list_to_map ((λ i, (na_name i, {| na_in := i; na_st := ready_state |})) <$> l).

Definition ready_nxdomain_store (parent_algs : list Z) (servers : list string)
    (servers_clients : list (string * string)) : gmap string NA :=
  ready_store [com_zone parent_algs;
               example_zone "example.com." (Some "com."%string) []
                 (example_com_queries [ds_nxdomain_response]) servers servers_clients].

(** The zone example.com whose servers answer the AAAA query for the name
    of the zone with NXDOMAIN, and the A query with [other]. *)
Definition nxdomain_aaaa : NegativeResponseInfo :=
  example_negative_response 30 "example.com." rdatatype.AAAA "192.0.2.1" "198.51.100.1"
    (plain_response 3 true).

Definition inconsistent_zone (a_query : Query) : NAInput :=
  example_zone "example.com." None []
    [(("example.com."%string, rdatatype.A), a_query);
     (("example.com."%string, rdatatype.AAAA),
      example_query 5 "example.com." rdatatype.AAAA [] [] [nxdomain_aaaa])]
    ["192.0.2.1"%string] [example_server_client].

(** The A query answered with an address by the same server. *)
Definition a_rrset_info : RRsetInfo :=
  example_rrset_info 31 "example.com." rdatatype.A [RdataOther "192.0.2.80"]
    "192.0.2.1" "198.51.100.1" (plain_response 4 true).

Definition a_answer_query : Query :=
  example_query 4 "example.com." rdatatype.A [a_rrset_info] [] [].

(** The A query answered by the same server with an empty response that
    has the AA bit or not. *)
Definition nodata_a (authoritative : bool) : NegativeResponseInfo :=
  example_negative_response 32 "example.com." rdatatype.A "192.0.2.1" "198.51.100.1"
    (plain_response 4 authoritative).

Definition a_nodata_query (authoritative : bool) : Query :=
  example_query 4 "example.com." rdatatype.A [] [nodata_a authoritative] [].

(** The zone example.com with the DLV name example.com.dlv.example., whose
    DLV query was answered with NXDOMAIN for that name and the type DLV. *)
Definition dlv_nxdomain_response : NegativeResponseInfo :=
  example_negative_response 11 "example.com.dlv.example." rdatatype.DLV
    "192.0.2.1" "198.51.100.1" (plain_response 5 true).

Definition dlv_query : Query :=
  example_query 6 "example.com.dlv.example." rdatatype.DLV [] [] [dlv_nxdomain_response].

Definition dlv_zone : NAInput :=
  {| na_name := "example.com."; stub := false; analysis_type := ANALYSIS_TYPE_AUTHORITATIVE;
     is_zone := true; zone := Some "example.com."%string; parent := Some "com."%string;
     dlv_parent := Some "dlv.example."%string;
     dlv_name := Some "example.com.dlv.example."%string;
     parent_name := Some "com."%string; referral_rdtype := None;
     queries := (("example.com.dlv.example."%string, rdatatype.DLV), dlv_query)
                :: example_com_queries [];
     cname_targets := []; mx_targets := []; external_signers := []; ns_dependencies := [];
     get_name := λ n, if decide (n = "example.com."%string) then Some "example.com."%string
                      else None;
     dnssec_algorithms_in_dnskey := []; dnssec_algorithms_in_ds := [];
     dnssec_algorithms_in_dlv := []; analysis_end := 0; bailiwick_map := [];
     default_bailiwick := None; get_auth_or_designated_servers := ["192.0.2.1"%string];
     get_responsive_auth_or_designated_servers := ["192.0.2.1"%string];
     get_valid_auth_or_designated_servers := ["192.0.2.1"%string];
     get_designated_servers := ["192.0.2.1"%string];
     _auth_servers_clients := [example_server_client];
     _valid_servers_clients := [example_server_client];
     _responsive_servers_clients_udp := [example_server_client];
     _responsive_servers_clients_tcp := [example_server_client];
     _all_servers_clients_queried := [example_server_client];
     _all_servers_clients_queried_tcp := [example_server_client];
     get_ns_names := []; get_ns_names_in_child := []; get_ns_names_in_parent := [];
     get_glue_ip_mapping := []; get_auth_ns_ip_mapping := [];
     get_servers_in_parent := []; get_servers_in_child := [] |}.

Definition ready_dlv_store : gmap string NA := ready_store [com_zone []; dlv_zone].

(** The state of example.com when the NXDOMAIN response to its AAAA query
    has been classified: the name is in [yxdomain], the warnings of the
    response and of the A RRset exist. *)
Definition classified_state : NAState :=
  {| name_state := Some {| status := Status.NAME_STATUS_NOERROR;
                           yxdomain := ["example.com."%string];
                           yxrrset := [("example.com."%string, rdatatype.A)];
                           nxrrset := [("example.com."%string, rdatatype.AAAA)] |};
     rrset_state := Some {| rrset_warnings := [(rid a_rrset_info, [])];
                            rrset_errors := [(rid a_rrset_info, [])];
                            rrsig_status := [(rid a_rrset_info, [])];
                            dname_status := []; wildcard_status := [];
                            response_errors := [] |};
     zsks := Some []; ksks := Some []; published_keys := None; revoked_keys := None;
     nodata_state := Some empty_neg_state;
     nxdomain_state := Some {| neg_status := [(nxdomain_aaaa, [])];
                               neg_warnings := [(nxdomain_aaaa, [])];
                               neg_errors := [(nxdomain_aaaa, [])] |};
     deleg_state := None; dnskey_index := None; response_component_status := None |}.

Definition classified_store : gmap string NA :=
  {[ "example.com."%string :=
       {| na_in := inconsistent_zone a_answer_query; na_st := classified_state |} ]}.









(** The store a run leaves (empty when it does not return). *)
Definition result_store (r : Result (gmap string NA)) : gmap string NA :=
  match r with Ok st => st | _ => ∅ end.

(** The status of example.com populated for the delegation only, and for
    every type. *)
Definition delegation_level_store : gmap string NA :=
  result_store (example_run (example_store [inconsistent_zone a_answer_query])
                  "example.com." RDTYPES_SECURE_DELEGATION).

Definition all_level_store : gmap string NA :=
  result_store (example_run (example_store [inconsistent_zone a_answer_query])
                  "example.com." RDTYPES_ALL).

(** The zone example.com under the signed zone com, with a DS query
    without an answer, before [_populate_ds_status]. *)
Definition ready_unsigned_child_store : gmap string NA :=
  ready_store [com_zone [8];
               example_zone "example.com." (Some "com."%string) [] (example_com_queries [])
                 ["192.0.2.1"%string] [example_server_client]].

(** The same zone whose DS query was answered with a CNAME RRset only. *)
Definition cname_ds_answer : RRsetInfo :=
  example_rrset_info 12 "example.com." rdatatype.CNAME [RdataOther "target.example."]
    "192.0.2.1" "198.51.100.1" (plain_response 6 true).

Definition cname_ds_query : Query :=
  example_query 1 "example.com." rdatatype.DS [cname_ds_answer] [] [].

Definition cname_ds_zone : NAInput :=
  example_zone "example.com." (Some "com."%string) []
    [(("example.com."%string, rdatatype.DS), cname_ds_query);
     (("example.com."%string, rdatatype.NS),
      example_query 2 "example.com." rdatatype.NS [] [] [])]
    ["192.0.2.1"%string] [example_server_client].

Definition ready_cname_ds_store : gmap string NA :=
  ready_store [com_zone [8]; cname_ds_zone].

(** A response without EDNS to a query with EDNS that the last request
    still used. *)
Definition edns_ignored_response : Response :=
  example_response 8 0 (-1) 0 None [] true.

(** A response with EDNS version 1 to a query with version 0, for which the
    effective request lowered the UDP payload size. *)
Definition edns_version_response : Response :=
  {| resp_id := 11; query_edns := 0; query_edns_flags := 0;
     query_edns_max_udp_payload := 4096; query_tcp := false;
     message_edns := 1; message_rcode := 0;
     effective_edns := 0; effective_edns_flags := 0;
     effective_edns_max_udp_payload := 512; effective_tcp := false;
     tcp_responsive := true; udp_responsive := true;
     responsive_cause_index := None; history := []; msg_size := 100;
     is_authoritative := true; recursion_desired := false;
     recursion_available := false; recursion_desired_and_available := false;
     is_valid_response := true; is_complete_response := true; dnssec_requested := true |}.

(** A graph with one node, SECURE, for a negative response to a DNSKEY
    query. *)
Definition dnskey_negative_response : NegativeResponseInfo :=
  example_negative_response 40 "example.com." rdatatype.DNSKEY "192.0.2.1" "198.51.100.1"
    (plain_response 9 true).

Definition example_graph : Graph :=
  {| node_reverse_mapping :=
       [(ComponentNegativeResponse dnskey_negative_response, "node"%string)];
     status_for_node := λ _ _, Some Status.RRSET_STATUS_SECURE;
     secure_dnskey_rrsets := [] |}.

(** A negative response to the DNSKEY query with its SOA RRset, in a graph
    in which the SOA RRset has no node. *)
Definition soa_of_negative_response : RRsetCore :=
  {| rrset_id := 41;
     rrset := {| rrset_name := "example.com."; rrset_rdtype := rdatatype.SOA;
                 rrset_ttl := 3600;
                 rrset_rdata := [RdataOther "ns1.example.com. admin.example.com. 1"] |};
     rrset_servers_clients := [(example_server_client, [plain_response 9 true])];
     rrsig_info := [] |}.

Definition dnskey_negative_response_with_soa : NegativeResponseInfo :=
  {| neg_id := 42; neg_qname := "example.com."; neg_rdtype := rdatatype.DNSKEY;
     soa_rrset_info := [soa_of_negative_response]; nsec_set_info := [];
     neg_servers_clients := [(example_server_client, [plain_response 9 true])] |}.

Definition soa_off_graph : Graph :=
  {| node_reverse_mapping :=
       [(ComponentNegativeResponse dnskey_negative_response_with_soa, "node"%string)];
     status_for_node := λ _ _, Some Status.RRSET_STATUS_SECURE;
     secure_dnskey_rrsets := [] |}.

(** The signed zone example.com after [_populate_rrsig_status_all]: one
    RRSIG status, for the KSK, which is the only key with a role. *)
Definition rrsig_all_store : gmap string NA :=
  result_store (_populate_rrsig_status_all (H := example_oracles) (example_store [signed_zone])
                  "example.com." [8] RDTYPES_ALL).

(** The zones com and example.com, after a run for com, and after a run
    for example.com that follows it. *)
Definition parent_populated_store : gmap string NA :=
  result_store (example_run lame_store "com." RDTYPES_ALL).

Definition child_populated_store : gmap string NA :=
  result_store (example_run parent_populated_store "example.com." RDTYPES_ALL).

(** A run for example.com alone populates com, its parent, too. *)
Definition family_populated_store : gmap string NA :=
  result_store (example_run lame_store "example.com." RDTYPES_ALL).

(** The zone example.com with a NODATA response for A, after
    [_populate_nodata_status]. *)
Definition nodata_populated_store : gmap string NA :=
  result_store (_populate_nodata_status (H := example_oracles)
                  (ready_store [inconsistent_zone (a_nodata_query true)]) "example.com." [8]
                  RDTYPES_ALL).

(** The zone example.com with an NXDOMAIN response for AAAA, after
    [_populate_nxdomain_status]. *)
Definition nxdomain_populated_store : gmap string NA :=
  result_store (_populate_nxdomain_status (H := example_oracles) classified_store
                  "example.com." [8] RDTYPES_ALL).

(** The unsigned zone example.com under the signed zone com, after
    [_populate_delegation_status]. *)
Definition delegation_populated_store : gmap string NA :=
  result_store (_populate_delegation_status (H := example_oracles) ready_unsigned_child_store
                  "example.com." [8] [2]).

(** The signed zone example.com with its KSK as trust anchor, when no
    signature of the DNSKEY RRset has been evaluated. *)
Definition dnskey_status_store : gmap string NA :=
  result_store (_populate_dnskey_status (ready_store [signed_zone])
                  "example.com." [("example.com."%string, example_ksk)]).

(** * Proofs *)

Section container_lemmas.
Context {K : Type} `{!EqDecision K} {V : Type}.
Implicit Types (d : list (K * V)) (s : list K).

Lemma dict_get_set_eq k v d : dict_get k (dict_set k v d) = Some v.
Proof.
  induction d as [|[k' v'] d IH]; simpl.
  - by rewrite decide_True.
  - destruct (decide (k' = k)) as [->|Hne]; simpl.
    + by rewrite decide_True.
    + by rewrite decide_False.
Qed.

Lemma dict_get_set_ne k k' v d : k ≠ k' → dict_get k' (dict_set k v d) = dict_get k' d.
Proof.
  intros Hne. induction d as [|[k'' v''] d IH]; simpl.
  - by rewrite decide_False.
  - destruct (decide (k'' = k)) as [->|Hne']; simpl.
    + by rewrite !decide_False.
    + destruct (decide (k'' = k')); done.
Qed.

Lemma dict_get_set k k' v d :
  dict_get k' (dict_set k v d) = if decide (k = k') then Some v else dict_get k' d.
Proof.
  destruct (decide (k = k')) as [->|?];
    [apply dict_get_set_eq | by apply dict_get_set_ne].
Qed.

Lemma dict_get_Some_elem k v d : dict_get k d = Some v → (k, v) ∈ d.
Proof.
  induction d as [|[k' v'] d IH]; simpl; [done|].
  destruct (decide (k' = k)) as [->|?].
  - intros [= ->]. left.
  - intros. right. auto.
Qed.

Lemma elem_dict_get k v d : (k, v) ∈ d → is_Some (dict_get k d).
Proof.
  induction d as [|[k' v'] d IH]; simpl.
  - by intros ?%elem_of_nil.
  - intros [[= -> ->]|?]%elem_of_cons.
    + rewrite decide_True; eauto.
    + destruct (decide (k' = k)); eauto.
Qed.

Lemma elem_set_add x y s : x ∈ set_add y s ↔ x = y ∨ x ∈ s.
Proof.
  unfold set_add. destruct (decide (y ∈ s)).
  - naive_solver.
  - rewrite elem_of_app, list_elem_of_singleton. naive_solver.
Qed.

Lemma elem_set_update x s l : x ∈ set_update s l ↔ x ∈ s ∨ x ∈ l.
Proof.
  unfold set_update. revert s. induction l as [|y l IH]; intros s; simpl.
  - rewrite elem_of_nil. naive_solver.
  - rewrite IH, elem_set_add, elem_of_cons. naive_solver.
Qed.

Lemma truthy_elem (l : list K) : truthy l = true ↔ ∃ x, x ∈ l.
Proof.
  destruct l as [|x l]; simpl.
  - split; [done|]. intros [x Hx]. by apply elem_of_nil in Hx.
  - split; [|done]. intros _. exists x. left.
Qed.

Lemma set_in_true x s : set_in x s = true ↔ x ∈ s.
Proof. unfold set_in. apply bool_decide_eq_true. Qed.

Lemma set_in_false x s : set_in x s = false ↔ x ∉ s.
Proof. unfold set_in. apply bool_decide_eq_false. Qed.
End container_lemmas.

(** ** Results *)

Lemma bind_Ok {A B} (m : Result A) (f : A → Result B) b :
  m ≫= f = Ok b ↔ ∃ a, m = Ok a ∧ f a = Ok b.
Proof. destruct m; simpl; naive_solver. Qed.

Lemma fmap_Ok {A B} (m : Result A) (f : A → B) b :
  f <$> m = Ok b ↔ ∃ a, m = Ok a ∧ b = f a.
Proof. destruct m; simpl; naive_solver. Qed.

Lemma subscript_Ok {A} what (o : option A) a : subscript what o = Ok a ↔ o = Some a.
Proof. destruct o; simpl; naive_solver. Qed.

Lemma error_index_Some kind l i :
  error_index kind l = Some i → ∃ e, l !! i = Some e ∧ err_kind e = kind.
Proof.
  revert i. induction l as [|e l IH]; intros i; simpl; [done|].
  destruct (decide (err_kind e = kind)).
  - intros [= <-]. eauto.
  - destruct (error_index kind l) as [j|] eqn:E; simpl; [|done].
    intros [= <-]. simpl. eauto.
Qed.

Lemma error_index_None kind l :
  error_index kind l = None → ∀ e, e ∈ l → err_kind e ≠ kind.
Proof.
  induction l as [|e l IH]; simpl.
  - intros _ e' ?%elem_of_nil. done.
  - destruct (decide (err_kind e = kind)); [done|].
    destruct (error_index kind l); simpl; [done|].
    intros _ e' [->|?]%elem_of_cons; auto.
Qed.

Lemma add_server_client_kind s c r e : err_kind (add_server_client s c r e) = err_kind e.
Proof. done. Qed.

Lemma add_server_client_carries s c r e :
  ∃ rs, dict_get (s, c) (err_servers_clients (add_server_client s c r e)) = Some rs ∧ r ∈ rs.
Proof.
  unfold add_server_client; simpl. eexists. split; [apply dict_get_set_eq|].
  apply elem_set_add. by left.
Qed.

Lemma add_server_client_keeps s c r e s' c' r' rs :
  dict_get (s', c') (err_servers_clients e) = Some rs → r' ∈ rs →
  ∃ rs', dict_get (s', c') (err_servers_clients (add_server_client s c r e)) = Some rs' ∧ r' ∈ rs'.
Proof.
  intros Hget Hin. unfold add_server_client; simpl. rewrite dict_get_set.
  destruct (decide ((s, c) = (s', c'))) as [[= -> ->]|?]; [|eauto].
  rewrite Hget. simpl. eexists. split; [done|]. apply elem_set_add. by right.
Qed.

(** The errors of a list keep their witnesses when one of them receives
    another. *)
Lemma attributed_alter kind s c r l i s' c' r' :
  attributed kind s c r l →
  attributed kind s c r (alter (add_server_client s' c' r') i l).
Proof.
  intros (e & rs & [j Hj]%list_elem_of_lookup & Hk & Hget & Hin).
  destruct (decide (i = j)) as [->|Hne].
  - destruct (add_server_client_keeps s' c' r' e s c r rs Hget Hin) as (rs' & ? & ?).
    exists (add_server_client s' c' r' e), rs'. split_and!; [|done..].
    apply list_elem_of_lookup. exists j. by rewrite list_lookup_alter_eq, Hj.
  - exists e, rs. split_and!; [|done..].
    apply list_elem_of_lookup. exists j. by rewrite list_lookup_alter_ne.
Qed.


Lemma insert_into_list_keeps kind l s c r kind' s' c' r' :
  attributed kind' s' c' r' l → attributed kind' s' c' r' (insert_into_list kind l s c r).1.
Proof.
  intros H. unfold insert_into_list.
  assert (attributed kind' s' c' r' (l ++ [new_error kind])) as H'.
  { destruct H as (e & rs & ? & ?). exists e, rs. rewrite elem_of_app. naive_solver. }
  destruct (error_index kind l); destruct s, c; simpl; try done; by apply attributed_alter.
Qed.

Lemma insert_witness_attributed kind s c r l :
  attributed kind s c (Some r) (insert_witness kind s c r l).
Proof.
  unfold insert_witness, insert_into_list.
  destruct (error_index kind l) as [i|] eqn:E; simpl.
  - destruct (error_index_Some _ _ _ E) as (e & Hi & Hk).
    destruct (add_server_client_carries s c (Some r) e) as (rs & ? & ?).
    exists (add_server_client s c (Some r) e), rs. split_and!; [|done..].
    apply list_elem_of_lookup. exists i. by rewrite list_lookup_alter_eq, Hi.
  - destruct (add_server_client_carries s c (Some r) (new_error kind)) as (rs & ? & ?).
    exists (add_server_client s c (Some r) (new_error kind)), rs. split_and!; [|done..].
    apply list_elem_of_lookup. exists (length l).
    rewrite list_lookup_alter_eq, lookup_app_r by lia. by rewrite Nat.sub_diag.
Qed.

Lemma insert_witness_keeps kind s c r l kind' s' c' r' :
  attributed kind' s' c' r' l → attributed kind' s' c' r' (insert_witness kind s c r l).
Proof. apply insert_into_list_keeps. Qed.

(** The error of a list that [insert_into_list] changes has the class and
    the arguments of the inserted one: an error of another kind in the
    result was in the list. *)
Lemma insert_witness_other kind s c r l e :
  e ∈ insert_witness kind s c r l → err_kind e ≠ kind → e ∈ l.
Proof.
  unfold insert_witness, insert_into_list. intros Hin Hne.
  assert (∀ (i : nat) (l' : list DomainNameAnalysisError),
            (∃ x, l' !! i = Some x ∧ err_kind x = kind) →
            e ∈ alter (add_server_client s c (Some r)) i l' → e ∈ l') as Halter.
  { intros i l' (x & Hi & Hk) [j Hj]%list_elem_of_lookup.
    destruct (decide (i = j)) as [->|Hij].
    - rewrite list_lookup_alter_eq, Hi in Hj. simpl in Hj. injection Hj as <-.
      by destruct Hne.
    - rewrite list_lookup_alter_ne in Hj by done. by eapply list_elem_of_lookup_2. }
  destruct (error_index kind l) as [i|] eqn:E; simpl in Hin.
  - eapply Halter; [|exact Hin]. by eapply error_index_Some.
  - apply Halter in Hin.
    + apply elem_of_app in Hin as [?|Hnew%list_elem_of_singleton]; [done|].
      subst e. by destruct Hne.
    + exists (new_error kind). rewrite lookup_app_r by lia. by rewrite Nat.sub_diag.
Qed.

Section response_errors.
Context `{!Oracles}.

Lemma signed_union (self : NAInput) :
  _signed self = true ↔
  ∃ alg, alg ∈ union (union (dnssec_algorithms_in_dnskey self) (dnssec_algorithms_in_ds self))
                     (dnssec_algorithms_in_dlv self).
Proof.
  unfold _signed, union. rewrite !orb_true_iff, !truthy_elem.
  setoid_rewrite elem_set_update. setoid_rewrite elem_set_update. naive_solver.
Qed.

Lemma authority_errors_keeps st qname_obj response server client errors errors' kind s c r :
  authority_errors st qname_obj response server client errors = Ok errors' →
  attributed kind s c r errors → attributed kind s c r errors'.
Proof.
  unfold authority_errors. intros Heq Hatt.
  destruct qname_obj as [q|]; [|by simplify_eq].
  destruct (deref st q) as [na| |]; simpl in Heq; try done.
  destruct (analysis_type (na_in na)); repeat case_match; simplify_eq;
    auto using insert_witness_keeps.
Qed.

(** The checks on the authority add NotAuthoritative and
    RecursionNotAvailable only. *)
Lemma authority_errors_other st qname_obj response server client errors errors' e :
  authority_errors st qname_obj response server client errors = Ok errors' →
  e ∈ errors' → err_kind e ≠ Errors.NotAuthoritative →
  err_kind e ≠ Errors.RecursionNotAvailable → e ∈ errors.
Proof.
  unfold authority_errors. intros Heq Hin Hna Hrna.
  destruct qname_obj as [q|]; [|by simplify_eq].
  destruct (deref st q) as [na| |]; simpl in Heq; try done.
  destruct (analysis_type (na_in na)); repeat case_match; simplify_eq;
    eauto using insert_witness_other.
Qed.

Lemma error_for_cause_assigned st qname_obj response index responsive responsive_valid wrap err :
  (∀ e, assigned_to_err (wrap e)) →
  error_for_cause st qname_obj response index responsive responsive_valid wrap = Ok (Some err) →
  assigned_to_err err.
Proof.
  intros Hwrap. unfold error_for_cause. intros (h & _ & Hrun)%bind_Ok.
  destruct (cause h); try done;
    apply bind_Ok in Hrun as ([] & _ & [= <-]); solve [done | apply Hwrap].
Qed.

Lemma edns_flag_loop_assigned st qname_obj response server client bits err0 err :
  edns_flag_loop st qname_obj response server client bits err0 = Ok (Some err) →
  (∀ e, err0 = Some e → assigned_to_err e) → assigned_to_err err.
Proof.
  revert err0. induction bits as [|i bits IH]; intros err0; simpl.
  - intros [= ->] H0. by apply H0.
  - intros (err1 & H1 & Hrun)%bind_Ok H0.
    assert (∀ e, err1 = Some e → assigned_to_err e) as H1'.
    { intros e ->. case_decide; [|by apply H0; simplify_eq].
      destruct (responsive_cause_index response); [|by apply H0; simplify_eq].
      by eapply error_for_cause_assigned in H1. }
    destruct err1 as [e1|]; [|by eapply IH]. simplify_eq. by apply H1'.
Qed.

Lemma edns_error_assigned st qname_obj response server client warnings warnings' err :
  edns_error st qname_obj response server client warnings = Ok (warnings', Some err) →
  assigned_to_err err.
Proof.
  unfold edns_error. destruct (message_edns response <? 0).
  - intros (err1 & H1 & Hrun)%bind_Ok.
    assert (err1 = Some err) as ->.
    { destruct err1, (responsive_cause_index response); by simplify_eq. }
    destruct (effective_edns response <? 0); [|by simplify_eq].
    destruct (responsive_cause_index response); [|done].
    by eapply error_for_cause_assigned in H1.
  - cbv zeta. case_decide; [|done].
    intros (err1 & H1 & Hrun)%bind_Ok.
    assert (err1 = Some err) as ->.
    { destruct err1, (responsive_cause_index response); by simplify_eq. }
    by eapply edns_flag_loop_assigned in H1.
Qed.

(** The warnings the comparison of the EDNS versions and payloads adds when
    the response used EDNS. *)
Lemma edns_error_warnings st qname_obj response server client warnings warnings' err :
  0 ≤ message_edns response →
  edns_error st qname_obj response server client warnings = Ok (warnings', err) →
  (message_edns response ≠ query_edns response →
     attributed (Errors.UnsupportedEDNSVersion (query_edns response)) server client
       (Some response) warnings')
  ∧ (effective_edns_max_udp_payload response ≠ query_edns_max_udp_payload response →
     attributed Errors.PMTUExceeded server client (Some response) warnings').
Proof.
  intros Hm. unfold edns_error.
  assert ((message_edns response <? 0) = false) as -> by lia. cbv zeta.
  assert (warnings' =
            (if decide (effective_edns_max_udp_payload response
                        ≠ query_edns_max_udp_payload response)
             then insert_witness Errors.PMTUExceeded server client response
                    (if decide (message_edns response ≠ query_edns response)
                     then insert_witness (Errors.UnsupportedEDNSVersion (query_edns response))
                            server client response warnings
                     else warnings)
             else if decide (message_edns response ≠ query_edns response)
                  then insert_witness (Errors.UnsupportedEDNSVersion (query_edns response))
                         server client response warnings
                  else warnings) →
          (message_edns response ≠ query_edns response →
             attributed (Errors.UnsupportedEDNSVersion (query_edns response)) server client
               (Some response) warnings')
          ∧ (effective_edns_max_udp_payload response ≠ query_edns_max_udp_payload response →
             attributed Errors.PMTUExceeded server client (Some response) warnings')) as Hw.
  { intros ->. split; intros Hne.
    - rewrite (decide_True _ _ Hne). case_decide.
      + apply insert_witness_keeps, insert_witness_attributed.
      + apply insert_witness_attributed.
    - rewrite (decide_True _ _ Hne). apply insert_witness_attributed. }
  intros Hrun. apply Hw. case_decide; [|by simplify_eq].
  apply bind_Ok in Hrun as (err1 & _ & Hrun).
  destruct err1, (responsive_cause_index response); by simplify_eq.
Qed.

(** C10 (amended): [_signed] holds of an object iff the union of the DNSSEC
    algorithms of its DNSKEY, DS and DLV answers has an element.  The EDNS
    error that [_populate_response_errors] assigns to [err], when it is not
    an invalid-response error, is inserted into [errors] when [qname_obj] is
    not None and its zone is signed, and into [warnings] otherwise, also for
    a signed zone when [qname_obj] is None.  The errors
    UnsupportedEDNSVersion and PMTUExceeded do not go through [err]: they
    are inserted into [warnings] whether the zone is signed or not, and the
    call adds no error of these two kinds to [errors]. *)
Theorem C10_signed_routes_edns_error (self : NAInput) (st : gmap string NA)
    (qname_obj : option string) (response : Response) (server client : string)
    (warnings errors : list DomainNameAnalysisError) :
  0 ≤ query_edns response →
  (_signed self = true ↔
     ∃ alg, alg ∈ union (union (dnssec_algorithms_in_dnskey self) (dnssec_algorithms_in_ds self))
                        (dnssec_algorithms_in_dlv self))
  ∧ (∀ warnings' err to_errors,
       edns_error st qname_obj response server client warnings = Ok (warnings', Some err) →
       Errors.InvalidResponseError err = false →
       zone_test st qname_obj _signed = Ok to_errors →
       (qname_obj = None → to_errors = false)
       ∧ (∀ q z, qname_obj = Some q → zone_of st q = Ok z → to_errors = _signed (na_in z))
       ∧ _populate_response_errors st qname_obj response server client warnings errors =
           (if to_errors
            then errors' ← authority_errors st qname_obj response server client
                             (insert_witness err server client response errors);
                 Ok (warnings', errors')
            else errors' ← authority_errors st qname_obj response server client errors;
                 Ok (insert_witness err server client response warnings', errors'))
       ∧ ∀ warnings'' errors'',
           _populate_response_errors st qname_obj response server client warnings errors
             = Ok (warnings'', errors'') →
           attributed err server client (Some response)
             (if to_errors then errors'' else warnings'')
           ∧ (to_errors = false → ∀ e, e ∈ errors'' → err_kind e = err → e ∈ errors))
  ∧ (0 ≤ message_edns response →
     ∀ warnings'' errors'',
       _populate_response_errors st qname_obj response server client warnings errors
         = Ok (warnings'', errors'') →
       (message_edns response ≠ query_edns response →
          attributed (Errors.UnsupportedEDNSVersion (query_edns response)) server client
            (Some response) warnings'')
       ∧ (effective_edns_max_udp_payload response ≠ query_edns_max_udp_payload response →
          attributed Errors.PMTUExceeded server client (Some response) warnings'')
       ∧ ∀ e, e ∈ errors'' →
           (∃ version, err_kind e = Errors.UnsupportedEDNSVersion version)
           ∨ err_kind e = Errors.PMTUExceeded →
           e ∈ errors).
Proof.
  intros Hedns.
  assert ((0 <=? query_edns response) = true) as Hedns' by lia.
  split; [apply signed_union|]. split.
  - intros warnings' err to_errors Herr Hinv Hzone.
    assert (_populate_response_errors st qname_obj response server client warnings errors =
        (if to_errors
         then errors' ← authority_errors st qname_obj response server client
                          (insert_witness err server client response errors);
              Ok (warnings', errors')
         else errors' ← authority_errors st qname_obj response server client errors;
              Ok (insert_witness err server client response warnings', errors'))) as Heq.
    { unfold _populate_response_errors. rewrite Hedns', Herr. simpl.
      unfold error_group. rewrite Hinv, Hzone. simpl. by destruct to_errors. }
    split_and!; [| |done|].
    + intros ->. simpl in Hzone. by injection Hzone.
    + intros q z -> Hz. simpl in Hzone. rewrite Hz in Hzone. simpl in Hzone.
      by injection Hzone.
    + intros w e. rewrite Heq. clear Heq.
      pose proof (edns_error_assigned _ _ _ _ _ _ _ _ Herr) as Hassigned.
      destruct to_errors.
      * destruct (authority_errors _ _ _ _ _ _) as [e'| |] eqn:Ha; simpl; intros; simplify_eq.
        split; [|done]. eapply authority_errors_keeps; [done|]. apply insert_witness_attributed.
      * destruct (authority_errors _ _ _ _ _ _) as [e'| |] eqn:Ha; simpl; intros; simplify_eq.
        split; [apply insert_witness_attributed|].
        intros _ x Hx Hk. eapply authority_errors_other; [exact Ha|done|..];
          rewrite Hk; intros ->; done.
  - intros Hm w e. unfold _populate_response_errors. rewrite Hedns'.
    intros ([w1 e1] & H1 & Hrun)%bind_Ok.
    apply bind_Ok in Hrun as (e2 & Hauth & [= <- <-]).
    apply bind_Ok in H1 as ([w0 err] & Herr & H1).
    destruct (edns_error_warnings _ _ _ _ _ _ _ _ Hm Herr) as [Hversion Hpmtu].
    assert ((∀ kind s c r, attributed kind s c r w0 → attributed kind s c r w1)
            ∧ ∀ x, x ∈ e1 →
                (∃ version, err_kind x = Errors.UnsupportedEDNSVersion version)
                ∨ err_kind x = Errors.PMTUExceeded → x ∈ errors) as [Hw He].
    { destruct err as [err|]; [|by simplify_eq].
      pose proof (edns_error_assigned _ _ _ _ _ _ _ _ Herr) as Hassigned.
      apply bind_Ok in H1 as ([] & _ & [= <- <-]).
      - split; [done|]. intros x Hx Hk. eapply insert_witness_other; [exact Hx|].
        intros Heq. rewrite Heq in Hk. destruct Hk as [[v ->]| ->]; done.
      - split; [|done]. intros. by apply insert_witness_keeps. }
    split_and!; [by intros ?; apply Hw, Hversion|by intros ?; apply Hw, Hpmtu|].
    intros x Hx Hk. apply He; [|done].
    eapply authority_errors_other; [exact Hauth|done|..];
      intros Heq; rewrite Heq in Hk; by destruct Hk as [[v ?]|?].
Qed.

(** C5: for a response without EDNS to a query that used EDNS,
    [_populate_response_errors] records the error EDNSIgnored, and no other
    EDNS error, with the response as its witness when the effective request
    still used EDNS; when the effective request did not use EDNS and the
    response has no responsive cause, it records no EDNS error. *)
Theorem C5_edns_ignored_or_silent (st : gmap string NA) (qname_obj : option string)
    (response : Response) (server client : string)
    (warnings errors : list DomainNameAnalysisError) :
  0 ≤ query_edns response →
  message_edns response < 0 →
  (0 ≤ effective_edns response →
     edns_error st qname_obj response server client warnings
       = Ok (warnings, Some Errors.EDNSIgnored)
     ∧ _populate_response_errors st qname_obj response server client warnings errors =
         (to_errors ← zone_test st qname_obj _signed;
          if to_errors : bool
          then errors' ← authority_errors st qname_obj response server client
                           (insert_witness Errors.EDNSIgnored server client response errors);
               Ok (warnings, errors')
          else errors' ← authority_errors st qname_obj response server client errors;
               Ok (insert_witness Errors.EDNSIgnored server client response warnings, errors'))
     ∧ ∀ warnings' errors',
         _populate_response_errors st qname_obj response server client warnings errors
           = Ok (warnings', errors') →
         attributed Errors.EDNSIgnored server client (Some response) warnings'
         ∨ attributed Errors.EDNSIgnored server client (Some response) errors')
  ∧ (effective_edns response < 0 →
     responsive_cause_index response = None →
     edns_error st qname_obj response server client warnings = Ok (warnings, None)
     ∧ _populate_response_errors st qname_obj response server client warnings errors =
         (errors' ← authority_errors st qname_obj response server client errors;
          Ok (warnings, errors'))).
Proof.
  intros Hq Hm.
  assert ((0 <=? query_edns response) = true) as Hq' by lia.
  assert ((message_edns response <? 0) = true) as Hm' by lia.
  split.
  - intros He.
    assert ((effective_edns response <? 0) = false) as He' by lia.
    assert (edns_error st qname_obj response server client warnings
            = Ok (warnings, Some Errors.EDNSIgnored)) as Herr.
    { unfold edns_error. rewrite Hm', He'. simpl. by destruct (responsive_cause_index response). }
    assert (_populate_response_errors st qname_obj response server client warnings errors =
         (to_errors ← zone_test st qname_obj _signed;
          if to_errors : bool
          then errors' ← authority_errors st qname_obj response server client
                           (insert_witness Errors.EDNSIgnored server client response errors);
               Ok (warnings, errors')
          else errors' ← authority_errors st qname_obj response server client errors;
               Ok (insert_witness Errors.EDNSIgnored server client response warnings, errors')))
      as Heq.
    { unfold _populate_response_errors. rewrite Hq', Herr. simpl. unfold error_group. simpl.
      destruct (zone_test st qname_obj _signed) as [[]| |]; done. }
    split_and!; [done..|].
    intros w e. rewrite Heq. clear Heq.
    destruct (zone_test st qname_obj _signed) as [[]| |]; simpl; [| |done..].
    + destruct (authority_errors _ _ _ _ _ _) as [e'| |] eqn:Ha; simpl; intros; simplify_eq.
      right. eapply authority_errors_keeps; [done|]. apply insert_witness_attributed.
    + destruct (authority_errors _ _ _ _ _ _) as [e'| |] eqn:Ha; simpl; intros; simplify_eq.
      left. apply insert_witness_attributed.
  - intros He Hr.
    assert ((effective_edns response <? 0) = true) as He' by lia.
    assert (edns_error st qname_obj response server client warnings = Ok (warnings, None)) as Herr.
    { unfold edns_error. by rewrite Hm', He', Hr. }
    split; [done|].
    unfold _populate_response_errors. by rewrite Hq', Herr.
Qed.

End response_errors.

(** ** Results and loops *)

Lemma forM_app {A S} (l1 l2 : list A) (body : A → S → Result S) s :
  forM (l1 ++ l2) body s = forM l1 body s ≫= forM l2 body.
Proof.
  revert s. induction l1 as [|x l1 IH]; intros s; simpl; [done|].
  destruct (body x s); simpl; auto.
Qed.

(** A property of the state that every step keeps holds when the loop
    ends. *)
Lemma forM_invariant {A S} (P : S → Prop) (l : list A) (body : A → S → Result S) s s' :
  (∀ x s1 s2, x ∈ l → P s1 → body x s1 = Ok s2 → P s2) →
  P s → forM l body s = Ok s' → P s'.
Proof.
  revert s. induction l as [|x l IH]; intros s Hstep Hs; simpl.
  - by intros [= <-].
  - intros (s1 & H1 & H2)%bind_Ok.
    eapply (IH s1); [|by eapply Hstep; [left|..]|done].
    intros y ? ? ?. apply Hstep. by right.
Qed.

Lemma foldl_invariant {A S} (P : S → Prop) (l : list A) (f : S → A → S) s :
  (∀ x s1, x ∈ l → P s1 → P (f s1 x)) → P s → P (foldl f s l).
Proof.
  revert s. induction l as [|x l IH]; intros s Hstep Hs; simpl; [done|].
  apply IH; [|apply Hstep; [left|done]].
  intros y ? ?. apply Hstep. by right.
Qed.

Lemma deref_Ok (st : gmap string NA) obj na : deref st obj = Ok na ↔ st !! obj = Some na.
Proof. apply subscript_Ok. Qed.

Lemma lookup_update (st : gmap string NA) obj f x :
  update obj f st !! x =
  if decide (obj = x)
  then (λ na, {| na_in := na_in na; na_st := f (na_st na) |}) <$> st !! x
  else st !! x.
Proof. unfold update. rewrite lookup_alter. by case_decide; simplify_eq. Qed.

(** Inversion of a run that ends in [Ok]. *)
Ltac inv_ok_step :=
  match goal with
  | H : Ok _ = Ok _ |- _ => injection H as H; try subst
  | H : Raise _ = Ok _ |- _ => discriminate H
  | H : OutOfFuel = Ok _ |- _ => discriminate H
  | H : _ ≫= _ = Ok _ |- _ => apply bind_Ok in H as (? & ? & H)
  | H : _ <$> _ = Ok _ |- _ => apply fmap_Ok in H as (? & H & ?)
  | H : subscript _ _ = Ok _ |- _ => apply subscript_Ok in H
  | H : deref _ _ = Ok _ |- _ => apply deref_Ok in H
  | H : (if ?c then _ else _) = Ok _ |- _ => destruct c eqn:?
  | H : (let (_, _) := ?x in _) = Ok _ |- _ => destruct x eqn:?
  | H : match ?x with _ => _ end = Ok _ |- _ => destruct x eqn:?
  end.
Ltac inv_ok := repeat (inv_ok_step; simpl in *).

Section ds_status.
Context `{!Oracles}.

Lemma elem_rrset_dss ds (rrset : RRset) :
  ds ∈ rrset_dss rrset ↔ RdataDS ds ∈ rrset_rdata rrset.
Proof.
  unfold rrset_dss. rewrite list_elem_of_omap. split.
  - intros (rd & Hin & Hrd). destruct rd; by simplify_eq.
  - intros Hin. by exists (RdataDS ds).
Qed.

Lemma supported_ds_algs_truthy ds_rrset_info sa sda :
  truthy (supported_ds_algs_of ds_rrset_info sa sda) = true ↔
  ∃ ds, RdataDS ds ∈ rrset_rdata (rrset (core ds_rrset_info))
        ∧ ds_algorithm ds ∈ sa ∧ ds_digest_type ds ∈ sda.
Proof.
  rewrite truthy_elem. unfold supported_ds_algs_of.
  setoid_rewrite <-elem_rrset_dss.
  generalize (rrset_dss (rrset (core ds_rrset_info))). intros l.
  assert (∀ acc x,
    x ∈ foldl (λ acc ds,
           if set_in (ds_algorithm ds) sa && set_in (ds_digest_type ds) sda
           then set_add (ds_algorithm ds) acc else acc) acc l ↔
    x ∈ acc ∨ ∃ ds, ds ∈ l ∧ ds_algorithm ds = x ∧ ds_algorithm ds ∈ sa ∧ ds_digest_type ds ∈ sda)
    as Hfold.
  { induction l as [|ds l IH]; intros acc x; simpl.
    - split; [auto|]. intros [?|(? & []%elem_of_nil & _)]. done.
    - rewrite IH. setoid_rewrite elem_of_cons.
      destruct (set_in (ds_algorithm ds) sa) eqn:E1; simpl;
        [destruct (set_in (ds_digest_type ds) sda) eqn:E2|]; simpl;
        rewrite ?elem_set_add; rewrite ?set_in_true, ?set_in_false in *; naive_solver. }
  setoid_rewrite Hfold. setoid_rewrite elem_of_nil. naive_solver.
Qed.

Lemma ds_status_for_dnskey_info_secure_path self na ds_rrset_info ds_rdata ds_algs sda
    dnskey_info acc s algs :
  ds_status_for_dnskey_info self na ds_rrset_info ds_rdata ds_algs sda dnskey_info acc
    = Ok (s, algs) →
  secure_path s = secure_path acc.1 ∧ status_of s = status_of acc.1
  ∧ errors_of s = errors_of acc.1.
Proof.
  unfold ds_status_for_dnskey_info. intros Hrun.
  destruct (negb _); [by simplify_eq|].
  apply bind_Ok in Hrun as ([[s1 algs1] created] & Hloop & Hrun).
  apply bind_Ok in Hrun as (s2 & Hsel & Hrun). simplify_eq.
  eapply (forM_invariant (λ s, secure_path s = secure_path acc.1 ∧ status_of s = status_of acc.1
                               ∧ errors_of s = errors_of acc.1)) in Hsel; [done| |].
  - intros x sa sb _ Hsa Hb. inv_ok. done.
  - eapply (forM_invariant (λ x, secure_path x.1.1 = secure_path acc.1
                                 ∧ status_of x.1.1 = status_of acc.1
                                 ∧ errors_of x.1.1 = errors_of acc.1)) in Hloop; [done| |done].
    intros x [[sa algsa] cra] [[sb algsb] crb] _ Hsa Hb. simpl in *. inv_ok; repeat case_match; done.
Qed.

Lemma ds_status_for_ds_secure_path self na dnskey_multiquery ds_rrset_info ds_algs sda
    ds_rdata acc s algs :
  ds_status_for_ds self na dnskey_multiquery ds_rrset_info ds_algs sda ds_rdata acc
    = Ok (s, algs) →
  secure_path s = secure_path acc.1 ∧ status_of s = status_of acc.1
  ∧ errors_of s = errors_of acc.1.
Proof.
  unfold ds_status_for_ds. destruct acc as [s0 algs0]. intros Hrun.
  apply bind_Ok in Hrun as ([s1 algs1] & Hloop & Hrun).
  eapply (forM_invariant (λ x, secure_path x.1 = secure_path s0 ∧ status_of x.1 = status_of s0
                               ∧ errors_of x.1 = errors_of s0)) in Hloop; [| |done].
  - simpl in *. inv_ok; done.
  - intros x [sa algsa] [sb algsb] _ Hsa Hb.
    apply ds_status_for_dnskey_info_secure_path in Hb. simpl in *. naive_solver congruence.
Qed.

(** The loop over the DS records of an RRset leaves [secure_path], the
    status and the errors to the statements around it. *)
Lemma ds_status_for_dss_secure_path self na dnskey_multiquery ds_rrset_info ds_algs sda
    l acc s algs :
  forM l (ds_status_for_ds self na dnskey_multiquery ds_rrset_info ds_algs sda) acc
    = Ok (s, algs) →
  secure_path s = secure_path acc.1 ∧ status_of s = status_of acc.1
  ∧ errors_of s = errors_of acc.1.
Proof.
  intros Hloop.
  eapply (forM_invariant (λ x, secure_path x.1 = secure_path acc.1
                               ∧ status_of x.1 = status_of acc.1
                               ∧ errors_of x.1 = errors_of acc.1)) in Hloop; [done| |done].
  intros x [sa algsa] [sb algsb] _ Hsa Hb.
  apply ds_status_for_ds_secure_path in Hb. simpl in *. naive_solver congruence.
Qed.

Lemma ds_status_for_rrset_secure_path self na rdtype name dnskey_multiquery dnskey_responses
    sa sda ds_rrset_info s s' :
  ds_status_for_rrset self na rdtype name dnskey_multiquery dnskey_responses sa sda
    ds_rrset_info s = Ok s' →
  (secure_path s' = true ↔
   secure_path s = true
   ∨ (ds_rrset_matches name rdtype ds_rrset_info
      ∧ truthy (supported_ds_algs_of ds_rrset_info sa sda) = true)).
Proof.
  unfold ds_status_for_rrset, ds_rrset_matches. intros Hrun.
  destruct (negb _) eqn:Hm.
  { simplify_eq. apply negb_true_iff, andb_false_iff in Hm.
    rewrite !bool_decide_eq_false in Hm. naive_solver. }
  apply negb_false_iff, andb_true_iff in Hm. rewrite !bool_decide_eq_true in Hm.
  apply bind_Ok in Hrun as ([s1 [signing validating]] & Hloop & Hrun).
  apply ds_status_for_dss_secure_path in Hloop as (Hsp & _ & _). simpl in Hsp.
  assert (secure_path s' = secure_path s1) as ->.
  { destruct (truthy dnskey_responses); simplify_eq; [|done].
    apply (foldl_invariant (λ x, secure_path x = secure_path s1)).
    { intros [[[sv cl] rs] sg] x _ Hx.
      apply (foldl_invariant (λ x, secure_path x = secure_path s1)); [|done].
      intros. done. }
    destruct (negb (truthy validating)); [done|].
    apply (foldl_invariant (λ x, secure_path x = secure_path s1)); [|done].
    intros [[sv cl] rs] x _ Hx. repeat case_match; done. }
  rewrite Hsp. destruct (truthy (supported_ds_algs_of ds_rrset_info sa sda)); simpl;
    naive_solver.
Qed.

Lemma ds_status_after_loop_secure_path self na rdtype name ds_rrset_answer_info sa sda s :
  ds_status_after_loop self na rdtype name ds_rrset_answer_info sa sda = Ok s →
  (secure_path s = true ↔
   ∃ ds_rrset_info ds,
     ds_rrset_info ∈ ds_rrset_answer_info
     ∧ ds_rrset_matches name rdtype ds_rrset_info
     ∧ RdataDS ds ∈ rrset_rdata (rrset (core ds_rrset_info))
     ∧ ds_algorithm ds ∈ sa ∧ ds_digest_type ds ∈ sda).
Proof.
  unfold ds_status_after_loop.
  generalize (dnskey_multiquery_of (na_in na)) as dq.
  intros dq. generalize (dnskey_server_client_responses (na_in na) dq) as rs. intros rs.
  assert (∀ l s0 s,
    forM l (ds_status_for_rrset self na rdtype name dq rs sa sda) s0 = Ok s →
    (secure_path s = true ↔
     secure_path s0 = true
     ∨ ∃ x, x ∈ l ∧ ds_rrset_matches name rdtype x
            ∧ truthy (supported_ds_algs_of x sa sda) = true)) as Hgen.
  { induction l as [|x l IH]; intros s0 s1; simpl.
    - intros [= ->]. setoid_rewrite elem_of_nil. naive_solver.
    - intros (s2 & Hx & Hl)%bind_Ok.
      rewrite (IH _ _ Hl), (ds_status_for_rrset_secure_path _ _ _ _ _ _ _ _ _ _ _ Hx).
      setoid_rewrite elem_of_cons. naive_solver. }
  intros Hrun. rewrite (Hgen _ _ _ Hrun). simpl.
  setoid_rewrite supported_ds_algs_truthy. naive_solver.
Qed.

Local Arguments ds_status_nxdomain : simpl never.
Local Arguments ds_status_lame : simpl never.

(** The run of [_populate_ds_status] that reaches the end of the function:
    the object has a parent, the record type is DS (for the name of the
    object) or DLV (for its DLV name), the delegation maps exist, the query
    exists and neither the loop nor the resolution fails. *)
Lemma populate_ds_status_run st self na p rdtype name d query s status sa sda :
  st !! self = Some na →
  parent (na_in na) = Some p →
  (rdtype = rdatatype.DS ∧ name = na_name (na_in na))
  ∨ (rdtype = rdatatype.DLV ∧ dlv_name (na_in na) = Some name) →
  deleg_state (na_st na) = Some d →
  dict_get (name, rdtype) (queries (na_in na)) = Some query →
  ds_status_after_loop self na rdtype name (answer_info query) sa sda = Ok s →
  ds_status_resolved st na name (answer_info query) s = Ok status →
  ∃ st',
    _populate_ds_status st self rdtype sa sda = Ok st'
    ∧ delegation_status_of st' self rdtype =
        Some (ds_status_nxdomain (na_in na) rdtype name query
                (errors_of s, ds_status_lame (na_in na) status)).2
    ∧ delegation_errors_of st' self rdtype =
        Some (ds_status_nxdomain (na_in na) rdtype name query
                (errors_of s, ds_status_lame (na_in na) status)).1.
Proof.
  intros Hna Hp Hrd Hd Hq Hloop Hres.
  unfold _populate_ds_status.
  assert (set_in rdtype [rdatatype.DS; rdatatype.DLV] = true) as ->.
  { apply set_in_true. destruct Hrd as [[-> _]|[-> _]]; set_solver. }
  simpl. unfold deref. rewrite Hna. simpl. rewrite Hp.
  assert ((if decide (rdtype = rdatatype.DLV)
           then match dlv_name (na_in na) with
                | Some name => Ok name
                | None => Raise ValueError_NoDLVSpecified
                end
           else Ok (na_name (na_in na))) = Ok name) as ->.
  { destruct Hrd as [[-> ->]|[-> ->]]; by simpl. }
  simpl. rewrite Hd. simpl. rewrite Hq, Hloop. simpl. rewrite Hres. simpl.
  destruct (ds_status_nxdomain _ _ _ _ _) as [errors final] eqn:Hfin. simpl.
  eexists. split; [done|].
  unfold delegation_status_of, delegation_errors_of.
  rewrite lookup_update, decide_True, Hna by done. simpl.
  by rewrite !dict_get_set_eq.
Qed.

End ds_status.

Section ds_claims.
Context `{!Oracles}.

Local Arguments ds_status_nxdomain : simpl never.
Local Arguments ds_status_lame : simpl never.

Lemma has_valid_nsec_status_true lists :
  has_valid_nsec_status lists = true ↔
  ∃ l nsec_status, l ∈ lists ∧ nsec_status ∈ l
    ∧ nsec_validation_status nsec_status = Status.NSEC_STATUS_VALID.
Proof.
  unfold has_valid_nsec_status. rewrite existsb_exists.
  setoid_rewrite existsb_exists. setoid_rewrite bool_decide_eq_true.
  setoid_rewrite <-list_elem_of_In. naive_solver.
Qed.

Lemma ds_nsec_status_lists_elem (s : NAState) name nx nd :
  nxdomain_state s = Some nx → nodata_state s = Some nd →
  ∃ lists, ds_nsec_status_lists s name = Ok lists
    ∧ ∀ l, l ∈ lists ↔
       ∃ n, ((n, l) ∈ neg_status nx ∨ (n, l) ∈ neg_status nd)
            ∧ neg_qname n = name ∧ neg_rdtype n = rdatatype.DS.
Proof.
  intros Hnx Hnd. unfold ds_nsec_status_lists. rewrite Hnx, Hnd. simpl.
  eexists. split; [done|]. intros l.
  rewrite elem_of_app, !list_elem_of_fmap.
  setoid_rewrite list_elem_of_filter. split.
  - intros [([n l'] & -> & ? & ?)|([n l'] & -> & ? & ?)]; simpl in *; naive_solver.
  - intros (n & [?|?] & ? & ?); [left|right]; exists (n, l); naive_solver.
Qed.

(** The lame rule and the NXDOMAIN rule change an INSECURE status only. *)
Lemma ds_status_final_not_insecure (self : NAInput) rdtype name query errors status :
  status ≠ Status.DELEGATION_STATUS_INSECURE →
  (ds_status_nxdomain self rdtype name query (errors, ds_status_lame self status)).2 = status.
Proof.
  intros Hne. unfold ds_status_lame, ds_status_nxdomain.
  repeat case_match; simplify_eq; done.
Qed.

(** The cases of the statement that resolves the delegation status, for
    DS on an object with a parent, when the rule for witnesses has left the
    status unset: BOGUS when the list of answers of the DS query is not
    empty and [secure_path] holds, INSECURE when it is not empty and
    [secure_path] does not hold, where [secure_path] holds iff some DS record
    of a DS RRset for the name has a supported algorithm and a supported
    digest type; with an empty list it is INSECURE when the parent is not
    signed, and for a signed parent INSECURE if some NSEC status of a
    negative response to the DS query for the name is VALID and BOGUS
    otherwise.  The function ends with that status after the rules for LAME
    and INCOMPLETE, which leave BOGUS as it is. *)
Lemma resolved_delegation_status_cases (st : gmap string NA) (self p : string) (na : NA)
    (query : Query) (s : DSState) (sa sda : list Z) :
  st !! self = Some na →
  parent (na_in na) = Some p →
  dict_get (na_name (na_in na), rdatatype.DS) (queries (na_in na)) = Some query →
  ds_status_after_loop self na rdatatype.DS (na_name (na_in na)) (answer_info query) sa sda
    = Ok s →
  status_of s = None →
  let name := na_name (na_in na) in
  let resolved := ds_status_resolved st na name (answer_info query) s in
  (secure_path s = true ↔
     ∃ ds_rrset_info ds,
       ds_rrset_info ∈ answer_info query
       ∧ ds_rrset_matches name rdatatype.DS ds_rrset_info
       ∧ RdataDS ds ∈ rrset_rdata (rrset (core ds_rrset_info))
       ∧ ds_algorithm ds ∈ sa ∧ ds_digest_type ds ∈ sda)
  ∧ (answer_info query ≠ [] →
       (secure_path s = true → resolved = Ok Status.DELEGATION_STATUS_BOGUS)
       ∧ (secure_path s = false → resolved = Ok Status.DELEGATION_STATUS_INSECURE))
  ∧ (answer_info query = [] → ∀ parent_na, st !! p = Some parent_na →
       (_signed (na_in parent_na) = false → resolved = Ok Status.DELEGATION_STATUS_INSECURE)
       ∧ (_signed (na_in parent_na) = true →
          ∀ nx nd, nxdomain_state (na_st na) = Some nx → nodata_state (na_st na) = Some nd →
          let proved :=
            ∃ n l nsec_status,
              ((n, l) ∈ neg_status nx ∨ (n, l) ∈ neg_status nd)
              ∧ neg_qname n = name ∧ neg_rdtype n = rdatatype.DS
              ∧ nsec_status ∈ l
              ∧ nsec_validation_status nsec_status = Status.NSEC_STATUS_VALID in
          (proved → resolved = Ok Status.DELEGATION_STATUS_INSECURE)
          ∧ (¬ proved → resolved = Ok Status.DELEGATION_STATUS_BOGUS)))
  ∧ (∀ d status, deleg_state (na_st na) = Some d → resolved = Ok status →
       ∃ st', _populate_ds_status st self rdatatype.DS sa sda = Ok st'
         ∧ delegation_status_of st' self rdatatype.DS =
             Some (ds_status_nxdomain (na_in na) rdatatype.DS name query
                     (errors_of s, ds_status_lame (na_in na) status)).2
         ∧ (status = Status.DELEGATION_STATUS_BOGUS →
            delegation_status_of st' self rdatatype.DS = Some Status.DELEGATION_STATUS_BOGUS)).
Proof.
  intros Hna Hp Hq Hloop Hnone name resolved.
  split; [by apply ds_status_after_loop_secure_path in Hloop|].
  subst resolved. unfold ds_status_resolved. rewrite Hnone.
  split_and!.
  - intros Hans. destruct (answer_info query); [done|]. simpl.
    split; intros ->; done.
  - intros Hans parent_na Hpna. rewrite Hans. cbn [truthy].
    rewrite Hp. cbn. unfold deref. rewrite Hpna. cbn.
    split; [by intros ->|]. intros -> nx nd Hnx Hnd.
    match goal with |- (?P → _) ∧ _ => set (proved := P) end.
    destruct (ds_nsec_status_lists_elem (na_st na) name nx nd Hnx Hnd)
      as (lists & -> & Helem). cbn.
    assert (has_valid_nsec_status lists = true ↔ proved) as Hiff.
    { rewrite has_valid_nsec_status_true. subst proved. split.
      - intros (l & nsec_status & (n & ? & ? & ?)%Helem & ? & ?). by exists n, l, nsec_status.
      - intros (n & l & nsec_status & ? & ? & ? & ? & ?). exists l, nsec_status.
        split_and!; [|done..]. apply Helem. by exists n. }
    destruct (has_valid_nsec_status lists); split; intros Hpr; try done.
    + destruct Hpr. by apply Hiff.
    + apply Hiff in Hpr. done.
  - intros d status Hd Hres.
    destruct (populate_ds_status_run st self na p rdatatype.DS name d query s status sa sda)
      as (st' & Hrun & Hst & _); try done.
    { by left. }
    { unfold ds_status_resolved. by rewrite Hnone. }
    exists st'. split_and!; [done..|].
    intros ->. by rewrite Hst, ds_status_final_not_insecure.
Qed.

(** The loop over the answers of the DS query skips an RRset of another
    name or type, such as a CNAME RRset. *)
Lemma ds_status_for_rrset_unmatched self na rdtype name dnskey_multiquery dnskey_responses
    sa sda ds_rrset_info s :
  ¬ ds_rrset_matches name rdtype ds_rrset_info →
  ds_status_for_rrset self na rdtype name dnskey_multiquery dnskey_responses sa sda
    ds_rrset_info s = Ok s.
Proof.
  intros Hunmatched. unfold ds_status_for_rrset.
  assert (bool_decide (rrset_name (rrset (core ds_rrset_info)) = name)
          && bool_decide (rrset_rdtype (rrset (core ds_rrset_info)) = rdtype) = false) as ->;
    [|done].
  apply not_true_iff_false. by rewrite andb_true_iff, !bool_decide_eq_true.
Qed.

Lemma ds_status_after_loop_unmatched self na rdtype name ds_rrset_answer_info sa sda :
  (∀ ds_rrset_info, ds_rrset_info ∈ ds_rrset_answer_info →
     ¬ ds_rrset_matches name rdtype ds_rrset_info) →
  ds_status_after_loop self na rdtype name ds_rrset_answer_info sa sda = Ok empty_ds_state.
Proof.
  unfold ds_status_after_loop. generalize empty_ds_state as s.
  induction ds_rrset_answer_info as [|x l IH]; intros s Hunmatched; [done|].
  cbn [forM]. rewrite ds_status_for_rrset_unmatched by (apply Hunmatched; left).
  cbn [mbind Result_bind]. apply IH. intros y Hy. apply Hunmatched. by right.
Qed.

(** C1: the divergence.  When the DS query of an object with a parent has
    answers but none of them is a DS RRset for the name (the answer is a
    CNAME RRset, say), no DS answer was observed: the loop skips every RRset
    and [secure_path] stays False.  The statement that resolves the status
    tests the whole list of answers, finds it not empty, and makes the
    status INSECURE, whether the parent is signed or not and whatever the
    NSEC statuses are; [_populate_ds_status] ends with INSECURE after the
    rules for LAME and INCOMPLETE, never with BOGUS. *)
Theorem C1_answers_without_ds_resolve_insecure (st : gmap string NA) (self p : string)
    (na : NA) (d : DelegState) (query : Query) (sa sda : list Z) :
  st !! self = Some na →
  parent (na_in na) = Some p →
  deleg_state (na_st na) = Some d →
  dict_get (na_name (na_in na), rdatatype.DS) (queries (na_in na)) = Some query →
  answer_info query ≠ [] →
  (∀ ds_rrset_info, ds_rrset_info ∈ answer_info query →
     ¬ ds_rrset_matches (na_name (na_in na)) rdatatype.DS ds_rrset_info) →
  let name := na_name (na_in na) in
  ds_status_after_loop self na rdatatype.DS name (answer_info query) sa sda = Ok empty_ds_state
  ∧ ds_status_resolved st na name (answer_info query) empty_ds_state
    = Ok Status.DELEGATION_STATUS_INSECURE
  ∧ ∃ st', _populate_ds_status st self rdatatype.DS sa sda = Ok st'
      ∧ delegation_status_of st' self rdatatype.DS =
          Some (ds_status_nxdomain (na_in na) rdatatype.DS name query
                  ([], ds_status_lame (na_in na) Status.DELEGATION_STATUS_INSECURE)).2
      ∧ delegation_status_of st' self rdatatype.DS ≠ Some Status.DELEGATION_STATUS_BOGUS.
Proof.
  intros Hna Hp Hd Hq Hanswers Hunmatched name.
  pose proof (ds_status_after_loop_unmatched self na rdatatype.DS name (answer_info query)
                sa sda Hunmatched) as Hloop.
  assert (ds_status_resolved st na name (answer_info query) empty_ds_state
          = Ok Status.DELEGATION_STATUS_INSECURE) as Hres.
  { unfold ds_status_resolved. simpl. by destruct (answer_info query). }
  split; [done|]. split; [done|].
  destruct (populate_ds_status_run st self na p rdatatype.DS name d query empty_ds_state
              Status.DELEGATION_STATUS_INSECURE sa sda) as (st' & Hrun & Hst & _); try done.
  { by left. }
  exists st'. split; [done|]. split; [done|]. rewrite Hst.
  unfold ds_status_lame, ds_status_nxdomain. repeat case_match; simplify_eq; done.
Qed.

Lemma ds_nxdomain_info_Some name query x :
  x ∈ nxdomain_info query → neg_qname x = name → neg_rdtype x = rdatatype.DS →
  ∃ info, ds_nxdomain_info name query = Some info
    ∧ info ∈ nxdomain_info query ∧ neg_qname info = name ∧ neg_rdtype info = rdatatype.DS.
Proof.
  intros Hin Hq Hr. unfold ds_nxdomain_info.
  destruct (filter _ (nxdomain_info query)) as [|info l] eqn:Hf.
  - assert (x ∈ filter (λ x, neg_qname x = name ∧ neg_rdtype x = rdatatype.DS)
                       (nxdomain_info query)) as Hx by (apply list_elem_of_filter; done).
    rewrite Hf in Hx. by apply elem_of_nil in Hx.
  - exists info. split; [done|].
    assert (info ∈ filter (λ x, neg_qname x = name ∧ neg_rdtype x = rdatatype.DS)
                          (nxdomain_info query)) as Hi by (rewrite Hf; left).
    apply list_elem_of_filter in Hi. naive_solver.
Qed.

(** C6 (amended): when [_populate_ds_status] runs to its end.  For DS: if
    the DS query has an NXDOMAIN response for the name and the type DS, the
    error NoNSInParent with the witnesses of the first such response is
    appended to the delegation errors, and the status becomes INCOMPLETE if
    it is INSECURE at that point (after the rule for LAME) and stays as it
    is otherwise; if the query has no such response, the errors and the
    status are as the rule for LAME leaves them.  For DLV the errors and
    the status are as the rule for LAME leaves them, whatever the NXDOMAIN
    responses of the DLV query are. *)
Theorem C6_nxdomain_incomplete_if_insecure (st : gmap string NA) (self p : string) (na : NA)
    (rdtype : Z) (name : string) (d : DelegState) (query : Query) (s : DSState)
    (status : Status.DelegationStatus) (sa sda : list Z) :
  st !! self = Some na →
  parent (na_in na) = Some p →
  (rdtype = rdatatype.DS ∧ name = na_name (na_in na))
  ∨ (rdtype = rdatatype.DLV ∧ dlv_name (na_in na) = Some name) →
  deleg_state (na_st na) = Some d →
  dict_get (name, rdtype) (queries (na_in na)) = Some query →
  ds_status_after_loop self na rdtype name (answer_info query) sa sda = Ok s →
  ds_status_resolved st na name (answer_info query) s = Ok status →
  ∃ st', _populate_ds_status st self rdtype sa sda = Ok st'
    ∧ (rdtype = rdatatype.DS →
       (∀ x, x ∈ nxdomain_info query → neg_qname x = name → neg_rdtype x = rdatatype.DS →
          ∃ info, ds_nxdomain_info name query = Some info
            ∧ info ∈ nxdomain_info query ∧ neg_qname info = name
            ∧ neg_rdtype info = rdatatype.DS
            ∧ delegation_errors_of st' self rdtype =
                Some (errors_of s ++
                      [servers_clients_update (neg_servers_clients info)
                         (new_error (Errors.NoNSInParent (parent_name (na_in na))))])
            ∧ delegation_status_of st' self rdtype =
                Some (if decide (ds_status_lame (na_in na) status
                                 = Status.DELEGATION_STATUS_INSECURE)
                      then Status.DELEGATION_STATUS_INCOMPLETE
                      else ds_status_lame (na_in na) status))
       ∧ ((∀ x, x ∈ nxdomain_info query →
             ¬ (neg_qname x = name ∧ neg_rdtype x = rdatatype.DS)) →
          delegation_errors_of st' self rdtype = Some (errors_of s)
          ∧ delegation_status_of st' self rdtype = Some (ds_status_lame (na_in na) status)))
    ∧ (rdtype = rdatatype.DLV →
       delegation_errors_of st' self rdtype = Some (errors_of s)
       ∧ delegation_status_of st' self rdtype = Some (ds_status_lame (na_in na) status)).
Proof.
  intros Hna Hp Hrd Hd Hq Hloop Hres.
  destruct (populate_ds_status_run st self na p rdtype name d query s status sa sda)
    as (st' & Hrun & Hst & Herr); try done.
  exists st'. split; [done|]. rewrite Hst, Herr. split.
  - intros ->. split.
    + intros x Hx Hxq Hxr.
      destruct (ds_nxdomain_info_Some name query x) as (info & Hi & ? & ? & ?); try done.
      exists info. unfold ds_status_nxdomain. rewrite decide_True, Hi by done. done.
    + intros Hnone. unfold ds_status_nxdomain. rewrite decide_True by done.
      assert (ds_nxdomain_info name query = None) as ->; [|done].
      unfold ds_nxdomain_info.
      destruct (filter _ (nxdomain_info query)) as [|info l] eqn:Hf; [done|].
      assert (info ∈ filter (λ x, neg_qname x = name ∧ neg_rdtype x = rdatatype.DS)
                            (nxdomain_info query)) as Hi by (rewrite Hf; left).
      apply list_elem_of_filter in Hi as [Hi Hin]. by destruct (Hnone info Hin).
  - intros ->. unfold ds_status_nxdomain. rewrite decide_False; done.
Qed.

(** C7 (amended): when [_populate_ds_status] runs to its end and the zone
    has no authoritative or designated server, or none that responds, or
    none that gives a valid response, or (authoritative analysis) no server
    that answers authoritatively, the delegation status is LAME if the
    status resolved before is INSECURE, and is that status unchanged
    otherwise. *)
Theorem C7_lame_if_insecure (st : gmap string NA) (self p : string) (na : NA)
    (rdtype : Z) (name : string) (d : DelegState) (query : Query) (s : DSState)
    (status : Status.DelegationStatus) (sa sda : list Z) :
  st !! self = Some na →
  parent (na_in na) = Some p →
  (rdtype = rdatatype.DS ∧ name = na_name (na_in na))
  ∨ (rdtype = rdatatype.DLV ∧ dlv_name (na_in na) = Some name) →
  deleg_state (na_st na) = Some d →
  dict_get (name, rdtype) (queries (na_in na)) = Some query →
  ds_status_after_loop self na rdtype name (answer_info query) sa sda = Ok s →
  ds_status_resolved st na name (answer_info query) s = Ok status →
  get_auth_or_designated_servers (na_in na) = []
  ∨ get_responsive_auth_or_designated_servers (na_in na) = []
  ∨ get_valid_auth_or_designated_servers (na_in na) = []
  ∨ (analysis_type (na_in na) = ANALYSIS_TYPE_AUTHORITATIVE
     ∧ _auth_servers_clients (na_in na) = []) →
  ∃ st', _populate_ds_status st self rdtype sa sda = Ok st'
    ∧ delegation_status_of st' self rdtype =
        Some (if decide (status = Status.DELEGATION_STATUS_INSECURE)
              then Status.DELEGATION_STATUS_LAME else status).
Proof.
  intros Hna Hp Hrd Hd Hq Hloop Hres Hlame.
  destruct (populate_ds_status_run st self na p rdtype name d query s status sa sda)
    as (st' & Hrun & Hst & _); try done.
  exists st'. split; [done|]. rewrite Hst. f_equal.
  assert (lame_condition (na_in na) = true) as Hl.
  { unfold lame_condition.
    destruct (get_auth_or_designated_servers (na_in na)); [done|].
    destruct (get_responsive_auth_or_designated_servers (na_in na)); [done|].
    destruct (get_valid_auth_or_designated_servers (na_in na)); [done|].
    destruct Hlame as [?|[?|[?|[-> ->]]]]; done. }
  unfold ds_status_lame, ds_status_nxdomain. rewrite Hl.
  repeat case_match; simplify_eq; done.
Qed.

End ds_claims.

(** A loop that raises a flag when a step finds the value it looks for. *)
Lemma forM_flag {A V} `{!EqDecision V} (l : list A) (g : A → Result V) (v : V) b0 b :
  forM l (λ x acc, s ← g x; if decide (s = v) then Ok true else Ok acc) b0 = Ok b →
  (b = true ↔ b0 = true ∨ ∃ x, x ∈ l ∧ g x = Ok v).
Proof.
  revert b0. induction l as [|x l IH]; intros b0; simpl.
  - intros [= ->]. setoid_rewrite elem_of_nil. naive_solver.
  - intros (b1 & Hx & Hl)%bind_Ok. apply bind_Ok in Hx as (s & Hg & Hx).
    rewrite (IH _ Hl). setoid_rewrite elem_of_cons.
    destruct (decide (s = v)) as [->|Hne]; simplify_eq; [naive_solver|].
    split; [naive_solver|]. intros [?|(y & [->|?] & Hy)]; [naive_solver| |naive_solver].
    rewrite Hg in Hy. by simplify_eq.
Qed.

Lemma foldl_dict_set_ne {K V A} `{!EqDecision K} (k : K) (key : A → K) (val : A → V)
    (l : list A) (d : list (K * V)) :
  (∀ x, x ∈ l → key x ≠ k) →
  dict_get k (foldl (λ d x, dict_set (key x) (val x) d) d l) = dict_get k d.
Proof.
  revert d. induction l as [|x l IH]; intros d Hne; simpl; [done|].
  rewrite IH by (intros; apply Hne; by right).
  apply dict_get_set_ne, Hne. left.
Qed.

Lemma foldl_dict_set_keeps {K V A} `{!EqDecision K} (k : K) (key : A → K) (v : V)
    (l : list A) (d : list (K * V)) :
  dict_get k d = Some v →
  dict_get k (foldl (λ d x, dict_set (key x) v d) d l) = Some v.
Proof.
  revert d. induction l as [|y l IH]; intros d Hd; simpl; [done|].
  apply IH. rewrite dict_get_set. by case_decide.
Qed.

Lemma foldl_dict_set_eq {K V A} `{!EqDecision K} (key : A → K) (v : V)
    (l : list A) (d : list (K * V)) (x : A) :
  x ∈ l → dict_get (key x) (foldl (λ d x, dict_set (key x) v d) d l) = Some v.
Proof.
  revert d. induction l as [|y l IH]; intros d; simpl.
  - by intros ?%elem_of_nil.
  - intros [->|Hin]%elem_of_cons; [|by apply IH].
    apply foldl_dict_set_keeps, dict_get_set_eq.
Qed.

Section component_status.
Context `{!Oracles}.

Lemma soa_secure_true G obj b :
  soa_secure G obj = Ok b →
  (b = true ↔
   ∃ soa_rrset, soa_rrset ∈ soa_rrset_info obj
     ∧ status_of_component G (ComponentRRset (rrset_id soa_rrset))
       = Ok (Some Status.RRSET_STATUS_SECURE)).
Proof.
  unfold soa_secure. intros Hrun.
  apply (forM_flag _ (λ soa, status_of_component G (ComponentRRset (rrset_id soa)))) in Hrun.
  naive_solver.
Qed.

Lemma opt_out_secure_true G self obj status b :
  opt_out_secure G self obj status = Ok b →
  (b = true ↔
   status = Some Status.RRSET_STATUS_INSECURE
   ∧ ∃ nsec_statuses nsec_status,
       nsec_statuses_of self obj = Some nsec_statuses
       ∧ nsec_status ∈ nsec_statuses
       ∧ status_of_component G (ComponentNSECSet (nsec_status_nsec_set_info nsec_status))
         = Ok (Some Status.RRSET_STATUS_SECURE)).
Proof.
  unfold opt_out_secure, nsec_statuses_of. intros Hrun.
  destruct (decide (status = _)) as [->|Hne]; [|simplify_eq; naive_solver].
  apply bind_Ok in Hrun as (nx & ->%subscript_Ok & Hrun).
  apply bind_Ok in Hrun as (l & Hl & Hrun). simpl.
  apply (forM_flag _ (λ nsec_status,
           status_of_component G (ComponentNSECSet (nsec_status_nsec_set_info nsec_status))))
    in Hrun.
  assert (match dict_get obj (neg_status nx) with
          | Some l => Some l
          | None => nodata_state self ≫= λ nd, dict_get obj (neg_status nd)
          end = Some l) as ->.
  { destruct (dict_get obj (neg_status nx)); [by simplify_eq|].
    apply bind_Ok in Hl as (nd & Hnd%subscript_Ok & Hget%subscript_Ok).
    rewrite Hnd. simpl. done. }
  naive_solver.
Qed.

(** What the branch for a negative response does to the entry of the
    response and to the entries of its SOA RRsets. *)
Lemma negative_response_component_status_spec G self obj status rcs rcs' :
  negative_response_component_status G self obj status rcs = Ok rcs' →
  ∃ opt_out,
    opt_out_secure G self obj status = Ok opt_out
    ∧ (status = Some Status.RRSET_STATUS_SECURE ∨ opt_out = true →
       ∃ secure, soa_secure G obj = Ok secure
         ∧ (secure = false →
            dict_get (ComponentNegativeResponse obj) rcs' = Some (Some Status.RRSET_STATUS_BOGUS)))
    ∧ (neg_rdtype obj = rdatatype.DNSKEY → status = Some Status.RRSET_STATUS_SECURE →
       dict_get (ComponentNegativeResponse obj) rcs' = Some (Some Status.RRSET_STATUS_BOGUS)
       ∧ ∀ soa_rrset, soa_rrset ∈ soa_rrset_info obj →
           dict_get (ComponentRRset (rrset_id soa_rrset)) rcs'
           = Some (Some Status.RRSET_STATUS_BOGUS)).
Proof.
  unfold negative_response_component_status. intros Hrun.
  apply bind_Ok in Hrun as (rcs1 & H1 & Hrun).
  apply bind_Ok in Hrun as (opt_out & Hopt & Hrun).
  exists opt_out. split; [done|]. split.
  - intros Hcond.
    assert (bool_decide (status = Some Status.RRSET_STATUS_SECURE) || opt_out = true) as Hc.
    { apply orb_true_iff. rewrite bool_decide_eq_true. done. }
    rewrite Hc in Hrun. apply bind_Ok in Hrun as (secure & Hsoa & Hrun).
    exists secure. split; [done|]. intros ->. simplify_eq. apply dict_get_set_eq.
  - intros Hdk ->.
    rewrite decide_False in H1 by (rewrite Hdk; done).
    rewrite decide_True in H1 by done. rewrite decide_True in H1 by done.
    rewrite dict_get_set_eq in H1. simpl in H1. simplify_eq.
    simpl in Hrun. apply bind_Ok in Hrun as (secure & Hsoa & Hrun).
    assert (∀ k, dict_get k
              (foldl (λ rcs soa_rrset,
                        dict_set (ComponentRRset (rrset_id soa_rrset))
                          (Some Status.RRSET_STATUS_BOGUS) rcs)
                 (dict_set (ComponentNegativeResponse obj) (Some Status.RRSET_STATUS_BOGUS) rcs)
                 (soa_rrset_info obj)) = Some (Some Status.RRSET_STATUS_BOGUS) →
            dict_get k rcs' = Some (Some Status.RRSET_STATUS_BOGUS)) as Hkeep.
    { intros k Hk. destruct secure; simplify_eq; [done|].
      rewrite dict_get_set. by case_decide. }
    split.
    + apply Hkeep.
      rewrite (foldl_dict_set_ne _ (λ soa, ComponentRRset (rrset_id soa))
                 (λ _, Some Status.RRSET_STATUS_BOGUS)) by done.
      apply dict_get_set_eq.
    + intros soa Hsoa'. apply Hkeep.
      apply (foldl_dict_set_eq (λ soa, ComponentRRset (rrset_id soa))). done.
Qed.

(** A step of the loop for another object leaves the entry of a negative
    response as it is. *)
Lemma component_status_for_other G self obj' node_str rcs rcs' obj :
  component_status_for G self (obj', node_str) rcs = Ok rcs' →
  obj' ≠ ComponentNegativeResponse obj →
  dict_get (ComponentNegativeResponse obj) rcs' = dict_get (ComponentNegativeResponse obj) rcs.
Proof.
  unfold component_status_for. intros Hrun Hne.
  destruct obj' as [dnskey rrset_infos|rrset_info|nsec_set|obj2|id]; simplify_eq.
  - rewrite (foldl_dict_set_ne _ (λ r, ComponentRRset (rid r))) by done.
    by apply dict_get_set_ne.
  - by apply dict_get_set_ne.
  - transitivity (dict_get (ComponentNegativeResponse obj)
                    (dict_set (ComponentNSECSet nsec_set) (status_for_node G node_str None) rcs)).
    + generalize (dict_set (ComponentNSECSet nsec_set) (status_for_node G node_str None) rcs).
      induction (nsec_rrsets nsec_set) as [|[n r] l IH]; intros d; simpl; [done|].
      rewrite IH. by apply dict_get_set_ne.
    + by apply dict_get_set_ne.
  - unfold negative_response_component_status in Hrun.
    apply bind_Ok in Hrun as (rcs1 & H1 & Hrun).
    apply bind_Ok in Hrun as (opt_out & Hopt & Hrun).
    assert (dict_get (ComponentNegativeResponse obj) rcs1
            = dict_get (ComponentNegativeResponse obj) rcs) as <-.
    { repeat case_decide; simplify_eq; rewrite ?dict_get_set_ne by done; try done.
      - apply bind_Ok in H1 as (chosen & _ & H1). simplify_eq.
        rewrite (foldl_dict_set_ne _ (λ soa, ComponentRRset (rrset_id soa)) (λ _, chosen))
          by done.
        rewrite !dict_get_set_ne by done. done.
      - apply bind_Ok in H1 as (chosen & _ & H1). simplify_eq.
        rewrite (foldl_dict_set_ne _ (λ soa, ComponentRRset (rrset_id soa)) (λ _, chosen))
          by done.
        rewrite !dict_get_set_ne by done. done. }
    destruct (_ || _); [|by simplify_eq].
    apply bind_Ok in Hrun as ([] & _ & Hrun); simplify_eq; [done|].
    by apply dict_get_set_ne.
  - done.
Qed.

Lemma response_component_status_entry G self final obj node_str :
  NoDup (node_reverse_mapping G).*1 →
  (ComponentNegativeResponse obj, node_str) ∈ node_reverse_mapping G →
  response_component_status_of G self = Ok final →
  ∃ rcs rcs',
    component_status_for G self (ComponentNegativeResponse obj, node_str) rcs = Ok rcs'
    ∧ dict_get (ComponentNegativeResponse obj) final
      = dict_get (ComponentNegativeResponse obj) rcs'.
Proof.
  unfold response_component_status_of. intros Hnd Hin.
  apply list_elem_of_split in Hin as (l1 & l2 & Heq). rewrite Heq in *.
  rewrite forM_app. intros (rcs & H1 & H2)%bind_Ok. simpl in H2.
  apply bind_Ok in H2 as (rcs' & Hstep & H2).
  exists rcs, rcs'. split; [done|].
  rewrite fmap_app, fmap_cons in Hnd. apply NoDup_app in Hnd as (_ & _ & Hnd).
  apply NoDup_cons in Hnd as [Hnotin _]. simpl in Hnotin.
  eapply (forM_invariant (λ r, dict_get (ComponentNegativeResponse obj) r
                               = dict_get (ComponentNegativeResponse obj) rcs')) in H2;
    [done| |done].
  intros [obj' n'] r1 r2 Hx Hr1 Hr2. rewrite <-Hr1.
  eapply component_status_for_other; [done|].
  intros ->. apply Hnotin. apply list_elem_of_fmap. by exists (ComponentNegativeResponse obj, n').
Qed.

(** In the mapping [populate_response_component_status] computes when it
    returns, the status of a negative response to a DNSKEY query whose node
    is SECURE is BOGUS; the status of a negative response whose node is
    SECURE or that is opt-out secure (its node is INSECURE and the node of
    the NSEC set of one of its NSEC statuses is SECURE) is BOGUS when the
    node of none of its SOA RRsets is SECURE. *)
Lemma negative_response_component_status_returning (G : Graph) (self : NAState)
    (final : list (Component * option Status.RRsetStatus))
    (obj : NegativeResponseInfo) (node_str : string) :
  NoDup (node_reverse_mapping G).*1 →
  (ComponentNegativeResponse obj, node_str) ∈ node_reverse_mapping G →
  response_component_status_of G self = Ok final →
  let status := status_for_node G node_str None in
  let bogus := Some (Some Status.RRSET_STATUS_BOGUS) in
  (neg_rdtype obj = rdatatype.DNSKEY → status = Some Status.RRSET_STATUS_SECURE →
     dict_get (ComponentNegativeResponse obj) final = bogus)
  ∧ (status = Some Status.RRSET_STATUS_SECURE
     ∨ (status = Some Status.RRSET_STATUS_INSECURE
        ∧ ∃ nsec_statuses nsec_status,
            nsec_statuses_of self obj = Some nsec_statuses
            ∧ nsec_status ∈ nsec_statuses
            ∧ status_of_component G (ComponentNSECSet (nsec_status_nsec_set_info nsec_status))
              = Ok (Some Status.RRSET_STATUS_SECURE)) →
     (∀ soa_rrset, soa_rrset ∈ soa_rrset_info obj →
        status_of_component G (ComponentRRset (rrset_id soa_rrset))
        ≠ Ok (Some Status.RRSET_STATUS_SECURE)) →
     dict_get (ComponentNegativeResponse obj) final = bogus).
Proof.
  intros Hnd Hin Hfinal status bogus.
  destruct (response_component_status_entry G self final obj node_str Hnd Hin Hfinal)
    as (rcs & rcs' & Hstep & Heq).
  assert (negative_response_component_status G self obj status
            (dict_set (ComponentNegativeResponse obj) status rcs) = Ok rcs') as Hneg by done.
  apply negative_response_component_status_spec in Hneg as (opt_out & Hopt & Hsec & Hdk).
  split.
  - intros Hrd Hst. destruct (Hdk Hrd Hst) as [Hobj Hsoa]. by rewrite Heq.
  - intros Hcond Hnone. rewrite Heq.
    destruct Hsec as (secure & Hsoa & Hb).
    { destruct Hcond as [?|Hoo]; [by left|right].
      by apply (opt_out_secure_true _ _ _ _ _ Hopt). }
    apply Hb. destruct secure; [|done].
    destruct (proj1 (soa_secure_true _ _ _ Hsoa) eq_refl) as (soa & ? & ?).
    by destruct (Hnone soa).
Qed.

(** The loop that looks for a SECURE SOA RRset raises at the first RRset
    that is not a node of the graph. *)
Lemma soa_secure_loop_off_graph G (l : list RRsetCore) soa_rrset (secure : bool) :
  soa_rrset ∈ l →
  dict_get (ComponentRRset (rrset_id soa_rrset)) (node_reverse_mapping G) = None →
  forM l (λ soa_rrset secure,
    s ← status_of_component G (ComponentRRset (rrset_id soa_rrset));
    if decide (s = Some Status.RRSET_STATUS_SECURE) then Ok true else Ok secure) secure
  = Raise KeyError_node_reverse_mapping.
Proof.
  revert secure. induction l as [|x l IH]; intros secure Hin Hoff.
  - by apply elem_of_nil in Hin.
  - cbn [forM].
    destruct (dict_get (ComponentRRset (rrset_id x)) (node_reverse_mapping G))
      as [node|] eqn:Hx.
    + assert (status_of_component G (ComponentRRset (rrset_id x))
              = Ok (status_for_node G node None)) as ->
        by (unfold status_of_component; by rewrite Hx).
      cbn [mbind Result_bind].
      apply elem_of_cons in Hin as [->|Hin]; [congruence|].
      case_decide; cbn [mbind Result_bind]; by apply IH.
    + assert (status_of_component G (ComponentRRset (rrset_id x))
              = Raise KeyError_node_reverse_mapping) as ->
        by (unfold status_of_component; by rewrite Hx).
      reflexivity.
Qed.

Lemma soa_secure_off_graph G obj soa_rrset :
  soa_rrset ∈ soa_rrset_info obj →
  dict_get (ComponentRRset (rrset_id soa_rrset)) (node_reverse_mapping G) = None →
  soa_secure G obj = Raise KeyError_node_reverse_mapping.
Proof. apply soa_secure_loop_off_graph. Qed.

(** C9: the divergence.  A negative response whose node is SECURE and one
    of whose SOA RRsets is not a node of the graph, as the source says of
    the SOA that accompanies a negative response to a DNSKEY query: the
    step of the loop for the response raises KeyError when it looks for the
    node of the SOA RRset, after the statuses have been written to the
    local mapping.  The mapping is not returned, and
    [populate_response_component_status] records no status. *)
Theorem C9_soa_off_graph_raises (G : Graph) (obj : NegativeResponseInfo) (node_str : string)
    (soa_rrset : RRsetCore) :
  (ComponentNegativeResponse obj, node_str) ∈ node_reverse_mapping G →
  status_for_node G node_str None = Some Status.RRSET_STATUS_SECURE →
  soa_rrset ∈ soa_rrset_info obj →
  dict_get (ComponentRRset (rrset_id soa_rrset)) (node_reverse_mapping G) = None →
  (∀ self rcs,
     component_status_for G self (ComponentNegativeResponse obj, node_str) rcs
     = Raise KeyError_node_reverse_mapping)
  ∧ (∀ self final, response_component_status_of G self ≠ Ok final)
  ∧ (∀ fuel st self st', populate_response_component_status fuel st self G ≠ Ok st').
Proof.
  intros Hin Hsecure Hsoa Hoff.
  assert (∀ self rcs,
     component_status_for G self (ComponentNegativeResponse obj, node_str) rcs
     = Raise KeyError_node_reverse_mapping) as Hstep.
  { intros self rcs. unfold component_status_for, negative_response_component_status.
    rewrite Hsecure. cbv zeta.
    assert (opt_out_secure G self obj (Some Status.RRSET_STATUS_SECURE) = Ok false) as ->
      by done.
    rewrite (soa_secure_off_graph G obj soa_rrset Hsoa Hoff).
    rewrite bool_decide_eq_true_2 by done.
    repeat case_decide; try done; cbn [mbind Result_bind];
      rewrite ?dict_get_set_eq; done. }
  assert (∀ self final, response_component_status_of G self ≠ Ok final) as Hloop.
  { intros self final. unfold response_component_status_of. intros Hrun.
    apply list_elem_of_split in Hin as (l1 & l2 & Heq). rewrite Heq, forM_app in Hrun.
    apply bind_Ok in Hrun as (rcs & _ & Hrun). cbn [forM] in Hrun.
    by rewrite Hstep in Hrun. }
  split; [done|]. split; [done|].
  intros fuel st self st'. unfold populate_response_component_status.
  intros (na & _ & (rcs & Hrcs & _)%bind_Ok)%bind_Ok. by eapply Hloop.
Qed.

End component_status.

Lemma elem_dict_set {K V} `{!EqDecision K} (k : K) (v : V) (d : list (K * V)) x :
  x ∈ dict_set k v d → x = (k, v) ∨ x ∈ d.
Proof.
  induction d as [|[k' v'] d IH]; simpl.
  - intros ?%list_elem_of_singleton. by left.
  - destruct (decide (k' = k)) as [->|?].
    + intros [->|?]%elem_of_cons; [by left|]. right. by right.
    + intros [->|?]%elem_of_cons; [right; left|].
      destruct IH as [?|?]; [done|by left|]. right. by right.
Qed.

Lemma elem_select_statuses {A} (valid : A → option bool) (created : list A) x :
  x ∈ select_statuses valid created → x ∈ created.
Proof.
  unfold select_statuses. repeat case_match; intros ?%list_elem_of_filter; naive_solver.
Qed.

Section rrsig_status.
Context `{!Oracles}.

Lemma rrsig_applicable_true rrsig dnskey :
  rrsig_applicable rrsig dnskey = true ↔
  dnskey_protocol (dnskey_rdata dnskey) = 3
  ∧ rrsig_algorithm rrsig = dnskey_algorithm (dnskey_rdata dnskey)
  ∧ (rrsig_key_tag rrsig = key_tag (dnskey_rdata dnskey)
     ∨ rrsig_key_tag rrsig = key_tag_no_revoke (dnskey_rdata dnskey)).
Proof.
  unfold rrsig_applicable. rewrite !andb_true_iff, !bool_decide_eq_true, set_in_true.
  rewrite !elem_of_cons, elem_of_nil. naive_solver.
Qed.

Lemma self_sig_true rrset_info rrsig :
  self_sig rrset_info rrsig = true ↔
  rrset_rdtype (rrset (core rrset_info)) = rdatatype.DNSKEY
  ∧ rrsig_signer rrsig = rrset_name (rrset (core rrset_info)).
Proof. unfold self_sig. by rewrite andb_true_iff, !bool_decide_eq_true. Qed.

(** The statuses the loop over a DNSKEY set creates. *)
Lemma check_dnskey_created rrset_info rrsig zone_name ts sa dnskey_set acc checked created :
  foldl (λ acc dnskey, check_dnskey rrset_info rrsig zone_name ts sa dnskey acc) acc dnskey_set
    = (checked, created) →
  ∀ s, s ∈ created →
    s ∈ acc.2
    ∨ ∃ dnskey, dnskey ∈ dnskey_set
        ∧ s = new_RRSIGStatus rrset_info rrsig (Some dnskey) zone_name ts sa
        ∧ rrsig_applicable rrsig dnskey = true
        ∧ (self_sig rrset_info rrsig = true → dnskey_in_rrset dnskey rrset_info = true).
Proof.
  revert acc. induction dnskey_set as [|dnskey l IH]; intros [checked0 created0]; simpl.
  - intros [= <- <-] s Hs. by left.
  - intros Hfold s Hs. apply IH with (s := s) in Hfold; [|done].
    destruct Hfold as [Hs0|(k & Hk & ?)]; [|right; exists k; split; [by right|done]].
    unfold check_dnskey in Hs0.
    destruct (set_in dnskey checked0); [by left|].
    destruct (self_sig rrset_info rrsig && negb (dnskey_in_rrset dnskey rrset_info)) eqn:Hself;
      [by left|].
    destruct (negb (rrsig_applicable rrsig dnskey)) eqn:Happ; [by left|].
    simpl in Hs0. apply elem_of_app in Hs0 as [?|Hs0]; [by left|].
    apply list_elem_of_singleton in Hs0 as ->.
    right. exists dnskey. split_and!; [left|done| |].
    + by apply negb_false_iff in Happ.
    + intros Hss. rewrite Hss in Hself. simpl in Hself. by apply negb_false_iff in Hself.
Qed.

Lemma created_key_valid rrset_info rrsig zone_name ts sa dnskey_set checked0 checked created s :
  foldl (λ acc dnskey, check_dnskey rrset_info rrsig zone_name ts sa dnskey acc)
        (checked0, []) dnskey_set = (checked, created) →
  s ∈ created →
  rrsig_status_key_valid s ∧ rrsig_status_rrset s = rrset_info ∧ rrsig_status_rrsig s = rrsig
  ∧ ∃ dnskey, rrsig_status_dnskey s = Some dnskey ∧ dnskey ∈ dnskey_set.
Proof.
  intros Hfold Hs.
  destruct (check_dnskey_created _ _ _ _ _ _ _ _ _ Hfold s Hs)
    as [Hnil|(k & Hk & -> & Happ & Hself)]; [by apply elem_of_nil in Hnil|].
  split_and!; [|done|done|by exists k].
  intros dnskey [= <-]. simpl. split; [by apply rrsig_applicable_true|].
  intros Hrd Hsig. apply set_in_true, Hself, self_sig_true. done.
Qed.

Lemma rrsig_statuses_valid_ext rs rs' :
  rrsig_status rs' = rrsig_status rs → rrsig_statuses_valid rs → rrsig_statuses_valid rs'.
Proof. unfold rrsig_statuses_valid. intros ->. done. Qed.

Lemma record_rrsig_status_valid s rs rs' :
  record_rrsig_status s rs = Ok rs' →
  rrsig_status_key_valid s → rrsig_statuses_valid rs → rrsig_statuses_valid rs'.
Proof.
  unfold record_rrsig_status. intros Hrun Hs Hrs.
  apply bind_Ok in Hrun as (by_rrsig & Hr%subscript_Ok%dict_get_Some_elem & Hrun).
  apply bind_Ok in Hrun as (by_dnskey & Hk%subscript_Ok%dict_get_Some_elem & Hrun).
  simplify_eq. intros id br r bd k s' Hid Hr' Hk'. simpl in Hid.
  apply elem_dict_set in Hid as [[= -> ->]|Hid]; [|by eapply Hrs].
  apply elem_dict_set in Hr' as [[= -> ->]|Hr']; [|by eapply Hrs].
  apply elem_dict_set in Hk' as [[= -> ->]|Hk']; [done|by eapply Hrs].
Qed.

Lemma rrsig_status_for_dnskey_set_valid self rrset_info rrsig zone_name sa dnskey_set
    acc checked rs roles :
  rrsig_status_for_dnskey_set self rrset_info rrsig zone_name sa dnskey_set acc
    = Ok (checked, (rs, roles)) →
  rrsig_statuses_valid acc.2.1 → rrsig_statuses_valid rs.
Proof.
  unfold rrsig_status_for_dnskey_set. destruct acc as [checked0 [rs0 roles0]]. simpl.
  destruct (foldl _ _ dnskey_set) as [checked1 created] eqn:Hfold.
  intros Hrun Hrs0. apply bind_Ok in Hrun as ([rs1 roles1] & Hloop & Hrun). simplify_eq.
  eapply (forM_invariant (λ x, rrsig_statuses_valid x.1)) in Hloop; [done| |done].
  intros s [rsa ra] [rsb rb] Hs Hva Hstep. simpl in *.
  apply bind_Ok in Hstep as (rsc & Hrec & Hstep).
  apply bind_Ok in Hstep as (rc & _ & Hstep). simplify_eq.
  eapply record_rrsig_status_valid; [done| |done].
  apply elem_select_statuses in Hs.
  by destruct (created_key_valid _ _ _ _ _ _ _ _ _ _ Hfold Hs).
Qed.

Lemma rrsig_status_for_rrsig_valid self rrset_info zone_name a1 a2 a3 sa item s s' :
  rrsig_status_for_rrsig self rrset_info zone_name a1 a2 a3 sa item s = Ok s' →
  rrsig_statuses_valid (sig_rs s) → rrsig_statuses_valid (sig_rs s').
Proof.
  unfold rrsig_status_for_rrsig. destruct item as [rrsig sc]. intros Hrun Hv.
  apply bind_Ok in Hrun as (na & Hna & Hrun).
  apply bind_Ok in Hrun as (by_rrsig & Hbr%subscript_Ok%dict_get_Some_elem & Hrun).
  set (rs1 := set_rrsig_status _ (sig_rs s)) in Hrun.
  assert (rrsig_statuses_valid rs1) as Hv1.
  { intros id br r bd k x Hid Hr Hk. simpl in Hid.
    apply elem_dict_set in Hid as [[= -> ->]|Hid]; [|by eapply Hv].
    apply elem_dict_set in Hr as [[= -> ->]|Hr]; [|by eapply Hv].
    by apply elem_of_nil in Hk. }
  assert (∀ st rs roles algs r,
    (by_rrsig ← subscript "rrsig_status[rrset_info]"
                  (dict_get (rid rrset_info) (rrsig_status rs));
     by_dnskey ← subscript "rrsig_status[rrset_info][rrsig]" (dict_get rrsig by_rrsig);
     rs ← (if truthy by_dnskey then Ok rs else
             z ← subscript "self.zone" (zone (na_in na));
             zna ← deref st z;
             record_rrsig_status
               (new_RRSIGStatus rrset_info rrsig None (Some (na_name (na_in zna)))
                  (analysis_end (na_in na)) sa) rs);
     Ok {| sig_store := st; sig_rs := rs; sig_roles := roles; algs_signing_rrset := algs |})
    = Ok r → rrsig_statuses_valid rs → rrsig_statuses_valid (sig_rs r)) as Hno.
  { intros st rs roles algs r Hr Hrs.
    apply bind_Ok in Hr as (? & _ & Hr). apply bind_Ok in Hr as (? & _ & Hr).
    apply bind_Ok in Hr as (rs2 & Hrec & Hr). simplify_eq. simpl.
    destruct (truthy _); [by simplify_eq|].
    apply bind_Ok in Hrec as (? & _ & Hrec). apply bind_Ok in Hrec as (? & _ & Hrec).
    eapply record_rrsig_status_valid; [done| |done]. by intros k [=]. }
  destruct (get_name (na_in na) (rrsig_signer rrsig)) as [signer|]; [|by eapply Hno].
  apply bind_Ok in Hrun as (signer_na & _ & Hrun).
  destruct (stub (na_in signer_na)); [by simplify_eq|].
  apply bind_Ok in Hrun as ([st1 sets] & _ & Hrun).
  apply bind_Ok in Hrun as ([checked [rs2 roles2]] & Hloop & Hrun).
  eapply Hno; [done|].
  eapply (forM_invariant (λ x, rrsig_statuses_valid x.2.1)) in Hloop; [done| |done].
  intros [dnskey_set meta] [c1 [r1 o1]] [c2 [r2 o2]] _ Hv' Hstep.
  by eapply (rrsig_status_for_dnskey_set_valid _ _ _ _ _ _ (c1, (r1, o1))).
Qed.

Lemma insert_rrset_error_rrsig_status rrset_info err w rs rs' :
  insert_rrset_error rrset_info err w rs = Ok rs' → rrsig_status rs' = rrsig_status rs.
Proof.
  unfold insert_rrset_error. intros (? & _ & Hrun)%bind_Ok. by simplify_eq.
Qed.

Lemma forM_insert_rrset_error_rrsig_status {A} rrset_info (err : A → Errors.ErrKind) w
    (l : list A) rs rs' :
  forM l (λ x, insert_rrset_error rrset_info (err x) w) rs = Ok rs' →
  rrsig_status rs' = rrsig_status rs.
Proof.
  apply (forM_invariant (λ x, rrsig_status x = rrsig_status rs)); [|done].
  intros x s1 s2 _ <- Hstep. by eapply insert_rrset_error_rrsig_status.
Qed.

Lemma missing_rrsig_errors_rrsig_status st rrset_info qname_obj a1 a2 a3 algs rs rs' :
  missing_rrsig_errors st rrset_info qname_obj a1 a2 a3 algs rs = Ok rs' →
  rrsig_status rs' = rrsig_status rs.
Proof.
  apply (forM_invariant (λ x, rrsig_status x = rrsig_status rs)); [|done].
  intros [w signing] s1 s2 _ <- Hstep.
  apply bind_Ok in Hstep as (? & _ & Hstep).
  destruct (negb (truthy signing)).
  - destruct (dnssec_requested w.2); [by eapply insert_rrset_error_rrsig_status|].
    apply bind_Ok in Hstep as ([] & _ & Hstep);
      [by eapply insert_rrset_error_rrsig_status|by simplify_eq].
  - apply bind_Ok in Hstep as (r1 & H1%forM_insert_rrset_error_rrsig_status & Hstep).
    apply bind_Ok in Hstep as (r2 & H2%forM_insert_rrset_error_rrsig_status & Hstep).
    apply forM_insert_rrset_error_rrsig_status in Hstep. congruence.
Qed.

Lemma dname_part_rrsig_status rrset_info rs :
  rrsig_status (dname_part rrset_info rs).2 = rrsig_status rs.
Proof. unfold dname_part. by repeat case_match; simplify_eq. Qed.

Lemma initialize_rrset_status_valid rrset_info rs :
  rrsig_statuses_valid rs → rrsig_statuses_valid (_initialize_rrset_status rrset_info rs).
Proof.
  intros Hv id br r bd k x Hid Hr Hk. simpl in Hid.
  apply elem_dict_set in Hid as [[= -> ->]|Hid]; [|by eapply Hv].
  by apply elem_of_nil in Hr.
Qed.

Lemma rrset_state_of_Ok st self rs :
  rrset_state_of st self = Ok rs ↔
  ∃ na, st !! self = Some na ∧ rrset_state (na_st na) = Some rs.
Proof.
  unfold rrset_state_of. rewrite bind_Ok. setoid_rewrite deref_Ok.
  by setoid_rewrite subscript_Ok.
Qed.

Lemma store_valid_update st self obj f :
  (∀ s, rrset_state (f s) = rrset_state s) →
  store_rrsig_statuses_valid st self → store_rrsig_statuses_valid (update obj f st) self.
Proof.
  intros Hf Hv na rs. rewrite lookup_update. case_decide; [|apply Hv].
  destruct (st !! self) as [na0|] eqn:Hna; [|done]. intros [= <-]. simpl.
  rewrite Hf. by apply Hv.
Qed.

Lemma store_valid_put st self obj rs :
  (obj = self → rrsig_statuses_valid rs) →
  store_rrsig_statuses_valid st self →
  store_rrsig_statuses_valid (update obj (set_rrset_state (Some rs)) st) self.
Proof.
  intros Hrs Hv na rs'. rewrite lookup_update. case_decide; [|apply Hv].
  destruct (st !! self) as [na0|] eqn:Hna; [|done]. intros [= <-]. simpl.
  intros [= <-]. by apply Hrs.
Qed.

Lemma rrsig_status_body_valid st self query_rdtype rrset_info qname_obj sa st' :
  rrsig_status_body st self query_rdtype rrset_info qname_obj sa = Ok st' →
  store_rrsig_statuses_valid st self → store_rrsig_statuses_valid st' self.
Proof.
  unfold rrsig_status_body. intros Hrun Hv.
  apply bind_Ok in Hrun as (na & Hna%deref_Ok & Hrun).
  apply bind_Ok in Hrun as (rs0 & (na0 & Hna0 & Hrs0)%rrset_state_of_Ok & Hrun).
  apply bind_Ok in Hrun as (zone_name & _ & Hrun).
  apply bind_Ok in Hrun as ([[a1 a2] a3] & _ & Hrun).
  pose proof (dname_part_rrsig_status rrset_info (_initialize_rrset_status rrset_info rs0)) as Hd.
  destruct (dname_part rrset_info (_initialize_rrset_status rrset_info rs0)) as [has_dname rs1].
  apply bind_Ok in Hrun as (s & Hloop & Hrun).
  apply bind_Ok in Hrun as (rs2 & Hmiss%missing_rrsig_errors_rrsig_status & Hrun).
  simplify_eq.
  assert (rrsig_statuses_valid (sig_rs s)) as Hs.
  { eapply (forM_invariant (λ x, rrsig_statuses_valid (sig_rs x))) in Hloop; [done| |].
    - intros item s1 s2 _ H1 Hstep. by eapply rrsig_status_for_rrsig_valid.
    - simpl. eapply (rrsig_statuses_valid_ext (_initialize_rrset_status rrset_info rs0));
        [exact Hd|].
      apply initialize_rrset_status_valid. by eapply Hv. }
  intros na' rs'. rewrite lookup_update. rewrite decide_True by done.
  destruct (sig_store s !! self) as [na1|]; [|done]. intros [= <-]. simpl.
  intros [= <-]. by eapply rrsig_statuses_valid_ext.
Qed.

Lemma rrset_response_errors_valid st self rrset_info qname_obj st' :
  rrset_response_errors st self rrset_info qname_obj = Ok st' →
  store_rrsig_statuses_valid st self → store_rrsig_statuses_valid st' self.
Proof.
  unfold rrset_response_errors. intros Hrun Hv.
  apply bind_Ok in Hrun as (rs0 & (na0 & Hna0 & Hrs0)%rrset_state_of_Ok & Hrun).
  apply bind_Ok in Hrun as (rs1 & Hloop & Hrun). simplify_eq.
  apply store_valid_put; [|done]. intros _.
  eapply (rrsig_statuses_valid_ext rs0); [|by eapply Hv].
  eapply (forM_invariant (λ x, rrsig_status x = rrsig_status rs0)) in Hloop; [done| |done].
  intros [[server client] response] s1 s2 _ <- Hstep.
  apply bind_Ok in Hstep as (? & _ & Hstep). apply bind_Ok in Hstep as (? & _ & Hstep).
  apply bind_Ok in Hstep as ([? ?] & _ & Hstep). by simplify_eq.
Qed.

Lemma populate_rrsig_status_plain_valid st self query_rdtype rrset_info qname_obj sa b st' :
  _populate_rrsig_status_plain st self query_rdtype rrset_info qname_obj sa b = Ok st' →
  store_rrsig_statuses_valid st self → store_rrsig_statuses_valid st' self.
Proof.
  unfold _populate_rrsig_status_plain. intros Hrun Hv.
  apply bind_Ok in Hrun as (st1 & Hbody%rrsig_status_body_valid & Hrun); [|done].
  destruct b; [by eapply rrset_response_errors_valid|by simplify_eq].
Qed.

Lemma populate_wildcard_status_valid st self query_rdtype rrset_info qname_obj sa st' :
  _populate_wildcard_status st self query_rdtype rrset_info qname_obj sa = Ok st' →
  store_rrsig_statuses_valid st self → store_rrsig_statuses_valid st' self.
Proof.
  unfold _populate_wildcard_status. intros Hrun Hv.
  eapply (forM_invariant (λ x, store_rrsig_statuses_valid x self)) in Hrun; [done| |done].
  clear. intros [wildcard_name wildcard] st st' _ Hv Hstep.
  apply bind_Ok in Hstep as (zone_name & _ & Hstep).
  apply bind_Ok in Hstep as ([[[st1 statuses] missing] by_response] & Hloop & Hstep).
  apply bind_Ok in Hstep as (rs0 & (na0 & Hna0 & Hrs0)%rrset_state_of_Ok & Hstep).
  apply bind_Ok in Hstep as (rs1 & Herr & Hstep).
  eapply (forM_invariant (λ x, rrsig_status x = rrsig_status rs0)) in Herr; [| |done];
    [|by intros w s1 s2 _ <- ?%insert_rrset_error_rrsig_status].
  simplify_eq.
  assert (store_rrsig_statuses_valid st1 self) as Hv1.
  { eapply (forM_invariant (λ x, store_rrsig_statuses_valid x.1.1.1 self)) in Hloop;
      [done| |done].
    intros nsec_set_info [[[sa1 sb1] sc1] sd1] [[[sa2 sb2] sc2] sd2] _ Hva Hstep. simpl in Hva.
    apply bind_Ok in Hstep as (st2 & Hin & Hstep).
    destruct (foldl _ _ _) as [? ?]. simplify_eq. simpl.
    eapply (forM_invariant (λ x, store_rrsig_statuses_valid x self)) in Hin; [done| |done].
    intros [? nsec_rrset_info] s1 s2 _ H1 Hplain.
    by eapply populate_rrsig_status_plain_valid. }
  apply store_valid_put; [|done]. intros _.
  eapply (rrsig_statuses_valid_ext rs0); [done|]. by eapply Hv1.
Qed.

Lemma populate_rrsig_status_valid st self query_rdtype rrset_info qname_obj sa b st' :
  _populate_rrsig_status st self query_rdtype rrset_info qname_obj sa b = Ok st' →
  store_rrsig_statuses_valid st self → store_rrsig_statuses_valid st' self.
Proof.
  unfold _populate_rrsig_status. intros Hrun Hv.
  apply bind_Ok in Hrun as (st1 & Hbody%rrsig_status_body_valid & Hrun); [|done].
  apply bind_Ok in Hrun as (st2 & Hwild%populate_wildcard_status_valid & Hrun); [|done].
  destruct b; [by eapply rrset_response_errors_valid|by simplify_eq].
Qed.

Lemma populate_rrsig_status_all_valid st self sa level st' :
  _populate_rrsig_status_all st self sa level = Ok st' →
  store_rrsig_statuses_valid st' self.
Proof.
  unfold _populate_rrsig_status_all. intros Hrun.
  apply bind_Ok in Hrun as (na & Hna & Hrun).
  eapply (forM_invariant (λ x, store_rrsig_statuses_valid x self)) in Hrun; [done| |].
  - clear. intros [[qname rdtype] query] st st' _ Hv Hstep.
    destruct (qname_excluded _ _ _); [by simplify_eq|].
    destruct (rdtype_excluded _ _); [by simplify_eq|].
    apply bind_Ok in Hstep as (st1 & Hloop & Hstep).
    apply bind_Ok in Hstep as (rs0 & (na0 & Hna0 & Hrs0)%rrset_state_of_Ok & Hstep).
    simplify_eq.
    assert (store_rrsig_statuses_valid st1 self) as Hv1.
    { eapply (forM_invariant (λ x, store_rrsig_statuses_valid x self)) in Hloop; [done| |done].
      intros rrset_info s1 s2 _ H1 Hs. apply bind_Ok in Hs as (qname_obj & _ & Hs).
      by eapply populate_rrsig_status_valid. }
    apply store_valid_put; [|done]. intros _.
    eapply (rrsig_statuses_valid_ext rs0); [done|]. by eapply Hv1.
  - assert (store_rrsig_statuses_valid
              (update self (set_rrset_state
                 (Some {| rrset_warnings := []; rrset_errors := []; rrsig_status := [];
                          dname_status := []; wildcard_status := []; response_errors := [] |}))
                 st) self) as Hinit.
    { intros na' rs'. rewrite lookup_update, decide_True by done.
      destruct (st !! self); [|done]. intros [= <-] [= <-].
      intros id br r bd k x Hid. by apply elem_of_nil in Hid. }
    destruct (is_zone (na_in na)); [|done]. by apply store_valid_update.
Qed.

(** C2: in [_populate_rrsig_status], the loop over the DNSKEYs of a
    candidate set creates an RRSIG status for a DNSKEY only if the protocol
    of the key is 3, its algorithm is the algorithm of the RRSIG and the key
    tag of the RRSIG is the key tag of the key, revoke bit set or cleared;
    when the covered RRset is a DNSKEY RRset whose owner is the signer of the
    RRSIG, the key is one of the records of that RRset.  The RRSIG statuses
    that [_populate_rrsig_status] leaves in [rrsig_status] all have these
    properties, if those recorded before have them. *)
Theorem C2_rrsig_status_only_for_applicable_dnskey (st st' : gmap string NA) (self : string)
    (query_rdtype : Z) (rrset_info : RRsetInfo) (qname_obj : option string)
    (supported_algs : list Z) (populate_response_errors : bool) :
  (∀ rrsig zone_name reference_ts dnskey_set checked_keys s,
     s ∈ (foldl (λ acc dnskey, check_dnskey rrset_info rrsig zone_name reference_ts
                                 supported_algs dnskey acc)
                (checked_keys, []) dnskey_set).2 →
     rrsig_status_rrset s = rrset_info ∧ rrsig_status_rrsig s = rrsig
     ∧ ∃ dnskey, rrsig_status_dnskey s = Some dnskey ∧ dnskey ∈ dnskey_set
         ∧ dnskey_protocol (dnskey_rdata dnskey) = 3
         ∧ rrsig_algorithm rrsig = dnskey_algorithm (dnskey_rdata dnskey)
         ∧ (rrsig_key_tag rrsig = key_tag (dnskey_rdata dnskey)
            ∨ rrsig_key_tag rrsig = key_tag_no_revoke (dnskey_rdata dnskey))
         ∧ (rrset_rdtype (rrset (core rrset_info)) = rdatatype.DNSKEY →
            rrsig_signer rrsig = rrset_name (rrset (core rrset_info)) →
            RdataDNSKEY (dnskey_rdata dnskey) ∈ rrset_rdata (rrset (core rrset_info))))
  ∧ (store_rrsig_statuses_valid st self →
     _populate_rrsig_status st self query_rdtype rrset_info qname_obj supported_algs
       populate_response_errors = Ok st' →
     store_rrsig_statuses_valid st' self).
Proof.
  split.
  - intros rrsig zone_name ts dnskey_set checked s Hs.
    destruct (foldl _ _ dnskey_set) as [checked' created] eqn:Hfold.
    destruct (created_key_valid _ _ _ _ _ _ _ _ _ _ Hfold Hs)
      as (Hvalid & Hrrset & Hrrsig & dnskey & Hkey & Hin).
    split_and!; [done..|]. exists dnskey.
    destruct (Hvalid dnskey Hkey) as ((? & ? & ?) & Hself).
    rewrite Hrrset, Hrrsig in *. by split_and!.
  - intros Hv Hrun. by eapply populate_rrsig_status_valid.
Qed.

End rrsig_status.

Lemma elem_dict_keys {K V} `{!EqDecision K} (k : K) (d : list (K * V)) :
  k ∈ dict_keys d ↔ is_Some (dict_get k d).
Proof.
  unfold dict_keys. rewrite list_elem_of_fmap. split.
  - intros ([k' v] & -> & Hin). by eapply elem_dict_get.
  - intros [v Hv%dict_get_Some_elem]. by exists (k, v).
Qed.



(** A loop step at an element of the list: the run before it, the step and
    the run after it. *)
Lemma forM_elem {A S} (l : list A) (body : A → S → Result S) x s s' :
  x ∈ l → forM l body s = Ok s' →
  ∃ l1 l2 s1 s2, l = l1 ++ x :: l2 ∧ forM l1 body s = Ok s1 ∧ body x s1 = Ok s2
                 ∧ forM l2 body s2 = Ok s'.
Proof.
  intros (l1 & l2 & ->)%list_elem_of_split. rewrite forM_app.
  intros (s1 & H1 & H2)%bind_Ok. simpl in H2. apply bind_Ok in H2 as (s2 & H2 & H3).
  by exists l1, l2, s1, s2.
Qed.

(** ** The witnesses of a list of errors *)










(** ** The lists of warnings of an object *)








Section nxdomain_status.
Context `{!Oracles}.









End nxdomain_status.

(** ** What a run leaves and what it raises *)

Create HintDb walk.

Section walk.
Context `{!Oracles} {I : gmap string NA → Prop} {P : Exn → Prop} `{!WalkSpec I P}.

#[local] Existing Instance inv_prod.
#[local] Hint Extern 0 (Inv (gmap string NA)) => exact (inv_store I) : typeclass_instances.
#[local] Hint Extern 0 (Inv SigState) => exact (inv_sig_state I) : typeclass_instances.
#[local] Hint Extern 100 (Inv _) => exact inv_other : typeclass_instances.
#[local] Abbreviation ok := (run_ok P).

Lemma ok_Ok {A} `{!Inv A} (a : A) : inv a → ok (Ok a).
Proof. done. Qed.

Lemma ok_Raise {A} `{!Inv A} e : P e → ok (Raise e : Result A).
Proof. done. Qed.

Lemma ok_bind {A B} `{!Inv A, !Inv B} (m : Result A) (f : A → Result B) :
  ok m → (∀ a, inv a → ok (f a)) → ok (m ≫= f).
Proof. destruct m; simpl; auto. Qed.

Lemma ok_fmap {A B} `{!Inv A, !Inv B} (m : Result A) (f : A → B) :
  ok m → (∀ b : B, inv b) → ok (f <$> m).
Proof. intros Hm Hb. destruct m; simpl; [apply Hb|done..]. Qed.

Lemma ok_forM {A S} `{!Inv S} (l : list A) (body : A → S → Result S) s :
  inv s → (∀ x s, x ∈ l → inv s → ok (body x s)) → ok (forM l body s).
Proof.
  revert s. induction l as [|x l IH]; intros s Hs Hbody; simpl; [done|].
  apply ok_bind; [apply Hbody; [left|done]|].
  intros s' Hs'. apply IH; [done|]. intros y ? ? ?. apply Hbody; [by right|done].
Qed.

Lemma ok_subscript {A} `{!Inv A} what (o : option A) :
  (∀ a : A, inv a) → ok (subscript what o).
Proof. intros Ha. destruct o; simpl; [apply Ha|apply P_implicit]. Qed.

Lemma ok_deref st obj : ok (deref st obj).
Proof. by apply ok_subscript. Qed.

Lemma inv_update obj f (st : gmap string NA) :
  keeps_rrset_state f → inv st → inv (update obj f st).
Proof. apply I_update. Qed.

(** The steps of a proof that follows the structure of a definition. *)
Ltac inv_hyps :=
  repeat match goal with
  | H : inv (_, _) |- _ => destruct H as [? ?]; simpl fst in *; simpl snd in *
  | H : @inv _ inv_other _ |- _ => clear H
  | H : @inv _ (inv_sig_state _) _ |- _ => unfold inv, inv_sig_state in H; fold (@inv _ (inv_store I)) in H
  end.

Ltac keeps_tac :=
  let s := fresh in let Hs := fresh in
  first [solve [eauto] | intros s Hs; simpl; first [exact Hs | eauto]].

Ltac inv_tac :=
  repeat match goal with
  | |- @inv _ inv_other _ => exact Logic.I
  | |- @inv _ (inv_prod _ _) _ => split; simpl fst; simpl snd
  | |- @inv _ (inv_sig_state _) _ => unfold inv, inv_sig_state; simpl sig_store; fold (@inv _ (inv_store I))
  | |- @inv _ (inv_store _) (update _ _ _) => apply inv_update; [keeps_tac|]
  | |- @inv _ (inv_store _) (if ?c then _ else _) => destruct c
  | |- @inv _ (inv_store _) (put_rrset_state _ _ _) => unfold put_rrset_state
  | |- @inv _ (inv_store _) _ => assumption
  end.

Ltac walk_step :=
  inv_hyps; cbv beta zeta;
  match goal with
  | |- ok (Ok _) => apply ok_Ok; inv_tac
  | |- ok (Raise (ImplicitError _)) => apply ok_Raise, P_implicit
  | |- ok (Raise Exception_UnknownEDNSError) => apply ok_Raise, P_edns
  | |- ok (Raise Exception_UnknownEDNSFlagError) => apply ok_Raise, P_edns_flag
  | |- ok (Raise ValueError_NoDLVSpecified) => apply ok_Raise, P_no_dlv
  | |- ok (Raise KeyError_NoDSQuery) => apply ok_Raise, P_no_ds_query
  | |- ok OutOfFuel => exact Logic.I
  | |- @inv _ _ _ => progress inv_tac
  | |- ok (_ ≫= _) => eapply ok_bind; [|intros ? ?; inv_hyps]
  | |- ok (_ <$> _) => eapply ok_fmap; [|intros ?; inv_tac]
  | |- ok (forM _ _ _) => eapply ok_forM; [inv_tac|intros ? ? _ ?; inv_hyps]
  | |- ok (subscript _ _) => apply ok_subscript; intros ?; inv_tac
  | |- ok (deref _ _) => apply ok_deref
  | |- ok (if ?c then _ else _) => destruct c
  | |- ok (match ?x with _ => _ end) => destruct x
  | |- ok ((match ?x with _ => _ end) _) => destruct x
  | |- ok ((match ?x with _ => _ end) _ _) => destruct x
  end.

#[local] Hint Extern 2 (@inv _ _ _) => progress inv_tac : walk.

Ltac walk := repeat walk_step; try solve [eauto with walk].

Lemma zone_of_ok st q : ok (zone_of st q).
Proof. unfold zone_of. walk. Qed.
#[local] Hint Resolve zone_of_ok : walk.

Lemma zone_test_ok st qname_obj test : ok (zone_test st qname_obj test).
Proof. unfold zone_test. walk. Qed.
#[local] Hint Resolve zone_test_ok : walk.

Lemma error_for_cause_ok st qname_obj response index r1 r2 wrap :
  ok (error_for_cause st qname_obj response index r1 r2 wrap).
Proof. unfold error_for_cause. walk. Qed.
#[local] Hint Resolve error_for_cause_ok : walk.

Lemma edns_flag_loop_ok st qname_obj response server client bits err :
  ok (edns_flag_loop st qname_obj response server client bits err).
Proof.
  revert err. induction bits as [|i bits IH]; intros err; simpl; walk.
Qed.
#[local] Hint Resolve edns_flag_loop_ok : walk.

Lemma edns_error_ok st qname_obj response server client warnings :
  ok (edns_error st qname_obj response server client warnings).
Proof. unfold edns_error. walk. Qed.
#[local] Hint Resolve edns_error_ok : walk.

Lemma error_group_ok st qname_obj err : ok (error_group st qname_obj err).
Proof. unfold error_group. walk. Qed.
#[local] Hint Resolve error_group_ok : walk.

Lemma authority_errors_ok st qname_obj response server client errors :
  ok (authority_errors st qname_obj response server client errors).
Proof. unfold authority_errors. walk. Qed.
#[local] Hint Resolve authority_errors_ok : walk.

Lemma populate_response_errors_ok st qname_obj response server client warnings errors :
  ok (_populate_response_errors st qname_obj response server client warnings errors).
Proof. unfold _populate_response_errors. walk. Qed.
#[local] Hint Resolve populate_response_errors_ok : walk.

Lemma get_dnskey_index_ok st obj : inv st → ok (get_dnskey_index st obj).
Proof. intros. unfold get_dnskey_index. walk. Qed.
#[local] Hint Resolve get_dnskey_index_ok : walk.

Lemma get_dnskey_sets_ok st obj : inv st → ok (get_dnskey_sets st obj).
Proof. intros. unfold get_dnskey_sets. walk. Qed.
#[local] Hint Resolve get_dnskey_sets_ok : walk.

Lemma get_dnskeys_ok st obj : inv st → ok (get_dnskeys st obj).
Proof. intros. unfold get_dnskeys. walk. Qed.
#[local] Hint Resolve get_dnskeys_ok : walk.

Lemma potential_trusted_keys_ok s : ok (potential_trusted_keys s).
Proof. unfold potential_trusted_keys. walk. Qed.
#[local] Hint Resolve potential_trusted_keys_ok : walk.

Lemma qname_obj_for_ok st self name rdtype : ok (qname_obj_for st self name rdtype).
Proof. unfold qname_obj_for. walk. Qed.
#[local] Hint Resolve qname_obj_for_ok : walk.

Lemma zone_name_of_ok st qname_obj : ok (zone_name_of st qname_obj).
Proof. unfold zone_name_of. walk. Qed.
#[local] Hint Resolve zone_name_of_ok : walk.

Lemma name_status_nodata_ok st qname qname_obj neg s :
  ok (name_status_nodata st qname qname_obj neg s).
Proof. unfold name_status_nodata. walk. Qed.
#[local] Hint Resolve name_status_nodata_ok : walk.

Lemma name_status_query_ok st self level item s : ok (name_status_query st self level item s).
Proof. unfold name_status_query. walk. Qed.
#[local] Hint Resolve name_status_query_ok : walk.

Lemma populate_name_status_ok fuel st self level trace :
  inv st → ok (_populate_name_status fuel st self level trace).
Proof.
  revert st self level trace. induction fuel as [|fuel IH]; intros st self level trace Hst;
    [done|].
  simpl. walk.
Qed.
#[local] Hint Resolve populate_name_status_ok : walk.

Lemma rrset_state_of_ok st self :
  ok (rrset_state_of st self).
Proof. unfold rrset_state_of. walk. Qed.
#[local] Hint Resolve rrset_state_of_ok : walk.

Lemma record_rrsig_status_ok s rs :
  ok (record_rrsig_status s rs).
Proof. unfold record_rrsig_status. walk. Qed.
#[local] Hint Resolve record_rrsig_status_ok : walk.

Lemma record_key_role_ok self rrset_info s roles :
  ok (record_key_role self rrset_info s roles).
Proof. unfold record_key_role. walk. Qed.
#[local] Hint Resolve record_key_role_ok : walk.

Lemma rrsig_status_for_dnskey_set_ok self rrset_info rrsig zone_name sa dnskey_set acc :
  ok (rrsig_status_for_dnskey_set self rrset_info rrsig zone_name sa dnskey_set acc).
Proof. unfold rrsig_status_for_dnskey_set. walk. Qed.
#[local] Hint Resolve rrsig_status_for_dnskey_set_ok : walk.

Lemma rrsig_status_for_rrsig_ok self rrset_info zone_name a1 a2 a3 sa item s :
  inv s → ok (rrsig_status_for_rrsig self rrset_info zone_name a1 a2 a3 sa item s).
Proof. intros. unfold rrsig_status_for_rrsig. walk. Qed.
#[local] Hint Resolve rrsig_status_for_rrsig_ok : walk.

Lemma insert_rrset_error_ok rrset_info err w rs :
  ok (insert_rrset_error rrset_info err w rs).
Proof. unfold insert_rrset_error. walk. Qed.
#[local] Hint Resolve insert_rrset_error_ok : walk.

Lemma missing_rrsig_errors_ok st rrset_info qname_obj a1 a2 a3 algs rs :
  ok (missing_rrsig_errors st rrset_info qname_obj a1 a2 a3 algs rs).
Proof. unfold missing_rrsig_errors. walk. Qed.
#[local] Hint Resolve missing_rrsig_errors_ok : walk.

Lemma rrsig_status_body_ok st self query_rdtype rrset_info qname_obj sa :
  inv st → ok (rrsig_status_body st self query_rdtype rrset_info qname_obj sa).
Proof. intros. unfold rrsig_status_body. walk. Qed.
#[local] Hint Resolve rrsig_status_body_ok : walk.

Lemma rrset_response_errors_ok st self rrset_info qname_obj :
  inv st → ok (rrset_response_errors st self rrset_info qname_obj).
Proof. intros. unfold rrset_response_errors. walk. Qed.
#[local] Hint Resolve rrset_response_errors_ok : walk.

Lemma populate_rrsig_status_plain_ok st self query_rdtype rrset_info qname_obj sa b :
  inv st → ok (_populate_rrsig_status_plain st self query_rdtype rrset_info qname_obj sa b).
Proof. intros. unfold _populate_rrsig_status_plain. walk. Qed.
#[local] Hint Resolve populate_rrsig_status_plain_ok : walk.

Lemma populate_wildcard_status_ok st self query_rdtype rrset_info qname_obj sa :
  inv st → ok (_populate_wildcard_status st self query_rdtype rrset_info qname_obj sa).
Proof. intros. unfold _populate_wildcard_status. walk. Qed.
#[local] Hint Resolve populate_wildcard_status_ok : walk.

Lemma populate_rrsig_status_ok st self query_rdtype rrset_info qname_obj sa b :
  inv st → ok (_populate_rrsig_status st self query_rdtype rrset_info qname_obj sa b).
Proof. intros. unfold _populate_rrsig_status. walk. Qed.
#[local] Hint Resolve populate_rrsig_status_ok : walk.

Lemma populate_rrsig_status_all_ok st self sa level :
  inv st → ok (_populate_rrsig_status_all st self sa level).
Proof. intros. unfold _populate_rrsig_status_all. walk. Qed.
#[local] Hint Resolve populate_rrsig_status_all_ok : walk.

Lemma finalize_key_roles_ok st self :
  inv st → ok (_finalize_key_roles st self).
Proof. intros. unfold _finalize_key_roles. walk. Qed.
#[local] Hint Resolve finalize_key_roles_ok : walk.

Lemma negative_response_soa_ok self query neg cls qname_obj sa soa_rrset_info acc :
  inv acc → ok (negative_response_soa self query neg cls qname_obj sa soa_rrset_info acc).
Proof. intros. unfold negative_response_soa. walk. Qed.
#[local] Hint Resolve negative_response_soa_ok : walk.

Lemma populate_negative_response_status_ok st self query neg cls warnings errors sa :
  inv st → ok (_populate_negative_response_status st self query neg cls warnings errors sa).
Proof. intros. unfold _populate_negative_response_status. walk. Qed.
#[local] Hint Resolve populate_negative_response_status_ok : walk.

Lemma classify_negative_response_ok get set cls st self query neg sa :
  (∀ v, keeps_rrset_state (set v)) → inv st → ok (classify_negative_response get set cls st self query neg sa).
Proof. intros. unfold classify_negative_response. walk. Qed.
#[local] Hint Resolve classify_negative_response_ok : walk.

Lemma keeps_set_nodata_state v : keeps_rrset_state (set_nodata_state v).
Proof. by intros s. Qed.

Lemma keeps_set_nxdomain_state v : keeps_rrset_state (set_nxdomain_state v).
Proof. by intros s. Qed.
#[local] Hint Resolve keeps_set_nodata_state keeps_set_nxdomain_state : walk.

Lemma populate_nodata_status_ok st self sa level :
  inv st → ok (_populate_nodata_status st self sa level).
Proof. intros. unfold _populate_nodata_status. walk. Qed.
#[local] Hint Resolve populate_nodata_status_ok : walk.

Lemma alter_nxdomain_warnings_ok self neg f st :
  inv st → ok (alter_nxdomain_warnings self neg f st).
Proof. intros. unfold alter_nxdomain_warnings. walk. Qed.
#[local] Hint Resolve alter_nxdomain_warnings_ok : walk.

Lemma alter_nodata_warnings_ok self neg f st :
  inv st → ok (alter_nodata_warnings self neg f st).
Proof. intros. unfold alter_nodata_warnings. walk. Qed.
#[local] Hint Resolve alter_nodata_warnings_ok : walk.

Lemma alter_rrset_warnings_ok self rrset_info f st :
  inv st → ok (alter_rrset_warnings self rrset_info f st).
Proof. intros. unfold alter_rrset_warnings. walk. Qed.
#[local] Hint Resolve alter_rrset_warnings_ok : walk.

Lemma inconsistent_nxdomain_query_ok self rdtype neg required item st :
  inv st → ok (inconsistent_nxdomain_query self rdtype neg required item st).
Proof. intros. unfold inconsistent_nxdomain_query. walk. Qed.
#[local] Hint Resolve inconsistent_nxdomain_query_ok : walk.

Lemma inconsistent_nxdomain_ok self rdtype neg required st :
  inv st → ok (inconsistent_nxdomain self rdtype neg required st).
Proof. intros. unfold inconsistent_nxdomain. walk. Qed.
#[local] Hint Resolve inconsistent_nxdomain_ok : walk.

Lemma populate_nxdomain_status_ok st self sa level :
  inv st → ok (_populate_nxdomain_status st self sa level).
Proof. intros. unfold _populate_nxdomain_status. walk. Qed.
#[local] Hint Resolve populate_nxdomain_status_ok : walk.

Lemma sep_for_rrsig_ok na dnskey_info dnskey ds_status ds_algs item algs :
  ok (sep_for_rrsig na dnskey_info dnskey ds_status ds_algs item algs).
Proof. unfold sep_for_rrsig. walk. Qed.
#[local] Hint Resolve sep_for_rrsig_ok : walk.

Lemma ds_status_for_dnskey_info_ok self na ds_rrset_info ds_rdata ds_algs sda dnskey_info acc :
  ok (ds_status_for_dnskey_info self na ds_rrset_info ds_rdata ds_algs sda dnskey_info acc).
Proof. unfold ds_status_for_dnskey_info. walk. Qed.
#[local] Hint Resolve ds_status_for_dnskey_info_ok : walk.

Lemma ds_status_for_ds_ok self na dnskey_multiquery ds_rrset_info ds_algs sda ds_rdata acc :
  ok (ds_status_for_ds self na dnskey_multiquery ds_rrset_info ds_algs sda ds_rdata acc).
Proof. unfold ds_status_for_ds. walk. Qed.
#[local] Hint Resolve ds_status_for_ds_ok : walk.

Lemma ds_status_for_rrset_ok self na rdtype name dnskey_multiquery dnskey_responses sa sda ds_rrset_info s :
  ok (ds_status_for_rrset self na rdtype name dnskey_multiquery dnskey_responses sa sda ds_rrset_info s).
Proof. unfold ds_status_for_rrset. walk. Qed.
#[local] Hint Resolve ds_status_for_rrset_ok : walk.

Lemma ds_status_after_loop_ok self na rdtype name ds_rrset_answer_info sa sda :
  ok (ds_status_after_loop self na rdtype name ds_rrset_answer_info sa sda).
Proof. unfold ds_status_after_loop. walk. Qed.
#[local] Hint Resolve ds_status_after_loop_ok : walk.

Lemma ds_nsec_status_lists_ok s name :
  ok (ds_nsec_status_lists s name).
Proof. unfold ds_nsec_status_lists. walk. Qed.
#[local] Hint Resolve ds_nsec_status_lists_ok : walk.

Lemma ds_status_resolved_ok st na name ds_rrset_answer_info s :
  ok (ds_status_resolved st na name ds_rrset_answer_info s).
Proof. unfold ds_status_resolved. walk. Qed.
#[local] Hint Resolve ds_status_resolved_ok : walk.

(** [_populate_ds_status] is called for DS and for DLV: the ValueError for
    another type is not raised. *)
Lemma populate_ds_status_ok st self rdtype sa sda :
  inv st → rdtype = rdatatype.DS ∨ rdtype = rdatatype.DLV →
  ok (_populate_ds_status st self rdtype sa sda).
Proof.
  intros Hst Hrd. unfold _populate_ds_status.
  replace (negb (set_in rdtype [rdatatype.DS; rdatatype.DLV])) with false
    by (by destruct Hrd as [->| ->]).
  walk.
Qed.
#[local] Hint Resolve populate_ds_status_ok : walk.

Lemma append_delegation_warning_ok rdtype err d : ok (append_delegation_warning rdtype err d).
Proof. unfold append_delegation_warning. walk. Qed.
#[local] Hint Resolve append_delegation_warning_ok : walk.

Lemma append_delegation_error_ok rdtype err d : ok (append_delegation_error rdtype err d).
Proof. unfold append_delegation_error. walk. Qed.
#[local] Hint Resolve append_delegation_error_ok : walk.

Lemma ns_status_for_name_ok self auth_ns_response name l :
  ok (ns_status_for_name self auth_ns_response name l).
Proof. unfold ns_status_for_name. walk. Qed.
#[local] Hint Resolve ns_status_for_name_ok : walk.

Lemma populate_ns_status_ok st self w4 w6 : inv st → ok (_populate_ns_status st self w4 w6).
Proof. intros. unfold _populate_ns_status. walk. Qed.
#[local] Hint Resolve populate_ns_status_ok : walk.

Lemma populate_server_status_ok st self : inv st → ok (_populate_server_status st self).
Proof. intros. unfold _populate_server_status. walk. Qed.
#[local] Hint Resolve populate_server_status_ok : walk.

Lemma populate_delegation_status_ok st self sa sda :
  inv st → ok (_populate_delegation_status st self sa sda).
Proof. intros. unfold _populate_delegation_status. walk. Qed.
#[local] Hint Resolve populate_delegation_status_ok : walk.

Lemma dnskey_status_for_dnskey_ok st na tk servers_responsive dnskey acc :
  ok (dnskey_status_for_dnskey st na tk servers_responsive dnskey acc).
Proof. unfold dnskey_status_for_dnskey. walk. Qed.
#[local] Hint Resolve dnskey_status_for_dnskey_ok : walk.

Lemma populate_dnskey_status_ok st self trusted_keys :
  inv st → ok (_populate_dnskey_status st self trusted_keys).
Proof. intros. unfold _populate_dnskey_status. walk. Qed.
#[local] Hint Resolve populate_dnskey_status_ok : walk.

(** The walker: every store it returns has the property [I], and it raises
    only exceptions of [P]. *)
Lemma populate_status_ok fuel st self trusted_keys sa sda is_dlv level trace follow_mx :
  inv st →
  ok (populate_status fuel st self trusted_keys sa sda is_dlv level trace follow_mx).
Proof.
  revert st self trusted_keys sa sda is_dlv level trace follow_mx.
  induction fuel as [|fuel IH];
    intros st self trusted_keys sa sda is_dlv level trace follow_mx Hst; [done|].
  simpl. walk.
Qed.

End walk.

Lemma populated_walk self : WalkSpec (populated self) (λ _, True).
Proof.
  split; try done. intros obj f st Hf (na & Hna & Hrs). unfold populated.
  rewrite lookup_update. case_decide; [|eauto]. rewrite Hna. simpl. eauto.
Qed.

Lemma raised_by_design_walk : WalkSpec (λ _, True) raised_by_design.
Proof. split; unfold raised_by_design; eauto 10. Qed.

#[local] Existing Instance populated_walk.
#[local] Existing Instance raised_by_design_walk.

Section walker.
Context `{!Oracles}.

Lemma ok_populated self (m : Result (gmap string NA)) st :
  @run_ok (λ _, True) _ (inv_store (populated self)) m → m = Ok st → populated self st.
Proof. by intros Hok ->. Qed.

Lemma update_update_const obj v (st : gmap string NA) :
  update obj (set_rrset_state v) (update obj (set_rrset_state v) st)
  = update obj (set_rrset_state v) st.
Proof.
  apply map_eq. intros x. rewrite !lookup_update. case_decide; [|done].
  by destruct (st !! x).
Qed.

(** [_populate_rrsig_status_all] starts from empty maps, whatever the maps
    of the object were. *)
Lemma populate_rrsig_status_all_reset st self sa level :
  _populate_rrsig_status_all st self sa level
  = _populate_rrsig_status_all
      (update self (set_rrset_state
         (Some {| rrset_warnings := []; rrset_errors := []; rrsig_status := [];
                  dname_status := []; wildcard_status := []; response_errors := [] |})) st)
      self sa level.
Proof.
  unfold _populate_rrsig_status_all, deref. rewrite lookup_update, decide_True by done.
  destruct (st !! self) as [na|] eqn:Hna; [|done]. simpl.
  by rewrite update_update_const.
Qed.

Lemma populate_rrsig_status_all_populated st self sa level st' :
  _populate_rrsig_status_all st self sa level = Ok st' → populated self st'.
Proof.
  rewrite populate_rrsig_status_all_reset. intros Hrun.
  eapply ok_populated; [|exact Hrun]. apply populate_rrsig_status_all_ok.
  unfold _populate_rrsig_status_all in Hrun.
  apply bind_Ok in Hrun as (na & Hna%deref_Ok & _).
  exists na. split; [done|]. rewrite lookup_update, decide_True in Hna by done.
  destruct (st !! self); simpl in Hna; simplify_eq. simpl. eauto.
Qed.

(** What a run of the walker that returns leaves of the object it was
    called for: its status is populated, or it is a stub. *)
Lemma populate_status_leaves fuel st self trusted_keys sa sda is_dlv level trace follow_mx st1 :
  self ∉ trace →
  populate_status fuel st self trusted_keys sa sda is_dlv level trace follow_mx = Ok st1 →
  ∃ na, st1 !! self = Some na
        ∧ (is_Some (rrset_state (na_st na)) ∨ stub (na_in na) = true).
Proof.
  intros Htrace%set_in_false. destruct fuel as [|fuel]; [done|]. simpl. rewrite Htrace.
  intros (na & Hna%deref_Ok & Hrun)%bind_Ok.
  destruct (rrset_state (na_st na)) as [rs|] eqn:Hrs.
  { simplify_eq. exists na. rewrite Hrs. eauto. }
  destruct (stub (na_in na)) eqn:Hstub.
  { simplify_eq. exists na. eauto. }
  apply bind_Ok in Hrun as (st_a & _ & Hrun).
  apply bind_Ok in Hrun as (st_b & _ & Hrun).
  apply bind_Ok in Hrun as (st_c & _ & Hrun).
  apply bind_Ok in Hrun as (st_d & _ & Hrun).
  apply bind_Ok in Hrun as (st_e & _ & Hrun).
  apply bind_Ok in Hrun as (st_g & Hg%populate_rrsig_status_all_populated & Hrun).
  apply bind_Ok in Hrun as (st_h & Hh & Hrun).
  eapply ok_populated in Hh; [|by apply populate_nodata_status_ok].
  apply bind_Ok in Hrun as (st_i & Hi & Hrun).
  eapply ok_populated in Hi; [|by apply populate_nxdomain_status_ok].
  apply bind_Ok in Hrun as (st_j & Hj & Hrun).
  eapply ok_populated in Hj; [|by apply finalize_key_roles_ok].
  assert (populated self st1) as (na1 & ? & ?); [|by eauto].
  destruct (bool_decide (level ≤ RDTYPES_SECURE_DELEGATION)); [|by simplify_eq].
  apply bind_Ok in Hrun as (st_k & Hk & Hrun).
  assert (populated self st_k) as Hk'.
  { destruct (negb is_dlv); [|by simplify_eq].
    eapply ok_populated; [|exact Hk]. by apply populate_delegation_status_ok. }
  apply bind_Ok in Hrun as (st_l & Hl & Hrun).
  assert (populated self st_l) as Hl'.
  { destruct (dlv_parent (na_in na)); [|by simplify_eq].
    eapply ok_populated; [|exact Hl]. apply populate_ds_status_ok; [done|by right]. }
  eapply ok_populated; [|exact Hrun]. by apply populate_dnskey_status_ok.
Qed.

(** A call for an object that is not on the path of calls and whose status
    is populated, or that is a stub, changes nothing, whatever the level. *)
Lemma populate_status_again fuel st self na trusted_keys sa sda is_dlv level trace follow_mx :
  self ∉ trace → st !! self = Some na →
  is_Some (rrset_state (na_st na)) ∨ stub (na_in na) = true →
  populate_status (S fuel) st self trusted_keys sa sda is_dlv level trace follow_mx = Ok st.
Proof.
  intros Htrace%set_in_false Hna Hdone. simpl. rewrite Htrace.
  unfold deref. rewrite Hna. simpl.
  destruct Hdone as [[rs ->]| ->]; [done|]. by destruct (rrset_state (na_st na)).
Qed.

(** C4 (amended): a call of [populate_status] for an object whose status is
    populated ([rrsig_status] is not None) returns at once and leaves every
    map as it is, at every level: there is no assertion on the level, and a
    call with another level evaluates nothing more.  Hence a second run of
    the walker for the object of a run that returned, with any arguments,
    leaves the store of the first run. *)
Theorem C4_populate_status_twice (fuel fuel' : nat) (st st1 : gmap string NA) (self : string)
    (trusted_keys trusted_keys' : list (string * DNSKEYRdata))
    (sa sda sa' sda' : option (list Z)) (is_dlv is_dlv' : bool) (level level' : Z)
    (trace trace' : list string) (follow_mx follow_mx' : bool) :
  self ∉ trace → self ∉ trace' →
  populate_status fuel st self trusted_keys sa sda is_dlv level trace follow_mx = Ok st1 →
  populate_status (S fuel') st1 self trusted_keys' sa' sda' is_dlv' level' trace' follow_mx'
    = Ok st1.
Proof.
  intros Htrace Htrace' Hrun.
  destruct (populate_status_leaves _ _ _ _ _ _ _ _ _ _ _ Htrace Hrun) as (na & Hna & Hdone).
  by eapply populate_status_again.
Qed.

End walker.

(** ** The exceptions of [_populate_response_errors] *)



Section response_exceptions.
Context {oracles : Oracles}.












End response_exceptions.

Section walker_exceptions.
Context {oracles : Oracles}.



End walker_exceptions.

(** ** The walker and the objects it evaluates *)

Lemma evaluated_walk obj : WalkSpec (evaluated obj) (λ _, True).
Proof.
  split; try done. intros obj' f st Hf (na & Hna & Hdone). unfold evaluated.
  rewrite lookup_update. case_decide; [|eauto]. rewrite Hna. simpl.
  eexists. split; [done|]. simpl. destruct Hdone; [left; auto|by right].
Qed.

Section walker_kept.
Context `{!Oracles} {I : gmap string NA → Prop} `{!WalkSpec I (λ _, True)}.

Lemma run_ok_Ok (m : Result (gmap string NA)) st :
  @run_ok (λ _, True) _ (inv_store I) m → m = Ok st → I st.
Proof. by intros Hok ->. Qed.

Lemma calls_kept {A} (l : list A) (body : A → gmap string NA → Result (gmap string NA))
    st st' :
  (∀ x s, I s → @run_ok (λ _, True) _ (inv_store I) (body x s)) →
  I st → forM l body st = Ok st' → I st'.
Proof.
  intros Hbody Hst. apply (forM_invariant I); [|done].
  intros x s1 s2 _ Hs1 Hstep. eapply run_ok_Ok; [|exact Hstep]. by apply Hbody.
Qed.

Lemma call_kept fuel st self trusted_keys sa sda is_dlv level trace follow_mx st' :
  I st →
  populate_status fuel st self trusted_keys sa sda is_dlv level trace follow_mx = Ok st' →
  I st'.
Proof. intros Hst. apply run_ok_Ok. by apply populate_status_ok. Qed.

(** What follows the calls for the dependencies and the ancestry. *)
Lemma evaluation_kept fuel st self i trusted_keys sa sda is_dlv level st_e st' :
  I st → _populate_name_status fuel st self level [] = Ok st_e →
  (st ← _populate_rrsig_status_all
          (if bool_decide (level ≤ RDTYPES_SECURE_DELEGATION)
           then update self (set_dnskey_index (Some (_index_dnskeys self i))) st_e
           else st_e) self sa level;
   st ← _populate_nodata_status st self sa level;
   st ← _populate_nxdomain_status st self sa level;
   st ← _finalize_key_roles st self;
   if bool_decide (level ≤ RDTYPES_SECURE_DELEGATION) then
     st ← (if negb is_dlv then _populate_delegation_status st self sa sda else Ok st);
     st ← (if dlv_parent i is Some _
           then _populate_ds_status st self rdatatype.DLV sa sda
           else Ok st);
     _populate_dnskey_status st self trusted_keys
   else Ok st) = Ok st' →
  I st'.
Proof.
  intros Hst He Hrun.
  eapply run_ok_Ok in He; [|by apply populate_name_status_ok].
  apply bind_Ok in Hrun as (st_g & Hg & Hrun).
  eapply run_ok_Ok in Hg;
    [|apply populate_rrsig_status_all_ok; case_bool_decide;
      [apply I_update; [by intros s Hs|done]|done]].
  apply bind_Ok in Hrun as (st_h & Hh & Hrun).
  eapply run_ok_Ok in Hh; [|by apply populate_nodata_status_ok].
  apply bind_Ok in Hrun as (st_i & Hi & Hrun).
  eapply run_ok_Ok in Hi; [|by apply populate_nxdomain_status_ok].
  apply bind_Ok in Hrun as (st_j & Hj & Hrun).
  eapply run_ok_Ok in Hj; [|by apply finalize_key_roles_ok].
  destruct (bool_decide (level ≤ RDTYPES_SECURE_DELEGATION)); [|by simplify_eq].
  apply bind_Ok in Hrun as (st_k & Hk & Hrun).
  assert (I st_k) as Hk'.
  { destruct (negb is_dlv); [|by simplify_eq].
    eapply run_ok_Ok; [|exact Hk]. by apply populate_delegation_status_ok. }
  apply bind_Ok in Hrun as (st_l & Hl & Hrun).
  assert (I st_l) as Hl'.
  { destruct (dlv_parent i); [|by simplify_eq].
    eapply run_ok_Ok; [|exact Hl]. apply populate_ds_status_ok; [done|by right]. }
  eapply run_ok_Ok; [|exact Hrun]. by apply populate_dnskey_status_ok.
Qed.

End walker_kept.

Section walker_extent.
Context `{!Oracles}.

(** X1: whatever the store was, every RRSIG status that
    [_populate_rrsig_status_all] leaves in [rrsig_status] of the object is
    for a DNSKEY the RRSIG applies to: protocol 3, the algorithm of the
    RRSIG, and its key tag (with or without the revoke bit); for a
    signature of a DNSKEY RRset by its own name the key is a record of that
    RRset. *)
Theorem X1_rrsig_status_all_only_applicable_keys st self sa level st' :
  _populate_rrsig_status_all st self sa level = Ok st' →
  ∀ na rs id by_rrsig rrsig by_dnskey dnskey s,
    st' !! self = Some na → rrset_state (na_st na) = Some rs →
    (id, by_rrsig) ∈ rrsig_status rs → (rrsig, by_dnskey) ∈ by_rrsig →
    (dnskey, s) ∈ by_dnskey → rrsig_status_key_valid s.
Proof.
  intros Hrun na rs id by_rrsig rrsig by_dnskey dnskey s Hna Hrs.
  by apply (populate_rrsig_status_all_valid _ _ _ _ _ Hrun na rs).
Qed.

(** X2: [populate_status] never takes the status of an object away: an
    object, the one the call is for or any other, whose [rrsig_status] is
    not None before a run that returns has it not None after. *)
Theorem X2_populate_status_keeps_populated fuel st obj self trusted_keys sa sda is_dlv
    level trace follow_mx st' :
  populated obj st →
  populate_status fuel st self trusted_keys sa sda is_dlv level trace follow_mx = Ok st' →
  populated obj st'.
Proof.
  intros Hst. apply (call_kept (WalkSpec0 := populated_walk obj)). exact Hst.
Qed.

(** X3: a run of [populate_status] that returns, for an object that is
    not on the path of calls, not yet populated and not a stub, leaves the
    object populated, and every object it depends on at the level of the
    call (CNAME targets, mail servers when they are followed, external
    signers, name servers) and its parent and DLV parent, unless they are
    on the path of calls, populated or a stub. *)
Theorem X3_populate_status_evaluates_dependencies fuel st self na trusted_keys sa sda
    is_dlv level trace follow_mx st' :
  self ∉ trace → st !! self = Some na → rrset_state (na_st na) = None →
  stub (na_in na) = false →
  populate_status fuel st self trusted_keys sa sda is_dlv level trace follow_mx = Ok st' →
  populated self st'
  ∧ ∀ dep, called_for (na_in na) level follow_mx dep → dep ∉ trace → evaluated dep st'.
Proof.
  intros Htrace Hna Hrs Hstub Hrun.
  assert (evaluated self st') as Hself by (by eapply populate_status_leaves).
  split.
  { destruct Hself as (na' & Hna' & [?|Hstub']); [by exists na'|].
    exfalso. revert Hrun Hna'. clear -Hna Hstub Hstub'. intros Hrun.
    assert (na_in <$> st' !! self = Some (na_in na)) as Hin.
    { assert (WalkSpec (λ s, na_in <$> s !! self = Some (na_in na)) (λ _, True)) as Hinput.
      { split; try done. intros obj f s _ Hs. rewrite lookup_update.
        case_decide; [|done]. by destruct (s !! self). }
      eapply (call_kept (WalkSpec0 := Hinput)); [|exact Hrun]. by rewrite Hna. }
    intros Hna'. rewrite Hna' in Hin. simpl in Hin. congruence. }
  intros dep Hdep Hdep_trace.
  destruct (decide (dep = self)) as [->|Hne]; [done|].
  assert (dep ∉ trace ++ [self]) as Hpath.
  { rewrite elem_of_app, list_elem_of_singleton. tauto. }
  pose proof (evaluated_walk dep) as Hwalk.
  destruct fuel as [|fuel]; [done|]. revert Hrun.
  apply set_in_false in Htrace. cbn [populate_status]. rewrite Htrace.
  unfold deref at 1. rewrite Hna. cbn [subscript mbind Result_bind]. rewrite Hrs, Hstub.
  intros (st_a & Ha & Hrun)%bind_Ok.
  apply bind_Ok in Hrun as (st_b & Hb & Hrun).
  apply bind_Ok in Hrun as (st_c & Hc & Hrun).
  apply bind_Ok in Hrun as (st_d & Hd & Hrun).
  apply bind_Ok in Hrun as (st_e & He & Hrun).
  assert (evaluated dep st_d → evaluated dep st') as Htail.
  { intros Hst_d. by eapply (evaluation_kept (WalkSpec0 := Hwalk)). }
  assert (evaluated dep st_c → evaluated dep st_d) as Hkeep_d.
  { intros Hst_c. destruct (dlv_parent (na_in na)); [|by simplify_eq].
    by eapply (call_kept (WalkSpec0 := Hwalk)). }
  assert (evaluated dep st_b → evaluated dep st_c) as Hkeep_c.
  { intros Hst_b. destruct (parent (na_in na)); [|by simplify_eq].
    by eapply (call_kept (WalkSpec0 := Hwalk)). }
  assert (∀ (l : list (string * option string)) s s', evaluated dep s →
            forM l (λ '(_, ns_obj) (st0 : gmap string NA),
              match ns_obj with
              | Some ns_obj0 =>
                  populate_status fuel st0 ns_obj0 trusted_keys None None false
                    RDTYPES_NS_TARGET (trace ++ [self]) true
              | None => Ok st0
              end) s = Ok s' → evaluated dep s') as Hkeep_ns.
  { intros l s s' Hs. apply (calls_kept (I := evaluated dep)); [|done].
    intros [? [o|]] ? ?; [by apply (populate_status_ok (WalkSpec0 := Hwalk))|done]. }
  assert (∀ (l : list (string * option string)) s s', evaluated dep s →
            forM l (λ '(_, signer_obj) (st0 : gmap string NA),
              match signer_obj with
              | Some signer_obj0 =>
                  populate_status fuel st0 signer_obj0 trusted_keys None None false
                    RDTYPES_SECURE_DELEGATION (trace ++ [self]) true
              | None => Ok st0
              end) s = Ok s' → evaluated dep s') as Hkeep_signers.
  { intros l s s' Hs. apply (calls_kept (I := evaluated dep)); [|done].
    intros [? [o|]] ? ?; [by apply (populate_status_ok (WalkSpec0 := Hwalk))|done]. }
  assert (∀ (l : list (string * option string)) s s', evaluated dep s →
            forM l (λ '(_, mx_obj) (st0 : gmap string NA),
              match mx_obj with
              | Some mx_obj0 =>
                  populate_status fuel st0 mx_obj0 trusted_keys None None false
                    (RDTYPES_ALL_SAME_NAME `max` level) (trace ++ [self]) false
              | None => Ok st0
              end) s = Ok s' → evaluated dep s') as Hkeep_mx.
  { intros l s s' Hs. apply (calls_kept (I := evaluated dep)); [|done].
    intros [? [o|]] ? ?; [by apply (populate_status_ok (WalkSpec0 := Hwalk))|done]. }
  assert (∀ (l : list (string * string)) s s', evaluated dep s →
            forM l (λ '(_, cname_obj) (st0 : gmap string NA),
              populate_status fuel st0 cname_obj trusted_keys None None false
                (RDTYPES_ALL_SAME_NAME `max` level) (trace ++ [self]) true) s = Ok s' →
            evaluated dep s') as Hkeep_targets.
  { intros l s s' Hs. apply (calls_kept (I := evaluated dep)); [|done].
    intros [? o] ? ?. by apply (populate_status_ok (WalkSpec0 := Hwalk)). }
  assert (∀ (l : list (string * list (string * string))) s s', evaluated dep s →
            forM l (λ '(_, targets) (st : gmap string NA),
              forM targets (λ '(_, cname_obj) (st0 : gmap string NA),
                populate_status fuel st0 cname_obj trusted_keys None None false
                  (RDTYPES_ALL_SAME_NAME `max` level) (trace ++ [self]) true) st) s = Ok s' →
            evaluated dep s') as Hkeep_cnames.
  { intros l s s' Hs. apply (forM_invariant (evaluated dep)); [|done].
    intros [? targets] s1 s2 _ Hs1. by apply Hkeep_targets. }
  assert (evaluated dep st_a → evaluated dep st_b) as Hkeep_b.
  { intros Hst_a. destruct (bool_decide (level ≤ RDTYPES_SECURE_DELEGATION)); [|by simplify_eq].
    apply bind_Ok in Hb as (st_b1 & Hb1 & Hb). eauto. }
  destruct Hdep as [[Hlevel (cname & targets & target & Hcname & Htarget)]
    |[(Hlevel & -> & target & Hmx)|[[Hlevel (signer & Hsigner)]
    |[[Hlevel (target & Hns)]|[Hparent|Hdlv]]]]].
  - (* a CNAME target *)
    apply Htail, Hkeep_d, Hkeep_c, Hkeep_b.
    rewrite bool_decide_eq_true_2 in Ha by done.
    apply bind_Ok in Ha as (st_a1 & Ha1 & Ha).
    assert (evaluated dep st_a1) as Hst_a1.
    { apply (forM_elem _ _ _ _ _ Hcname) in Ha1
        as (l1 & l2 & s1 & s2 & _ & _ & Hstep & Hrest).
      eapply Hkeep_cnames; [|exact Hrest].
      apply (forM_elem _ _ _ _ _ Htarget) in Hstep
        as (t1 & t2 & s3 & s4 & _ & _ & Hcall & Hrest').
      eapply Hkeep_targets; [|exact Hrest'].
      by eapply populate_status_leaves. }
    destruct follow_mx; [eauto|by simplify_eq].
  - (* a mail server *)
    apply Htail, Hkeep_d, Hkeep_c, Hkeep_b.
    rewrite bool_decide_eq_true_2 in Ha by done.
    apply bind_Ok in Ha as (st_a1 & _ & Ha).
    apply (forM_elem _ _ _ _ _ Hmx) in Ha as (l1 & l2 & s1 & s2 & _ & _ & Hcall & Hrest).
    eapply Hkeep_mx; [|exact Hrest]. by eapply populate_status_leaves.
  - (* an external signer *)
    apply Htail, Hkeep_d, Hkeep_c.
    rewrite bool_decide_eq_true_2 in Hb by done.
    apply bind_Ok in Hb as (st_b1 & Hb1 & Hb).
    eapply Hkeep_ns; [|exact Hb].
    apply (forM_elem _ _ _ _ _ Hsigner) in Hb1 as (l1 & l2 & s1 & s2 & _ & _ & Hcall & Hrest).
    eapply Hkeep_signers; [|exact Hrest]. by eapply populate_status_leaves.
  - (* a name server *)
    apply Htail, Hkeep_d, Hkeep_c.
    rewrite bool_decide_eq_true_2 in Hb by done.
    apply bind_Ok in Hb as (st_b1 & _ & Hb).
    apply (forM_elem _ _ _ _ _ Hns) in Hb as (l1 & l2 & s1 & s2 & _ & _ & Hcall & Hrest).
    eapply Hkeep_ns; [|exact Hrest]. by eapply populate_status_leaves.
  - (* the parent *)
    apply Htail, Hkeep_d. rewrite Hparent in Hc. by eapply populate_status_leaves.
  - (* the DLV parent *)
    apply Htail. rewrite Hdlv in Hd. by eapply populate_status_leaves.
Qed.

End walker_extent.

(** ** The status of a name *)

Lemma name_state_grows_refl s : name_state_grows s s.
Proof. by split_and!. Qed.

Lemma name_state_grows_trans s1 s2 s3 :
  name_state_grows s1 s2 → name_state_grows s2 s3 → name_state_grows s1 s3.
Proof.
  intros (? & ? & ?) (? & ? & ?). split_and!; [congruence|by etrans..].
Qed.

Lemma set_add_subseteq {K} `{EqDecision K} (k : K) s : s ⊆ set_add k s.
Proof. intros x Hx. apply elem_set_add. by right. Qed.

Lemma grows_set_yxdomain k s : name_state_grows s (set_yxdomain (set_add k (yxdomain s)) s).
Proof. split_and!; [done|apply set_add_subseteq|done]. Qed.

Lemma grows_set_yxrrset k s : name_state_grows s (set_yxrrset (set_add k (yxrrset s)) s).
Proof. split_and!; [done|done|apply set_add_subseteq]. Qed.

Lemma grows_set_nxrrset v s : name_state_grows s (set_nxrrset v s).
Proof. by split_and!. Qed.

Lemma foldl_grows {A} (f : NameState → A → NameState) l s :
  (∀ s x, name_state_grows s (f s x)) → name_state_grows s (foldl f s l).
Proof.
  intros Hf. apply (foldl_invariant (name_state_grows s)); [|apply name_state_grows_refl].
  intros x s1 _ Hs1. eapply name_state_grows_trans; [exact Hs1|apply Hf].
Qed.

Lemma forM_grows {A} (body : A → NameState → Result NameState) l s s' :
  (∀ x s s', body x s = Ok s' → name_state_grows s s') →
  forM l body s = Ok s' → name_state_grows s s'.
Proof.
  intros Hbody. apply (forM_invariant (name_state_grows s)); [|apply name_state_grows_refl].
  intros x s1 s2 _ Hs1 Hstep. eapply name_state_grows_trans; [exact Hs1|by eapply Hbody].
Qed.

Lemma name_status_answer_grows rrset_info s :
  name_state_grows s (name_status_answer rrset_info s)
  ∧ rrset_name (rrset (core rrset_info)) ∈ yxdomain (name_status_answer rrset_info s)
  ∧ (rrset_name (rrset (core rrset_info)), rrset_rdtype (rrset (core rrset_info)))
    ∈ yxrrset (name_status_answer rrset_info s).
Proof.
  unfold name_status_answer.
  set (s1 := set_yxdomain _ s).
  set (s2 := set_yxrrset _ s1).
  set (s3 := match dname_info rrset_info with Some _ => _ | None => _ end).
  assert (name_state_grows s s1) as H1 by apply grows_set_yxdomain.
  assert (name_state_grows s1 s2) as H2 by apply grows_set_yxrrset.
  assert (name_state_grows s2 s3) as H3.
  { unfold s3. destruct (dname_info rrset_info);
      [apply grows_set_yxrrset|apply name_state_grows_refl]. }
  match goal with |- context [foldl ?f s3 ?l] =>
    assert (name_state_grows s3 (foldl f s3 l)) as H4 end.
  { apply foldl_grows. intros s0 x. split_and!; [done|done|].
    simpl. etrans; apply set_add_subseteq. }
  split_and!.
  - eauto using name_state_grows_trans.
  - apply H4, H3, H2. simpl. apply elem_set_add. by left.
  - apply H4, H3. simpl. apply elem_set_add. by left.
Qed.

Section name_status.
Context `{!Oracles}.

Lemma name_status_nodata_grows st qname qname_obj neg s s' :
  name_status_nodata st qname qname_obj neg s = Ok s' → name_state_grows s s'.
Proof.
  unfold name_status_nodata. apply forM_grows. intros [[server client] response] s1 s2.
  destruct (_ || _); [|intros [= <-]; apply name_state_grows_refl].
  intros (zone_name & _ & [= <-])%bind_Ok.
  eapply name_state_grows_trans; [|apply grows_set_nxrrset].
  destruct (negb _); [apply grows_set_yxdomain|apply name_state_grows_refl].
Qed.

Lemma name_status_nxdomain_grows qname neg s :
  name_state_grows s (name_status_nxdomain qname neg s).
Proof.
  unfold name_status_nxdomain. apply foldl_grows. intros s0 [[server client] response].
  destruct (_ || _); [apply grows_set_nxrrset|apply name_state_grows_refl].
Qed.

Lemma name_status_query_grows st self level qname rdtype query s s' :
  name_status_query st self level ((qname, rdtype), query) s = Ok s' →
  name_state_grows s s'
  ∧ (qname_excluded self level qname = false →
     rdtype_excluded (_rdtypes_for_analysis_level self level) rdtype = false →
     ∀ rrset_info, rrset_info ∈ answer_info query →
       rrset_name (rrset (core rrset_info)) ∈ yxdomain s'
       ∧ (rrset_name (rrset (core rrset_info)), rrset_rdtype (rrset (core rrset_info)))
         ∈ yxrrset s').
Proof.
  unfold name_status_query.
  destruct (qname_excluded self level qname);
    [intros [= <-]; split; [apply name_state_grows_refl|done]|].
  destruct (rdtype_excluded _ rdtype);
    [intros [= <-]; split; [apply name_state_grows_refl|done]|].
  intros (qname_obj & _ & Hrun)%bind_Ok. revert Hrun. cbv zeta.
  set (s1 := foldl _ s (answer_info query)).
  intros (s2 & Hnodata & Hrun)%bind_Ok. revert Hrun.
  set (s3 := foldl _ s2 (nxdomain_info query)). intros Hrun.
  assert (name_state_grows s s1) as H1.
  { apply foldl_grows. intros s0 x. apply name_status_answer_grows. }
  assert (name_state_grows s1 s2) as H2.
  { revert Hnodata. apply forM_grows. intros x s0 s0'. apply name_status_nodata_grows. }
  assert (name_state_grows s2 s3) as H3.
  { apply foldl_grows. intros s0 x. apply name_status_nxdomain_grows. }
  assert (name_state_grows s3 s') as H4.
  { destruct (_ && _); simplify_eq; [apply grows_set_yxdomain|apply name_state_grows_refl]. }
  assert (name_state_grows s1 s') as H5 by eauto using name_state_grows_trans.
  split; [eauto using name_state_grows_trans|].
  intros _ _ rrset_info Hin.
  assert (rrset_name (rrset (core rrset_info)) ∈ yxdomain s1
          ∧ (rrset_name (rrset (core rrset_info)), rrset_rdtype (rrset (core rrset_info)))
            ∈ yxrrset s1) as [Hd Hr].
  { unfold s1. clear -Hin. revert s.
    induction (answer_info query) as [|x l IH]; intros s; [by apply elem_of_nil in Hin|].
    simpl. apply elem_of_cons in Hin as [->|Hin]; [|by apply IH].
    destruct (name_status_answer_grows x s) as (_ & Hd & Hr).
    assert (name_state_grows (name_status_answer x s)
              (foldl (λ s rrset_info, name_status_answer rrset_info s)
                 (name_status_answer x s) l)) as (_ & Hd' & Hr').
    { apply foldl_grows. intros s0 x0. apply name_status_answer_grows. }
    split; [by apply Hd'|by apply Hr']. }
  destruct H5 as (_ & Hd' & Hr'). split; [by apply Hd'|by apply Hr'].
Qed.

Lemma name_status_final_spec self s :
  status s = Status.NAME_STATUS_INDETERMINATE →
  yxdomain (name_status_final self s) = yxdomain s
  ∧ yxrrset (name_status_final self s) = yxrrset s
  ∧ (status (name_status_final self s) = Status.NAME_STATUS_NOERROR
     ↔ na_name self ∈ yxdomain s)
  ∧ (status (name_status_final self s) = Status.NAME_STATUS_NXDOMAIN
     ↔ (na_name self ∉ yxdomain s)
       ∧ ∃ qname rdtype query neg,
           ((qname, rdtype), query) ∈ queries self ∧ rdtype ≠ rdatatype.DS
           ∧ neg ∈ nxdomain_info query ∧ neg_qname neg = qname).
Proof.
  intros Hstatus. unfold name_status_final.
  destruct (set_in (na_name self) (yxdomain s)) eqn:Hin.
  { apply set_in_true in Hin. simpl. split_and!; [done|done|done|]. split; [done|tauto]. }
  apply set_in_false in Hin. rewrite decide_True by done.
  match goal with |- context [existsb ?f ?l] => destruct (existsb f l) eqn:Hex end.
  - apply existsb_exists in Hex as ([[qname rdtype] query] & Hq%list_elem_of_In & Hex).
    apply andb_true_iff in Hex as [Hds%negb_true_iff%bool_decide_eq_false Hneg].
    simpl. split_and!; [done|done|split; [done|tauto]|].
    split; [intros _|done]. split; [done|].
    destruct (filter _ (nxdomain_info query)) as [|neg l] eqn:Hfilter; [done|].
    assert (neg ∈ filter (λ x, neg_qname x = qname) (nxdomain_info query)) as Hneg'
      by (rewrite Hfilter; left).
    apply list_elem_of_filter in Hneg' as [? ?]. by exists qname, rdtype, query, neg.
  - split_and!; [done|done|rewrite Hstatus; split; [done|tauto]|].
    rewrite Hstatus. split; [done|].
    intros (_ & qname & rdtype & query & neg & Hq & Hds & Hneg & Hname). exfalso.
    apply not_true_iff_false in Hex. apply Hex, existsb_exists.
    exists ((qname, rdtype), query). split; [by apply list_elem_of_In|].
    apply andb_true_iff. split; [by apply negb_true_iff, bool_decide_eq_false|].
    destruct (filter _ (nxdomain_info query)) as [|? ?] eqn:Hfilter; [|done].
    assert (neg ∈ filter (λ x, neg_qname x = qname) (nxdomain_info query)) as Hneg'
      by (by apply list_elem_of_filter).
    rewrite Hfilter in Hneg'. by apply elem_of_nil in Hneg'.
Qed.

Lemma present_walk self : WalkSpec (λ st, is_Some (st !! self)) (λ _, True).
Proof.
  split; try done. intros obj f st _ Hst. rewrite lookup_update.
  case_decide; [|done]. by apply fmap_is_Some.
Qed.

(** X4: what [_populate_name_status] leaves of an object that is not on
    the path of calls, when it returns: the owner name of every answer
    RRset of every query of the level is in [yxdomain], and the RRset in
    [yxrrset]; the status is NOERROR exactly when the name of the object
    is in [yxdomain], and NXDOMAIN exactly when it is not and a query of a
    type other than DS has an NXDOMAIN response for its own name. *)
Theorem X4_name_status_of_answers fuel st self na level trace st' :
  self ∉ trace → st !! self = Some na →
  _populate_name_status fuel st self level trace = Ok st' →
  ∃ na' ns,
    st' !! self = Some na' ∧ name_state (na_st na') = Some ns
    ∧ (∀ qname rdtype query rrset_info,
         ((qname, rdtype), query) ∈ queries (na_in na) →
         qname_excluded (na_in na) level qname = false →
         rdtype_excluded (_rdtypes_for_analysis_level (na_in na) level) rdtype = false →
         rrset_info ∈ answer_info query →
         rrset_name (rrset (core rrset_info)) ∈ yxdomain ns
         ∧ (rrset_name (rrset (core rrset_info)), rrset_rdtype (rrset (core rrset_info)))
           ∈ yxrrset ns)
    ∧ (status ns = Status.NAME_STATUS_NOERROR ↔ na_name (na_in na) ∈ yxdomain ns)
    ∧ (status ns = Status.NAME_STATUS_NXDOMAIN
       ↔ (na_name (na_in na) ∉ yxdomain ns)
         ∧ ∃ qname rdtype query neg,
             ((qname, rdtype), query) ∈ queries (na_in na) ∧ rdtype ≠ rdatatype.DS
             ∧ neg ∈ nxdomain_info query ∧ neg_qname neg = qname).
Proof.
  intros Htrace%set_in_false Hna. destruct fuel as [|fuel]; [done|].
  cbn [_populate_name_status]. rewrite Htrace.
  rewrite (proj2 (deref_Ok st self na) Hna). cbn [mbind Result_bind]. cbv zeta.
  set (s0 := {| status := Status.NAME_STATUS_INDETERMINATE; yxdomain := [];
                yxrrset := []; nxrrset := [] |}).
  intros (s1 & Hloop & Hrun)%bind_Ok.
  apply bind_Ok in Hrun as ([st2 s2] & Hcname & [= <-]).
  assert (is_Some (update self (set_name_state (Some s1))
                     (update self (set_name_state (Some s0)) st) !! self)) as Hst1.
  { rewrite lookup_update, decide_True by done. apply fmap_is_Some.
    rewrite lookup_update, decide_True by done. apply fmap_is_Some. by rewrite Hna. }
  assert (is_Some (st2 !! self) ∧ name_state_grows s1 s2) as [[na2 Hna2] Hgrows].
  { destruct (bool_decide (level ≤ RDTYPES_NS_TARGET));
      [|simplify_eq; split; [done|apply name_state_grows_refl]].
    revert Hcname.
    apply (forM_invariant (λ p, is_Some (p.1 !! self) ∧ name_state_grows s1 p.2));
      [|split; [done|apply name_state_grows_refl]].
    intros [cname targets] [st_a s_a] [st_b s_b] _ Ha.
    destruct (qname_excluded (na_in na) level cname); [by intros [= <- <-]|].
    apply (forM_invariant (λ p, is_Some (p.1 !! self) ∧ name_state_grows s1 p.2)); [|done].
    clear. intros [target cname_obj] [st_a s_a] [st_b s_b] _ [Hpresent Hgrows].
    destruct (decide (cname_obj = self)); [by intros [= <- <-]|].
    intros (c & _ & Hstep)%bind_Ok.
    apply bind_Ok in Hstep as (st_c & Hcall & Hstep).
    apply bind_Ok in Hstep as (c' & _ & Hstep).
    apply bind_Ok in Hstep as (cs & _ & [= <- <-]). simpl.
    assert (is_Some (st_c !! self)) as Hpresent'.
    { destruct (name_state (na_st c)); [by simplify_eq|].
      eapply (run_ok_Ok (I := λ st, is_Some (st !! self))); [|exact Hcall].
      by apply (populate_name_status_ok (WalkSpec0 := present_walk self)). }
    split.
    - rewrite lookup_update, decide_True by done. by apply fmap_is_Some.
    - eapply name_state_grows_trans; [exact Hgrows|].
      apply foldl_grows. intros s [name rdtype].
      destruct (decide (name = target)); [apply grows_set_yxrrset|apply name_state_grows_refl]. }
  assert (name_state_grows s0 s1) as Hgrows0.
  { revert Hloop. apply forM_grows. intros [[qname rdtype] query] s s'.
    apply name_status_query_grows. }
  destruct (name_status_final_spec (na_in na) s2) as (Hyxdomain & Hyxrrset & Hnoerror & Hnxdomain).
  { destruct Hgrows as [-> _]. by destruct Hgrows0 as [-> _]. }
  eexists _, (name_status_final (na_in na) s2).
  split; [by rewrite lookup_update, decide_True, Hna2 by done|]. split; [done|].
  rewrite Hyxdomain, Hyxrrset. split_and!; [|done..].
  intros qname rdtype query rrset_info Hquery Hqname Hrdtype Hin.
  apply (forM_elem _ _ _ _ _ Hquery) in Hloop as (l1 & l2 & s_a & s_b & _ & _ & Hstep & Hrest).
  apply name_status_query_grows in Hstep as [_ Hstep].
  destruct (Hstep Hqname Hrdtype rrset_info Hin) as [Hd Hr].
  assert (name_state_grows s_b s1) as (_ & Hd1 & Hr1).
  { revert Hrest. apply forM_grows. intros [[qname' rdtype'] query'] s s'.
    apply name_status_query_grows. }
  destruct Hgrows as (_ & Hd2 & Hr2). split; [by apply Hd2, Hd1|by apply Hr2, Hr1].
Qed.

End name_status.

(** ** The DNSKEY index and the roles of the keys *)

Lemma index_dnskey_fold self dnskey_info l d0 s0 :
  let r := foldl (λ acc dnskey_rdata, index_dnskey self dnskey_info dnskey_rdata acc)
                 (d0, s0) l in
  (∀ k, k ∈ r.2 ↔ k ∈ s0 ∨ (dnskey_owner k = self ∧ dnskey_rdata k ∈ l))
  ∧ (∀ rd, is_Some (dict_get rd r.1) ↔ is_Some (dict_get rd d0) ∨ rd ∈ l)
  ∧ (∀ rd meta x, dict_get rd r.1 = Some meta →
       x ∈ dnskey_meta_rrset_info meta
       ↔ (∃ meta0, dict_get rd d0 = Some meta0 ∧ x ∈ dnskey_meta_rrset_info meta0)
         ∨ (rd ∈ l ∧ x = dnskey_info)).
Proof.
  revert d0 s0. induction l as [|rd0 l IH]; intros d0 s0; simpl.
  { split_and!.
    - intros k. rewrite elem_of_nil. tauto.
    - intros rd. rewrite elem_of_nil. tauto.
    - intros rd meta x Hmeta. rewrite elem_of_nil. split; [eauto|].
      intros [(meta0 & ? & ?)|[[] _]]. by simplify_eq. }
  match goal with |- context [foldl _ (dict_set rd0 ?m d0, ?s) l] =>
    specialize (IH (dict_set rd0 m d0) s); simpl in IH; set (meta1 := m) in * end.
  destruct IH as (Hset & Hkeys & Hinfos). split_and!.
  - intros k. rewrite Hset, elem_set_add, elem_of_cons.
    destruct k as [owner rd]. simpl. naive_solver.
  - intros rd. rewrite Hkeys, dict_get_set, elem_of_cons.
    destruct (decide (rd0 = rd)); naive_solver.
  - intros rd meta x Hmeta. rewrite (Hinfos rd meta x Hmeta), dict_get_set, elem_of_cons.
    destruct (decide (rd0 = rd)) as [->|Hne]; [|naive_solver].
    split.
    + intros [(meta0 & [= <-] & Hx)|[? ->]]; [|by eauto]. revert Hx. unfold meta1. simpl.
      rewrite elem_of_app, list_elem_of_singleton.
      intros [Hx| ->]; [|by eauto]. left. destruct (dict_get rd d0) as [m|]; [by eauto|].
      simpl in Hx. by apply elem_of_nil in Hx.
    + intros [(meta0 & Hmeta0 & Hx)|[[_|?] ->]]; [| |by eauto].
      * left. eexists. split; [done|]. unfold meta1. simpl. rewrite Hmeta0. simpl.
        apply elem_of_app. by left.
      * left. eexists. split; [done|]. unfold meta1. simpl.
        apply elem_of_app. right. left.
Qed.

Lemma index_dnskeys_step self i idx dnskey_info :
  index_consistent self idx →
  let idx' :=
    if negb (bool_decide (rrset_name (rrset (core dnskey_info)) = na_name i)
             && bool_decide (rrset_rdtype (rrset (core dnskey_info)) = rdatatype.DNSKEY))
    then idx
    else
      let '(dnskeys, dnskey_set) :=
        foldl (λ acc dnskey_rdata, index_dnskey self dnskey_info dnskey_rdata acc)
              (_dnskeys idx, []) (rrset_dnskeys (rrset (core dnskey_info))) in
      {| _dnskey_sets := _dnskey_sets idx ++ [(dnskey_set, dnskey_info)];
         _dnskeys := dnskeys |} in
  index_consistent self idx'
  ∧ (_dnskey_sets idx').*2
    = (_dnskey_sets idx).*2 ++ filter (is_dnskey_rrset i) [dnskey_info].
Proof.
  intros (Hsets & Hkeys & Hinfos). cbv zeta.
  destruct (bool_decide (rrset_name _ = na_name i) && bool_decide (_ = rdatatype.DNSKEY))
    eqn:Hkept; simpl.
  2:{ split; [done|]. rewrite filter_cons_False, filter_nil, app_nil_r; [done|].
      intros [? ?]. apply andb_false_iff in Hkept as [?%bool_decide_eq_false|?%bool_decide_eq_false];
        done. }
  apply andb_true_iff in Hkept as [?%bool_decide_eq_true ?%bool_decide_eq_true].
  pose proof (index_dnskey_fold self dnskey_info (rrset_dnskeys (rrset (core dnskey_info)))
                (_dnskeys idx) []) as Hfold.
  destruct (foldl _ (_dnskeys idx, []) _) as [dnskeys dnskey_set].
  simpl in Hfold. destruct Hfold as (Hset & Hkeys' & Hinfos'). simpl.
  split.
  2:{ rewrite fmap_app, filter_cons_True, filter_nil by done. done. }
  assert (∀ k, k ∈ dnskey_set
               ↔ dnskey_owner k = self
                 ∧ dnskey_rdata k ∈ rrset_dnskeys (rrset (core dnskey_info))) as Hset'.
  { intros k. rewrite Hset, elem_of_nil. tauto. }
  split_and!; simpl.
  - intros set info k. rewrite elem_of_app, list_elem_of_singleton.
    intros [Hold|[= -> ->]]; [by apply Hsets|apply Hset'].
  - intros rd. rewrite Hkeys', Hkeys. split.
    + intros [(set & info & Hin & Hk)|Hrd].
      * exists set, info. split; [apply elem_of_app; by left|done].
      * exists dnskey_set, dnskey_info. split; [apply elem_of_app; right; left|].
        by apply Hset'.
    + intros (set & info & [Hin|[= -> ->]%list_elem_of_singleton]%elem_of_app & Hk);
        [by eauto|]. right. by apply Hset' in Hk as [_ Hk].
  - intros rd meta x Hmeta. rewrite (Hinfos' rd meta x Hmeta). split.
    + intros [(meta0 & Hmeta0 & Hx)|[Hrd ->]].
      * apply (Hinfos rd meta0 x Hmeta0) in Hx as (set & Hin & Hk).
        exists set. split; [apply elem_of_app; by left|done].
      * exists dnskey_set. split; [apply elem_of_app; right; left|]. by apply Hset'.
    + intros (set & [Hin|[= -> ->]%list_elem_of_singleton]%elem_of_app & Hk).
      * left. assert (is_Some (dict_get rd (_dnskeys idx))) as [meta0 Hmeta0]
          by (apply Hkeys; eauto).
        exists meta0. split; [done|]. apply (Hinfos rd meta0 x Hmeta0). eauto.
      * right. split; [|done]. by apply Hset' in Hk as [_ Hk].
Qed.

(** X6: the index [_index_dnskeys] builds.  Without a DNSKEY query for
    the name of the object it is empty.  Otherwise it has one set for each
    answer of that query with the name of the object and the type DNSKEY,
    in their order; the keys of a set are those of the records of its
    RRset; [_dnskeys] has an entry exactly for the keys of the sets, and
    the [rrset_info] of an entry lists exactly the RRset infos whose set
    has the key. *)
Theorem X6_index_dnskeys self i :
  (_dnskey_sets (_index_dnskeys self i)).*2
  = filter (is_dnskey_rrset i)
      (default [] (answer_info <$> dict_get (na_name i, rdatatype.DNSKEY) (queries i)))
  ∧ index_consistent self (_index_dnskeys self i).
Proof.
  unfold _index_dnskeys.
  destruct (dict_get (na_name i, rdatatype.DNSKEY) (queries i)) as [query|]; simpl.
  2:{ split; [done|]. split_and!; simpl.
      - intros ? ? ? ?%elem_of_nil. done.
      - intros rd. split; [by intros [? ?]|]. by intros (? & ? & ?%elem_of_nil & _).
      - done. }
  match goal with |- context [foldl ?f ?idx0 _] =>
    assert (∀ l idx, index_consistent self idx →
              index_consistent self (foldl f idx l)
              ∧ (_dnskey_sets (foldl f idx l)).*2
                = (_dnskey_sets idx).*2 ++ filter (is_dnskey_rrset i) l) as Hfold end.
  { induction l as [|x l IH]; intros idx Hidx; simpl.
    { by rewrite filter_nil, app_nil_r. }
    destruct (index_dnskeys_step self i idx x Hidx) as [Hidx' Hsets']. cbv zeta in *.
    destruct (IH _ Hidx') as [Hc Hs]. split; [exact Hc|].
    rewrite Hs, Hsets', <-(assoc_L (++)). f_equal.
    by rewrite <-filter_app. }
  destruct (Hfold (answer_info query) {| _dnskey_sets := []; _dnskeys := [] |}) as [Hc Hs].
  { split_and!; simpl.
    - intros ? ? ? ?%elem_of_nil. done.
    - intros rd. split; [by intros [? ?]|]. by intros (? & ? & ?%elem_of_nil & _).
    - done. }
  split; [exact Hs|exact Hc].
Qed.

(** X5: [_finalize_key_roles] changes nothing for an object that is not
    a zone.  For a zone it builds the DNSKEY index when there is none,
    leaves [zsks] and [ksks] as they are, makes [published_keys] the keys
    of the index that are neither ZSK nor KSK and [revoked_keys] the keys
    of the index with the revoke flag; after it [potential_trusted_keys]
    returns KSKs that are not revoked, and returns none only if every KSK
    is revoked. *)
Theorem X5_finalize_key_roles st self na st' :
  st !! self = Some na →
  _finalize_key_roles st self = Ok st' →
  (is_zone (na_in na) = false → st' = st)
  ∧ (is_zone (na_in na) = true →
     ∃ na' zsks0 ksks0 published revoked keys,
       let idx := default (_index_dnskeys self (na_in na)) (dnskey_index (na_st na)) in
       st' !! self = Some na'
       ∧ dnskey_index (na_st na') = Some idx
       ∧ zsks (na_st na) = Some zsks0 ∧ zsks (na_st na') = Some zsks0
       ∧ ksks (na_st na) = Some ksks0 ∧ ksks (na_st na') = Some ksks0
       ∧ published_keys (na_st na') = Some published
       ∧ revoked_keys (na_st na') = Some revoked
       ∧ (∀ k, k ∈ published
               ↔ (dnskey_owner k = self ∧ is_Some (dict_get (dnskey_rdata k) (_dnskeys idx)))
                 ∧ (k ∉ zsks0) ∧ (k ∉ ksks0))
       ∧ (∀ k, k ∈ revoked
               ↔ (dnskey_owner k = self ∧ is_Some (dict_get (dnskey_rdata k) (_dnskeys idx)))
                 ∧ has_flag (dnskey_flags (dnskey_rdata k)) DNSKEY_FLAGS_revoke = true)
       ∧ potential_trusted_keys (na_st na') = Ok keys
       ∧ (∀ k, k ∈ keys → k ∈ ksks0 ∧ k ∉ revoked)
       ∧ (keys = [] → ∀ k, k ∈ ksks0 → k ∈ revoked)).
Proof.
  intros Hna. unfold _finalize_key_roles. rewrite (proj2 (deref_Ok st self na) Hna). simpl.
  destruct (is_zone (na_in na)); [|by intros [= <-]; split].
  intros Hrun. split; [done|]. intros _. revert Hrun.
  unfold get_dnskeys, get_dnskey_index. rewrite (proj2 (deref_Ok st self na) Hna). simpl.
  set (idx := default (_index_dnskeys self (na_in na)) (dnskey_index (na_st na))).
  set (dnskeys := (λ rd, {| dnskey_owner := self; dnskey_rdata := rd |})
                  <$> dict_keys (_dnskeys idx)).
  assert (∀ k, k ∈ dnskeys
               ↔ dnskey_owner k = self ∧ is_Some (dict_get (dnskey_rdata k) (_dnskeys idx)))
    as Hdnskeys.
  { intros k. unfold dnskeys. rewrite list_elem_of_fmap. setoid_rewrite elem_dict_keys.
    destruct k as [owner rd]. simpl. naive_solver. }
  set (st1 := if dnskey_index (na_st na) is Some _ then st
              else update self (set_dnskey_index (Some idx)) st).
  set (na1 := if dnskey_index (na_st na) is Some _ then na
              else {| na_in := na_in na; na_st := set_dnskey_index (Some idx) (na_st na) |}).
  assert (st1 !! self = Some na1 ∧ dnskey_index (na_st na1) = Some idx
          ∧ zsks (na_st na1) = zsks (na_st na) ∧ ksks (na_st na1) = ksks (na_st na))
    as (Hna1 & Hidx1 & Hzsks1 & Hksks1).
  { unfold st1, na1, idx. destruct (dnskey_index (na_st na)) eqn:Hidx; simpl; [done|].
    by rewrite lookup_update, decide_True, Hna by done. }
  assert (∀ B (f : gmap string NA * list DNSKEYRef → Result B),
            (match dnskey_index (na_st na) with
             | Some idx => Ok (st, idx)
             | None =>
                 Ok (update self (set_dnskey_index (Some (_index_dnskeys self (na_in na)))) st,
                     _index_dnskeys self (na_in na))
             end ≫= λ '(st, idx0),
               Ok (st, (λ rd, {| dnskey_owner := self; dnskey_rdata := rd |})
                       <$> dict_keys (_dnskeys idx0))) ≫= f = f (st1, dnskeys)) as ->.
  { intros B f. unfold st1, dnskeys, idx. by destruct (dnskey_index (na_st na)). }
  rewrite (proj2 (deref_Ok st1 self na1) Hna1). simpl. rewrite Hzsks1, Hksks1.
  intros (zsks0 & Hzsks%subscript_Ok & Hrun)%bind_Ok.
  apply bind_Ok in Hrun as (ksks0 & Hksks%subscript_Ok & [= <-]).
  set (published := difference dnskeys (union zsks0 ksks0)).
  set (revoked := filter _ dnskeys).
  set (active_ksks := difference (difference ksks0 zsks0) revoked).
  exists {| na_in := na_in na1;
            na_st := set_revoked_keys (Some revoked)
                       (set_published_keys (Some published) (na_st na1)) |},
    zsks0, ksks0, published, revoked,
    (if truthy active_ksks then active_ksks else difference ksks0 revoked).
  rewrite lookup_update, decide_True, Hna1 by done. simpl.
  unfold potential_trusted_keys. simpl. rewrite Hzsks1, Hksks1, Hzsks, Hksks, Hidx1. simpl.
  fold active_ksks. split_and!; try done.
  - intros k. unfold published, difference, union.
    rewrite list_elem_of_difference, elem_set_update, Hdnskeys. tauto.
  - intros k. unfold revoked. rewrite list_elem_of_filter, Hdnskeys. tauto.
  - by destruct (truthy active_ksks).
  - intros k. unfold active_ksks, difference.
    destruct (truthy _); rewrite !list_elem_of_difference; tauto.
  - destruct (truthy active_ksks) eqn:Hactive.
    { intros Hnil. by rewrite Hnil in Hactive. }
    intros Hnil k Hk. destruct (decide (k ∈ revoked)) as [|Hnot]; [done|].
    assert (k ∈ difference ksks0 revoked) as Hin by (by apply list_elem_of_difference).
    rewrite Hnil in Hin. by apply elem_of_nil in Hin.
Qed.

(** ** Responsiveness of a server and the levels of an analysis *)

(** X7: [_server_responsive_with_condition] returns True exactly when a
    client is given and some query that passes the request test has a
    response of the server to that client that passes the response test.
    Without a client it returns False whatever the responses are: the
    response is looked up under [client], not under the client of the
    loop. *)
Theorem X7_server_responsive_with_condition self server client request_test response_test :
  (_server_responsive_with_condition self server client request_test response_test = true
   ↔ ∃ c key query query1 by_client response,
       client = Some c ∧ (key, query) ∈ queries self ∧ query1 ∈ queries_of query
       ∧ request_test query1 = true
       ∧ dict_get server (responses query1) = Some by_client
       ∧ dict_get c by_client = Some response
       ∧ response_test response = true)
  ∧ _server_responsive_with_condition self server None request_test response_test = false.
Proof.
  assert (_server_responsive_with_condition self server client request_test response_test
          = true
          ↔ ∃ c key query query1 by_client response,
              client = Some c ∧ (key, query) ∈ queries self ∧ query1 ∈ queries_of query
              ∧ request_test query1 = true
              ∧ dict_get server (responses query1) = Some by_client
              ∧ dict_get c by_client = Some response
              ∧ response_test response = true) as Hiff.
  { unfold _server_responsive_with_condition. rewrite existsb_exists. split.
    - intros ([key query] & Hq%list_elem_of_In & Hex).
      apply existsb_exists in Hex as (query1 & Hq1%list_elem_of_In & Hex).
      apply andb_true_iff in Hex as [Hrequest Hex].
      unfold response_of in Hex.
      destruct client as [c|]; simpl in Hex.
      + rewrite orb_false_r in Hex.
        destruct (dict_get server (responses query1)) as [by_client|] eqn:Hserver;
          [|done]. simpl in Hex.
        destruct (dict_get c by_client) as [response|] eqn:Hclient; [|done].
        by exists c, key, query, query1, by_client, response.
      + destruct (dict_get server (responses query1)); simpl in Hex; [|done].
        apply existsb_exists in Hex as (? & _ & ?). done.
    - intros (c & key & query & query1 & by_client & response
              & -> & Hq & Hq1 & Hrequest & Hserver & Hclient & Hresponse).
      exists (key, query). split; [by apply list_elem_of_In|].
      apply existsb_exists. exists query1. split; [by apply list_elem_of_In|].
      rewrite Hrequest. unfold response_of. simpl. rewrite Hserver. simpl.
      by rewrite Hclient, Hresponse. }
  split; [exact Hiff|].
  apply not_true_iff_false. unfold _server_responsive_with_condition.
  rewrite existsb_exists. intros ([key query] & _ & Hex).
  apply existsb_exists in Hex as (query1 & _ & Hex).
  apply andb_true_iff in Hex as [_ Hex]. unfold response_of in Hex.
  destruct (dict_get server (responses query1)); simpl in Hex; [|done].
  apply existsb_exists in Hex as (? & _ & ?). done.
Qed.

(** X8: up to RDTYPES_DELEGATION the levels are nested: a record type or
    a name that the loops over the queries evaluate at a level are
    evaluated at every lower (less strict) level; the type NS is evaluated
    at every level. *)
Theorem X8_analysis_levels_nested self level1 level2 qname rdtype :
  level1 ≤ level2 → level2 ≤ RDTYPES_DELEGATION →
  (rdtype_excluded (_rdtypes_for_analysis_level self level2) rdtype = false →
   rdtype_excluded (_rdtypes_for_analysis_level self level1) rdtype = false)
  ∧ (qname_excluded self level2 qname = false → qname_excluded self level1 qname = false)
  ∧ rdtype_excluded (_rdtypes_for_analysis_level self level1) rdatatype.NS = false.
Proof.
  intros Hle Hmax.
  assert (∀ level, rdtype_excluded (_rdtypes_for_analysis_level self level) rdtype = false
            ↔ level ≠ RDTYPES_DELEGATION ∧ level ≠ RDTYPES_SECURE_DELEGATION
              ∧ level ≠ RDTYPES_NS_TARGET
              ∨ Some rdtype ∈ [referral_rdtype self; Some rdatatype.NS]
              ∨ level ≠ RDTYPES_DELEGATION
                ∧ Some rdtype ∈ [Some rdatatype.DNSKEY; Some rdatatype.DS; Some rdatatype.DLV]
              ∨ level ≠ RDTYPES_DELEGATION ∧ level ≠ RDTYPES_SECURE_DELEGATION
                ∧ Some rdtype ∈ [Some rdatatype.A; Some rdatatype.AAAA]) as Hexcluded.
  { intros level. unfold _rdtypes_for_analysis_level, rdtype_excluded. cbv zeta.
    repeat case_decide; rewrite ?negb_false_iff, ?set_in_true, ?elem_set_update;
      try rewrite elem_of_nil; naive_solver. }
  split_and!.
  - rewrite !Hexcluded. unfold RDTYPES_DELEGATION, RDTYPES_SECURE_DELEGATION,
      RDTYPES_NS_TARGET in *. intros [?|[?|[[? ?]|(? & ? & ?)]]]; [|by auto| |].
    + left. lia.
    + destruct (decide (level1 = 4)); [lia|]. right. right. left. done.
    + destruct (decide (level1 = 4)); [lia|]. destruct (decide (level1 = 3)); [lia|].
      right. right. right. done.
  - unfold qname_excluded. rewrite !andb_false_iff, !bool_decide_eq_false.
    intros [?|?]; [left; lia|by right].
  - clear. unfold _rdtypes_for_analysis_level, rdtype_excluded. cbv zeta.
    repeat case_decide; rewrite ?negb_false_iff, ?set_in_true, ?elem_set_update;
      try rewrite elem_of_nil; [..|done]; rewrite !elem_of_cons; tauto.
Qed.

(** ** The status of the response components *)

Lemma with_component_status_idemp rcs (o : option NA) :
  with_component_status rcs <$> (with_component_status rcs <$> o)
  = with_component_status rcs <$> o.
Proof. by destruct o. Qed.




(** Once assigned, the mapping stays. *)
Lemma component_status_written_assigned rcs st1 st2 st3 obj :
  component_status_written rcs st1 st2 → component_status_written rcs st2 st3 →
  component_status_written rcs st3 st3 →
  st2 !! obj = with_component_status rcs <$> st1 !! obj →
  st3 !! obj = with_component_status rcs <$> st1 !! obj.
Proof.
  intros _ H23 _ H2. destruct (H23 obj) as [H3|H3];
    rewrite H3, H2, ?with_component_status_idemp; done.
Qed.






(** ** The maps of the negative responses *)

Lemma neg_keys_at_ext get self (S S' : NegativeResponseInfo → Prop) st :
  (∀ n, S n ↔ S' n) → neg_keys_at get self S st → neg_keys_at get self S' st.
Proof.
  intros Hext (na & ns & Hna & Hns & Hkeys). exists na, ns. split_and!; [done..|].
  intros n. rewrite <-Hext. apply Hkeys.
Qed.

Lemma forM_neg_keys {A} get self (covers : A → NegativeResponseInfo → Prop) (l : list A)
    (body : A → gmap string NA → Result (gmap string NA)) :
  (∀ x S s s', x ∈ l → neg_keys_at get self S s → body x s = Ok s' →
               neg_keys_at get self (λ n, S n ∨ covers x n) s') →
  ∀ S s s', neg_keys_at get self S s → forM l body s = Ok s' →
            neg_keys_at get self (λ n, S n ∨ ∃ x, x ∈ l ∧ covers x n) s'.
Proof.
  induction l as [|x l IH]; intros Hbody S s s' Hs; simpl.
  - intros [= <-]. revert Hs. apply neg_keys_at_ext. intros n.
    split; [by left|]. intros [?|(? & ?%elem_of_nil & _)]; done.
  - intros (s1 & Hstep & Hrest)%bind_Ok.
    eapply Hbody in Hstep; [|left|exact Hs].
    eapply IH in Hrest; [| |exact Hstep].
    + revert Hrest. apply neg_keys_at_ext. intros n. split.
      * intros [[?|?]|(y & ? & ?)]; [by left|right; exists x; split; [left|done]|].
        right. exists y. split; [by right|done].
      * intros [?|(y & [->|?]%elem_of_cons & ?)]; [by left; left|by left; right|].
        right. by exists y.
    + intros y S0 s0 s0' Hy. apply Hbody. by right.
Qed.

Section negative_status.
Context `{!Oracles}.

(** The classification of a response gives it an entry in the three maps
    and leaves the other entries. *)
Lemma classify_negative_response_keys get set cls st self query neg sa S st' :
  (∀ v s, get (set v s) = v) →
  neg_keys_at get self S st →
  classify_negative_response get set cls st self query neg sa = Ok st' →
  neg_keys_at get self (λ n, S n ∨ n = neg) st'.
Proof.
  intros Hget (na & ns & Hna & Hns & Hkeys). unfold classify_negative_response.
  rewrite (proj2 (deref_Ok st self na) Hna). cbn [mbind Result_bind]. rewrite Hns.
  cbn [subscript mbind Result_bind]. cbv zeta.
  intros ([[[st2 warnings] errors] statuses] & Hinner & [= <-])%bind_Ok.
  assert (is_Some (st2 !! self)) as [na2 Hna2].
  { match type of Hinner with
    | _populate_negative_response_status ?s _ _ _ _ _ _ _ = _ =>
        assert (is_Some (s !! self)) as Hpresent
          by (rewrite lookup_update, decide_True, Hna by done; simpl; eauto);
        pose proof (populate_negative_response_status_ok (WalkSpec0 := present_walk self)
                      s self query neg cls [] [] sa Hpresent) as Hok
    end.
    rewrite Hinner in Hok. apply Hok. }
  eexists _, _. split; [by rewrite lookup_update, decide_True, Hna2 by done|].
  split; [apply Hget|]. intros n. simpl. rewrite !dict_get_set.
  destruct (Hkeys n) as (Hs & Hw & He).
  destruct (decide (neg = n)) as [->|Hne].
  - split_and!; (split; [by right|by eauto]).
  - rewrite Hs, Hw, He. split_and!; (split; [by left|intros [?|?]; [done|congruence]]).
Qed.

(** X10: after [_populate_nodata_status] the maps [nodata_status],
    [nodata_warnings] and [nodata_errors] of the object have an entry for
    every NODATA response of every query of the level, and for nothing
    else, whatever they held before. *)
Theorem X10_nodata_status_covers_level st self na sa level st' :
  st !! self = Some na →
  _populate_nodata_status st self sa level = Ok st' →
  neg_keys_at nodata_state self
    (λ n, ∃ qname rdtype query,
       ((qname, rdtype), query) ∈ queries (na_in na)
       ∧ evaluated_at (na_in na) level qname rdtype ∧ n ∈ nodata_info query) st'.
Proof.
  intros Hna. unfold _populate_nodata_status.
  rewrite (proj2 (deref_Ok st self na) Hna). cbn [mbind Result_bind]. cbv zeta.
  intros Hrun.
  eapply (forM_neg_keys nodata_state self
            (λ '((qname, rdtype), query) n,
               evaluated_at (na_in na) level qname rdtype ∧ n ∈ nodata_info query))
    with (S := λ _, False) in Hrun.
  - revert Hrun. apply neg_keys_at_ext. intros n. split.
    + intros [?|(x & Hq & Hc)]; [done|]. destruct x as [[qname rdtype] query].
      destruct Hc as [He Hn].
      by exists qname, rdtype, query.
    + intros (qname & rdtype & query & Hq & He & Hn). right.
      by exists ((qname, rdtype), query).
  - clear Hrun. intros [[qname rdtype] query] S s s' _ Hs. unfold evaluated_at.
    destruct (qname_excluded (na_in na) level qname).
    { intros [= <-]. revert Hs. apply neg_keys_at_ext. naive_solver. }
    destruct (rdtype_excluded _ rdtype).
    { intros [= <-]. revert Hs. apply neg_keys_at_ext. naive_solver. }
    intros Hrun.
    eapply (forM_neg_keys nodata_state self (λ neg n, n = neg)) in Hrun; [| |exact Hs].
    + revert Hrun. apply neg_keys_at_ext. naive_solver.
    + intros neg S0 s0 s0' _ Hs0. by apply classify_negative_response_keys.
  - exists {| na_in := na_in na; na_st := set_nodata_state (Some empty_neg_state) (na_st na) |},
      empty_neg_state.
    split; [by rewrite lookup_update, decide_True, Hna by done|]. split; [done|].
    intros n. simpl. split_and!; (split; [by intros [? ?]|done]).
Qed.

Lemma alter_nxdomain_warnings_keys self neg f st st' S :
  neg_keys_at nxdomain_state self S st →
  alter_nxdomain_warnings self neg f st = Ok st' →
  neg_keys_at nxdomain_state self S st'.
Proof.
  intros (na & ns & Hna & Hns & Hkeys). unfold alter_nxdomain_warnings.
  rewrite (proj2 (deref_Ok st self na) Hna). cbn [mbind Result_bind]. rewrite Hns.
  cbn [subscript mbind Result_bind].
  intros (l & Hl%subscript_Ok & [= <-])%bind_Ok.
  eexists _, _. split; [by rewrite lookup_update, decide_True, Hna by done|].
  split; [done|]. intros n. simpl. destruct (Hkeys n) as (Hs & Hw & He).
  split_and!; [done| |done]. rewrite dict_get_set.
  destruct (decide (neg = n)) as [<-|?]; [|done].
  rewrite <-Hw, Hl. split; eauto.
Qed.

Lemma alter_nodata_warnings_keys self neg f st st' S :
  neg_keys_at nxdomain_state self S st →
  alter_nodata_warnings self neg f st = Ok st' →
  neg_keys_at nxdomain_state self S st'.
Proof.
  intros (na & ns & Hna & Hns & Hkeys). unfold alter_nodata_warnings.
  rewrite (proj2 (deref_Ok st self na) Hna). cbn [mbind Result_bind].
  intros (ns2 & _ & Hrun)%bind_Ok.
  apply bind_Ok in Hrun as (l & _ & [= <-]).
  eexists _, ns. by rewrite lookup_update, decide_True, Hna by done.
Qed.

Lemma alter_rrset_warnings_keys self rrset_info f st st' S :
  neg_keys_at nxdomain_state self S st →
  alter_rrset_warnings self rrset_info f st = Ok st' →
  neg_keys_at nxdomain_state self S st'.
Proof.
  intros (na & ns & Hna & Hns & Hkeys). unfold alter_rrset_warnings, put_rrset_state.
  intros (rs & _ & Hrun)%bind_Ok.
  apply bind_Ok in Hrun as (l & _ & [= <-]).
  eexists _, ns. by rewrite lookup_update, decide_True, Hna by done.
Qed.

(** The check for inconsistencies adds and removes no entry. *)
Lemma inconsistent_nxdomain_keys self rdtype neg required st st' S :
  neg_keys_at nxdomain_state self S st →
  inconsistent_nxdomain self rdtype neg required st = Ok st' →
  neg_keys_at nxdomain_state self S st'.
Proof.
  intros Hst. unfold inconsistent_nxdomain.
  intros (na & _ & Hrun)%bind_Ok.
  apply bind_Ok in Hrun as (ns & _ & Hrun).
  destruct (_ && _); [|by simplify_eq].
  revert Hrun. apply (forM_invariant (neg_keys_at nxdomain_state self S)); [|done].
  clear. intros [[qname2 rdtype2] query2] s s' _ Hs. unfold inconsistent_nxdomain_query.
  destruct (set_in rdtype2 _); [by intros [= <-]|].
  destruct (rdtype_excluded required rdtype2); [by intros [= <-]|]. cbv zeta.
  intros (s1 & Hanswers & Hnodata)%bind_Ok.
  assert (neg_keys_at nxdomain_state self S s1) as Hs1.
  { revert Hanswers. apply (forM_invariant (neg_keys_at nxdomain_state self S)); [|done].
    intros rrset_info s0 s0' _ Hs0. destruct (truthy _); [|by intros [= <-]].
    intros (s2 & H1 & H2)%bind_Ok.
    eauto using alter_nxdomain_warnings_keys, alter_rrset_warnings_keys. }
  revert Hnodata. apply (forM_invariant (neg_keys_at nxdomain_state self S)); [|done].
  intros neg2 s0 s0' _ Hs0. destruct (truthy _); [|by intros [= <-]].
  intros (s2 & H1 & H2)%bind_Ok.
  eauto using alter_nxdomain_warnings_keys, alter_nodata_warnings_keys.
Qed.

(** X11: after [_populate_nxdomain_status] the maps [nxdomain_status],
    [nxdomain_warnings] and [nxdomain_errors] of the object have an entry
    for every NXDOMAIN response of every query of the level, and for
    nothing else, whatever they held before; the check for inconsistent
    answers adds and removes no entry. *)
Theorem X11_nxdomain_status_covers_level st self na sa level st' :
  st !! self = Some na →
  _populate_nxdomain_status st self sa level = Ok st' →
  neg_keys_at nxdomain_state self
    (λ n, ∃ qname rdtype query,
       ((qname, rdtype), query) ∈ queries (na_in na)
       ∧ evaluated_at (na_in na) level qname rdtype ∧ n ∈ nxdomain_info query) st'.
Proof.
  intros Hna. unfold _populate_nxdomain_status.
  rewrite (proj2 (deref_Ok st self na) Hna). cbn [mbind Result_bind]. cbv zeta.
  intros Hrun.
  eapply (forM_neg_keys nxdomain_state self
            (λ '((qname, rdtype), query) n,
               evaluated_at (na_in na) level qname rdtype ∧ n ∈ nxdomain_info query))
    with (S := λ _, False) in Hrun.
  - revert Hrun. apply neg_keys_at_ext. intros n. split.
    + intros [?|(x & Hq & Hc)]; [done|]. destruct x as [[qname rdtype] query].
      destruct Hc as [He Hn].
      by exists qname, rdtype, query.
    + intros (qname & rdtype & query & Hq & He & Hn). right.
      by exists ((qname, rdtype), query).
  - clear Hrun. intros [[qname rdtype] query] S s s' _ Hs. unfold evaluated_at.
    destruct (qname_excluded (na_in na) level qname).
    { intros [= <-]. revert Hs. apply neg_keys_at_ext. naive_solver. }
    destruct (rdtype_excluded _ rdtype).
    { intros [= <-]. revert Hs. apply neg_keys_at_ext. naive_solver. }
    intros Hrun.
    eapply (forM_neg_keys nxdomain_state self (λ neg n, n = neg)) in Hrun; [| |exact Hs].
    + revert Hrun. apply neg_keys_at_ext. naive_solver.
    + intros neg S0 s0 s0' _ Hs0 (s1 & Hclassify & Hcheck)%bind_Ok.
      eapply inconsistent_nxdomain_keys; [|exact Hcheck].
      eapply classify_negative_response_keys; [|exact Hs0|exact Hclassify]. done.
  - exists {| na_in := na_in na; na_st := set_nxdomain_state (Some empty_neg_state) (na_st na) |},
      empty_neg_state.
    split; [by rewrite lookup_update, decide_True, Hna by done|]. split; [done|].
    intros n. simpl. split_and!; (split; [by intros [? ?]|done]).
Qed.

End negative_status.

(** ** The status of the delegation *)

Lemma lists_appended_refl m : lists_appended m m.
Proof. intros r. destruct (dict_get r m) as [l|] eqn:Hl; [|done]. exists []. by rewrite app_nil_r. Qed.

Lemma lists_appended_trans m1 m2 m3 :
  lists_appended m1 m2 → lists_appended m2 m3 → lists_appended m1 m3.
Proof.
  intros H12 H23 r. specialize (H12 r). specialize (H23 r).
  destruct (dict_get r m1) as [l|].
  - destruct H12 as [l1 H12]. rewrite H12 in H23. destruct H23 as [l2 H23].
    exists (l1 ++ l2). by rewrite app_assoc.
  - by rewrite H12 in H23.
Qed.

Lemma lists_appended_set m rdtype l err :
  dict_get rdtype m = Some l → lists_appended m (dict_set rdtype (l ++ [err]) m).
Proof.
  intros Hl r. rewrite dict_get_set. case_decide as Hr.
  - subst r. rewrite Hl. by exists [err].
  - destruct (dict_get r m) as [l0|]; [|done]. exists []. by rewrite app_nil_r.
Qed.

Lemma lists_appended_is_Some m m' r :
  lists_appended m m' → is_Some (dict_get r m) → is_Some (dict_get r m').
Proof. intros Hm [l Hl]. specialize (Hm r). rewrite Hl in Hm. destruct Hm as [l' ->]. eauto. Qed.

Lemma delegation_extends_refl d : delegation_extends d d.
Proof. destruct d; simpl; [|done]. split_and!; auto using lists_appended_refl. Qed.

Lemma delegation_extends_trans d1 d2 d3 :
  delegation_extends d1 d2 → delegation_extends d2 d3 → delegation_extends d1 d3.
Proof.
  destruct d1, d2, d3; simpl; try done.
  intros (-> & -> & -> & ? & ?) (-> & -> & -> & ? & ?).
  split_and!; eauto using lists_appended_trans.
Qed.

Lemma delegation_extends_definite d d' rdtype :
  delegation_extends (Some d) (Some d') → delegation_definite d rdtype →
  delegation_definite d' rdtype.
Proof.
  unfold delegation_definite. intros (Hs & _ & _ & Hw & He) (? & ? & ?). rewrite Hs.
  split_and!; eauto using lists_appended_is_Some.
Qed.

Lemma append_delegation_warning_extends cond rdtype err d d' :
  (if cond : bool
   then d ← subscript "delegation_warnings" d;
        Some <$> append_delegation_warning rdtype err d
   else Ok d) = Ok d' →
  delegation_extends d d'.
Proof.
  destruct cond; [|intros [= <-]; apply delegation_extends_refl].
  intros (d0 & ->%subscript_Ok & (d1 & Happend & ->)%fmap_Ok)%bind_Ok.
  unfold append_delegation_warning in Happend.
  apply bind_Ok in Happend as (l & Hl%subscript_Ok & [= <-]). simpl.
  split_and!; auto using lists_appended_refl, lists_appended_set.
Qed.

Lemma append_delegation_error_extends cond rdtype err d d' :
  (if cond : bool
   then d ← subscript "delegation_errors" d;
        Some <$> append_delegation_error rdtype err d
   else Ok d) = Ok d' →
  delegation_extends d d'.
Proof.
  destruct cond; [|intros [= <-]; apply delegation_extends_refl].
  intros (d0 & ->%subscript_Ok & (d1 & Happend & ->)%fmap_Ok)%bind_Ok.
  unfold append_delegation_error in Happend.
  apply bind_Ok in Happend as (l & Hl%subscript_Ok & [= <-]). simpl.
  split_and!; auto using lists_appended_refl, lists_appended_set.
Qed.

Lemma deleg_state_of_update st self na d :
  st !! self = Some na → deleg_state_of (update self (set_deleg_state d) st) self = d.
Proof.
  intros Hna. unfold deleg_state_of. by rewrite lookup_update, decide_True, Hna by done.
Qed.

Section delegation.
Context `{!Oracles}.

(** [_populate_ns_status] changes no status of the delegation. *)
Lemma populate_ns_status_extends st self w4 w6 st' :
  _populate_ns_status st self w4 w6 = Ok st' →
  delegation_extends (deleg_state_of st self) (deleg_state_of st' self).
Proof.
  unfold _populate_ns_status. intros (na & Hna%deref_Ok & Hrun)%bind_Ok. revert Hrun. cbv zeta.
  destruct (negb (is_zone (na_in na))); [intros [= <-]; apply delegation_extends_refl|].
  destruct (parent (na_in na)); [|intros [= <-]; apply delegation_extends_refl].
  case_decide; [intros [= <-]; apply delegation_extends_refl|].
  intros (ns_query & _ & Hrun)%bind_Ok.
  apply bind_Ok in Hrun as (l & _ & Hrun).
  apply bind_Ok in Hrun as (d1 & H1%append_delegation_warning_extends & Hrun).
  apply bind_Ok in Hrun as (d2 & H2%append_delegation_warning_extends & Hrun).
  apply bind_Ok in Hrun as (d3 & H3%append_delegation_error_extends & Hrun).
  apply bind_Ok in Hrun as (d4 & H4 & Hrun).
  apply bind_Ok in Hrun as (d5 & H5%append_delegation_warning_extends & Hrun).
  apply bind_Ok in Hrun as (d6 & H6%append_delegation_error_extends & Hrun).
  apply bind_Ok in Hrun as (d7 & H7%append_delegation_warning_extends & Hrun).
  apply bind_Ok in Hrun as (d8 & H8%append_delegation_warning_extends & [= <-]).
  assert (delegation_extends d3 d4) as H4'.
  { revert H4. apply (forM_invariant (delegation_extends d3)); [|apply delegation_extends_refl].
    intros name s1 s2 _ Hs1 Hstep. eapply delegation_extends_trans; [exact Hs1|].
    destruct (dict_get name _) as [[glue_addrs auth_addrs]|];
      [|simplify_eq; apply delegation_extends_refl].
    by apply (append_delegation_warning_extends true) in Hstep. }
  rewrite (deleg_state_of_update _ _ _ _ Hna). unfold deleg_state_of. rewrite Hna. simpl.
  eauto 10 using delegation_extends_trans.
Qed.

(** [_populate_server_status] changes no status of the delegation. *)
Lemma populate_server_status_extends st self st' :
  _populate_server_status st self = Ok st' →
  delegation_extends (deleg_state_of st self) (deleg_state_of st' self).
Proof.
  unfold _populate_server_status. intros (na & Hna%deref_Ok & Hrun)%bind_Ok. revert Hrun.
  cbv zeta.
  destruct (negb (is_zone (na_in na))); [intros [= <-]; apply delegation_extends_refl|].
  destruct (parent (na_in na)); [|intros [= <-]; apply delegation_extends_refl].
  intros (d1 & H1%append_delegation_error_extends & Hrun)%bind_Ok.
  apply bind_Ok in Hrun as (d2 & H2%append_delegation_error_extends & Hrun).
  apply bind_Ok in Hrun as (d3 & H3%append_delegation_error_extends & Hrun).
  apply bind_Ok in Hrun as (d4 & H4 & [= <-]).
  assert (delegation_extends d3 d4) as H4'.
  { case_decide; [by apply append_delegation_error_extends in H4|].
    simplify_eq. apply delegation_extends_refl. }
  rewrite (deleg_state_of_update _ _ _ _ Hna). unfold deleg_state_of. rewrite Hna. simpl.
  eauto 10 using delegation_extends_trans.
Qed.

(** What [_populate_ds_status] leaves for a zone with a parent: a status
    for the record type, and the entries of the other type as they were. *)
Lemma populate_ds_status_definite st self na p rdtype sa sda st' :
  st !! self = Some na → parent (na_in na) = Some p → is_zone (na_in na) = true →
  _populate_ds_status st self rdtype sa sda = Ok st' →
  ∃ d d', deleg_state (na_st na) = Some d ∧ deleg_state_of st' self = Some d'
    ∧ delegation_definite d' rdtype
    ∧ ∀ r, r ≠ rdtype →
        dict_get r (delegation_status d') = dict_get r (delegation_status d)
        ∧ dict_get r (delegation_warnings d') = dict_get r (delegation_warnings d)
        ∧ dict_get r (delegation_errors d') = dict_get r (delegation_errors d).
Proof.
  intros Hna Hp Hzone. unfold _populate_ds_status.
  destruct (negb (set_in rdtype _)); [done|].
  rewrite (proj2 (deref_Ok st self na) Hna). cbn [mbind Result_bind]. rewrite Hp.
  intros (name & _ & Hrun)%bind_Ok.
  apply bind_Ok in Hrun as (d & Hd%subscript_Ok & Hrun). revert Hrun. cbv zeta.
  destruct (dict_get (name, rdtype) (queries (na_in na))) as [query|];
    [|by rewrite Hzone].
  intros (s & _ & Hrun)%bind_Ok.
  apply bind_Ok in Hrun as (status & _ & Hrun).
  destruct (ds_status_nxdomain _ _ _ _ _) as [errors final]. injection Hrun as <-.
  exists d. eexists. split; [done|]. split; [by apply (deleg_state_of_update _ _ _ _ Hna)|].
  split.
  - split_and!; simpl; rewrite ?dict_get_set_eq; eauto.
  - intros r Hr. simpl. by rewrite !dict_get_set_ne.
Qed.

Lemma populate_ds_status_no_parent st self na rdtype sa sda st' :
  st !! self = Some na → parent (na_in na) = None →
  _populate_ds_status st self rdtype sa sda = Ok st' → st' = st.
Proof.
  intros Hna Hp. unfold _populate_ds_status. destruct (negb _); [done|].
  rewrite (proj2 (deref_Ok st self na) Hna). cbn [mbind Result_bind]. rewrite Hp.
  by intros [= <-].
Qed.

Lemma input_walk self i : WalkSpec (λ s, na_in <$> s !! self = Some i) (λ _, True).
Proof.
  split; try done. intros obj f s _ Hs. rewrite lookup_update.
  case_decide; [|done]. by destruct (s !! self).
Qed.

Lemma populate_ds_status_input st self i rdtype sa sda st' :
  rdtype = rdatatype.DS ∨ rdtype = rdatatype.DLV →
  na_in <$> st !! self = Some i →
  _populate_ds_status st self rdtype sa sda = Ok st' →
  na_in <$> st' !! self = Some i.
Proof.
  intros Hrd Hst. apply (run_ok_Ok (I := λ s, na_in <$> s !! self = Some i)).
  by apply (populate_ds_status_ok (WalkSpec0 := input_walk self i)).
Qed.

(** The maps [_populate_delegation_status] leaves: empty for an object
    without a parent; for a zone with a parent a status that is not None
    for DS, with the lists of warnings and errors of DS, and the same for
    DLV when the zone has a DLV parent. *)
Lemma delegation_status_definite st self na sa sda st' :
  st !! self = Some na →
  _populate_delegation_status st self sa sda = Ok st' →
  ∃ d, deleg_state_of st' self = Some d
    ∧ (parent (na_in na) = None →
       d = {| ds_status_by_ds := []; ds_status_by_dnskey := [];
              delegation_warnings := []; delegation_errors := [];
              delegation_status := [] |})
    ∧ (is_zone (na_in na) = true → is_Some (parent (na_in na)) →
       delegation_definite d rdatatype.DS
       ∧ (is_Some (dlv_parent (na_in na)) → delegation_definite d rdatatype.DLV)
       ∧ (dlv_parent (na_in na) = None →
          dict_get rdatatype.DLV (delegation_status d) = None)).
Proof.
  intros Hna. unfold _populate_delegation_status.
  rewrite (proj2 (deref_Ok st self na) Hna). cbn [mbind Result_bind]. cbv zeta.
  set (d0 := {| ds_status_by_ds := []; ds_status_by_dnskey := [];
                delegation_warnings := []; delegation_errors := [];
                delegation_status := [] |}).
  set (na0 := {| na_in := na_in na; na_st := set_deleg_state (Some d0) (na_st na) |}).
  assert (update self (set_deleg_state (Some d0)) st !! self = Some na0) as Hna0
    by (by rewrite lookup_update, decide_True, Hna by done).
  intros (st1 & Hds & Hrun)%bind_Ok.
  apply bind_Ok in Hrun as (st2 & Hdlv & Hrun).
  assert (delegation_extends (deleg_state_of st2 self) (deleg_state_of st' self)) as Hext.
  { apply bind_Ok in Hrun as (st3 & Hns%populate_ns_status_extends & Hserver).
    apply populate_server_status_extends in Hserver.
    by eapply delegation_extends_trans. }
  destruct (parent (na_in na)) as [p|] eqn:Hp.
  - destruct (is_zone (na_in na)) eqn:Hzone.
    + destruct (populate_ds_status_definite _ _ na0 p _ _ _ _ Hna0 Hp Hzone Hds)
        as (d & d1 & [= <-] & Hd1 & Hdefinite & Hother).
      assert (st1 !! self = Some (default na0 (st1 !! self))) as Hna1.
      { unfold deleg_state_of in Hd1. by destruct (st1 !! self). }
      assert (na_in (default na0 (st1 !! self)) = na_in na) as Hin1.
      { eapply (populate_ds_status_input _ self (na_in na)) in Hds;
          [|by left|by rewrite Hna0].
        rewrite Hna1 in Hds. by injection Hds. }
      destruct (dlv_parent (na_in na)) as [dlv|] eqn:Hdlv_parent.
      * destruct (populate_ds_status_definite _ _ _ p _ _ _ _ Hna1
                    ltac:(by rewrite Hin1) ltac:(by rewrite Hin1) Hdlv)
          as (d & d2 & Hd & Hd2 & Hdefinite2 & Hother2).
        assert (d = d1) as ->.
        { unfold deleg_state_of in Hd1. rewrite Hna1 in Hd1. simpl in Hd1. congruence. }
        rewrite Hd2 in Hext. destruct (deleg_state_of st' self) as [d3|] eqn:Hd3; [|done].
        exists d3. split; [done|]. split; [done|]. intros _ _.
        split_and!; [|by intros _; eapply delegation_extends_definite|done].
        eapply delegation_extends_definite; [exact Hext|].
        destruct Hdefinite as ((status & Hs) & Hw & He).
        destruct (Hother2 rdatatype.DS) as (Hs' & Hw' & He'); [done|].
        split_and!; [exists status|..]; congruence.
      * injection Hdlv as <-. rewrite Hd1 in Hext.
        destruct (deleg_state_of st' self) as [d3|] eqn:Hd3; [|done].
        exists d3. split; [done|]. split; [done|]. intros _ _.
        split_and!; [by eapply delegation_extends_definite|by intros [? ?]|].
        intros _. destruct Hext as (-> & _ & _).
        destruct (Hother rdatatype.DLV) as (-> & _ & _); done.
    + assert (∃ d, deleg_state_of st' self = Some d) as [d Hd].
      { assert (is_Some (deleg_state_of st2 self)) as [d2 Hd2]; [|rewrite Hd2 in Hext;
          destruct (deleg_state_of st' self); [eauto|done]].
        assert (∀ s s' rdtype, is_Some (deleg_state_of s self) →
                  _populate_ds_status s self rdtype sa sda = Ok s' →
                  is_Some (deleg_state_of s' self)) as Hkeep.
        { intros s s' rdtype [ds Hs]. unfold _populate_ds_status.
          destruct (negb _); [done|].
          intros (nas & Hnas%deref_Ok & Hr)%bind_Ok.
          destruct (parent (na_in nas)); [|by simplify_eq].
          apply bind_Ok in Hr as (name & _ & Hr).
          apply bind_Ok in Hr as (d & _ & Hr). revert Hr. cbv zeta.
          destruct (dict_get _ _).
          - intros (ds_state & _ & Hr)%bind_Ok.
            apply bind_Ok in Hr as (status & _ & Hr).
            destruct (ds_status_nxdomain _ _ _ _ _). injection Hr as <-.
            by rewrite (deleg_state_of_update _ _ _ _ Hnas).
          - destruct (is_zone (na_in nas)); [done|]. intros [= <-].
            by rewrite (deleg_state_of_update _ _ _ _ Hnas). }
        assert (is_Some (deleg_state_of st1 self)) as Hd1.
        { eapply Hkeep; [|exact Hds]. by rewrite (deleg_state_of_update _ _ _ _ Hna). }
        destruct (dlv_parent (na_in na)); [by eapply Hkeep|by simplify_eq]. }
      exists d. split; [done|]. split; [done|]. done.
  - assert (st1 = update self (set_deleg_state (Some d0)) st) as ->
      by (by eapply (populate_ds_status_no_parent _ _ na0)).
    assert (st2 = update self (set_deleg_state (Some d0)) st) as ->.
    { destruct (dlv_parent (na_in na)); [|by simplify_eq].
      by eapply (populate_ds_status_no_parent _ _ na0). }
    rewrite (deleg_state_of_update _ _ _ _ Hna) in Hext.
    destruct (deleg_state_of st' self) as [d3|] eqn:Hd3; [|done].
    exists d3. split; [done|]. split; [|by intros _ [? ?]]. intros _.
    destruct Hext as (Hstatus & _ & _). clear Hds Hdlv.
    apply bind_Ok in Hrun as (st3 & Hns & Hserver).
    (* without a parent the two last steps return at once *)
    assert (st3 = update self (set_deleg_state (Some d0)) st) as ->.
    { revert Hns. unfold _populate_ns_status.
      rewrite (proj2 (deref_Ok _ self na0) Hna0). cbn [mbind Result_bind]. cbv zeta.
      change (na_in na0) with (na_in na). rewrite Hp.
      destruct (negb _); by intros [= <-]. }
    assert (st' = update self (set_deleg_state (Some d0)) st) as ->.
    { revert Hserver. unfold _populate_server_status.
      rewrite (proj2 (deref_Ok _ self na0) Hna0). cbn [mbind Result_bind]. cbv zeta.
      change (na_in na0) with (na_in na). rewrite Hp.
      destruct (negb _); by intros [= <-]. }
    rewrite (deleg_state_of_update _ _ _ _ Hna) in Hd3. by injection Hd3 as <-.
Qed.

(** X12: [_populate_delegation_status] starts from empty maps.  For an
    object without a parent they stay empty.  For a zone with a parent a
    run that returns leaves a status that is not None for DS, with the
    lists of warnings and errors of DS, and the same for DLV when the zone
    has a DLV parent.  [_populate_ns_status] and [_populate_server_status],
    which run on the store the calls of [_populate_ds_status] leave, change
    no status of the delegation or of a DS record, and change the lists of
    warnings and errors only by appending errors to them. *)
Theorem X12_delegation_status_definite st self na sa sda st' :
  st !! self = Some na →
  _populate_delegation_status st self sa sda = Ok st' →
  ∃ d st_ds,
    deleg_state_of st' self = Some d
    ∧ (st ← _populate_ds_status
              (update self (set_deleg_state
                 (Some {| ds_status_by_ds := []; ds_status_by_dnskey := [];
                          delegation_warnings := []; delegation_errors := [];
                          delegation_status := [] |})) st)
              self rdatatype.DS sa sda;
       if dlv_parent (na_in na) is Some _
       then _populate_ds_status st self rdatatype.DLV sa sda else Ok st) = Ok st_ds
    ∧ (st ← _populate_ns_status st_ds self true false; _populate_server_status st self)
      = Ok st'
    ∧ delegation_extends (deleg_state_of st_ds self) (Some d)
    ∧ (parent (na_in na) = None →
       d = {| ds_status_by_ds := []; ds_status_by_dnskey := [];
              delegation_warnings := []; delegation_errors := [];
              delegation_status := [] |})
    ∧ (is_zone (na_in na) = true → is_Some (parent (na_in na)) →
       delegation_definite d rdatatype.DS
       ∧ (is_Some (dlv_parent (na_in na)) → delegation_definite d rdatatype.DLV)
       ∧ (dlv_parent (na_in na) = None →
          dict_get rdatatype.DLV (delegation_status d) = None)).
Proof.
  intros Hna Hrun.
  destruct (delegation_status_definite _ _ _ _ _ _ Hna Hrun) as (d & Hd & Hempty & Hzone).
  unfold _populate_delegation_status in Hrun.
  rewrite (proj2 (deref_Ok st self na) Hna) in Hrun. cbn [mbind Result_bind] in Hrun.
  cbv zeta in Hrun.
  apply bind_Ok in Hrun as (st1 & Hds & Hrun).
  apply bind_Ok in Hrun as (st2 & Hdlv & Hrun).
  exists d, st2. split; [done|]. split; [by rewrite Hds|]. split; [done|].
  split; [|done]. rewrite <-Hd.
  apply bind_Ok in Hrun as (st3 & Hns%populate_ns_status_extends & Hserver).
  apply populate_server_status_extends in Hserver.
  by eapply delegation_extends_trans.
Qed.

End delegation.

(** ** The errors of the DNSKEYs *)

Lemma dnskey_errors_added_refl justified idx : dnskey_errors_added justified idx idx.
Proof.
  split; [done|]. intros rd. destruct (dict_get rd (_dnskeys idx)); [|done].
  split_and!; [done..|]. exists []. split; [by rewrite app_nil_r|]. by intros ? ?%elem_of_nil.
Qed.

Lemma dnskey_errors_added_trans justified idx1 idx2 idx3 :
  dnskey_errors_added justified idx1 idx2 → dnskey_errors_added justified idx2 idx3 →
  dnskey_errors_added justified idx1 idx3.
Proof.
  intros [Hs12 H12] [Hs23 H23]. split; [congruence|]. intros rd.
  specialize (H12 rd). specialize (H23 rd).
  destruct (dict_get rd (_dnskeys idx1)), (dict_get rd (_dnskeys idx2)),
    (dict_get rd (_dnskeys idx3)); try done.
  destruct H12 as (? & ? & ? & ? & new1 & E1 & Hnew1).
  destruct H23 as (? & ? & ? & ? & new2 & E2 & Hnew2).
  split_and!; [congruence..|]. exists (new1 ++ new2).
  split; [by rewrite E2, E1, (assoc_L (++))|].
  intros e [?|?]%elem_of_app; auto.
Qed.

(** An error appended to the errors of one key. *)
Lemma alter_dnskey_added (justified : DNSKEYRdata → Errors.ErrKind → Prop) rd
    (f : DNSKEYMeta → DNSKEYMeta) idx :
  (∀ meta, dnskey_meta_name (f meta) = dnskey_meta_name meta
           ∧ dnskey_meta_ttl (f meta) = dnskey_meta_ttl meta
           ∧ dnskey_meta_rrset_info (f meta) = dnskey_meta_rrset_info meta
           ∧ dnskey_meta_servers_clients (f meta) = dnskey_meta_servers_clients meta
           ∧ ∃ e, dnskey_meta_errors (f meta) = dnskey_meta_errors meta ++ [e]
                  ∧ justified rd (err_kind e)) →
  dnskey_errors_added justified idx (alter_dnskey rd f idx).
Proof.
  intros Hf. split; [done|]. intros rd'. unfold alter_dnskey. simpl.
  destruct (dict_get rd (_dnskeys idx)) as [meta|] eqn:Hrd.
  - rewrite dict_get_set. destruct (decide (rd = rd')) as [<-|?].
    + rewrite Hrd. destruct (Hf meta) as (? & ? & ? & ? & e & He & Hj).
      split_and!; [done..|]. exists [e]. split; [done|].
      by intros ? ->%list_elem_of_singleton.
    + destruct (dict_get rd' (_dnskeys idx)); [|done].
      split_and!; [done..|]. exists []. split; [by rewrite app_nil_r|].
      by intros ? ?%elem_of_nil.
  - destruct (dict_get rd' (_dnskeys idx)); [|done].
    split_and!; [done..|]. exists []. split; [by rewrite app_nil_r|].
    by intros ? ?%elem_of_nil.
Qed.

Lemma append_dnskey_error_added (justified : DNSKEYRdata → Errors.ErrKind → Prop) rd kind b
    idx :
  justified rd kind →
  dnskey_errors_added justified idx (alter_dnskey rd (append_dnskey_error kind b) idx).
Proof.
  intros Hj. apply alter_dnskey_added. intros meta. split_and!; [done..|].
  eexists. split; [done|]. by destruct b.
Qed.

Lemma foldl_add_server_client_kind (ws : list (string * string * Response)) err :
  err_kind (foldl (λ err '(server, client, response),
                     add_server_client server client (Some response) err) err ws)
  = err_kind err.
Proof.
  revert err. induction ws as [|[[s c] r] ws IH]; intros err; simpl; [done|].
  by rewrite IH.
Qed.

Lemma elem_trusted_keys_rdata name (trusted_keys : list (string * DNSKEYRdata)) rd :
  rd ∈ set_update [] (omap (λ '(z, k), if decide (z = name) then Some k else None)
                           trusted_keys)
  ↔ (name, rd) ∈ trusted_keys.
Proof.
  rewrite elem_set_update, elem_of_nil, list_elem_of_omap. split.
  - intros [[]|([z k] & Hin & Hk)]. case_decide; [|done]. by simplify_eq.
  - intros Hin. right. exists (name, rd). split; [done|]. by rewrite decide_True.
Qed.

(** One step of the loop over the keys: the errors it adds, and the two
    sets of trust anchors. *)
Lemma dnskey_status_for_dnskey_added (justified : DNSKEYRdata → Errors.ErrKind → Prop)
    st na self trusted_keys_rdata servers_responsive rd idx existing not_signing
    idx' existing' not_signing' :
  let ksks0 := default [] (ksks (na_st na)) in
  let revoked0 := default [] (revoked_keys (na_st na)) in
  (dnskey_ref self rd ∈ revoked0 → dnskey_ref self rd ∉ ksks0 →
   justified rd Errors.RevokedNotSigning) →
  (is_zone (na_in na) = false → ∀ zone name, justified rd (Errors.DNSKEYNotAtZoneApex zone name)) →
  justified rd Errors.DNSKEYMissingFromServers →
  dnskey_status_for_dnskey st na trusted_keys_rdata servers_responsive (dnskey_ref self rd)
    (idx, existing, not_signing) = Ok (idx', existing', not_signing') →
  dnskey_errors_added justified idx idx'
  ∧ (∀ k, k ∈ existing' ↔ k ∈ existing ∨ (k = dnskey_ref self rd ∧ rd ∈ trusted_keys_rdata))
  ∧ (∀ k, k ∈ not_signing'
          ↔ k ∈ not_signing
            ∨ (k = dnskey_ref self rd ∧ rd ∈ trusted_keys_rdata ∧ k ∉ ksks0)).
Proof.
  intros ksks0 revoked0 Hrevoked Hapex Hmissing. unfold dnskey_status_for_dnskey.
  cbn [dnskey_rdata dnskey_ref]. cbv zeta.
  intros ([ex ns] & Htrusted & Hrun)%bind_Ok.
  apply bind_Ok in Hrun as (revoked & Hr%subscript_Ok & Hrun).
  apply bind_Ok in Hrun as (idx1 & H1 & Hrun).
  apply bind_Ok in Hrun as (idx2 & H2 & Hrun).
  apply bind_Ok in Hrun as (meta & _ & [= <- <- <-]).
  assert (dnskey_errors_added justified idx idx1) as Hadd1.
  { destruct (set_in _ revoked) eqn:Hin; [|simplify_eq; apply dnskey_errors_added_refl].
    apply bind_Ok in H1 as (ksks & Hk%subscript_Ok & H1).
    destruct (set_in _ ksks) eqn:Hin'; simplify_eq; [apply dnskey_errors_added_refl|].
    apply append_dnskey_error_added, Hrevoked.
    - unfold revoked0. rewrite Hr. simpl. by apply set_in_true.
    - unfold ksks0. rewrite Hk. simpl. by apply set_in_false. }
  assert (dnskey_errors_added justified idx1 idx2) as Hadd2.
  { destruct (negb (is_zone (na_in na))) eqn:Hzone;
      [|simplify_eq; apply dnskey_errors_added_refl].
    apply bind_Ok in H2 as (z & _ & H2). apply bind_Ok in H2 as (zna & _ & [= <-]).
    apply append_dnskey_error_added, Hapex. by apply negb_true_iff. }
  split_and!.
  - eapply dnskey_errors_added_trans; [exact Hadd1|].
    eapply dnskey_errors_added_trans; [exact Hadd2|].
    destruct (truthy _); [|apply dnskey_errors_added_refl].
    apply alter_dnskey_added. intros meta0. split_and!; [done..|].
    eexists. split; [done|]. by rewrite foldl_add_server_client_kind.
  - intros k. destruct (set_in rd trusted_keys_rdata) eqn:Hin.
    + apply bind_Ok in Htrusted as (ksks & _ & [= <- <-]).
      apply set_in_true in Hin. rewrite elem_set_add. naive_solver.
    + apply set_in_false in Hin. simplify_eq. naive_solver.
  - intros k. destruct (set_in rd trusted_keys_rdata) eqn:Hin.
    + apply bind_Ok in Htrusted as (ksks & Hk%subscript_Ok & [= <- <-]).
      apply set_in_true in Hin. unfold ksks0. rewrite Hk. simpl.
      destruct (set_in (dnskey_ref self rd) ksks) eqn:Hin'.
      * apply set_in_true in Hin'. naive_solver.
      * apply set_in_false in Hin'. rewrite elem_set_add. naive_solver.
    + apply set_in_false in Hin. simplify_eq. naive_solver.
Qed.

(** X13: [_populate_dnskey_status] does nothing without a DNSKEY query
    for the name.  Otherwise it keeps the key sets and the entries of the
    DNSKEY index and only appends errors to the keys, each of one of four
    kinds: RevokedNotSigning only for a revoked key that is no KSK;
    DNSKEYNotAtZoneApex only when the object is not a zone;
    DNSKEYMissingFromServers; and TrustAnchorNotSigning only for a trust
    anchor of the name that is no KSK, and only when no trust anchor among
    the keys is a KSK. *)
Theorem X13_dnskey_status_errors st self na trusted_keys st' :
  st !! self = Some na →
  _populate_dnskey_status st self trusted_keys = Ok st' →
  (dict_get (na_name (na_in na), rdatatype.DNSKEY) (queries (na_in na)) = None → st' = st)
  ∧ (is_Some (dict_get (na_name (na_in na), rdatatype.DNSKEY) (queries (na_in na))) →
     let idx := default (_index_dnskeys self (na_in na)) (dnskey_index (na_st na)) in
     ∃ na' idx',
       st' !! self = Some na' ∧ dnskey_index (na_st na') = Some idx'
       ∧ dnskey_errors_added (dnskey_error_justified na self trusted_keys idx) idx idx').
Proof.
  intros Hna. unfold _populate_dnskey_status.
  rewrite (proj2 (deref_Ok st self na) Hna). cbn [mbind Result_bind].
  destruct (dict_get (na_name (na_in na), rdatatype.DNSKEY) (queries (na_in na)))
    as [dnskey_query|]; [|by intros [= <-]; split; [|intros [? ?]]].
  intros Hrun. split; [done|]. intros _. revert Hrun. cbv zeta.
  set (idx := default (_index_dnskeys self (na_in na)) (dnskey_index (na_st na))).
  set (trusted_keys_rdata := set_update [] _).
  intros (servers_responsive & _ & Hrun)%bind_Ok.
  apply bind_Ok in Hrun as ([st1 dnskeys] & Hget & Hrun).
  assert (dnskeys = dnskey_ref self <$> dict_keys (_dnskeys idx)
          ∧ ∃ na1, st1 !! self = Some na1 ∧ na_in na1 = na_in na
                   ∧ ksks (na_st na1) = ksks (na_st na)
                   ∧ revoked_keys (na_st na1) = revoked_keys (na_st na)
                   ∧ dnskey_index (na_st na1) = Some idx)
    as (-> & na1 & Hna1 & Hin1 & Hksks1 & Hrevoked1 & Hidx1).
  { revert Hget. unfold get_dnskeys, get_dnskey_index.
    rewrite (proj2 (deref_Ok st self na) Hna). cbn [mbind Result_bind]. unfold idx.
    destruct (dnskey_index (na_st na)) as [idx0|] eqn:Hidx0; intros [= <- <-].
    - split; [done|]. by exists na.
    - split; [done|]. eexists. split; [by rewrite lookup_update, decide_True, Hna by done|].
      done. }
  rewrite (proj2 (deref_Ok st1 self na1) Hna1) in Hrun. cbn [mbind Result_bind] in Hrun.
  rewrite Hidx1 in Hrun. cbn [subscript mbind Result_bind] in Hrun.
  apply bind_Ok in Hrun as ([[idx1 existing] not_signing] & Hloop & [= <-]).
  set (justified := dnskey_error_justified na self trusted_keys idx).
  set (ksks0 := default [] (ksks (na_st na))).
  (* the loop over the keys *)
  assert (dnskey_errors_added justified idx idx1
          ∧ (∀ k, k ∈ existing → ∃ rd, k = dnskey_ref self rd
                                       ∧ is_Some (dict_get rd (_dnskeys idx))
                                       ∧ rd ∈ trusted_keys_rdata)
          ∧ (∀ k, k ∈ not_signing ↔ k ∈ existing ∧ k ∉ ksks0)) as (Hadded & Hexisting & Hnot).
  { revert Hloop.
    apply (forM_invariant (λ acc,
             dnskey_errors_added justified idx acc.1.1
             ∧ (∀ k, k ∈ acc.1.2 → ∃ rd, k = dnskey_ref self rd
                                       ∧ is_Some (dict_get rd (_dnskeys idx))
                                       ∧ rd ∈ trusted_keys_rdata)
             ∧ (∀ k, k ∈ acc.2 ↔ k ∈ acc.1.2 ∧ k ∉ ksks0))).
    - intros k [[idx_a ex_a] ns_a] [[idx_b ex_b] ns_b] Hk (Ha & Hex & Hns) Hstep.
      apply list_elem_of_fmap in Hk as (rd & -> & Hrd%elem_dict_keys). simpl in *.
      apply (dnskey_status_for_dnskey_added justified) in Hstep as (Hb & Hex' & Hns').
      + split_and!.
        * by eapply dnskey_errors_added_trans.
        * intros k [?|[-> ?]]%Hex'; [by auto|]. by exists rd.
        * intros k. rewrite Hns', Hex', Hns. unfold ksks0. rewrite Hksks1. naive_solver.
      + rewrite Hksks1, Hrevoked1. by intros ? ?.
      + rewrite Hin1. by intros ? ? ?.
      + done.
    - simpl. split_and!; [apply dnskey_errors_added_refl|by intros ? ?%elem_of_nil|].
      intros k. rewrite elem_of_nil. tauto. }
  (* every trust anchor among the keys is in [trusted_keys_existing] *)
  assert (∀ rd, is_Some (dict_get rd (_dnskeys idx)) → rd ∈ trusted_keys_rdata →
                dnskey_ref self rd ∈ existing) as Hcomplete.
  { intros rd Hrd Htrusted.
    assert (dnskey_ref self rd ∈ dnskey_ref self <$> dict_keys (_dnskeys idx)) as Hk.
    { apply list_elem_of_fmap. exists rd. split; [done|]. by apply elem_dict_keys. }
    apply (forM_elem _ _ _ _ _ Hk) in Hloop
      as (l1 & l2 & [[idx_a ex_a] ns_a] & [[idx_b ex_b] ns_b] & Hl & _ & Hstep & Hrest).
    apply (dnskey_status_for_dnskey_added (λ _ _, True)) in Hstep as (_ & Hex & _);
      [|done..].
    revert Hrest. apply (forM_invariant (λ acc, dnskey_ref self rd ∈ acc.1.2)).
    - intros k [[idx_c ex_c] ns_c] [[idx_d ex_d] ns_d] Hk' Hc Hstep'.
      assert (k ∈ dnskey_ref self <$> dict_keys (_dnskeys idx)) as Hk''.
      { rewrite Hl. apply elem_of_app. right. by right. }
      apply list_elem_of_fmap in Hk'' as (rd' & -> & _). simpl in *.
      apply (dnskey_status_for_dnskey_added (λ _ _, True)) in Hstep' as (_ & Hex' & _);
        [|done..].
      apply Hex'. by left.
    - simpl. apply Hex. by right. }
  eexists _, _. split; [by rewrite lookup_update, decide_True, Hna1 by done|].
  split; [done|].
  destruct (negb (truthy (difference existing not_signing))) eqn:Hnone;
    [|exact Hadded].
  eapply dnskey_errors_added_trans; [exact Hadded|].
  assert (∀ k, k ∈ existing → k ∉ ksks0) as Hno_ksk.
  { intros k Hk. apply negb_true_iff in Hnone.
    destruct (difference existing not_signing) as [|k0 l] eqn:Hdiff; [|done].
    destruct (decide (k ∈ not_signing)) as [Hin|Hout]; [by apply Hnot in Hin as [_ ?]|].
    assert (k ∈ difference existing not_signing) as Hin
      by (by apply list_elem_of_difference).
    rewrite Hdiff in Hin. by apply elem_of_nil in Hin. }
  apply (foldl_invariant (dnskey_errors_added justified idx1));
    [|apply dnskey_errors_added_refl].
  intros k idx_a Hk Ha. eapply dnskey_errors_added_trans; [exact Ha|].
  apply append_dnskey_error_added.
  apply Hnot in Hk as [Hk Hksk]. destruct (Hexisting k Hk) as (rd & -> & Hrd & Htrusted).
  unfold justified, dnskey_error_justified. cbv zeta. fold ksks0. simpl. split_and!.
  - by apply elem_trusted_keys_rdata.
  - done.
  - intros rd' Hrd' Htrusted'. apply Hno_ksk, Hcomplete; [done|].
    by apply elem_trusted_keys_rdata.
Qed.

Lemma truthy_set_add {A} `{EqDecision A} (x : A) s : truthy (set_add x s) = true.
Proof.
  unfold set_add. case_decide as Hin; [by destruct s; [apply elem_of_nil in Hin|]|].
  by destruct s.
Qed.

Lemma handle_dnskey_records (l : list AnswerRdata) algs algs' :
  forM l (λ dnskey algs, algorithm ← algorithm_of dnskey; Ok (set_add algorithm algs)) algs
  = Ok algs' →
  algs ⊆ algs' ∧ truthy algs' = truthy algs || truthy l.
Proof.
  revert algs. induction l as [|rd l IH]; intros algs; simpl.
  - intros [= <-]. by rewrite orb_false_r.
  - intros (algs1 & (algorithm & _ & [= <-])%bind_Ok & Hrest)%bind_Ok.
    apply IH in Hrest as [Hsub ->]. split.
    + intros x Hx. apply Hsub, elem_set_add. by right.
    + by rewrite truthy_set_add, orb_true_r.
Qed.

Lemma handle_ds_records_spec rrset dnssec_algs digest_algs dnssec_algs' digest_algs' :
  handle_ds_records rrset (dnssec_algs, digest_algs) = Ok (dnssec_algs', digest_algs') →
  dnssec_algs ⊆ dnssec_algs'
  ∧ truthy dnssec_algs' = truthy dnssec_algs || truthy (answer_rdata rrset)
  ∧ ((∀ algorithm digest_type, (algorithm, digest_type) ∈ digest_algs →
                               algorithm ∈ dnssec_algs) →
     ∀ algorithm digest_type, (algorithm, digest_type) ∈ digest_algs' →
                              algorithm ∈ dnssec_algs').
Proof.
  unfold handle_ds_records. generalize (answer_rdata rrset). intros l.
  revert dnssec_algs digest_algs. induction l as [|rd l IH]; intros d g; simpl.
  - intros [= <- <-]. by rewrite orb_false_r.
  - intros ([d1 g1] & Hstep & Hrest)%bind_Ok.
    apply bind_Ok in Hstep as (alg & Halg & Hstep).
    apply bind_Ok in Hstep as (alg' & Halg' & Hstep).
    apply bind_Ok in Hstep as (dt & _ & [= <- <-]).
    assert (alg' = alg) as -> by congruence.
    apply IH in Hrest as (Hsub & -> & Hcons). split_and!.
    + intros x Hx. apply Hsub, elem_set_add. by right.
    + by rewrite truthy_set_add, orb_true_r.
    + intros Hg. apply Hcons. intros x y [[= -> ->]|Hin]%elem_set_add.
      * apply elem_set_add. by left.
      * apply elem_set_add. right. by eapply Hg.
Qed.

Lemma truthy_false_nil {A} (l : list A) : truthy l = false ↔ l = [].
Proof. by destruct l. Qed.

(** X14: what the processing of an answer RRset does to the sets of
    DNSSEC algorithms.  The sets only grow; [_signed] holds after it
    exactly when it held before, or the query was for the name or the DLV
    name of the object and the RRset has the type DNSKEY, DS or DLV and a
    record; and every (algorithm, digest type) pair keeps its algorithm in
    the set of algorithms of its record type. *)
Theorem X14_signed_from_answers rrset qname i a i' a' :
  _process_response_answer_rrset rrset qname (i, a) = Ok (i', a') →
  (dnssec_algorithms_in_dnskey i ⊆ dnssec_algorithms_in_dnskey i'
   ∧ dnssec_algorithms_in_ds i ⊆ dnssec_algorithms_in_ds i'
   ∧ dnssec_algorithms_in_dlv i ⊆ dnssec_algorithms_in_dlv i')
  ∧ (_signed i' = true
     ↔ _signed i = true
       ∨ (Some qname ∈ [Some (na_name i); dlv_name i]
          ∧ answer_rdtype rrset ∈ [rdatatype.DNSKEY; rdatatype.DS; rdatatype.DLV]
          ∧ answer_rdata rrset ≠ []))
  ∧ (digests_consistent i a → digests_consistent i' a').
Proof.
  unfold _process_response_answer_rrset.
  destruct (set_in (Some qname) _) eqn:Hqname.
  2:{ intros [= <- <-]. apply set_in_false in Hqname. split_and!; [done..| |done].
      split; [by left|]. by intros [?|[? _]]. }
  apply set_in_true in Hqname.
  assert (∀ l : list AnswerRdata, l ≠ [] ↔ truthy l = true) as Htruthy.
  { intros [|? ?]; split; done. }
  destruct (decide (answer_rdtype rrset = rdatatype.SOA)) as [Hsoa|Hsoa].
  { intros (a1 & Ha & [= <- <-])%bind_Ok. split_and!; [done..| |].
    - split; [by left|]. intros [?|(_ & Hrd & _)]; [done|]. rewrite Hsoa in Hrd.
      by repeat apply elem_of_cons in Hrd as [?|Hrd]; [..|apply elem_of_nil in Hrd].
    - unfold _handle_soa_response in Ha. apply bind_Ok in Ha as (soa & _ & Ha).
      by destruct (match serial a with Some _ => _ | None => _ end); simplify_eq. }
  destruct (decide (answer_rdtype rrset = rdatatype.DNSKEY)) as [Hdnskey|Hdnskey].
  { intros (i1 & Hi & [= <- <-])%bind_Ok. unfold _handle_dnskey_response in Hi.
    apply bind_Ok in Hi as (algs & [Hsub Halgs]%handle_dnskey_records & [= <-]).
    split_and!; [done..| |done].
    unfold _signed. simpl. rewrite Halgs, !orb_true_iff, Htruthy.
    split; [|by intros [?|(_ & _ & ?)]; tauto].
    intros [[[?|?]|?]|?]; [tauto| |tauto..]. right. split_and!; [done| |done].
    rewrite Hdnskey. left. }
  destruct (set_in (answer_rdtype rrset) _) eqn:Hds.
  2:{ intros [= <- <-]. apply set_in_false in Hds. split_and!; [done..| |done].
      split; [by left|]. intros [?|(_ & Hrd & _)]; [done|].
      apply elem_of_cons in Hrd as [?|Hrd]; [done|]. by apply Hds in Hrd. }
  apply set_in_true in Hds. unfold _handle_ds_response.
  destruct (decide (answer_rdtype rrset = rdatatype.DS)) as [Hrd|Hrd].
  - intros ([d g] & (Hsub & Hd & Hcons)%handle_ds_records_spec & [= <- <-])%bind_Ok.
    split_and!; [done..| |].
    + unfold _signed. simpl. rewrite Hd, !orb_true_iff, Htruthy.
      split; [|by intros [?|(_ & _ & ?)]; tauto].
      intros [[?|[?|?]]|?]; [tauto..| |tauto]. right. split_and!; [done| |done].
      by right.
    + intros [Hc1 Hc2]. split; simpl; [by apply Hcons|]. intros alg dt Hin.
      by eapply Hc2.
  - intros ([d g] & (Hsub & Hd & Hcons)%handle_ds_records_spec & [= <- <-])%bind_Ok.
    split_and!; [done..| |].
    + unfold _signed. simpl. rewrite Hd, !orb_true_iff, Htruthy.
      split; [|by intros [?|(_ & _ & ?)]; tauto].
      intros [[?|?]|[?|?]]; [tauto..|]. right. split_and!; [done| |done].
      by right.
    + intros [Hc1 Hc2]. split; simpl; [|by apply Hcons]. intros alg dt Hin.
      by eapply Hc1.
Qed.

(** X15: after [_handle_soa_response] for a sequence of SOA RRsets the
    serial is at least that of the first record of each of them and at
    least the serial before; [serial], [rname] and [mname] are as before
    or those of the first record of one of the RRsets; an RRset without
    records raises. *)
Theorem X15_soa_serial_highest rrsets a a' :
  forM rrsets _handle_soa_response a = Ok a' →
  (∀ rrset, rrset ∈ rrsets →
     ∃ soa highest, first_soa rrset = Ok soa ∧ serial a' = Some highest
                    ∧ soa_serial soa ≤ highest)
  ∧ (∀ before, serial a = Some before → ∃ highest, serial a' = Some highest ∧ before ≤ highest)
  ∧ ((serial a' = serial a ∧ rname a' = rname a ∧ mname a' = mname a)
     ∨ ∃ rrset soa, rrset ∈ rrsets ∧ first_soa rrset = Ok soa
                    ∧ serial a' = Some (soa_serial soa) ∧ rname a' = Some (soa_rname soa)
                    ∧ mname a' = Some (soa_mname soa))
  ∧ (rrsets ≠ [] → has_soa a' = true).
Proof.
  revert a. induction rrsets as [|rrset rrsets IH]; intros a; simpl.
  { intros [= <-]. split_and!; [by intros ? ?%elem_of_nil| |by left|done].
    intros before Hb. exists before. split; [done|lia]. }
  intros (a1 & Hstep & Hrest)%bind_Ok.
  destruct (IH a1 Hrest) as (Hall & Hmono & Hfrom & Hsoa). clear IH.
  unfold _handle_soa_response in Hstep.
  apply bind_Ok in Hstep as (soa & Hfirst & Hstep).
  assert (∃ s1, serial a1 = Some s1 ∧ soa_serial soa ≤ s1
                ∧ (∀ before, serial a = Some before → before ≤ s1)
                ∧ has_soa a1 = true
                ∧ ((serial a1 = serial a ∧ rname a1 = rname a ∧ mname a1 = mname a)
                   ∨ (serial a1 = Some (soa_serial soa) ∧ rname a1 = Some (soa_rname soa)
                      ∧ mname a1 = Some (soa_mname soa))))
    as (s1 & Hs1 & Hle & Hbefore & Hhas & Hor).
  { destruct (serial a) as [s|] eqn:Hs.
    - case_bool_decide; simplify_eq; simpl.
      + exists (soa_serial soa). split_and!; [done|lia| |done|by right].
        intros ? [= <-]. lia.
      + exists s. split_and!; [done|lia| |done|by left].
        by intros ? [= <-].
    - simplify_eq. simpl. exists (soa_serial soa). split_and!; [done|lia|done|done|by right]. }
  destruct (Hmono s1 Hs1) as (highest & Hhighest & Hle').
  split_and!.
  - intros r [->|Hr]%elem_of_cons; [|by apply Hall].
    exists soa, highest. split_and!; [done..|lia].
  - intros before Hb. exists highest. split; [done|]. specialize (Hbefore before Hb). lia.
  - destruct Hfrom as [(E1 & E2 & E3)|(r & soa' & Hr & ? & ? & ? & ?)].
    + destruct Hor as [(F1 & F2 & F3)|(F1 & F2 & F3)].
      * left. split_and!; congruence.
      * right. exists rrset, soa. split_and!; [left|done|congruence..].
    + right. exists r, soa'. split_and!; [by right|done..].
  - intros _. destruct rrsets as [|r rs]; [simpl in Hrest; by simplify_eq|]. by apply Hsoa.
Qed.

(** * The examples *)

Lemma C7_counterexample :
  get_auth_or_designated_servers
    (example_zone "example.com." (Some "com."%string) [] (example_com_queries []) [] []) = []
  ∧ delegation_status_after (example_run lame_store "example.com." RDTYPES_ALL)
      "example.com." rdatatype.DS = Some Status.DELEGATION_STATUS_BOGUS.
Proof. split; vm_compute; reflexivity. Qed.

(** An NXDOMAIN response to the DS query under a signed parent: the status
    stays BOGUS.  An NXDOMAIN response to the DLV query: no error is
    recorded and the status stays INSECURE. *)
Lemma C6_counterexample :
  (ds_nxdomain_response ∈
     nxdomain_info (example_query 1 "example.com." rdatatype.DS [] [] [ds_nxdomain_response])
   ∧ delegation_status_after
       (example_run (nxdomain_store [8] ["192.0.2.1"%string]
                       [("192.0.2.1"%string, "198.51.100.1"%string)])
          "example.com." RDTYPES_ALL)
       "example.com." rdatatype.DS = Some Status.DELEGATION_STATUS_BOGUS)
  ∧ (dict_get ("example.com.dlv.example."%string, rdatatype.DLV) (queries dlv_zone)
     = Some dlv_query
     ∧ dlv_nxdomain_response ∈ nxdomain_info dlv_query
     ∧ delegation_errors_after
         (_populate_ds_status (H := example_oracles) ready_dlv_store "example.com."
            rdatatype.DLV [8] [2])
         "example.com." rdatatype.DLV = Some []
     ∧ delegation_status_after
         (_populate_ds_status (H := example_oracles) ready_dlv_store "example.com."
            rdatatype.DLV [8] [2])
         "example.com." rdatatype.DLV = Some Status.DELEGATION_STATUS_INSECURE).
Proof.
  split; [split; [left|vm_compute; reflexivity]|].
  split_and!; [reflexivity|left|vm_compute; reflexivity..].
Qed.

Lemma C7_witness :
  ∃ st', _populate_ds_status (H := example_oracles) (ready_nxdomain_store [] [] [])
           "example.com." rdatatype.DS [8] [2] = Ok st'
    ∧ delegation_status_of st' "example.com." rdatatype.DS
      = Some Status.DELEGATION_STATUS_LAME.
Proof.
  eapply (C7_lame_if_insecure (H := example_oracles) _ "example.com." "com." _
            rdatatype.DS "example.com." _ _ _ Status.DELEGATION_STATUS_INSECURE).
  - vm_compute; reflexivity.
  - reflexivity.
  - left. split; reflexivity.
  - reflexivity.
  - reflexivity.
  - vm_compute; reflexivity.
  - vm_compute; reflexivity.
  - left. reflexivity.
Defined.

Lemma C6_witness :
  (∃ st', _populate_ds_status (H := example_oracles)
            (ready_nxdomain_store [] ["192.0.2.1"%string]
               [("192.0.2.1"%string, "198.51.100.1"%string)])
            "example.com." rdatatype.DS [8] [2] = Ok st'
     ∧ delegation_status_of st' "example.com." rdatatype.DS
       = Some Status.DELEGATION_STATUS_INCOMPLETE)
  ∧ (∃ st', _populate_ds_status (H := example_oracles) ready_dlv_store
              "example.com." rdatatype.DLV [8] [2] = Ok st'
       ∧ delegation_errors_of st' "example.com." rdatatype.DLV = Some []
       ∧ delegation_status_of st' "example.com." rdatatype.DLV
         = Some Status.DELEGATION_STATUS_INSECURE).
Proof.
  split.
  - destruct (C6_nxdomain_incomplete_if_insecure (H := example_oracles)
                (ready_nxdomain_store [] ["192.0.2.1"%string]
                   [("192.0.2.1"%string, "198.51.100.1"%string)])
                "example.com." "com."
                {| na_in := example_zone "example.com." (Some "com."%string) []
                              (example_com_queries [ds_nxdomain_response])
                              ["192.0.2.1"%string]
                              [("192.0.2.1"%string, "198.51.100.1"%string)];
                   na_st := ready_state |}
                rdatatype.DS "example.com."
                {| ds_status_by_ds := []; ds_status_by_dnskey := [];
                   delegation_warnings := []; delegation_errors := [];
                   delegation_status := [] |}
                (example_query 1 "example.com." rdatatype.DS [] [] [ds_nxdomain_response])
                empty_ds_state Status.DELEGATION_STATUS_INSECURE [8] [2])
      as (st' & Hrun & Hds & _).
    + vm_compute; reflexivity.
    + reflexivity.
    + left. split; reflexivity.
    + reflexivity.
    + reflexivity.
    + vm_compute; reflexivity.
    + vm_compute; reflexivity.
    + exists st'. split; [exact Hrun|].
      destruct (proj1 (Hds eq_refl) ds_nxdomain_response)
        as (info & _ & _ & _ & _ & _ & Hst); [left|reflexivity|reflexivity|exact Hst].
  - destruct (C6_nxdomain_incomplete_if_insecure (H := example_oracles) ready_dlv_store
                "example.com." "com." {| na_in := dlv_zone; na_st := ready_state |}
                rdatatype.DLV "example.com.dlv.example."
                {| ds_status_by_ds := []; ds_status_by_dnskey := [];
                   delegation_warnings := []; delegation_errors := [];
                   delegation_status := [] |}
                dlv_query empty_ds_state Status.DELEGATION_STATUS_INSECURE [8] [2])
      as (st' & Hrun & _ & Hdlv).
    + vm_compute; reflexivity.
    + reflexivity.
    + right. split; reflexivity.
    + reflexivity.
    + reflexivity.
    + vm_compute; reflexivity.
    + vm_compute; reflexivity.
    + exists st'. split; [exact Hrun|]. exact (Hdlv eq_refl).
Defined.

Lemma C2_witness :
  ∃ st', _populate_rrsig_status (H := example_oracles) (ready_store [signed_zone])
           "example.com." rdatatype.DNSKEY example_dnskey_rrset_info
           (Some "example.com."%string) [8] true = Ok st'
    ∧ store_rrsig_statuses_valid (H := example_oracles) st' "example.com.".
Proof.
  eexists. split; [vm_compute; reflexivity|].
  eapply (proj2 (C2_rrsig_status_only_for_applicable_dnskey (H := example_oracles)
                   (ready_store [signed_zone]) _ "example.com." rdatatype.DNSKEY
                   example_dnskey_rrset_info (Some "example.com."%string) [8] true)).
  - intros na rs [= <-] [= <-] id by_rrsig rrsig by_dnskey dnskey s Hid.
    by apply elem_of_nil in Hid.
  - vm_compute; reflexivity.
Defined.





(** A second call with the other level returns the store as it is; after
    the run for the delegation only no RRset has warnings, and the call for
    every type adds none. *)
Lemma C4_counterexample :
  example_run (example_store [inconsistent_zone a_answer_query]) "example.com."
    RDTYPES_SECURE_DELEGATION = Ok delegation_level_store
  ∧ example_run delegation_level_store "example.com." RDTYPES_ALL = Ok delegation_level_store
  ∧ (na ← delegation_level_store !! "example.com."%string; rs ← rrset_state (na_st na);
     Some (rrset_warnings rs)) = Some []
  ∧ example_run (example_store [inconsistent_zone a_answer_query]) "example.com."
      RDTYPES_ALL = Ok all_level_store
  ∧ example_run all_level_store "example.com." RDTYPES_SECURE_DELEGATION = Ok all_level_store.
Proof. split_and!; vm_compute; reflexivity. Qed.

Lemma C4_witness :
  populate_status (H := example_oracles) 10
    (example_store [inconsistent_zone a_answer_query]) "example.com." [] None None false
    RDTYPES_ALL [] true = Ok all_level_store
  ∧ populate_status (H := example_oracles) 1 all_level_store "example.com." [] (Some [8])
      (Some [2]) true RDTYPES_SECURE_DELEGATION [] false = Ok all_level_store.
Proof.
  split; [vm_compute; reflexivity|].
  apply (C4_populate_status_twice (H := example_oracles) 10 0
           (example_store [inconsistent_zone a_answer_query]) all_level_store "example.com."
           [] [] None None (Some [8]) (Some [2]) false true RDTYPES_ALL
           RDTYPES_SECURE_DELEGATION [] [] true false);
    [apply not_elem_of_nil|apply not_elem_of_nil|vm_compute; reflexivity].
Defined.

(** The parent is signed and no NSEC status exists: with a CNAME RRset as
    the only answer of the DS query the status is INSECURE, in
    [_populate_ds_status] and in a run of [populate_status]; without any
    answer it is BOGUS. *)
Lemma C1_witness :
  _signed (com_zone [8]) = true
  ∧ ds_nsec_status_lists ready_state "example.com." = Ok []
  ∧ (∃ st', _populate_ds_status (H := example_oracles) ready_cname_ds_store
              "example.com." rdatatype.DS [8] [2] = Ok st'
       ∧ delegation_status_of st' "example.com." rdatatype.DS
         = Some Status.DELEGATION_STATUS_INSECURE)
  ∧ delegation_status_after
      (example_run (example_store [com_zone [8]; cname_ds_zone]) "example.com." RDTYPES_ALL)
      "example.com." rdatatype.DS = Some Status.DELEGATION_STATUS_INSECURE
  ∧ delegation_status_after
      (_populate_ds_status (H := example_oracles) ready_unsigned_child_store
         "example.com." rdatatype.DS [8] [2])
      "example.com." rdatatype.DS = Some Status.DELEGATION_STATUS_BOGUS.
Proof.
  split; [reflexivity|]. split; [reflexivity|]. split; [|split; vm_compute; reflexivity].
  destruct (C1_answers_without_ds_resolve_insecure (H := example_oracles)
              ready_cname_ds_store "example.com." "com."
              {| na_in := cname_ds_zone; na_st := ready_state |}
              {| ds_status_by_ds := []; ds_status_by_dnskey := [];
                 delegation_warnings := []; delegation_errors := [];
                 delegation_status := [] |}
              cname_ds_query [8] [2]) as (_ & _ & st' & Hrun & Hstatus & _).
  - vm_compute; reflexivity.
  - reflexivity.
  - reflexivity.
  - reflexivity.
  - discriminate.
  - intros ds_rrset_info [->|[]%elem_of_nil]%elem_of_cons [_ Htype]. discriminate Htype.
  - exists st'. split; [exact Hrun|]. rewrite Hstatus. vm_compute; reflexivity.
Defined.

Lemma C5_witness :
  edns_error (H := example_oracles) (example_store [signed_zone])
    (Some "example.com."%string) edns_ignored_response "192.0.2.1" "198.51.100.1" []
  = Ok ([], Some Errors.EDNSIgnored).
Proof.
  destruct (C5_edns_ignored_or_silent (H := example_oracles) (example_store [signed_zone])
              (Some "example.com."%string) edns_ignored_response "192.0.2.1" "198.51.100.1"
              [] []) as [Hignored _].
  - vm_compute; discriminate.
  - reflexivity.
  - destruct Hignored as [Herr _]; [vm_compute; discriminate|exact Herr].
Defined.

Lemma C10_witness :
  ∃ warnings errors,
    _populate_response_errors (H := example_oracles) (example_store [signed_zone])
      (Some "example.com."%string) edns_ignored_response "192.0.2.1" "198.51.100.1" [] []
    = Ok (warnings, errors)
    ∧ attributed Errors.EDNSIgnored "192.0.2.1" "198.51.100.1" (Some edns_ignored_response)
        errors.
Proof.
  assert (∃ warnings errors,
    _populate_response_errors (H := example_oracles) (example_store [signed_zone])
      (Some "example.com."%string) edns_ignored_response "192.0.2.1" "198.51.100.1" [] []
    = Ok (warnings, errors)) as (warnings & errors & Hrun)
    by (do 2 eexists; vm_compute; reflexivity).
  exists warnings, errors. split; [exact Hrun|].
  destruct (C10_signed_routes_edns_error (H := example_oracles) signed_zone
              (example_store [signed_zone]) (Some "example.com."%string)
              edns_ignored_response "192.0.2.1" "198.51.100.1" [] [])
    as (_ & Hrouted & _).
  - vm_compute; discriminate.
  - destruct (Hrouted [] Errors.EDNSIgnored true) as (_ & _ & _ & Hattributed).
    + vm_compute; reflexivity.
    + reflexivity.
    + vm_compute; reflexivity.
    + exact (proj1 (Hattributed warnings errors Hrun)).
Defined.

(** The zone of the name is signed, the two errors are EDNS errors and no
    invalid-response errors, and both are in [warnings]; [errors] is
    empty. *)
Lemma C10_counterexample :
  zone_test (example_store [signed_zone]) (Some "example.com."%string) _signed = Ok true
  ∧ Errors.InvalidResponseError (Errors.UnsupportedEDNSVersion 0) = false
  ∧ Errors.InvalidResponseError Errors.PMTUExceeded = false
  ∧ _populate_response_errors (H := example_oracles) (example_store [signed_zone])
      (Some "example.com."%string) edns_version_response "192.0.2.1" "198.51.100.1" [] []
    = Ok ([{| err_kind := Errors.UnsupportedEDNSVersion 0;
              err_servers_clients :=
                [(example_server_client, [Some edns_version_response])] |};
           {| err_kind := Errors.PMTUExceeded;
              err_servers_clients :=
                [(example_server_client, [Some edns_version_response])] |}], []).
Proof. split_and!; vm_compute; reflexivity. Qed.

(** With the SOA RRset the computation of the mapping raises KeyError and
    the object is left without component statuses; for the response
    without an SOA RRset the mapping has BOGUS. *)
Lemma C9_witness :
  neg_rdtype dnskey_negative_response_with_soa = rdatatype.DNSKEY
  ∧ response_component_status_of soa_off_graph ready_state
    = Raise KeyError_node_reverse_mapping
  ∧ populate_response_component_status 5 ready_unsigned_child_store "example.com."
      soa_off_graph = Raise KeyError_node_reverse_mapping
  ∧ response_component_status_of example_graph ready_state
    = Ok [(ComponentNegativeResponse dnskey_negative_response,
           Some Status.RRSET_STATUS_BOGUS)].
Proof.
  destruct (C9_soa_off_graph_raises soa_off_graph dnskey_negative_response_with_soa "node"
              soa_of_negative_response) as (Hstep & _ & _); [left|reflexivity|left|reflexivity|].
  assert (response_component_status_of soa_off_graph ready_state
          = Raise KeyError_node_reverse_mapping) as Hraise.
  { unfold response_component_status_of.
    change (node_reverse_mapping soa_off_graph)
      with [(ComponentNegativeResponse dnskey_negative_response_with_soa, "node"%string)].
    cbn [forM]. rewrite Hstep. reflexivity. }
  split; [reflexivity|]. split; [exact Hraise|]. split; [|vm_compute; reflexivity].
  unfold populate_response_component_status.
  change (deref ready_unsigned_child_store "example.com.")
    with (Ok {| na_in := example_zone "example.com." (Some "com."%string) []
                           (example_com_queries []) ["192.0.2.1"%string]
                           [example_server_client];
                na_st := ready_state |}).
  cbn [mbind Result_bind na_st]. rewrite Hraise. reflexivity.
Defined.

Lemma X1_witness :
  _populate_rrsig_status_all (H := example_oracles) (example_store [signed_zone])
    "example.com." [8] RDTYPES_ALL = Ok rrsig_all_store
  ∧ store_rrsig_statuses_valid (H := example_oracles) rrsig_all_store "example.com.".
Proof.
  assert (_populate_rrsig_status_all (H := example_oracles) (example_store [signed_zone])
            "example.com." [8] RDTYPES_ALL = Ok rrsig_all_store) as Hrun
    by (vm_compute; reflexivity).
  split; [exact Hrun|].
  intros na rs Hna Hrs id by_rrsig rrsig by_dnskey dnskey s.
  exact (X1_rrsig_status_all_only_applicable_keys (H := example_oracles)
           (example_store [signed_zone]) "example.com." [8] RDTYPES_ALL rrsig_all_store
           Hrun na rs id by_rrsig rrsig by_dnskey dnskey s Hna Hrs).
Defined.

Lemma X2_witness :
  populated "com." parent_populated_store
  ∧ example_run parent_populated_store "example.com." RDTYPES_ALL = Ok child_populated_store
  ∧ populated "com." child_populated_store.
Proof.
  assert (populated "com." parent_populated_store) as Hparent.
  { exists (default {| na_in := com_zone [8]; na_st := init_state |}
              (parent_populated_store !! "com."%string)).
    split; [vm_compute; reflexivity|]. vm_compute. eexists. reflexivity. }
  split; [exact Hparent|]. split; [vm_compute; reflexivity|].
  apply (X2_populate_status_keeps_populated (H := example_oracles) 10 parent_populated_store
           "com." "example.com." [] None None false RDTYPES_ALL [] true child_populated_store);
    [exact Hparent|vm_compute; reflexivity].
Defined.

Lemma X3_witness :
  populated "example.com." family_populated_store ∧ evaluated "com." family_populated_store.
Proof.
  destruct (X3_populate_status_evaluates_dependencies (H := example_oracles) 10 lame_store
              "example.com."
              {| na_in := example_zone "example.com." (Some "com."%string) []
                            (example_com_queries []) [] [];
                 na_st := init_state |}
              [] None None false RDTYPES_ALL [] true family_populated_store)
    as [Hself Hdeps].
  - apply not_elem_of_nil.
  - vm_compute; reflexivity.
  - reflexivity.
  - reflexivity.
  - vm_compute; reflexivity.
  - split; [exact Hself|]. apply Hdeps; [|apply not_elem_of_nil].
    do 4 right. left. reflexivity.
Defined.

Lemma X4_witness :
  ∃ na' ns,
    result_store (_populate_name_status (H := example_oracles) 5
                    (example_store [inconsistent_zone a_answer_query]) "example.com."
                    RDTYPES_ALL []) !! "example.com."%string = Some na'
    ∧ name_state (na_st na') = Some ns
    ∧ "example.com."%string ∈ yxdomain ns
    ∧ status ns = Status.NAME_STATUS_NOERROR.
Proof.
  destruct (X4_name_status_of_answers (H := example_oracles) 5
              (example_store [inconsistent_zone a_answer_query]) "example.com."
              {| na_in := inconsistent_zone a_answer_query; na_st := init_state |}
              RDTYPES_ALL []
              (result_store (_populate_name_status (H := example_oracles) 5
                               (example_store [inconsistent_zone a_answer_query])
                               "example.com." RDTYPES_ALL [])))
    as (na' & ns & Hna' & Hns & Hanswers & Hnoerror & _).
  - apply not_elem_of_nil.
  - vm_compute; reflexivity.
  - vm_compute; reflexivity.
  - exists na', ns. split; [exact Hna'|]. split; [exact Hns|].
    destruct (Hanswers "example.com."%string rdatatype.A a_answer_query a_rrset_info)
      as [Hyxdomain _]; [left|reflexivity|reflexivity|left|].
    split; [exact Hyxdomain|]. apply Hnoerror. exact Hyxdomain.
Defined.

Lemma X5_witness :
  ∃ na' published,
    result_store (_finalize_key_roles rrsig_all_store "example.com.") !! "example.com."%string
    = Some na'
    ∧ published_keys (na_st na') = Some published
    ∧ dnskey_ref "example.com." example_zsk ∈ published
    ∧ dnskey_ref "example.com." example_ksk ∉ published.
Proof.
  destruct (X5_finalize_key_roles rrsig_all_store "example.com."
              (default {| na_in := signed_zone; na_st := init_state |}
                 (rrsig_all_store !! "example.com."%string))
              (result_store (_finalize_key_roles rrsig_all_store "example.com.")))
    as [_ Hzone].
  - vm_compute; reflexivity.
  - vm_compute; reflexivity.
  - destruct Hzone as (na' & zsks0 & ksks0 & published & revoked & keys & Hna' & _ & Hzsks & _
                       & Hksks & _ & Hpublished & _ & Hin & _); [reflexivity|].
    exists na', published. split; [exact Hna'|]. split; [exact Hpublished|].
    vm_compute in Hzsks, Hksks. injection Hzsks as <-. injection Hksks as <-. split.
    + apply Hin. split; [split; [reflexivity|vm_compute; eexists; reflexivity]|].
      split; [apply not_elem_of_nil|].
      intros Hzsk%list_elem_of_singleton. discriminate Hzsk.
    + intros (_ & _ & Hnot)%Hin. apply Hnot. left.
Defined.

Lemma X8_witness :
  rdtype_excluded (_rdtypes_for_analysis_level (com_zone []) RDTYPES_SECURE_DELEGATION)
    rdatatype.NS = false
  ∧ qname_excluded (com_zone []) RDTYPES_ALL "example.com." = false.
Proof.
  destruct (X8_analysis_levels_nested (com_zone []) RDTYPES_SECURE_DELEGATION
              RDTYPES_DELEGATION "example.com." rdatatype.NS) as (Hrdtype & _ & _);
    [vm_compute; discriminate|reflexivity|].
  destruct (X8_analysis_levels_nested (com_zone []) RDTYPES_ALL RDTYPES_ALL
              "example.com." rdatatype.NS) as (_ & Hqname & _);
    [reflexivity|vm_compute; discriminate|].
  split; [apply Hrdtype; reflexivity|apply Hqname; reflexivity].
Defined.


Lemma X10_witness :
  ∃ na ns,
    nodata_populated_store !! "example.com."%string = Some na
    ∧ nodata_state (na_st na) = Some ns
    ∧ is_Some (dict_get (nodata_a true) (neg_status ns)).
Proof.
  destruct (X10_nodata_status_covers_level (H := example_oracles)
              (ready_store [inconsistent_zone (a_nodata_query true)]) "example.com."
              {| na_in := inconsistent_zone (a_nodata_query true); na_st := ready_state |}
              [8] RDTYPES_ALL nodata_populated_store) as (na & ns & Hna & Hns & Hkeys).
  - vm_compute; reflexivity.
  - vm_compute; reflexivity.
  - exists na, ns. split; [exact Hna|]. split; [exact Hns|].
    apply (Hkeys (nodata_a true)).
    exists "example.com."%string, rdatatype.A, (a_nodata_query true).
    split; [left|]. split; [split; reflexivity|left].
Defined.

Lemma X11_witness :
  ∃ na ns,
    nxdomain_populated_store !! "example.com."%string = Some na
    ∧ nxdomain_state (na_st na) = Some ns
    ∧ is_Some (dict_get nxdomain_aaaa (neg_warnings ns)).
Proof.
  destruct (X11_nxdomain_status_covers_level (H := example_oracles) classified_store
              "example.com."
              {| na_in := inconsistent_zone a_answer_query; na_st := classified_state |}
              [8] RDTYPES_ALL nxdomain_populated_store) as (na & ns & Hna & Hns & Hkeys).
  - reflexivity.
  - vm_compute; reflexivity.
  - exists na, ns. split; [exact Hna|]. split; [exact Hns|].
    apply (Hkeys nxdomain_aaaa).
    exists "example.com."%string, rdatatype.AAAA,
      (example_query 5 "example.com." rdatatype.AAAA [] [] [nxdomain_aaaa]).
    split; [right; left|]. split; [split; reflexivity|left].
Defined.

Lemma X12_witness :
  ∃ d, deleg_state_of delegation_populated_store "example.com." = Some d
       ∧ delegation_definite d rdatatype.DS.
Proof.
  destruct (X12_delegation_status_definite (H := example_oracles) ready_unsigned_child_store
              "example.com."
              {| na_in := example_zone "example.com." (Some "com."%string) []
                            (example_com_queries []) ["192.0.2.1"%string]
                            [example_server_client];
                 na_st := ready_state |}
              [8] [2] delegation_populated_store) as (d & st_ds & Hd & _ & _ & _ & _ & Hzone).
  - vm_compute; reflexivity.
  - vm_compute; reflexivity.
  - exists d. split; [exact Hd|].
    destruct Hzone as [Hds _]; [reflexivity|eexists; reflexivity|exact Hds].
Defined.

Lemma X13_witness :
  ∃ na' idx',
    dnskey_status_store !! "example.com."%string = Some na'
    ∧ dnskey_index (na_st na') = Some idx'
    ∧ _dnskey_sets idx' = _dnskey_sets (_index_dnskeys "example.com." signed_zone).
Proof.
  destruct (X13_dnskey_status_errors (ready_store [signed_zone])
              "example.com." {| na_in := signed_zone; na_st := ready_state |}
              [("example.com."%string, example_ksk)] dnskey_status_store) as [_ Hquery].
  - vm_compute; reflexivity.
  - vm_compute; reflexivity.
  - destruct Hquery as (na' & idx' & Hna' & Hidx' & Hsets & _);
      [vm_compute; eexists; reflexivity|].
    exists na', idx'. split; [exact Hna'|]. split; [exact Hidx'|exact Hsets].
Defined.

(** A DNSKEY answer for the name of an unsigned object makes it signed. *)
Lemma X14_witness :
  ∃ i' a',
    _process_response_answer_rrset
      {| answer_rdtype := rdatatype.DNSKEY; answer_rdata := [AnswerDNSKEY example_ksk] |}
      "example.com."
      (example_zone "example.com." None [] [] [] [],
       {| has_soa := false; serial := None; rname := None; mname := None;
          dnssec_algorithms_digest_in_ds := []; dnssec_algorithms_digest_in_dlv := [] |})
    = Ok (i', a')
    ∧ _signed i' = true.
Proof.
  assert (∃ i' a',
    _process_response_answer_rrset
      {| answer_rdtype := rdatatype.DNSKEY; answer_rdata := [AnswerDNSKEY example_ksk] |}
      "example.com."
      (example_zone "example.com." None [] [] [] [],
       {| has_soa := false; serial := None; rname := None; mname := None;
          dnssec_algorithms_digest_in_ds := []; dnssec_algorithms_digest_in_dlv := [] |})
    = Ok (i', a')) as (i' & a' & Hrun) by (do 2 eexists; vm_compute; reflexivity).
  exists i', a'. split; [exact Hrun|].
  apply (proj1 (proj2 (X14_signed_from_answers _ _ _ _ _ _ Hrun))).
  right. split; [left|]. split; [left|discriminate].
Defined.

(** Two SOA answers, the second with the lower serial. *)
Lemma X15_witness :
  ∃ a' highest,
    forM [{| answer_rdtype := rdatatype.SOA;
             answer_rdata := [AnswerSOA {| soa_serial := 5; soa_rname := "hostmaster";
                                           soa_mname := "ns1" |}] |};
          {| answer_rdtype := rdatatype.SOA;
             answer_rdata := [AnswerSOA {| soa_serial := 3; soa_rname := "hostmaster";
                                           soa_mname := "ns2" |}] |}]
      _handle_soa_response
      {| has_soa := false; serial := None; rname := None; mname := None;
         dnssec_algorithms_digest_in_ds := []; dnssec_algorithms_digest_in_dlv := [] |}
    = Ok a'
    ∧ serial a' = Some highest ∧ 5 ≤ highest.
Proof.
  assert (∃ a',
    forM [{| answer_rdtype := rdatatype.SOA;
             answer_rdata := [AnswerSOA {| soa_serial := 5; soa_rname := "hostmaster";
                                           soa_mname := "ns1" |}] |};
          {| answer_rdtype := rdatatype.SOA;
             answer_rdata := [AnswerSOA {| soa_serial := 3; soa_rname := "hostmaster";
                                           soa_mname := "ns2" |}] |}]
      _handle_soa_response
      {| has_soa := false; serial := None; rname := None; mname := None;
         dnssec_algorithms_digest_in_ds := []; dnssec_algorithms_digest_in_dlv := [] |}
    = Ok a') as (a' & Hrun) by (eexists; vm_compute; reflexivity).
  destruct (X15_soa_serial_highest _ _ _ Hrun) as (Hall & _).
  destruct (Hall {| answer_rdtype := rdatatype.SOA;
                    answer_rdata := [AnswerSOA {| soa_serial := 5; soa_rname := "hostmaster";
                                                  soa_mname := "ns1" |}] |})
    as (soa & highest & Hfirst & Hserial & Hle); [left|].
  exists a', highest. split; [exact Hrun|]. split; [exact Hserial|].
  vm_compute in Hfirst. injection Hfirst as <-. exact Hle.
Defined.
